(* ===== verification/_CoqProject ===== *)
-Q . S2P
Prelude.v
Prog.v
GoStrings.v
Crypto.v
Http.v
Json.v
Fmt.v
NetUrl.v
SqlDB.v
Orm.v
RbacDb.v
RbacService.v
RbacHandlers.v
SqlText.v
Wire.v
RbacTheory.v
BTree.v
BTreeTheory.v
Dispatch.v
DispatchTheory.v
RbacClient.v
RbacClientTheory.v
Registry.v
Lifecycle.v
Backends.v
Stats.v
ManagerDb.v
Cache.v
CacheStore.v
Manager.v
Document.v
DocumentTheory.v
Framework.v
FrameworkTheory.v
ManagerInterfaces.v
ManagerHandlers.v
ManagerSandbox.v
ManagerTheory.v
ManagerRuns.v
SharedObjects.v
Routes.v
DbCache.v
DbCacheTheory.v
Uuid.v
Repeater.v
RepeaterTheory.v
Gateway.v
Requests.v
RequestsTheory.v
Serving.v
Watcher.v
Watch.v
Config.v
Task.v
Distributor.v
TaskDirs.v
Registration.v
DocumentFlow.v
Composition.v
