(* ===== verification/Prelude.v ===== *)
(** * Prelude: a verification of the doodle gateway

    doodle is a gateway for HTTP services: applications call the interfaces of
    services through it. It consists of these processes.
    - The repeater ([src/repeater]) authenticates a call by its token, checks the
      relation between application and interface and the call's variables,
      forwards it to a live instance of the service and keeps statistics.
    - The manager ([src/manager]) is where users maintain services, interfaces,
      variables, applications and the relations between them.
    - The rbac service ([src/rbac], client in [src/util/rbac]) keeps
      applications, users, roles and resources.
    - The distributor ([src/distributor]) compiles and installs services and
      registers the interfaces of running ones with the manager.
    - Service instances announce themselves in etcd ([src/service], [src/meta]).

    ** Files and what they model

    Foundations, shared by all components:
    - [Prelude]: errors, outcomes (return, error, panic), the state monad of
      handlers with [try] (one call and its error branch) and [recover]. [Prog]:
      programs of atomic steps that take turns on a common state, and when such a
      program alone does what a computation of the monad does.
    - [GoStrings], [Fmt], [Json], [NetUrl], [Http], [SqlDB]: what the program uses
      of Go's [strings], [strconv], [fmt], [encoding/json], [net/url],
      [net/http] and [database/sql]. Structs the code reflects on are instances
      of [Struct]. A [World] is a database and the list of statements and
      replies so far; every property about effects is about that list. [Http]
      also has [DecodeRequestValue] of [util/utils.go].
    - [Crypto]: [AesEncrypt] and [AesDecrypt] of [util/utils.go], the varint of
      the tokens. [Cache], [Orm], [Wire]: the parts of the vendored
      [dearcode/crab] that shape the program's behaviour, namely the expiring
      cache, the query builder and the HTTP replies, dispatch and client.
      [CacheStore] is the cache in memory, as entries a map and a list share.
    - [Dispatch]: the routes of an HTTP server ([crab/http/server/handler.go]),
      over the B-tree its prefixes are kept in ([BTree], from [google/btree]),
      with the theories [DispatchTheory] and [BTreeTheory]; [Config]: the ini files of all
      processes ([crab/config], the four [config.go]) and [cmd/sapper].

    The rbac service: [RbacDb] ([rbac/db.go], [rbac/meta/model.go]),
    [RbacService] (the operations), [RbacHandlers] (the handlers and routes),
    [RbacClient] ([util/rbac/rbac.go]); theorems in [RbacTheory] and, for client
    and service together, [RbacClientTheory]. [SqlText] says how the service's
    writing statements read and which rows they touch.

    The repeater: [Registry] ([repeater/backend.go], [service/keepalive.go],
    [meta/app.go]), [Stats] ([repeater/stats.go]), [DbCache]
    ([repeater/cache.go]), [Uuid] ([util/uuid]), [Repeater]
    ([repeater/repeater.go]); theorems in these files, [DbCacheTheory] and
    [RepeaterTheory]. [Backends] is the table of [Registry] as slices in memory,
    which requests read while events change it, [Gateway] the requests between
    the steps of the timer of [stats.go]. [Requests] is a request as a program of
    atomic steps, with its refinement of [ServeHTTP]; [RequestsTheory] and
    [Serving] are the gateway with any number of them at once.

    The manager: [ManagerDb] ([manager/db.go], [model.go], [meta/common.go]),
    [Manager] ([session.go], [admin.go]), [ManagerInterfaces] ([interface.go],
    [variable.go]), [ManagerHandlers] (every other handler, the routes of
    [init.go], the states between requests); theorems in [ManagerTheory] (one
    handler at a time) and [ManagerRuns] (every route, every reachable state),
    with concrete processes for runs in [ManagerSandbox]. [SharedObjects] is two
    of its handlers as programs on the object they share with other requests.

    The distributor: [Watcher] ([distributor/watcher.go], the keys of
    [project.go]), [Task] (compiling and installing, [task.go]) and [Distributor]
    (the requests that start tasks: [distributor.go], [newTask], [deploy.go],
    [project.GET]). [TaskDirs] is a task as steps on the working directory all
    tasks share, with its refinement of [Task] and what happens between tasks.

    Services: [Framework] ([src/service]: [document.go], [router.go], [proxy.go]
    and [Register]) is what a service is built with, with its theory in
    [FrameworkTheory]; [Lifecycle] is how a service starts, announces itself
    over [util/etcd] and ends ([service.go], [keepalive.go]), and its
    announcements are in [Registry]. [Watch] is how the repeater and the distributor
    follow them: [WatchPrefix], the loop of [start] and [load] as goroutines. [Document]
    ([meta/document]) is the document as the platform reads it, with its theory
    in [DocumentTheory].

    Across components: [Registration] follows an interface from the distributor
    into the manager's tables, [DocumentFlow] its fields from the types of the
    service to the manager's variables, [Routes] is what the manager and rbac
    register with the dispatcher, [Composition] runs the manager with the rbac
    service over a loopback and relates the tokens the manager issues to the
    ones the repeater accepts.

    ** How state and operations correspond

    A handler [POST] of a type [t] is the definition [t_POST]; it takes a request
    and runs in the monad [M S] over the state of its process: [World] for rbac,
    [DC] and [Rep] for the repeater, [Mgr] for the manager (database, network,
    session cache, user caches, the handler objects requests share, clock), the
    records [watcher] and [task] for the distributor. Go's
    [if x, err := f(); err != nil { h; return }] is [let? x := f catch e => h in].
    A handler object that requests are decoded into is part of [Mgr], because its
    values survive the request.

    ** Theorems

    - Authorisation: a forwarded call passed every check
      ([ServeHTTP_authorised]), and however the steps of requests interleave, each
      check was made on an answer of the database to the request, or to one that
      shares its entry of the cache, stored less than the timeout before
      ([forwarded_authorised]); rbac routes need a token, and what they write stays
      within its application as long as no text holds a quote
      ([rbac_token_required], [rbac_writes_confined], [name_ends_literal]); the
      manager's checks on sessions, on who adds an interface through
      [POST /interface/] and on the interface of a relation that is added
      ([manager_session_required], [interface_add_authorised],
      [relation_requires_published]), the paths that check nothing
      ([open_routes_ignore_caller], [relation_changed_unchecked]), and that rights
      are read anew for every request of every reachable state
      ([user_rights_always_fresh]).
    - Every request is answered, by the gateway and by the manager with
      whatever path ([ServeHTTP_answers], [manager_answers_everything]), and
      accounted for: while requests interleave ([served_and_counted]) and while
      entries are on their way to the database ([calls_accounted]).
    - A request reads one instance of the table although the table changes
      meanwhile ([request_reads_one_instance]).
    - Refinement: five creations and four changes through the rbac client are the
      operations of the rbac service on what it reads in the URL
      ([creations_refine], [changes_refine], [name_pasted_raw]), an application gets
      the token of its row ([application_gets_its_token]), a service is stored with the rights
      made for it ([service_stored_with_its_rights]), the table of backends is
      the key space of etcd ([registry_refines_etcd]), the cache is a map with
      deadlines ([memory_refines_deadlines]), the servers are their tables of
      routes ([dispatch_reference], [manager_dispatch]) and the B-tree below them is
      a sorted list ([btree_is_sorted_list]), a request and a task in small steps are
      the request and the task at once ([alone_is_ServeHTTP], [alone_is_run_task]).
    - Round trips: tokens, configurations and project keys
      ([config_roundtrip], [sapper_reads_keys]), and documents from the types of a
      service to the rows of the manager ([documented_fields_stored]).
    - Services: that a type is registered and which requests reach its methods
      ([registered_routes]), when
      documenting a type ends ([newField_terminates]) and that taking embedded
      structs apart always does ([merge_terminates]).
    - A service announces itself once it listens and leaves the announcement to its
      lease in the end ([service_lifecycle]); what is
      reported of announcements is handled once and in order until the watch ends,
      which it does for good ([watch_ends_deserted]).
    - Deployments: the identifier of a reply is that of everything the task
      writes, each line of it into the log record inserted last
      ([deployment_tracked]), the build alone decides what is recorded
      ([build_decides_record]), and two at once may use each other's
      directories ([tasks_cross_directories]).
    - Invariants of the table of backends, the watcher and the caches.
    - What the code does not do as meant, each with its run: values an earlier
      request leaves behind, listings of a service the caller may not use because
      another request replaced the one that was checked
      ([listing_crosses_services]), lost projects of registrations, ambiguous cache
      keys, failures recorded as successes and others.

    ** Bounds and fuel

    Loops over data are structural. The retry loop of [DbCache] has the code's
    [maxRetry], 5. The parser of JSON takes two units of fuel per byte and two
    more, which [parse_json_print] shows to be enough for every printed document;
    [format_message] takes the length of its text, [put_uvarint] one unit per
    byte of its buffer and one for the write that fails, number printing one per
    binary digit. [Framework.newField] and [Framework.merge] take the depth of
    their recursion: [merge_terminates] bounds it by the number of fields, and
    [newField_terminates] says for which types there is one, and [registered_routes]
    that [Register] then returns. The recursions of
    [BTree] take the depth of the tree, which [btree_is_sorted_list] shows to be
    enough, and its binary search the length of the node. Integers are [Z] with
    [wrap64] where the code may overflow and range checks where [strconv] and
    [encoding/json] make them.

    ** Parameters

    Code that is not in the repository, or only reached through the network, is a
    class: [SqlEngine] (the database), [BlockCipher] (the AES permutation),
    [Network] (forwarded calls), [Transport] (calls between the processes),
    [Services] (documents of services), [Machine] (processes and ssh), [Host]
    (directories, links and clock of the distributor), [Types] (the structs of a
    service as [reflect] shows them), [Build] (exported comments), [UserCode]
    (the methods of a service), [Regexps] (regular expressions), [Files]
    (static files and profiles), [FileSystem] (configuration files), [Machines] (a
    machine seen from a directory), [Outside] (the listener and [clientv3] of a
    service),
    [EmailPattern] (a regular expression), [MapRange] (the order of Go maps) and
    [MapVisits] (what a loop over one comes to while it changes it),
    [RepeaterEnv], [ManagerNet] and [ManagerEnv] (configuration, clock formats,
    single sign-on, etcd listings). Laws are separate classes or hypotheses with
    an instance that has them.

    ** Not modelled, and the plan

    Flags, logging and the starting of listeners in [cmd], the ssh client, the
    HTML of the document page, profiles and build information are input and
    output only. The handlers of the manager, rbac and the distributor run one
    at a time, those of the repeater at once in [Serving], and listings and new
    roles of the manager among requests for their object in [SharedObjects],
    where decoding a request is one step: data races are
    modelled where the code's locks do not prevent them and it matters ([Uuid],
    the load of [Registry], [TaskDirs]), and so is what goes on beside a request
    and is guarded by a lock only in part ([Backends], [Gateway]). In [Serving]
    requests interleave between all their locks, and everybody else's use of the
    database is arbitrary. An entry of the cache is read there after its lock is
    released, as in the code, but the two words of its value at once; a backend
    found in the table does not change under the request, which [Backends]
    shows. Floating-point options and expressions with keys in registered paths,
    which the program does not have, are left out or a parameter. *)

From Stdlib Require Import ZArith NArith Lia Ascii.
From stdpp Require Export base gmap strings list option.

#[global] Set Warnings "-notation-overridden".
#[global] Open Scope string_scope.
#[global] Open Scope Z_scope.

(** ** Go errors *)

(** An [error] value of the program. [ErrVar pkg name msg] is a package-level
    sentinel created once with [errors.New]; [Errorf msg] is an error built on
    the spot, equal to no sentinel; [Annotatef e msg] is juju's wrapper, which
    keeps the cause. [errors.Trace] adds only a source position and is the
    identity here. *)
Inductive goerror : Type :=
| ErrVar (pkg name msg : string)
| Errorf (msg : string)
| Annotatef (e : goerror) (msg : string).

#[export] Instance goerror_eq_dec : EqDecision goerror.
Proof. solve_decision. Defined.

(** [errors.Cause]. *)
Fixpoint Cause (e : goerror) : goerror :=
  match e with
  | Annotatef e' _ => Cause e'
  | _ => e
  end.

(** [err.Error()]: an annotation is printed in front of what it wraps. *)
Fixpoint Error (e : goerror) : string :=
  match e with
  | ErrVar _ _ msg => msg
  | Errorf msg => msg
  | Annotatef e' msg => if decide (msg = "") then Error e' else msg +:+ ": " +:+ Error e'
  end.

(** ** Outcomes and the state monad of handlers

    A Go function returns, returns an error, or panics. A panic unwinds to the
    nearest [recover]; the state it leaves behind is kept. *)
Inductive outcome (A : Type) : Type :=
| Ret (a : A)
| Throw (e : goerror)
| Panic (msg : string).

Arguments Ret {A} a.
Arguments Throw {A} e.
Arguments Panic {A} msg.

#[export] Instance outcome_eq_dec {A} `{EqDecision A} : EqDecision (outcome A).
Proof. solve_decision. Defined.

#[export] Instance outcome_ret : MRet outcome := λ A a, Ret a.
#[export] Instance outcome_bind : MBind outcome := λ A B f m,
  match m with
  | Ret a => f a
  | Throw e => Throw e
  | Panic p => Panic p
  end.

Definition is_panic {A} (o : outcome A) : bool :=
  match o with Panic _ => true | _ => false end.

(** [M S A]: code that runs in state [S] and has an outcome in [A]. *)
Definition M (S A : Type) : Type := S → outcome A * S.

#[export] Instance M_ret {S} : MRet (M S) := λ A a s, (Ret a, s).
#[export] Instance M_bind {S} : MBind (M S) := λ A B f m s,
  match m s with
  | (Ret a, s') => f a s'
  | (Throw e, s') => (Throw e, s')
  | (Panic p, s') => (Panic p, s')
  end.

Definition throw {S A} (e : goerror) : M S A := λ s, (Throw e, s).
Definition gopanic {S A} (msg : string) : M S A := λ s, (Panic msg, s).
Definition get_state {S} : M S S := λ s, (Ret s, s).
Definition put_state {S} (s' : S) : M S unit := λ _, (Ret tt, s').
Definition modify {S} (f : S → S) : M S unit := λ s, (Ret tt, f s).
Definition lift {S A} (o : outcome A) : M S A := λ s, (o, s).

(** What Go's runtime panics with at a nil pointer. *)
Definition nil_deref : string := "runtime error: invalid memory address or nil pointer dereference".

(** [if x, err := m; err != nil { h(err) } else { k(x) }]. *)
Definition try {S A B} (m : M S A) (h : goerror → M S B) (k : A → M S B) : M S B := λ s,
  match m s with
  | (Ret a, s') => k a s'
  | (Throw e, s') => h e s'
  | (Panic p, s') => (Panic p, s')
  end.

(** [defer func() { if p := recover(); p != nil { h(p) } }()] around [m]. *)
Definition recover {S} (m : M S unit) (h : string → M S unit) : M S unit := λ s,
  match m s with
  | (Panic p, s') => h p s'
  | r => r
  end.

Declare Scope go_scope.
Delimit Scope go_scope with go.

Notation "'let?' x := m 'catch' e => h 'in' k" :=
  (try m (λ e, h) (λ x, k))
  (at level 10, x pattern, e name, m at level 100, h at level 200, k at level 200,
   format "'let?'  x  :=  m  'catch'  e  =>  h  'in' '//' k") : go_scope.

#[global] Open Scope go_scope.

(** ** Fixed-width integers *)

Definition min_int64 : Z := - 2 ^ 63.
Definition max_int64 : Z := 2 ^ 63 - 1.

(** Two's complement wrap-around to 64 bits. *)
Definition wrap64 (z : Z) : Z := (z + 2 ^ 63) mod 2 ^ 64 - 2 ^ 63.

Definition in_int64 (z : Z) : Prop := min_int64 ≤ z ≤ max_int64.

(** ** Automation *)

Create HintDb doodle.

(** Case analysis on the innermost [match] or [if] of a hypothesis or goal,
    discarding the impossible branches. *)
Ltac go_case :=
  match goal with
  | H : context [match ?x with _ => _ end] |- _ =>
      lazymatch x with context [match _ with _ => _ end] => fail | _ => destruct x eqn:? end
  | |- context [match ?x with _ => _ end] =>
      lazymatch x with context [match _ with _ => _ end] => fail | _ => destruct x eqn:? end
  end; simplify_eq/=.

Ltac go_cases := repeat (go_case; try done).

(** Unfold the monad to plain state passing. *)
Ltac unfold_M :=
  unfold mbind, M_bind, mret, M_ret, throw, gopanic, get_state, put_state, modify, lift,
    try, recover in *; simpl in *.

(** ** Generic lemmas *)

Lemma wrap64_id z : in_int64 z → wrap64 z = z.
Proof. unfold in_int64, min_int64, max_int64, wrap64. intros. rewrite Z.mod_small; lia. Qed.

Lemma wrap64_range z : in_int64 (wrap64 z).
Proof.
  unfold in_int64, min_int64, max_int64, wrap64.
  pose proof (Z.mod_pos_bound (z + 2 ^ 63) (2 ^ 64)). lia.
Qed.

Lemma wrap64_add_l a b : wrap64 (wrap64 a + b) = wrap64 (a + b).
Proof.
  unfold wrap64. f_equal.
  replace ((a + 2 ^ 63) mod 2 ^ 64 - 2 ^ 63 + b + 2 ^ 63)
    with ((a + 2 ^ 63) mod 2 ^ 64 + b) by lia.
  rewrite Zplus_mod_idemp_l. f_equal. lia.
Qed.

#[export] Hint Resolve wrap64_id wrap64_range : doodle.
#[export] Hint Rewrite wrap64_add_l : doodle.

Lemma try_ret {S A B} (m : M S A) (h : goerror → M S B) k s a s' :
  m s = (Ret a, s') → try m h k s = k a s'.
Proof. unfold try. by intros ->. Qed.

Lemma try_throw {S A B} (m : M S A) (h : goerror → M S B) k s e s' :
  m s = (Throw e, s') → try m h k s = h e s'.
Proof. unfold try. by intros ->. Qed.

Lemma try_panic {S A B} (m : M S A) (h : goerror → M S B) k s p s' :
  m s = (Panic p, s') → try m h k s = (Panic p, s').
Proof. unfold try. by intros ->. Qed.

(** [Cause] ignores annotations, so a caller that tests the cause sees the
    sentinel through any number of wrappers. *)
Lemma Cause_idemp e : Cause (Cause e) = Cause e.
Proof. by induction e. Qed.
