(* ===== verification/Prog.v ===== *)
(** * Prog: programs of atomic steps

    What goroutines do between two points where others may run: a program is a
    tree of steps, each with what follows its outcome; errors and panics are
    outcomes like any other. A handler runs the steps; programs run alone, or take
    turns on a common state. *)

From stdpp Require Import base list.
From S2P Require Import Prelude.

Inductive program (E : Type → Type) (A : Type) : Type :=
| Done (o : outcome A)
| Act {B : Type} (a : E B) (k : outcome B → program E A).
Arguments Done {E A} o.
Arguments Act {E A B} a k.

Section programs.
Context {E : Type → Type}.

Definition perform {A} (a : E A) : program E A := Act a Done.

#[export] Instance program_ret : MRet (program E) := λ A a, Done (Ret a).

Fixpoint and_then {A B} (f : outcome A → program E B) (p : program E A) : program E B :=
  match p with
  | Done o => f o
  | Act a k => Act a (λ o, and_then f (k o))
  end.

#[export] Instance program_bind : MBind (program E) := λ A B f p,
  and_then (λ o, match o with Ret a => f a | Throw e => Done (Throw e) | Panic m => Done (Panic m) end) p.

(** [if x, err := p; err != nil { h } else { k }]. *)
Definition prog_try {A B} (p : program E A) (h : goerror → program E B) (k : A → program E B) : program E B :=
  and_then (λ o, match o with Ret a => k a | Throw e => h e | Panic m => Done (Panic m) end) p.

(** A [defer] that recovers. *)
Definition prog_recover (p : program E unit) (h : string → program E unit) : program E unit :=
  and_then (λ o, match o with Panic msg => h msg | o => Done o end) p.

(** ** Running *)

Section running.
Context {S : Type} (step : ∀ A, E A → M S A).

(** A program with nothing in between. *)
Fixpoint run_program {A} (p : program E A) : M S A :=
  match p with
  | Done o => λ s, (o, s)
  | Act a k => λ s, let '(o, s') := step _ a s in run_program (k o) s'
  end.

Lemma run_and_then {A B} (f : outcome A → program E B) p s :
  run_program (and_then f p) s = let '(o, s') := run_program p s in run_program (f o) s'.
Proof.
  revert s. induction p as [o|C a k IH]; intros s; [done|]. cbn [and_then run_program].
  destruct (step _ a s) as [o s']. apply IH.
Qed.

(** The next step of one of several programs. *)
Definition take_turn (ps : list (program E unit) * S) (i : nat) : list (program E unit) * S :=
  match @lookup nat (program E unit) _ _ i (fst ps) with
  | Some (Act a k) => let '(o, s') := step _ a (snd ps) in (<[i := k o]> (fst ps), s')
  | _ => ps
  end.

Definition take_turns (turns : list nat) (ps : list (program E unit) * S) : list (program E unit) * S :=
  foldl take_turn ps turns.

Lemma turn_act {B} ps i (a : E B) k o s s' :
  ps !! i = Some (Act a k) → step _ a s = (o, s') → take_turn (ps, s) i = (<[i := k o]> ps, s').
Proof. intros Hi Ha. unfold take_turn. change (fst (ps, s)) with ps. rewrite Hi. cbn [snd]. by rewrite Ha. Qed.

(** ** A program alone against a computation *)

Section simulation.
Context {T : Type} (R : S → T → Prop).

(** From related states they come to the same, in related states. *)
Definition simulates {A} (p : program E A) (m : M T A) : Prop := ∀ s t, R s t →
  let '(o, s') := run_program p s in let '(o', t') := m t in o = o' ∧ R s' t'.

Lemma simulates_bind {A B} (p : program E A) (m : M T A) (f : A → program E B) g :
  simulates p m → (∀ a, simulates (f a) (g a)) → simulates (p ≫= f) (m ≫= g).
Proof.
  intros Hp Hf s t Hs. unfold mbind, program_bind, M_bind. rewrite run_and_then.
  specialize (Hp s t Hs). destruct (run_program p s) as [o s'], (m t) as [o' t']. destruct Hp as [-> Hs'].
  destruct o' as [a|e|msg]; [by apply Hf|done..].
Qed.

Lemma simulates_try {A B} (p : program E A) (m : M T A) (h : goerror → program E B) h' (f : A → program E B) g :
  simulates p m → (∀ e, simulates (h e) (h' e)) → (∀ a, simulates (f a) (g a)) →
  simulates (prog_try p h f) (try m h' g).
Proof.
  intros Hp Hh Hf s t Hs. unfold prog_try, try. rewrite run_and_then.
  specialize (Hp s t Hs). destruct (run_program p s) as [o s'], (m t) as [o' t']. destruct Hp as [-> Hs'].
  destruct o' as [a|e|msg]; [by apply Hf|by apply Hh|done].
Qed.

Lemma simulates_done {A} (o : outcome A) : simulates (Done o) (lift o).
Proof. by intros s t Hs. Qed.

Lemma simulates_ret {A} (a : A) : simulates (mret a) (mret a).
Proof. by intros s t Hs. Qed.

Lemma simulates_throw {A} e : simulates (A:=A) (Done (Throw e)) (throw e).
Proof. by intros s t Hs. Qed.

Lemma simulates_panic {A} m : simulates (A:=A) (Done (Panic m)) (gopanic m).
Proof. by intros s t Hs. Qed.

Lemma simulates_ext {A} (p : program E A) (m m' : M T A) : (∀ t, m t = m' t) → simulates p m → simulates p m'.
Proof. intros He Hp s t Hs. rewrite <-He. by apply Hp. Qed.

Lemma simulates_recover (p : program E unit) (m : M T unit) (h : string → program E unit) h' :
  simulates p m → (∀ e, simulates (h e) (h' e)) → simulates (prog_recover p h) (recover m h').
Proof.
  intros Hp Hh s t Hs. unfold prog_recover, recover. rewrite run_and_then.
  specialize (Hp s t Hs). destruct (run_program p s) as [o s'], (m t) as [o' t']. destruct Hp as [-> Hs'].
  destruct o' as [a|e|msg]; [done|done|by apply Hh].
Qed.
End simulation.
End running.
End programs.

Arguments simulates_bind {E S step T} R {A B}.
Arguments simulates_try {E S step T} R {A B}.
Arguments simulates_done {E S step T} R {A}.
Arguments simulates_ret {E S step T} R {A}.
Arguments simulates_throw {E S step T} R {A}.
Arguments simulates_panic {E S step T} R {A}.
Arguments simulates_ext {E S step T} R {A}.
Arguments simulates_recover {E S step T} R.
