(* ===== verification/GoStrings.v ===== *)
(** * GoStrings: the parts of Go's [strings], [strconv] and [fmt] the program uses

    Go strings are byte strings: a [string] of [ascii] here. Separators are
    single bytes, which is how every call of the program uses [Split], [Join]
    and [LastIndex]. Numbers are printed and parsed in base 10 and base 16. *)

From Stdlib Require Import ZArith NArith Lia Ascii.
From stdpp Require Import base gmap strings list.
From S2P Require Import Prelude.

(** ** Splitting and joining *)

(** [strings.Split(s, c)]: always at least one part. *)
Fixpoint Split (c : ascii) (s : string) : list string :=
  match s with
  | EmptyString => [""]
  | String a r =>
      if decide (a = c) then "" :: Split c r
      else match Split c r with
           | h :: t => String a h :: t
           | [] => [String a ""]
           end
  end.

(** [strings.Join(l, c)]. *)
Fixpoint Join (c : ascii) (l : list string) : string :=
  match l with
  | [] => ""
  | [x] => x
  | x :: r => x +:+ String c (Join c r)
  end.

Fixpoint byte_in (c : ascii) (s : string) : bool :=
  match s with
  | EmptyString => false
  | String a r => bool_decide (a = c) || byte_in c r
  end.

(** [strings.HasPrefix] and [strings.TrimPrefix]. *)
Fixpoint HasPrefix (s p : string) : bool :=
  match p, s with
  | EmptyString, _ => true
  | String _ _, EmptyString => false
  | String a p', String b s' => bool_decide (a = b) && HasPrefix s' p'
  end.

Fixpoint drop_bytes (n : nat) (s : string) : string :=
  match n, s with
  | O, _ => s
  | S n', String _ r => drop_bytes n' r
  | S _, EmptyString => ""
  end.

Fixpoint take_bytes (n : nat) (s : string) : string :=
  match n, s with
  | O, _ => ""
  | S n', String a r => String a (take_bytes n' r)
  | S _, EmptyString => ""
  end.

Definition TrimPrefix (s p : string) : string :=
  if HasPrefix s p then drop_bytes (String.length p) s else s.

Definition len (s : string) : Z := Z.of_nat (String.length s).

(** The slice expression [s[i:j]], which panics out of range. *)
Definition slice (s : string) (i j : Z) : outcome string :=
  if decide (0 ≤ i ≤ j ∧ j ≤ len s)
  then Ret (take_bytes (Z.to_nat (j - i)) (drop_bytes (Z.to_nat i) s))
  else Panic "runtime error: slice bounds out of range".

(** [s[i:]]. *)
Definition slice_from (s : string) (i : Z) : outcome string := slice s i (len s).

(** [strings.Index(s, sub)], -1 when absent. *)
Fixpoint index_from (n : Z) (s sub : string) : Z :=
  if HasPrefix s sub then n
  else match s with
       | EmptyString => -1
       | String _ r => index_from (n + 1) r sub
       end.

Definition Index (s sub : string) : Z := index_from 0 s sub.
Definition Contains (s sub : string) : bool := bool_decide (0 ≤ Index s sub).

(** [strings.Compare], byte by byte. *)
Fixpoint Compare (a b : string) : Z :=
  match a, b with
  | EmptyString, EmptyString => 0
  | EmptyString, _ => -1
  | _, EmptyString => 1
  | String x a', String y b' =>
      if decide (x = y) then Compare a' b' else if decide (nat_of_ascii x < nat_of_ascii y)%nat then -1 else 1
  end.

(** [strings.LastIndex(s, c)] for a one-byte [c], -1 when absent. *)
Fixpoint last_index_from (n acc : Z) (s : string) (c : ascii) : Z :=
  match s with
  | EmptyString => acc
  | String a r => last_index_from (n + 1) (if decide (a = c) then n else acc) r c
  end.

Definition LastIndex (s : string) (c : ascii) : Z := last_index_from 0 (-1) s c.

Fixpoint rev_string (s acc : string) : string :=
  match s with
  | EmptyString => acc
  | String a r => rev_string r (String a acc)
  end.

Definition HasSuffix (s p : string) : bool := HasPrefix (rev_string s "") (rev_string p "").

(** [strings.Repeat]. *)
Fixpoint Repeat (s : string) (n : nat) : string :=
  match n with
  | O => ""
  | S n' => s +:+ Repeat s n'
  end.

Definition upper_byte (a : ascii) : ascii :=
  let n := N_of_ascii a in
  if decide (97 ≤ n ≤ 122)%N then ascii_of_N (n - 32) else a.

(** [strings.ToUpper] and [strings.ToLower] on ASCII text. *)
Fixpoint ToUpper (s : string) : string :=
  match s with
  | EmptyString => ""
  | String a r => String (upper_byte a) (ToUpper r)
  end.

Definition lower_byte (a : ascii) : ascii :=
  let n := N_of_ascii a in
  if decide (65 ≤ n ≤ 90)%N then ascii_of_N (n + 32) else a.

Fixpoint ToLower (s : string) : string :=
  match s with
  | EmptyString => ""
  | String a r => String (lower_byte a) (ToLower r)
  end.

Definition is_space (a : ascii) : bool :=
  bool_decide (N_of_ascii a ∈ [32; 9; 10; 11; 12; 13]%N).

Fixpoint trim_left (s : string) : string :=
  match s with
  | EmptyString => ""
  | String a r => if is_space a then trim_left r else s
  end.

(** [strings.TrimSpace]. *)
Definition TrimSpace (s : string) : string :=
  rev_string (trim_left (rev_string (trim_left s) "")) "".

(** ** Printing numbers *)

Definition digit_char (d : N) : ascii :=
  ascii_of_N (if decide (d < 10)%N then 48 + d else 87 + d).

Fixpoint render_digits (fuel : nat) (base n : N) (acc : string) : string :=
  match fuel with
  | O => acc
  | S f =>
      let acc' := String (digit_char (n mod base)) acc in
      if decide (n < base)%N then acc' else render_digits f base (n / base) acc'
  end.

(** One digit per bit is always enough. *)
Definition render_N (base n : N) : string := render_digits (S (N.to_nat (N.log2 n))) base n "".

Definition render_Z (base : N) (z : Z) : string :=
  if decide (z < 0) then String "-" (render_N base (Z.to_N (- z)))
  else render_N base (Z.to_N z).

(** [%d] (and [%v] of an integer), [%x]. *)
Definition itoa (z : Z) : string := render_Z 10 z.
Definition hex (z : Z) : string := render_Z 16 z.

(** ** Parsing numbers *)

Definition digit_raw (a : ascii) : option N :=
  let n := N_of_ascii a in
  if decide (48 ≤ n ≤ 57)%N then Some (n - 48)%N
  else if decide (97 ≤ n ≤ 122)%N then Some (n - 87)%N
  else if decide (65 ≤ n ≤ 90)%N then Some (n - 55)%N
  else None.

Definition digit_val (base : N) (a : ascii) : option N :=
  match digit_raw a with
  | Some v => if decide (v < base)%N then Some v else None
  | None => None
  end.

Fixpoint parse_digits (base : N) (s : string) (acc : N) : option N :=
  match s with
  | EmptyString => Some acc
  | String a r =>
      match digit_val base a with
      | Some d => parse_digits base r (acc * base + d)%N
      | None => None
      end
  end.

Definition syntax_error (s : string) : goerror :=
  Errorf ("strconv.ParseInt: parsing " +:+ s +:+ ": invalid syntax").
Definition range_error (s : string) : goerror :=
  Errorf ("strconv.ParseInt: parsing " +:+ s +:+ ": value out of range").

(** An optional sign: whether it is a minus, and what follows it. *)
Definition split_sign (s : string) : bool * string :=
  match s with
  | String "-" r => (true, r)
  | String "+" r => (false, r)
  | _ => (false, s)
  end.

(** [strconv.ParseInt(s, base, 64)]: the value together with the error; the
    value is 0 on a syntax error and the nearest bound on a range error. *)
Definition ParseInt (s : string) (base : N) : Z * option goerror :=
  let '(neg, ds) := split_sign s in
  match ds with
  | EmptyString => (0, Some (syntax_error s))
  | _ =>
      match parse_digits base ds 0 with
      | None => (0, Some (syntax_error s))
      | Some n =>
          let z := if neg : bool then - Z.of_N n else Z.of_N n in
          if decide (z < min_int64) then (min_int64, Some (range_error s))
          else if decide (max_int64 < z) then (max_int64, Some (range_error s))
          else (z, None)
      end
  end.

(** [strconv.Atoi] on a 64-bit platform. *)
Definition Atoi (s : string) : Z * option goerror := ParseInt s 10.

(** The longest prefix of base-16 digits, and the rest. *)
Fixpoint hex_prefix (s : string) : string * string :=
  match s with
  | EmptyString => ("", "")
  | String a r =>
      match digit_val 16 a with
      | Some _ => let '(h, t) := hex_prefix r in (String a h, t)
      | None => ("", s)
      end
  end.

(** [fmt.Sscanf(s, "%x.", &id)] for an [int64]: spaces, an optional sign, hex
    digits, then a literal dot. What follows the dot is not read. *)
Definition Sscanf_hex_dot (s : string) : outcome Z :=
  let s := trim_left s in
  let '(neg, r) := split_sign s in
  let '(ds, rest) := hex_prefix r in
  match ds with
  | EmptyString => Throw (Errorf "expected integer")
  | _ =>
      match ParseInt ((if neg : bool then "-" else "") +:+ ds) 16 with
      | (id, None) =>
          match rest with
          | String "." _ => Ret id
          | _ => Throw (Errorf "input does not match format")
          end
      | (_, Some e) => Throw e
      end
  end.

(** ** Lemmas on concatenation and bytes *)

Lemma str_app_nil_r (s : string) : s +:+ "" = s.
Proof. induction s as [|a r IH]; [done|]. change (String a (r +:+ "") = String a r). by rewrite IH. Qed.

Lemma str_app_assoc (a b c : string) : a +:+ (b +:+ c) = (a +:+ b) +:+ c.
Proof.
  induction a as [|x r IH]; [done|].
  change (String x (r +:+ (b +:+ c)) = String x ((r +:+ b) +:+ c)). by rewrite IH.
Qed.

Lemma str_app_cons x (a b : string) : String x a +:+ b = String x (a +:+ b).
Proof. done. Qed.

Lemma length_str_app (a b : string) :
  String.length (a +:+ b) = (String.length a + String.length b)%nat.
Proof. induction a as [|x r IH]; [done|]. rewrite str_app_cons. simpl. by rewrite IH. Qed.

Lemma len_nonneg s : 0 ≤ len s.
Proof. unfold len. lia. Qed.

Lemma len_app a b : len (a +:+ b) = len a + len b.
Proof. unfold len. rewrite length_str_app. lia. Qed.

Lemma byte_in_app c a b : byte_in c (a +:+ b) = byte_in c a || byte_in c b.
Proof.
  induction a as [|x r IH]; [done|]. rewrite str_app_cons. simpl.
  rewrite IH. by destruct (bool_decide _), (byte_in c r).
Qed.

Lemma drop_bytes_app a b : drop_bytes (String.length a) (a +:+ b) = b.
Proof. induction a as [|x r IH]; [by destruct b|]. rewrite str_app_cons. simpl. done. Qed.

Lemma take_bytes_app a b : take_bytes (String.length a) (a +:+ b) = a.
Proof. induction a as [|x r IH]; [by destruct b|]. rewrite str_app_cons. simpl. by rewrite IH. Qed.

Lemma take_bytes_all s : take_bytes (String.length s) s = s.
Proof. rewrite <- (str_app_nil_r s) at 2. apply take_bytes_app. Qed.

Lemma HasPrefix_app p s : HasPrefix (p +:+ s) p = true.
Proof.
  induction p as [|a r IH]; [by destruct s|]. rewrite str_app_cons. simpl.
  rewrite bool_decide_eq_true_2 by done. by rewrite IH.
Qed.

Lemma TrimPrefix_app p s : TrimPrefix (p +:+ s) p = s.
Proof. unfold TrimPrefix. rewrite HasPrefix_app. apply drop_bytes_app. Qed.

(** [(a ++ b)[len(a):]] is [b], and [(a ++ b)[:len(a)]] is [a]. *)
Lemma slice_from_app a b : slice_from (a +:+ b) (len a) = Ret b.
Proof.
  unfold slice_from, slice. pose proof (len_nonneg a). pose proof (len_nonneg b).
  rewrite len_app. rewrite decide_True by lia. f_equal.
  replace (Z.to_nat (len a)) with (String.length a) by (unfold len; lia).
  rewrite drop_bytes_app.
  replace (Z.to_nat _) with (String.length b) by (unfold len; lia). apply take_bytes_all.
Qed.

Lemma slice_from_no_throw s i e : slice_from s i ≠ Throw e.
Proof. unfold slice_from, slice. by destruct (decide _). Qed.


Lemma slice_to_app a b : slice (a +:+ b) 0 (len a) = Ret a.
Proof.
  unfold slice. pose proof (len_nonneg a). pose proof (len_nonneg b).
  rewrite len_app. rewrite decide_True by lia. f_equal. simpl.
  replace (Z.to_nat _) with (String.length a) by (unfold len; lia).
  destruct a; [by destruct b|]. apply take_bytes_app.
Qed.

(** ** Lemmas on splitting and joining *)

Lemma Split_cons c s : ∃ h t, Split c s = h :: t.
Proof.
  destruct s as [|a r]; simpl; [by eexists _, _|].
  destruct (decide (a = c)); [by eexists _, _|].
  destruct (Split c r); by eexists _, _.
Qed.

Lemma Split_nosep c s : byte_in c s = false → Split c s = [s].
Proof.
  induction s as [|a r IH]; [done|]. simpl.
  intros [Ha Hr]%orb_false_elim. apply bool_decide_eq_false in Ha.
  rewrite decide_False by done. by rewrite (IH Hr).
Qed.

Lemma Split_app c a b : Split c (a +:+ String c b) = (Split c a ++ Split c b)%list.
Proof.
  induction a as [|x r IH].
  - simpl. by rewrite decide_True.
  - rewrite str_app_cons. simpl. rewrite IH. destruct (decide (x = c)); [done|].
    destruct (Split_cons c r) as (h & t & ->). done.
Qed.

Lemma Join_cons c x y l : Join c (x :: y :: l) = x +:+ String c (Join c (y :: l)).
Proof. done. Qed.

Lemma Join_Split c s : Join c (Split c s) = s.
Proof.
  induction s as [|a r IH]; [done|]. simpl.
  destruct (Split_cons c r) as (h & t & Hs). rewrite Hs in IH |- *.
  destruct (decide (a = c)) as [->|].
  - rewrite Join_cons. by rewrite IH.
  - destruct t as [|y t]; simpl in IH |- *; [by rewrite IH|].
    by rewrite <- IH.
Qed.

(** ** Lemmas on numbers *)

Lemma digit_val_char base d :
  (d < base)%N → (base ≤ 16)%N → digit_val base (digit_char d) = Some d.
Proof.
  intros Hd Hb. assert (Hl : (d < 16)%N) by lia.
  assert (Hv : digit_raw (digit_char d) = Some d).
  { rewrite <- (N2Nat.id d). assert (Hn : (N.to_nat d < 16)%nat) by lia. revert Hn. clear.
    generalize (N.to_nat d). intros n Hn. do 16 (destruct n as [|n]; [done|]). lia. }
  unfold digit_val. rewrite Hv. by rewrite decide_True.
Qed.

Lemma log2_div n base :
  (2 ≤ base)%N → (base ≤ n)%N → (N.log2 (n / base) < N.log2 n)%N.
Proof.
  intros Hb Hn.
  assert (Hd : (1 ≤ n / base)%N) by (apply N.div_le_lower_bound; lia).
  apply N.log2_lt_pow2; [lia|].
  destruct (N.log2_spec n ltac:(lia)) as [_ Hs]. rewrite N.pow_succ_r' in Hs.
  apply N.Div0.div_lt_upper_bound. nia.
Qed.

Lemma parse_render_digits fuel base n acc s :
  (2 ≤ base ≤ 16)%N → (N.to_nat (N.log2 n) < fuel)%nat →
  parse_digits base (render_digits fuel base n s) acc
  = parse_digits base s (acc * base ^ N.of_nat (String.length (render_digits fuel base n s) - String.length s) + n)%N
  ∧ (String.length s < String.length (render_digits fuel base n s))%nat.
Proof.
  intros Hb. revert n acc s. induction fuel as [|f IH]; [lia|]. intros n acc s Hf. simpl.
  assert (Hm : (n mod base < base)%N) by (apply N.mod_lt; lia).
  case_decide as Hn.
  - simpl. rewrite digit_val_char by lia. rewrite N.mod_small by done.
    replace (S (String.length s) - String.length s)%nat with 1%nat by lia.
    rewrite N.pow_1_r. split; [done|lia].
  - assert (Hsz := log2_div n base ltac:(lia) ltac:(lia)).
    destruct (IH (n / base)%N acc (String (digit_char (n mod base)) s) ltac:(lia)) as [-> Hlen].
    simpl in *. split; [|lia]. rewrite digit_val_char by lia. f_equal.
    set (L := String.length (render_digits f base (n / base) (String (digit_char (n mod base)) s))) in *.
    replace (L - String.length s)%nat with (S (L - S (String.length s))) by lia.
    rewrite Nat2N.inj_succ, N.pow_succ_r'.
    pose proof (N.div_mod n base ltac:(lia)). nia.
Qed.

Lemma parse_render base n : (2 ≤ base ≤ 16)%N → parse_digits base (render_N base n) 0 = Some n.
Proof.
  intros Hb. unfold render_N.
  destruct (parse_render_digits (S (N.to_nat (N.log2 n))) base n 0 "" Hb ltac:(lia)) as [-> _].
  simpl. f_equal; lia.
Qed.

(** Every byte of a printed number is a digit of the base. *)
Fixpoint all_digits (base : N) (s : string) : bool :=
  match s with
  | EmptyString => true
  | String a r => bool_decide (is_Some (digit_val base a)) && all_digits base r
  end.

Lemma all_digits_render fuel base n s :
  (2 ≤ base ≤ 16)%N → all_digits base s = true →
  all_digits base (render_digits fuel base n s) = true.
Proof.
  intros Hb. revert n s. induction fuel as [|f IH]; [done|]. intros n s Hs. simpl.
  assert (Hd : all_digits base (String (digit_char (n mod base)) s) = true).
  { simpl. rewrite digit_val_char by (try apply N.mod_lt; lia).
    rewrite bool_decide_eq_true_2 by eauto. done. }
  case_decide; [done|]. by apply IH.
Qed.

Lemma all_digits_no_byte base s c :
  all_digits base s = true → digit_val base c = None → byte_in c s = false.
Proof.
  induction s as [|a r IH]; [done|]. simpl. intros [Ha Hr]%andb_prop Hc.
  apply bool_decide_eq_true in Ha. rewrite IH by done.
  rewrite bool_decide_eq_false_2; [done|]. intros ->. rewrite Hc in Ha. by destruct Ha.
Qed.

Lemma render_N_nonempty base n : ∃ a r, render_N base n = String a r.
Proof.
  unfold render_N. cut (∀ fuel m s, (fuel ≠ 0)%nat ∨ s ≠ "" →
    ∃ a r, render_digits fuel base m s = String a r).
  { intros H. apply H. by left. }
  induction fuel as [|f IH]; intros m s [H|H]; simpl; try done.
  - destruct s; [done|]. by eexists _, _.
  - case_decide; [by eexists _, _|]. apply IH. by right.
  - case_decide; [by eexists _, _|]. apply IH. by right.
Qed.

Lemma render_Z_no_byte base z c :
  (2 ≤ base ≤ 16)%N → digit_val base c = None → c ≠ "-"%char → byte_in c (render_Z base z) = false.
Proof.
  intros Hb Hc Hm. unfold render_Z.
  assert (Hn : ∀ n, byte_in c (render_N base n) = false).
  { intros n. apply (all_digits_no_byte base); [|done]. by apply all_digits_render. }
  case_decide; simpl; rewrite Hn; [|done]. rewrite bool_decide_eq_false_2; [done|congruence].
Qed.

Lemma split_sign_digit base a r :
  is_Some (digit_val base a) → split_sign (String a r) = (false, String a r).
Proof.
  intros [v Hv]. destruct a as [[] [] [] [] [] [] [] []]; try done; exfalso; by destruct base.
Qed.

Lemma render_N_digit base n :
  (2 ≤ base ≤ 16)%N → ∃ a r, render_N base n = String a r ∧ is_Some (digit_val base a).
Proof.
  intros Hb. destruct (render_N_nonempty base n) as (a & r & E). exists a, r. split; [done|].
  assert (Hd : all_digits base (render_N base n) = true) by (by apply all_digits_render).
  rewrite E in Hd. simpl in Hd. apply andb_prop in Hd as [Hd _]. by apply bool_decide_eq_true in Hd.
Qed.

Lemma ParseInt_render base z :
  (2 ≤ base ≤ 16)%N → in_int64 z → ParseInt (render_Z base z) base = (z, None).
Proof.
  intros Hb [Hlo Hhi]. unfold render_Z.
  case_decide as Hz.
  - destruct (render_N_digit base (Z.to_N (- z)) Hb) as (a & r & E & _).
    unfold ParseInt. simpl. rewrite E. rewrite <- E, parse_render by done.
    rewrite Z2N.id by lia. rewrite decide_False by lia. rewrite decide_False by lia.
    f_equal. lia.
  - destruct (render_N_digit base (Z.to_N z) Hb) as (a & r & E & Ha).
    unfold ParseInt. rewrite E, (split_sign_digit base) by done.
    rewrite <- E, parse_render, Z2N.id by (done || lia). by rewrite !decide_False by lia.
Qed.

(** Printing then parsing a number gives it back, in base 10 and base 16. *)
Lemma Atoi_itoa z : in_int64 z → Atoi (itoa z) = (z, None).
Proof. apply ParseInt_render. lia. Qed.

Lemma itoa_no_slash z : byte_in "/" (itoa z) = false.
Proof. by apply render_Z_no_byte. Qed.

Lemma itoa_inj z1 z2 : in_int64 z1 → in_int64 z2 → itoa z1 = itoa z2 → z1 = z2.
Proof. intros H1 H2 E. apply Atoi_itoa in H1, H2. congruence. Qed.

(** The same without a bound. *)
Lemma itoa_injective z1 z2 : itoa z1 = itoa z2 → z1 = z2.
Proof.
  unfold itoa, render_Z. intros E.
  assert (Hd : ∀ n, parse_digits 10 (render_N 10 n) 0 = Some n) by (intros n; by apply parse_render).
  assert (Hm : ∀ n s, render_N 10 n ≠ String "-" s).
  { intros n s Hr. specialize (Hd n). rewrite Hr in Hd. by vm_compute in Hd. }
  destruct (decide (z1 < 0)), (decide (z2 < 0)).
  - injection E as E. pose proof (Hd (Z.to_N (- z1))) as H1. rewrite E, Hd in H1. injection H1. lia.
  - by destruct (Hm _ _ (eq_sym E)).
  - by destruct (Hm _ _ E).
  - pose proof (Hd (Z.to_N z1)) as H1. rewrite E, Hd in H1. injection H1. lia.
Qed.

#[export] Hint Resolve itoa_no_slash len_nonneg : doodle.

(** ** Scanning a hexadecimal identifier *)

Lemma hex_prefix_app ds rest :
  all_digits 16 ds = true → hex_prefix (ds +:+ String "." rest) = (ds, String "." rest).
Proof.
  induction ds as [|a r IH]; [done|]. rewrite str_app_cons. simpl.
  intros [Ha Hr]%andb_prop. apply bool_decide_eq_true in Ha as [v Hv].
  rewrite Hv. by rewrite IH.
Qed.

Lemma trim_left_digit base a r :
  is_Some (digit_val base a) → trim_left (String a r) = String a r.
Proof.
  intros [v Hv]. simpl. destruct (is_space a) eqn:E; [|done]. exfalso.
  unfold is_space in E. apply bool_decide_eq_true in E.
  assert (Ha : a ∈ map ascii_of_N [32; 9; 10; 11; 12; 13]%N).
  { rewrite <- (ascii_N_embedding a). apply list_elem_of_fmap. eauto. }
  simpl in Ha. repeat (apply elem_of_cons in Ha as [->|Ha]; [done|]). by apply elem_of_nil in Ha.
Qed.

Lemma hex_shape z :
  ∃ sign ds, hex z = sign +:+ ds ∧ (sign = "" ∨ sign = "-") ∧ all_digits 16 ds = true ∧ ds ≠ "".
Proof.
  unfold hex, render_Z.
  assert (Hd : ∀ n, all_digits 16 (render_N 16 n) = true ∧ render_N 16 n ≠ "").
  { intros n. split; [by apply all_digits_render|].
    destruct (render_N_nonempty 16 n) as (a & r & ->). done. }
  case_decide.
  - exists "-", (render_N 16 (Z.to_N (- z))). split; [done|]. split; [by right|]. apply Hd.
  - exists "", (render_N 16 (Z.to_N z)). split; [done|]. split; [by left|]. apply Hd.
Qed.

(** What [Sprintf("%x.%v", id, t)] prints, [Sscanf("%x.")] reads back, whatever
    follows the dot. *)
Lemma Sscanf_hex id rest :
  in_int64 id → Sscanf_hex_dot (hex id +:+ String "." rest) = Ret id.
Proof.
  intros Hid. assert (Hp := ParseInt_render 16 id ltac:(lia) Hid). fold (hex id) in Hp.
  destruct (hex_shape id) as (sign & ds & E & Hs & Hd & Hne). rewrite E in Hp |- *.
  destruct ds as [|a r]; [done|].
  assert (Ha : is_Some (digit_val 16 a)).
  { simpl in Hd. apply andb_prop in Hd as [Hd _]. by apply bool_decide_eq_true in Hd. }
  unfold Sscanf_hex_dot. destruct Hs as [->| ->].
  - change ("" +:+ String a r) with (String a r) in Hp |- *. rewrite str_app_cons.
    rewrite (trim_left_digit 16), (split_sign_digit 16) by done. rewrite <- str_app_cons.
    rewrite hex_prefix_app by done. change ("" +:+ String a r) with (String a r). by rewrite Hp.
  - change (("-" +:+ String a r) +:+ String "." rest)
      with (String "-" (String a r +:+ String "." rest)).
    change (trim_left (String "-" (String a r +:+ String "." rest)))
      with (String "-" (String a r +:+ String "." rest)).
    simpl split_sign. cbv iota beta. rewrite hex_prefix_app by done. by rewrite Hp.
Qed.

(** ** Lemmas: searching *)

Lemma HasPrefix_split s p : HasPrefix s p = true → ∃ b, s = p +:+ b.
Proof.
  revert s. induction p as [|c p IH]; intros s; simpl; [by exists s|].
  destruct s as [|d s]; [done|]. intros [Hc Hp]%andb_prop. apply bool_decide_eq_true in Hc as ->.
  destruct (IH s Hp) as [b ->]. by exists b.
Qed.

Lemma index_from_spec n s sub :
  index_from n s sub = -1 ∨
  ∃ a b, s = a +:+ (sub +:+ b) ∧ index_from n s sub = n + len a.
Proof.
  revert n. induction s as [|c s IH]; intros n.
  - destruct sub; [right; exists "", ""; unfold len; simpl; split; [done|lia]|by left].
  - cbn [index_from]. destruct (HasPrefix (String c s) sub) eqn:Hp.
    + right. apply HasPrefix_split in Hp as [b Hb]. exists "", b. split; [done|]. unfold len. simpl. lia.
    + destruct (IH (n + 1)) as [->|(a & b & -> & ->)]; [by left|]. right.
      exists (String c a), b. split; [done|]. unfold len. simpl. lia.
Qed.

(** ** Lemmas: order *)

Lemma nat_of_ascii_inj x y : nat_of_ascii x = nat_of_ascii y → x = y.
Proof. intros He. rewrite <-(ascii_nat_embedding x), <-(ascii_nat_embedding y). by rewrite He. Qed.

Lemma Compare_eq a b : Compare a b = 0 ↔ a = b.
Proof.
  split; [|intros ->; induction b as [|y b IH]; simpl; [done|by rewrite decide_True]].
  revert b. induction a as [|x a IH]; intros [|y b]; simpl; try done.
  destruct (decide (x = y)) as [->|]; [by intros ->%IH|]. by destruct (decide _).
Qed.

Lemma Compare_flip a b : Compare b a = - Compare a b.
Proof.
  revert b. induction a as [|x a IH]; intros [|y b]; simpl; try done.
  destruct (decide (x = y)) as [->|Hn]; [by rewrite decide_True|].
  rewrite (decide_False (P := y = x)) by done.
  assert (nat_of_ascii x ≠ nat_of_ascii y) by (by intros ?%nat_of_ascii_inj).
  repeat destruct (decide _); lia.
Qed.

Lemma Compare_range a b : Compare a b = -1 ∨ Compare a b = 0 ∨ Compare a b = 1.
Proof.
  revert b. induction a as [|x a IH]; intros [|y b]; simpl; auto.
  repeat destruct (decide _); auto.
Qed.

Lemma Compare_trans a b c : Compare a b = 1 → Compare b c = 1 → Compare a c = 1.
Proof.
  revert b c. induction a as [|x a IH]; intros [|y b] [|z c]; simpl; try done.
  assert (Hinj : ∀ u v, u ≠ v → nat_of_ascii u ≠ nat_of_ascii v) by (by intros u v Hn ?%nat_of_ascii_inj).
  destruct (decide (x = y)) as [->|Hxy], (decide (y = z)) as [->|Hyz]; [|tauto|..].
  - apply IH.
  - rewrite (decide_False (P := x = z)) by done. by intros Hc _.
  - apply Hinj in Hxy, Hyz. destruct (decide (x = z)) as [->|Hxz]; repeat destruct (decide _); intros; try done; lia.
Qed.

(** A prefix is not greater, and of two prefixes the greater is the longer. *)
Lemma Compare_prefix s p : HasPrefix s p = true → Compare p s ≠ 1.
Proof.
  revert s. induction p as [|x p IH]; intros [|y s]; simpl; try done.
  intros [->%bool_decide_eq_true Hp]%andb_prop. rewrite decide_True by done. by apply IH.
Qed.

Lemma longer_prefix s p q :
  HasPrefix s p = true → HasPrefix s q = true → Compare p q = 1 → (String.length q < String.length p)%nat.
Proof.
  revert s q. induction p as [|x p IH]; intros [|z s] [|y q]; simpl; try done; [lia|].
  intros [->%bool_decide_eq_true Hp]%andb_prop [->%bool_decide_eq_true Hq]%andb_prop.
  rewrite decide_True by done. intros Hc. specialize (IH s q Hp Hq Hc). lia.
Qed.
