(* ===== verification/Crypto.v ===== *)
(** * Crypto: [util/utils.go]'s AES helpers and the varint of the tokens

    [AesEncrypt], [AesDecrypt], [PKCS5Padding] and [PKCS5UnPadding], with the
    parts of [encoding/base64], [crypto/cipher] and [encoding/binary] they use.
    The AES block permutation itself is an interface, [BlockCipher]; its law
    [BlockCipherLaws] is what FIPS-197 promises: decryption inverts encryption
    of one block under the same key. *)

From Stdlib Require Import ZArith Lia Ascii.
From stdpp Require Import base gmap strings list.
From S2P Require Import Prelude GoStrings.

(** ** Bytes *)

Definition is_byte (b : Z) : Prop := 0 ≤ b < 256.
Definition bytes_ok (l : list Z) : Prop := Forall is_byte l.

Fixpoint bytes_of (s : string) : list Z :=
  match s with
  | EmptyString => []
  | String a r => Z.of_N (N_of_ascii a) :: bytes_of r
  end.

Fixpoint string_of (l : list Z) : string :=
  match l with
  | [] => ""
  | b :: r => String (ascii_of_N (Z.to_N b)) (string_of r)
  end.

Definition blen (l : list Z) : Z := Z.of_nat (length l).

(** ** [encoding/base64]: [StdEncoding] *)

Definition b64_char (v : Z) : ascii :=
  ascii_of_N (Z.to_N (if decide (v < 26) then 65 + v
                      else if decide (v < 52) then 71 + v
                      else if decide (v < 62) then v - 4
                      else if decide (v = 62) then 43 else 47)).

Definition b64_val (a : ascii) : option Z :=
  let n := Z.of_N (N_of_ascii a) in
  if decide (65 ≤ n ≤ 90) then Some (n - 65)
  else if decide (97 ≤ n ≤ 122) then Some (n - 71)
  else if decide (48 ≤ n ≤ 57) then Some (n + 4)
  else if decide (n = 43) then Some 62
  else if decide (n = 47) then Some 63
  else None.

(** Groups of three bytes become four characters; a short last group is padded
    with ['=']. *)
Fixpoint EncodeToString (l : list Z) : string :=
  match l with
  | [] => ""
  | [a] => String (b64_char (a / 4)) (String (b64_char (a mod 4 * 16)) "==")
  | [a; b] =>
      String (b64_char (a / 4)) (String (b64_char (a mod 4 * 16 + b / 16))
        (String (b64_char (b mod 16 * 4)) "="))
  | a :: b :: c :: r =>
      String (b64_char (a / 4)) (String (b64_char (a mod 4 * 16 + b / 16))
        (String (b64_char (b mod 16 * 4 + c / 64)) (String (b64_char (c mod 64))
          (EncodeToString r))))
  end.

Definition corrupt : goerror := Errorf "illegal base64 data".

Definition is_empty (s : string) : bool := match s with EmptyString => true | _ => false end.

Fixpoint decode_groups (s : string) : outcome (list Z) :=
  match s with
  | EmptyString => Ret []
  | String c0 (String c1 (String c2 (String c3 r))) =>
      if bool_decide (c3 = "="%char) && is_empty r then
        if decide (c2 = "="%char) then
          match b64_val c0, b64_val c1 with
          | Some v0, Some v1 => Ret [v0 * 4 + v1 / 16]
          | _, _ => Throw corrupt
          end
        else
          match b64_val c0, b64_val c1, b64_val c2 with
          | Some v0, Some v1, Some v2 => Ret [v0 * 4 + v1 / 16; v1 mod 16 * 16 + v2 / 4]
          | _, _, _ => Throw corrupt
          end
      else
        match b64_val c0, b64_val c1, b64_val c2, b64_val c3 with
        | Some v0, Some v1, Some v2, Some v3 =>
            rest ← decode_groups r;
            Ret (v0 * 4 + v1 / 16 :: v1 mod 16 * 16 + v2 / 4 :: v2 mod 4 * 64 + v3 :: rest)
        | _, _, _, _ => Throw corrupt
        end
  | _ => Throw corrupt
  end.

(** The decoder skips line breaks. *)
Fixpoint strip_newlines (s : string) : string :=
  match s with
  | EmptyString => ""
  | String a r =>
      if decide (N_of_ascii a = 10 ∨ N_of_ascii a = 13)%N then strip_newlines r
      else String a (strip_newlines r)
  end.

Definition DecodeString (s : string) : outcome (list Z) := decode_groups (strip_newlines s).

(** ** [encoding/binary]: signed varints *)

Definition uint64 (z : Z) : Z := z mod 2 ^ 64.

(** [buf[i] = v], which panics out of range. *)
Definition set_byte (buf : list Z) (i : nat) (v : Z) : outcome (list Z) :=
  if decide (i < length buf)%nat then Ret (<[i := v]> buf)
  else Panic "runtime error: index out of range".

(** [PutUvarint] from position [i]; a [uint64] has at most ten 7-bit groups. *)
Fixpoint put_uvarint (fuel : nat) (buf : list Z) (i : nat) (x : Z) : outcome (list Z) :=
  match fuel with
  | O => Ret buf
  | S f =>
      if decide (128 ≤ x) then
        buf' ← set_byte buf i (Z.lor (x mod 256) 128);
        put_uvarint f buf' (S i) (Z.shiftr x 7)
      else set_byte buf i x
  end.

(** [PutVarint]: zig-zag, then [PutUvarint]. *)
Definition PutVarint (buf : list Z) (x : Z) : outcome (list Z) :=
  let ux := uint64 (Z.shiftl x 1) in
  put_uvarint 10 buf 0 (if decide (x < 0) then Z.lxor ux (2 ^ 64 - 1) else ux).

(** [Uvarint]: the value and the number of bytes read, 0 for a short buffer,
    negative on overflow. *)
Fixpoint uvarint (buf : list Z) (i : Z) (x s : Z) : Z * Z :=
  match buf with
  | [] => (0, 0)
  | b :: r =>
      if decide (b < 128) then
        if bool_decide (9 < i) || bool_decide (i = 9 ∧ 1 < b) then (0, - (i + 1))
        else (Z.lor x (uint64 (Z.shiftl b s)), i + 1)
      else uvarint r (i + 1) (Z.lor x (uint64 (Z.shiftl (Z.land b 127) s))) (s + 7)
  end.

Definition Varint (buf : list Z) : Z * Z :=
  let '(ux, n) := uvarint buf 0 0 0 in
  let x := Z.shiftr ux 1 in
  (if Z.testbit ux 0 then wrap64 (Z.lxor x (-1)) else x, n).

(** ** [crypto/aes] and [crypto/cipher] *)

(** One AES block operation: key, then a 16-byte block. *)
Class BlockCipher := {
  block_encrypt : list Z → list Z → list Z;
  block_decrypt : list Z → list Z → list Z
}.

Definition BlockSize : nat := 16.
Arguments BlockSize : simpl never.

(** [aes.NewCipher] accepts keys of 16, 24 and 32 bytes. *)
Definition key_ok (key : list Z) : Prop := length key = 16%nat ∨ length key = 24%nat ∨ length key = 32%nat.

#[export] Instance key_ok_dec key : Decision (key_ok key).
Proof. unfold key_ok. apply _. Defined.

Class BlockCipherLaws `{BlockCipher} := {
  block_encrypt_length key b : key_ok key → length b = BlockSize → length (block_encrypt key b) = BlockSize;
  block_encrypt_bytes key b : bytes_ok key → bytes_ok b → bytes_ok (block_encrypt key b);
  block_decrypt_encrypt key b :
    key_ok key → bytes_ok key → length b = BlockSize → bytes_ok b →
    block_decrypt key (block_encrypt key b) = b
}.

Definition xor_bytes (a b : list Z) : list Z := zip_with Z.lxor a b.

Section cipher.
Context `{BlockCipher}.

(** [cipher.NewCBCEncrypter(...).CryptBlocks] over [n] blocks. *)
Fixpoint cbc_encrypt (n : nat) (key iv src : list Z) : list Z :=
  match n with
  | O => []
  | S n' =>
      let c := block_encrypt key (xor_bytes (take BlockSize src) iv) in
      c ++ cbc_encrypt n' key c (drop BlockSize src)
  end.

Fixpoint cbc_decrypt (n : nat) (key iv src : list Z) : list Z :=
  match n with
  | O => []
  | S n' =>
      let c := take BlockSize src in
      xor_bytes (block_decrypt key c) iv ++ cbc_decrypt n' key c (drop BlockSize src)
  end.

(** [CryptBlocks] panics unless its input is whole blocks. *)
Definition CryptBlocks (f : nat → list Z → list Z → list Z → list Z) (key iv src : list Z) : outcome (list Z) :=
  if decide ((length src mod BlockSize)%nat = 0%nat)
  then Ret (f (length src / BlockSize)%nat key iv src)
  else Panic "crypto/cipher: input not full blocks".

(** ** [util/utils.go] *)

Definition PKCS5Padding (ciphertext : list Z) (blockSize : Z) : list Z :=
  let padding := blockSize - blen ciphertext mod blockSize in
  ciphertext ++ replicate (Z.to_nat padding) (padding mod 256).

Definition PKCS5UnPadding (origData : list Z) : outcome (list Z) :=
  let length := blen origData in
  if decide (length ≤ 0) then Throw (Errorf "PKCS5Padding len(origData) <= 0 error")
  else
    let unpadding := List.last origData 0 in
    if decide (0 ≤ length - unpadding) then Ret (take (Z.to_nat (length - unpadding)) origData)
    else Panic "runtime error: slice bounds out of range".

Definition key_size_error : goerror := Errorf "crypto/aes: invalid key size".

Definition AesEncrypt (encodeStr key : list Z) : outcome string :=
  if decide (key_ok key) then
    let encodeBytes := PKCS5Padding encodeStr (Z.of_nat BlockSize) in
    crypted ← CryptBlocks cbc_encrypt key (take BlockSize key) encodeBytes;
    Ret (EncodeToString crypted)
  else Throw key_size_error.

Definition AesDecrypt (decodeStr : string) (key : list Z) : outcome (list Z) :=
  decodeBytes ← DecodeString decodeStr;
  if decide (key_ok key) then
    origData ← CryptBlocks cbc_decrypt key (take BlockSize key) decodeBytes;
    PKCS5UnPadding origData
  else Throw key_size_error.

End cipher.

(** [util.AesKey]. *)
Definition AesKey : list Z := bytes_of "9F4CrTJJVynV6NJL".

(** A concrete cipher with the laws, for evaluating the model: it flips the bits
    the key selects. *)
Module XorCipher.
#[export] Instance cipher : BlockCipher := {|
  block_encrypt key b := xor_bytes b (take BlockSize key);
  block_decrypt key b := xor_bytes b (take BlockSize key)
|}.
End XorCipher.

(** ** Lemmas: bytes and base64 *)

Ltac euclid := Z.to_euclidean_division_equations; lia.

(** Check a statement over [0 ≤ v < n] for a small [n] value by value. *)
Lemma small_Z_ind (n : nat) (P : Z → Prop) :
  Forall (λ i, P (Z.of_nat i)) (seq 0 n) → ∀ v, 0 ≤ v < Z.of_nat n → P v.
Proof.
  intros HP v Hv. rewrite Forall_forall in HP. rewrite <- (Z2Nat.id v) by lia.
  apply HP. apply in_seq. lia.
Qed.

Lemma b64_val_char v : 0 ≤ v < 64 → b64_val (b64_char v) = Some v.
Proof. revert v. apply (small_Z_ind 64). simpl. repeat constructor. Qed.

Lemma b64_char_spec v :
  0 ≤ v < 64 → b64_char v ≠ "="%char ∧ N_of_ascii (b64_char v) ≠ 10%N ∧ N_of_ascii (b64_char v) ≠ 13%N.
Proof. revert v. apply (small_Z_ind 64). simpl. repeat constructor; done. Qed.

Lemma list_ind3 {A} (P : list A → Prop) :
  P [] → (∀ a, P [a]) → (∀ a b, P [a; b]) → (∀ a b c r, P r → P (a :: b :: c :: r)) → ∀ l, P l.
Proof.
  intros H0 H1 H2 H3.
  assert (H : ∀ n l, (length l ≤ n)%nat → P l).
  { induction n as [|n IH]; intros l Hl.
    - destruct l; [done|simpl in Hl; lia].
    - destruct l as [|a [|b [|c r]]]; auto. apply H3, IH. simpl in Hl. lia. }
  intros l. by apply (H (length l)).
Qed.

Ltac bytes_inv :=
  repeat match goal with
  | H : bytes_ok (_ :: _) |- _ => unfold bytes_ok in H
  | H : Forall is_byte (_ :: _) |- _ => apply Forall_cons_iff in H as [? H]
  | H : is_byte _ |- _ => unfold is_byte in H
  end.

Lemma strip_char v r : 0 ≤ v < 64 → strip_newlines (String (b64_char v) r) = String (b64_char v) (strip_newlines r).
Proof. intros Hv. destruct (b64_char_spec v Hv) as (_ & H1 & H2). simpl. rewrite decide_False; tauto. Qed.

Lemma strip_encode l : bytes_ok l → strip_newlines (EncodeToString l) = EncodeToString l.
Proof.
  induction l as [|a|a b|a b c r IH] using list_ind3; intros Hl; bytes_inv; simpl EncodeToString.
  - done.
  - by rewrite !strip_char by euclid.
  - by rewrite !strip_char by euclid.
  - rewrite !strip_char by euclid. by rewrite IH.
Qed.

Lemma decode_group4 a b c d r :
  0 ≤ a < 64 → 0 ≤ b < 64 → 0 ≤ c < 64 → 0 ≤ d < 64 →
  decode_groups (String (b64_char a) (String (b64_char b) (String (b64_char c) (String (b64_char d) r))))
  = (rest ← decode_groups r;
     Ret (a * 4 + b / 16 :: b mod 16 * 16 + c / 4 :: c mod 4 * 64 + d :: rest)).
Proof.
  intros Ha Hb Hc Hd.
  destruct (b64_char_spec d Hd) as (Hd' & _). cbn [decode_groups].
  rewrite bool_decide_eq_false_2 by done. cbn [andb]. by rewrite !b64_val_char.
Qed.

Lemma decode_group3 a b c :
  0 ≤ a < 64 → 0 ≤ b < 64 → 0 ≤ c < 64 →
  decode_groups (String (b64_char a) (String (b64_char b) (String (b64_char c) "=")))
  = Ret [a * 4 + b / 16; b mod 16 * 16 + c / 4].
Proof.
  intros Ha Hb Hc. destruct (b64_char_spec c Hc) as (Hc' & _). cbn [decode_groups].
  rewrite bool_decide_eq_true_2 by done. cbn [andb is_empty].
  rewrite decide_False by done. by rewrite !b64_val_char.
Qed.

Lemma decode_group2 a b :
  0 ≤ a < 64 → 0 ≤ b < 64 →
  decode_groups (String (b64_char a) (String (b64_char b) "==")) = Ret [a * 4 + b / 16].
Proof. intros Ha Hb. cbn [decode_groups]. by rewrite !b64_val_char. Qed.

Lemma base64_roundtrip l : bytes_ok l → DecodeString (EncodeToString l) = Ret l.
Proof.
  intros Hl. unfold DecodeString. rewrite strip_encode by done. revert Hl.
  induction l as [|a|a b|a b c r IH] using list_ind3; intros Hl; bytes_inv; simpl EncodeToString.
  - done.
  - rewrite decode_group2 by euclid. do 2 f_equal. euclid.
  - rewrite decode_group3 by euclid. do 2 f_equal; [euclid|]. f_equal. euclid.
  - rewrite decode_group4 by euclid. rewrite IH by done. simpl.
    do 2 f_equal; [euclid|]. f_equal; [euclid|]. f_equal. euclid.
Qed.

(** ** Lemmas: padding *)

Lemma blen_app a b : blen (a ++ b) = blen a + blen b.
Proof. unfold blen. rewrite length_app. lia. Qed.

Lemma last_app_replicate (l : list Z) n v : (0 < n)%nat → List.last (l ++ replicate n v) 0 = v.
Proof.
  intros Hn. destruct n as [|n]; [lia|]. rewrite replicate_S_end, app_assoc. apply List.last_last.
Qed.

Lemma padding_range l bs : 0 < bs → 1 ≤ bs - blen l mod bs ≤ bs.
Proof. intros. pose proof (Z.mod_pos_bound (blen l) bs). lia. Qed.

Lemma unpad_pad l bs : 1 ≤ bs ≤ 255 → PKCS5UnPadding (PKCS5Padding l bs) = Ret l.
Proof.
  intros Hbs. unfold PKCS5UnPadding, PKCS5Padding.
  pose proof (padding_range l bs ltac:(lia)) as Hp.
  rewrite blen_app, last_app_replicate by lia.
  assert (Hr : blen (replicate (Z.to_nat (bs - blen l mod bs)) ((bs - blen l mod bs) mod 256))
               = bs - blen l mod bs) by (unfold blen at 1; rewrite length_replicate; lia).
  rewrite Hr. assert (0 ≤ blen l) by (unfold blen; lia).
  rewrite (Z.mod_small _ 256) by lia. rewrite decide_False, decide_True by lia. f_equal.
  replace (Z.to_nat _) with (length l) by (unfold blen in *; lia). by rewrite take_app_length.
Qed.

Lemma pad_length_blocks l :
  (length (PKCS5Padding l (Z.of_nat BlockSize)) mod BlockSize = 0)%nat.
Proof.
  unfold PKCS5Padding. rewrite length_app, length_replicate.
  pose proof (padding_range l (Z.of_nat BlockSize) ltac:(done)) as Hp.
  unfold blen in *. unfold BlockSize in *.
  apply Nat2Z.inj. rewrite Nat2Z.inj_mod, Nat2Z.inj_add, Z2Nat.id by lia.
  simpl Z.of_nat in *. euclid.
Qed.

Lemma pad_bytes l bs : bytes_ok l → 0 < bs → bytes_ok (PKCS5Padding l bs).
Proof.
  intros Hl Hbs. unfold PKCS5Padding, bytes_ok. apply Forall_app. split; [done|].
  apply Forall_replicate. unfold is_byte. apply Z.mod_pos_bound. lia.
Qed.

(** ** Lemmas: CBC *)

Lemma lxor_byte a b : is_byte a → is_byte b → is_byte (Z.lxor a b).
Proof.
  unfold is_byte. intros Ha Hb. split; [apply Z.lxor_nonneg; lia|].
  destruct (decide (Z.lxor a b = 0)); [lia|].
  apply Z.log2_lt_pow2 with (b := 8); [|].
  { assert (0 ≤ Z.lxor a b) by (apply Z.lxor_nonneg; lia). lia. }
  eapply Z.le_lt_trans; [apply Z.log2_lxor; lia|].
  apply Z.max_lub_lt.
  - destruct (decide (a = 0)) as [->|]; [done|]. apply Z.log2_lt_pow2; lia.
  - destruct (decide (b = 0)) as [->|]; [done|]. apply Z.log2_lt_pow2; lia.
Qed.

Lemma xor_bytes_ok a b : bytes_ok a → bytes_ok b → bytes_ok (xor_bytes a b).
Proof.
  unfold bytes_ok, xor_bytes. intros Ha. revert b. induction Ha as [|x a Hx Ha IH]; intros [|y b] Hb; simpl; auto.
  inversion Hb; subst. constructor; auto using lxor_byte.
Qed.

Lemma xor_bytes_inv a b : length a = length b → xor_bytes (xor_bytes a b) b = a.
Proof.
  unfold xor_bytes. revert b. induction a as [|x a IH]; intros [|y b] Hl; simplify_eq/=; [done|].
  rewrite IH by done. by rewrite Z.lxor_assoc, Z.lxor_nilpotent, Z.lxor_0_r.
Qed.

Lemma xor_bytes_length a b : length a = length b → length (xor_bytes a b) = length a.
Proof. intros H. unfold xor_bytes. rewrite length_zip_with. lia. Qed.

Section cbc.
Context `{BlockCipherLaws}.
Context (key : list Z) (Hkey : key_ok key) (Hkb : bytes_ok key).

Lemma cbc_encrypt_spec n iv src :
  length src = (n * BlockSize)%nat → length iv = BlockSize → bytes_ok src → bytes_ok iv →
  length (cbc_encrypt n key iv src) = length src ∧ bytes_ok (cbc_encrypt n key iv src)
  ∧ cbc_decrypt n key iv (cbc_encrypt n key iv src) = src.
Proof.
  revert iv src. induction n as [|n IH]; intros iv src Hl Hiv Hs Hi; simpl.
  { destruct src; [|done]. split_and!; [done|constructor|done]. }
  assert (Htk : length (take BlockSize src) = BlockSize) by (rewrite length_take; lia).
  assert (Hx : length (xor_bytes (take BlockSize src) iv) = BlockSize) by (rewrite xor_bytes_length; lia).
  assert (Hxb : bytes_ok (xor_bytes (take BlockSize src) iv))
    by (apply xor_bytes_ok; [by apply Forall_take|done]).
  set (c := block_encrypt key (xor_bytes (take BlockSize src) iv)).
  assert (Hc : length c = BlockSize) by (by apply block_encrypt_length).
  assert (Hcb : bytes_ok c) by (by apply block_encrypt_bytes).
  destruct (IH c (drop BlockSize src)) as (IH1 & IH2 & IH3);
    [rewrite length_drop; lia|done|by apply Forall_drop|done|].
  split_and!.
  - rewrite length_app, IH1, Hc, length_drop. lia.
  - by apply Forall_app.
  - rewrite take_app_le, take_ge by lia. rewrite drop_app_ge by lia. rewrite Hc, Nat.sub_diag, drop_0.
    rewrite IH3. unfold c at 1. rewrite block_decrypt_encrypt by done.
    rewrite xor_bytes_inv by lia. apply take_drop.
Qed.

Lemma take_block_key : length (take BlockSize key) = BlockSize.
Proof. rewrite length_take. unfold BlockSize. destruct Hkey as [->|[->| ->]]; done. Qed.

(** Encryption under a valid key always succeeds, and decryption gives the plaintext back. *)
Lemma aes_encrypt_total x : bytes_ok x → ∃ s, AesEncrypt x key = Ret s ∧ AesDecrypt s key = Ret x.
Proof.
  intros Hx. unfold AesEncrypt, AesDecrypt, CryptBlocks. rewrite decide_True by done.
  rewrite decide_True by apply pad_length_blocks. cbn [mbind outcome_bind].
  set (src := PKCS5Padding x (Z.of_nat BlockSize)).
  assert (Hdiv : length src = (length src / BlockSize * BlockSize)%nat).
  { pose proof (pad_length_blocks x) as Hm. fold src in Hm.
    pose proof (Nat.div_mod_eq (length src) BlockSize). lia. }
  destruct (cbc_encrypt_spec (length src / BlockSize) (take BlockSize key) src)
    as (Hl & Hb & Hd); [done|apply take_block_key|by apply pad_bytes|by apply Forall_take|].
  eexists. split; [done|]. rewrite base64_roundtrip by done. cbn [mbind outcome_bind].
  rewrite decide_True by done. rewrite Hl. rewrite decide_True by apply pad_length_blocks.
  cbn [mbind outcome_bind]. rewrite Hd. apply unpad_pad. unfold BlockSize. lia.
Qed.
End cbc.

(** ** Lemmas: varints *)

Lemma lor_group b : 0 ≤ b < 256 →
  128 ≤ Z.lor b 128 < 256 ∧ Z.land (Z.lor b 128) 127 = b mod 128.
Proof. revert b. apply (small_Z_ind 256). repeat constructor; done. Qed.

Lemma lor_shiftl_add x b s : 0 ≤ s → 0 ≤ x < 2 ^ s → 0 ≤ b → Z.lor x (Z.shiftl b s) = x + b * 2 ^ s.
Proof.
  intros Hs Hx Hb. rewrite <- (Z.shiftl_mul_pow2 b s) by done.
  assert (Hl : Z.land x (Z.shiftl b s) = 0).
  { apply Z.bits_inj'. intros n Hn. rewrite Z.land_spec, Z.bits_0.
    destruct (decide (n < s)).
    - rewrite Z.shiftl_spec_low by done. apply andb_false_r.
    - destruct (decide (x = 0)) as [->|]; [by rewrite Z.bits_0|].
      rewrite Z.bits_above_log2; [done|lia|].
      apply Z.lt_le_trans with s; [apply Z.log2_lt_pow2; lia|lia]. }
  rewrite Z.add_nocarry_lxor by done. by rewrite Z.lxor_lor.
Qed.

Lemma uint64_small x : 0 ≤ x < 2 ^ 64 → uint64 x = x.
Proof. intros. unfold uint64. by apply Z.mod_small. Qed.

Lemma pow_split a b : 0 ≤ a → 0 ≤ b → 2 ^ (a + b) = 2 ^ a * 2 ^ b.
Proof. intros. by apply Z.pow_add_r. Qed.

(** Writing [x] from position [i] when it fits the [k] free slots, and what the
    reader gets back. *)
Lemma put_uvarint_fits k fuel buf i x :
  length buf = (i + k)%nat → (1 ≤ k ≤ fuel)%nat → (i + k ≤ 9)%nat → 0 ≤ x < 2 ^ (7 * Z.of_nat k) →
  bytes_ok buf →
  ∃ buf', put_uvarint fuel buf i x = Ret buf' ∧ length buf' = length buf ∧ bytes_ok buf'
  ∧ take i buf' = take i buf
  ∧ ∀ acc, 0 ≤ acc < 2 ^ (7 * Z.of_nat i) →
      ∃ n, uvarint (drop i buf') (Z.of_nat i) acc (7 * Z.of_nat i)
           = (acc + x * 2 ^ (7 * Z.of_nat i), n) ∧ 1 ≤ n.
Proof.
  revert fuel buf i x. induction k as [|k IH]; intros fuel buf i x Hl Hk Hi Hx Hb; [lia|].
  destruct fuel as [|f]; [lia|]. simpl put_uvarint. unfold set_byte.
  assert (Hbound : x * 2 ^ (7 * Z.of_nat i) < 2 ^ 63).
  { assert (2 ^ (7 * Z.of_nat (S k)) * 2 ^ (7 * Z.of_nat i) ≤ 2 ^ 63).
    { rewrite <- pow_split by lia. apply Z.pow_le_mono_r; lia. }
    pose proof (Z.pow_pos_nonneg 2 (7 * Z.of_nat i)). nia. }
  pose proof (Z.pow_pos_nonneg 2 (7 * Z.of_nat i) ltac:(lia) ltac:(lia)) as Hpos.
  destruct (decide (128 ≤ x)) as [Hbig|Hsmall]; rewrite decide_True by lia.
  - assert (Hk1 : (1 ≤ k)%nat).
    { destruct k; [|lia]. change (2 ^ (7 * Z.of_nat 1)) with 128 in Hx. lia. }
    destruct (lor_group (x mod 256)) as [Hg1 Hg2]; [apply Z.mod_pos_bound; lia|].
    set (g := Z.lor (x mod 256) 128) in *. cbn [mbind outcome_bind].
    rewrite Z.shiftr_div_pow2 by lia. change (2 ^ 7) with 128.
    assert (Hx' : 0 ≤ x / 128 < 2 ^ (7 * Z.of_nat k)).
    { replace (7 * Z.of_nat (S k)) with (7 + 7 * Z.of_nat k) in Hx by lia.
      rewrite pow_split in Hx by lia. change (2 ^ 7) with 128 in Hx.
      split; [apply Z.div_pos; lia|apply Z.div_lt_upper_bound; lia]. }
    destruct (IH f (<[i:=g]> buf) (S i) (x / 128)) as (buf' & E & Hlen & Hbo & Htake & Hread);
      [rewrite length_insert; lia|lia|lia|done| |].
    { apply Forall_insert; [done|]. unfold is_byte. lia. }
    exists buf'. rewrite length_insert in Hlen. split; [done|]. split; [done|]. split; [done|].
    assert (Hat : buf' !! i = Some g).
    { rewrite <- (lookup_take_lt buf' (S i) i) by lia. rewrite Htake, lookup_take_lt by lia.
      apply list_lookup_insert_eq. lia. }
    split.
    { replace (take i buf') with (take i (take (S i) buf')) by (rewrite take_take; f_equal; lia).
      rewrite Htake, take_take, Nat.min_l by lia. apply take_insert_ge. lia. }
    intros acc Hacc. rewrite (drop_S buf' g i Hat). simpl uvarint.
    rewrite decide_False by lia. rewrite Hg2.
    assert (Hmm : (x mod 256) mod 128 = x mod 128) by euclid.
    assert (Hm : 0 ≤ x mod 128 < 128) by (apply Z.mod_pos_bound; lia). rewrite Hmm.
    rewrite uint64_small; [|rewrite Z.shiftl_mul_pow2 by lia; split; [nia|]].
    2:{ assert (x mod 128 ≤ x) by euclid. nia. }
    rewrite lor_shiftl_add by lia.
    destruct (Hread (acc + x mod 128 * 2 ^ (7 * Z.of_nat i))) as (n & En & Hn).
    { replace (7 * Z.of_nat (S i)) with (7 + 7 * Z.of_nat i) by lia.
      rewrite pow_split by lia. change (2 ^ 7) with 128. nia. }
    exists n. split; [|done].
    replace (Z.of_nat i + 1) with (Z.of_nat (S i)) by lia.
    replace (7 * Z.of_nat i + 7) with (7 * Z.of_nat (S i)) by lia. rewrite En. f_equal.
    replace (7 * Z.of_nat (S i)) with (7 + 7 * Z.of_nat i) by lia.
    rewrite pow_split by lia. change (2 ^ 7) with 128.
    pose proof (Z.div_mod x 128 ltac:(lia)). nia.
  - exists (<[i:=x]> buf). split; [done|]. rewrite length_insert. split; [done|].
    split; [apply Forall_insert; [done|unfold is_byte; lia]|].
    split; [apply take_insert_ge; lia|]. intros acc Hacc.
    rewrite (drop_S _ x i) by (apply list_lookup_insert_eq; lia). simpl uvarint.
    rewrite decide_True by lia. rewrite !bool_decide_eq_false_2 by lia. simpl.
    rewrite uint64_small; [|rewrite Z.shiftl_mul_pow2 by lia; nia].
    rewrite lor_shiftl_add by lia. eexists. split; [done|lia].
Qed.

(** Writing a value that needs more groups than there are slots panics. *)
Lemma put_uvarint_overflow k fuel buf i x :
  length buf = (i + k)%nat → (k < fuel)%nat → 2 ^ (7 * Z.of_nat k) ≤ x →
  put_uvarint fuel buf i x = Panic "runtime error: index out of range".
Proof.
  revert fuel buf i x. induction k as [|k IH]; intros fuel buf i x Hl Hf Hx;
    (destruct fuel as [|f]; [lia|]); simpl put_uvarint; unfold set_byte.
  - destruct (decide (128 ≤ x)); by rewrite decide_False by lia.
  - replace (7 * Z.of_nat (S k)) with (7 + 7 * Z.of_nat k) in Hx by lia.
    rewrite pow_split in Hx by lia. change (2 ^ 7) with 128 in Hx.
    pose proof (Z.pow_pos_nonneg 2 (7 * Z.of_nat k) ltac:(lia) ltac:(lia)).
    rewrite decide_True by lia. rewrite decide_True by lia. cbn [mbind outcome_bind].
    apply IH; [rewrite length_insert; lia|lia|].
    rewrite Z.shiftr_div_pow2 by lia. change (2 ^ 7) with 128. apply Z.div_le_lower_bound; lia.
Qed.

(** The 8-byte buffer of a token holds exactly the identifiers below [2^55]. *)
Lemma varint_roundtrip id :
  0 ≤ id < 2 ^ 55 →
  ∃ buf n, PutVarint (replicate 8 0) id = Ret buf ∧ bytes_ok buf ∧ Varint buf = (id, n) ∧ 1 ≤ n.
Proof.
  intros Hid. unfold PutVarint. rewrite Z.shiftl_mul_pow2, uint64_small, decide_False by lia.
  destruct (put_uvarint_fits 8 10 (replicate 8 0) 0 (id * 2 ^ 1)) as (buf & E & Hl & Hb & _ & Hr);
    [done|lia|lia|change (2 ^ (7 * Z.of_nat 8)) with (2 * 2 ^ 55); lia| |].
  { apply Forall_replicate. done. }
  destruct (Hr 0) as (n & En & Hn); [done|]. exists buf, n. split_and!; [done|done| |done].
  unfold Varint. rewrite drop_0 in En. change (7 * Z.of_nat 0) with 0 in En.
  change (Z.of_nat 0) with 0 in En. rewrite En.
  replace (0 + id * 2 ^ 1 * 2 ^ 0) with (2 * id) by lia.
  rewrite Z.testbit_even_0. rewrite Z.shiftr_div_pow2 by lia. f_equal. euclid.
Qed.

Lemma varint_overflow id :
  2 ^ 55 ≤ id ≤ max_int64 →
  PutVarint (replicate 8 0) id = Panic "runtime error: index out of range".
Proof.
  unfold max_int64. intros Hid. unfold PutVarint.
  rewrite Z.shiftl_mul_pow2, uint64_small, decide_False by lia.
  apply (put_uvarint_overflow 8); [done|lia|]. change (2 ^ (7 * Z.of_nat 8)) with (2 * 2 ^ 55). lia.
Qed.

(** ** The laws hold of a concrete cipher *)

#[export] Instance xor_cipher_laws : @BlockCipherLaws XorCipher.cipher.
Proof.
  split.
  - intros key b Hk Hb. simpl. rewrite xor_bytes_length; [done|].
    rewrite take_block_key by done. done.
  - intros key b Hk Hb. simpl. apply xor_bytes_ok; [done|by apply Forall_take].
  - intros key b Hk Hkb Hl Hb. simpl. apply xor_bytes_inv. rewrite take_block_key by done. done.
Qed.

(** ** Lemmas: outcomes of decryption *)

Lemma bytes_of_ok s : bytes_ok (bytes_of s).
Proof.
  induction s as [|a r IH]; simpl; constructor; [|done].
  unfold is_byte. pose proof (N_ascii_bounded a). lia.
Qed.

Lemma length_bytes_of s : length (bytes_of s) = String.length s.
Proof. induction s as [|a s IH]; [done|]. simpl. by rewrite <-IH. Qed.

Lemma string_of_bytes_of s : string_of (bytes_of s) = s.
Proof. induction s as [|a r IH]; [done|]. simpl. by rewrite IH, N2Z.id, ascii_N_embedding. Qed.

#[export] Hint Resolve bytes_of_ok : doodle.

Lemma DecodeString_no_panic s : is_panic (DecodeString s) = false.
Proof.
  unfold DecodeString. generalize (strip_newlines s). clear s. intros s.
  assert (H : ∀ n s, (String.length s ≤ n)%nat → is_panic (decode_groups s) = false).
  { clear s. induction n as [|n IH]; intros s Hs; [by destruct s; [|simpl in Hs; lia]|].
    destruct s as [|c0 [|c1 [|c2 [|c3 r]]]]; [done..|]. cbn [decode_groups].
    assert (Hr : is_panic (decode_groups r) = false) by (apply IH; simpl in Hs; lia).
    destruct (_ && _).
    - destruct (decide _); repeat (destruct (b64_val _); [|done]); done.
    - repeat (destruct (b64_val _); [|done]). by destruct (decode_groups r). }
  by apply (H (String.length s)).
Qed.

(** The plaintext [CryptBlocks] produces from [ct]. *)
Definition cbc_plain `{BlockCipher} (key ct : list Z) : list Z :=
  cbc_decrypt (length ct / BlockSize) key (take BlockSize key) ct.

Lemma unpad_panic l : is_panic (PKCS5UnPadding l) = true ↔ 0 < blen l < List.last l 0.
Proof.
  unfold PKCS5UnPadding. destruct (decide _); [split; [done|lia]|].
  destruct (decide _); simpl; split; (done || lia).
Qed.

Lemma unpad_length l x : PKCS5UnPadding l = Ret x → (length x ≤ length l)%nat.
Proof.
  unfold PKCS5UnPadding. destruct (decide _); [done|]. destruct (decide _); [|done].
  intros [= <-]. rewrite length_take. lia.
Qed.

(** ** Properties *)

Section properties.
Context `{BlockCipherLaws}.

(** Under any valid AES key [AesEncrypt] succeeds on every byte string and
    [AesDecrypt] gives that byte string back; under any other key [AesEncrypt]
    returns the key-size error and produces nothing. *)
Theorem aes_roundtrip key x :
  bytes_ok key → bytes_ok x →
  (key_ok key → ∃ s, AesEncrypt x key = Ret s ∧ AesDecrypt s key = Ret x)
  ∧ (¬ key_ok key → AesEncrypt x key = Throw key_size_error).
Proof.
  intros Hkb Hx. split.
  - intros Hk. by apply aes_encrypt_total.
  - intros Hk. unfold AesEncrypt. by rewrite decide_False.
Qed.

(** What a token of the caller's choice does to [AesDecrypt] under a valid
    key: it panics exactly when the token is base64 of bytes that are not whole
    blocks, or of whole blocks whose last plaintext byte exceeds the plaintext's
    length; when it returns, the plaintext is no longer than the ciphertext. *)
Theorem AesDecrypt_panics key s :
  key_ok key →
  (is_panic (AesDecrypt s key) = true ↔
     ∃ ct, DecodeString s = Ret ct ∧
       ((length ct mod BlockSize)%nat ≠ 0%nat ∨
        (length ct mod BlockSize)%nat = 0%nat ∧
        0 < blen (cbc_plain key ct) < List.last (cbc_plain key ct) 0))
  ∧ (∀ ct x, DecodeString s = Ret ct → AesDecrypt s key = Ret x →
       (length x ≤ length (cbc_plain key ct))%nat).
Proof.
  intros Hk. unfold AesDecrypt, CryptBlocks.
  pose proof (DecodeString_no_panic s) as Hnp.
  destruct (DecodeString s) as [ct|e|p]; cbn [mbind outcome_bind] in *; [| |done].
  - rewrite decide_True by done. fold (cbc_plain key ct).
    destruct (decide _) as [Hm|Hm]; cbn [mbind outcome_bind].
    + split.
      * rewrite unpad_panic. split; [intros Hp; by exists ct; auto|].
        intros (ct' & [= <-] & [?|[_ ?]]); done.
      * intros ct' x [= <-] Hx. by apply unpad_length in Hx.
    + split; [|done]. split; [|done]. intros _. exists ct. auto.
  - split; [|done]. split; [done|]. by intros (ct & ? & _).
Qed.

End properties.

(** The roundtrip under the service's own key, and a token that is not whole blocks. *)
Theorem aes_roundtrip_witness :
  ∃ s, AesEncrypt (H := XorCipher.cipher) [1; 2; 3] AesKey = Ret s
       ∧ AesDecrypt (H := XorCipher.cipher) s AesKey = Ret [1; 2; 3].
Proof.
  apply (aes_roundtrip (H := XorCipher.cipher) AesKey [1; 2; 3]).
  - apply bytes_of_ok.
  - repeat constructor; done.
  - left. reflexivity.
Defined.

Theorem AesDecrypt_panics_witness :
  is_panic (AesDecrypt (H := XorCipher.cipher) "YQ==" AesKey) = true.
Proof.
  apply (AesDecrypt_panics (H := XorCipher.cipher) AesKey "YQ==").
  - left. reflexivity.
  - exists [97]. split; [vm_compute; reflexivity|]. left. vm_compute. discriminate.
Defined.
