(* ===== verification/Http.v ===== *)
(** * Http: reflected structs, requests and responses

    Go code reads struct types through [reflect]; here a struct type is a list
    of [structField]s and an instance of [Struct], which converts its values to
    and from lists of [gval]. The request and response halves of [net/http] and
    of the crab server the handlers use follow, and [DecodeRequestValue] of
    [util/utils.go], which fills a struct from a request. *)

From Stdlib Require Import ZArith Lia Ascii.
From stdpp Require Import base gmap strings list.
From S2P Require Import Prelude GoStrings.

(** ** Reflection *)

(** [reflect.Kind], as far as the program distinguishes it. *)
Inductive kind : Type := KInt | KInt8 | KInt64 | KBool | KString | KStruct | KSlice.

#[export] Instance kind_eq_dec : EqDecision kind.
Proof. solve_decision. Defined.

(** A field's name, kind and the tags the program looks up. *)
Record structField := mkField {
  f_name : string;
  f_kind : kind;
  f_db : string;
  f_db_default : string;
  f_json : string;
  f_valid : string
}.

(** A field's value. Nested structs and slices are never read by the code that
    is modelled generically over fields. *)
Inductive gval : Type :=
| VInt (z : Z)
| VBool (b : bool)
| VStr (s : string)
| VOther.

#[export] Instance gval_eq_dec : EqDecision gval.
Proof. solve_decision. Defined.

Definition zero_value (k : kind) : gval :=
  match k with
  | KInt | KInt8 | KInt64 => VInt 0
  | KBool => VBool false
  | KString => VStr ""
  | KStruct | KSlice => VOther
  end.

Definition kind_of (v : gval) (k : kind) : bool :=
  match v, k with
  | VInt _, (KInt | KInt8 | KInt64) => true
  | VBool _, KBool => true
  | VStr _, KString => true
  | VOther, (KStruct | KSlice) => true
  | _, _ => false
  end.

(** The range of an integer field. *)
Definition int_fits (k : kind) (z : Z) : bool :=
  match k with
  | KInt8 => bool_decide (-128 ≤ z ≤ 127)
  | _ => bool_decide (min_int64 ≤ z ≤ max_int64)
  end.

(** The interface between a struct type and the code that reflects on it. *)
Class Struct (T : Type) := {
  fields : list structField;
  to_vals : T → list gval;
  of_vals : list gval → option T
}.
Arguments fields T {_}.

Class StructLaws (T : Type) `{Struct T} := {
  of_to_vals (x : T) : of_vals (to_vals x) = Some x;
  to_vals_kinds (x : T) : Forall2 (λ v f, kind_of v (f_kind f) = true) (to_vals x) (fields T)
}.

(** ** Validation tags ([crab/validation], the tags the program uses) *)

(** The e-mail regular expression of the validation library. *)
Class EmailPattern := email_match : string → bool.

Definition alnum (a : ascii) : bool :=
  let n := N_of_ascii a in
  bool_decide ((65 ≤ n ≤ 90)%N ∨ (97 ≤ n ≤ 122)%N ∨ (48 ≤ n ≤ 57)%N).

Fixpoint all_alnum (s : string) : bool :=
  match s with
  | EmptyString => true
  | String a r => alnum a && all_alnum r
  end.

Section validation.
Context `{EmailPattern}.

Definition required_satisfied (v : gval) : bool :=
  match v with
  | VInt z => bool_decide (z ≠ 0)
  | VStr s => bool_decide (s ≠ "")
  | VBool _ | VOther => true
  end.

Definition alphanumeric_satisfied (v : gval) : bool :=
  match v with VStr s => all_alnum s | _ => false end.

Definition email_satisfied (v : gval) : bool :=
  match v with VStr s => email_match s | _ => false end.

Definition validation_error (f : structField) (msg : string) : goerror :=
  Errorf (f_name f +:+ " " +:+ msg).

Definition valid_field (f : structField) (v : gval) : outcome unit :=
  if decide (f_valid f = "") then Ret tt
  else if decide (f_valid f = "Required") then
    if required_satisfied v then Ret tt else Throw (validation_error f "Can not be empty")
  else if decide (f_valid f = "AlphaNumeric") then
    if alphanumeric_satisfied v then Ret tt
    else Throw (validation_error f "Must be valid alpha or numeric characters")
  else if decide (f_valid f = "Email") then
    if email_satisfied v then Ret tt else Throw (validation_error f "Must be a valid email address")
  else Throw (validation_error f "does not exist").

(** [Validation.Valid]: fields in order, the first failure is the result. *)
Fixpoint Valid (fs : list structField) (vs : list gval) : outcome unit :=
  match fs, vs with
  | f :: fs', v :: vs' => _ ← valid_field f v; Valid fs' vs'
  | _, _ => Ret tt
  end.
End validation.

(** ** Headers and form values *)

(** [textproto.CanonicalMIMEHeaderKey]: a letter is upper case at the start and
    after a dash, lower case elsewhere. *)
Fixpoint canonical_from (upper : bool) (s : string) : string :=
  match s with
  | EmptyString => ""
  | String a r =>
      String (if upper then upper_byte a else lower_byte a)
             (canonical_from (bool_decide (a = "-"%char)) r)
  end.

Definition CanonicalKey (k : string) : string := canonical_from true k.

Definition Values := gmap string (list string).

(** The first value of a key, or the empty string. *)
Definition values_get (v : gmap string (list string)) (k : string) : string :=
  match v !! k with
  | Some (x :: _) => x
  | _ => ""
  end.

Definition header_get (h : gmap string (list string)) (k : string) : string :=
  values_get h (CanonicalKey k).
Definition header_set (h : gmap string (list string)) (k v : string) : gmap string (list string) :=
  <[CanonicalKey k := [v]]> h.
Definition header_del (h : gmap string (list string)) (k : string) : gmap string (list string) :=
  delete (CanonicalKey k) h.

(** [r.Form]: body values come before URL values under the same key. *)
Definition merge_values (post query : gmap string (list string)) : gmap string (list string) :=
  union_with (λ a b, Some (a ++ b)%list) post query.

(** ** Requests *)

(** What a handler can observe of a request. [r_post] is what parsing the body
    as a form yields: the error [ParseForm] returns, or the body's values. *)
Record Request := mkRequest {
  r_method : string;
  r_path : string;
  r_query : gmap string (list string);
  r_header : gmap string (list string);
  r_post : outcome (gmap string (list string));
  r_body : outcome string
}.

(** [req.ParseForm()] followed by [req.FormValue(key)]. *)
Definition parsed_form (r : Request) : outcome (gmap string (list string)) :=
  post ← r_post r; Ret (merge_values post (r_query r)).

(** ** [util.DecodeRequestValue] *)

Section decode.
Context `{EmailPattern}.

Definition format_error (key val : string) : goerror :=
  Errorf ("key:" +:+ key +:+ " value:" +:+ val +:+ " format error").

(** [rv.Field(i).SetInt] and [SetString] panic on a struct that was not passed
    by pointer. *)
Definition set_field (addressable : bool) (v : gval) : outcome gval :=
  if addressable then Ret v
  else Panic "reflect: reflect.Value.Set using unaddressable value".

Definition decode_field (addressable : bool) (form : gmap string (list string))
    (f : structField) (old : gval) : outcome gval :=
  let key := if decide (f_json f = "") then f_name f else f_json f in
  let val := values_get form key in
  match f_kind f with
  | KInt | KInt64 =>
      match ParseInt val 10 with
      | (vi, None) => set_field addressable (VInt vi)
      | (_, Some _) => if decide (f_valid f = "") then Ret old else Throw (format_error key val)
      end
  | KString => set_field addressable (VStr val)
  | _ => Ret old
  end.

Fixpoint decode_fields (addressable : bool) (form : gmap string (list string))
    (fs : list structField) (vs : list gval) : outcome (list gval) :=
  match fs, vs with
  | f :: fs', v :: vs' =>
      x ← decode_field addressable form f v;
      xs ← decode_fields addressable form fs' vs';
      Ret (x :: xs)
  | _, _ => Ret []
  end.

(** The form is parsed, every field is set in order, then the whole struct is
    validated. [addressable] says whether the caller passed a pointer. *)
Definition DecodeRequestValue (addressable : bool) (fs : list structField) (old : list gval)
    (r : Request) : outcome (list gval) :=
  form ← parsed_form r;
  vs ← decode_fields addressable form fs old;
  _ ← Valid fs vs;
  Ret vs.
End decode.

(** A handler's [vars]: an anonymous struct of integers and strings keyed by
    [json] names, starting from zero values. *)
Definition var_int (json : string) : structField := mkField "" KInt64 "" "" json "".
Definition var_str (json : string) : structField := mkField "" KString "" "" json "".
Definition zero_vals (fs : list structField) : list gval := zero_value ∘ f_kind <$> fs.

(** [server.ParseURLVars]: [FormValue] drops the errors of parsing. *)
Definition ParseURLVars `{EmailPattern} (fs : list structField) (r : Request) : outcome (list gval) :=
  let form := merge_values (match r_post r with Ret p => p | _ => ∅ end) (r_query r) in
  vs ← decode_fields true form fs (zero_vals fs);
  _ ← Valid fs vs;
  Ret vs.

Definition nth_int (vs : list gval) (i : nat) : Z :=
  match vs !! i with Some (VInt z) => z | _ => 0 end.
Definition nth_str (vs : list gval) (i : nat) : string :=
  match vs !! i with Some (VStr s) => s | _ => "" end.

(** ** Responses *)

Definition StatusOK : Z := 200.
Definition StatusBadRequest : Z := 400.
Definition StatusForbidden : Z := 403.
Definition StatusNotFound : Z := 404.
Definition StatusInternalServerError : Z := 500.

(** A JSON document ([Json] prints and parses it). A number keeps its literal, which is converted when it is stored. *)
Inductive json : Type :=
| JNull
| JBool (b : bool)
| JNum (lit : string)
| JStr (s : string)
| JArr (l : list json)
| JObj (l : list (string * json)).

(** What a handler marshals to JSON. *)
Inductive payload : Type :=
| PNull
| PVal (v : gval)
| PRow (fs : list structField) (row : list gval)
| PRows (fs : list structField) (rows : list (list gval))
| PJson (v : json).

(** One write to the response: [SendResponse], [SendResponseData],
    [SendResponseOK], [SendRows], [SendData] (also [SendResponseJSON]), a bare
    [WriteHeader], and raw bytes. *)
Inductive reply : Type :=
| SendResponse (status : Z) (msg : string)
| SendResponseData (d : payload)
| SendResponseOK
| SendRows (total : Z) (d : payload)
| SendData (d : payload)
| WriteHeader (code : Z)
| WriteText (s : string).
