(* ===== verification/Json.v ===== *)
(** * Json: documents

    What the program uses of [encoding/json]: [Marshal] on objects, slices,
    strings and integers, and [Unmarshal] into structs, with the treatment of
    bytes that are not UTF-8, of escapes and surrogates, of keys that differ in
    case and of values of the wrong type. Printing and then parsing a document
    gives it back. *)

From Stdlib Require Import ZArith NArith Lia Ascii.
From stdpp Require Import base strings list.
From S2P Require Import Prelude GoStrings Http.

Definition JInt (z : Z) : json := JNum (itoa z).

(** ** UTF-8 *)

Definition byte_between (lo hi : N) (a : ascii) : bool :=
  bool_decide (lo ≤ N_of_ascii a ≤ hi)%N.

Definition continuation (a : ascii) : bool := byte_between 128 191 a.

(** The bytes that may follow the first one of a rune. *)
Definition second_byte (a b : ascii) : bool :=
  let n := N_of_ascii a in
  if decide (n = 224)%N then byte_between 160 191 b
  else if decide (n = 237)%N then byte_between 128 159 b
  else if decide (n = 240)%N then byte_between 144 191 b
  else if decide (n = 244)%N then byte_between 128 143 b
  else continuation b.

(** The length of the rune in front, 0 when the bytes are no rune. *)
Definition rune_len (s : string) : nat :=
  match s with
  | EmptyString => 0
  | String a r =>
      if byte_between 0 127 a then 1 else
      match r with
      | EmptyString => 0
      | String b r2 =>
          if byte_between 194 223 a then if continuation b then 2 else 0 else
          match r2 with
          | EmptyString => 0
          | String c r3 =>
              if byte_between 224 239 a then if second_byte a b && continuation c then 3 else 0 else
              match r3 with
              | EmptyString => 0
              | String d _ =>
                  if byte_between 240 244 a && second_byte a b && continuation c && continuation d
                  then 4 else 0
              end
          end
      end
  end%nat.

Definition byte (n : N) : ascii := ascii_of_N n.

(** U+FFFD, U+2028 and U+2029. *)
Definition replacement : string := String (byte 239) (String (byte 191) (String (byte 189) "")).
Definition line_sep : string := String (byte 226) (String (byte 128) (String (byte 168) "")).
Definition par_sep : string := String (byte 226) (String (byte 128) (String (byte 169) "")).

Definition encode_rune (n : N) : string :=
  if decide (n < 128)%N then String (byte n) ""
  else if decide (n < 2048)%N then
    String (byte (192 + n / 64)) (String (byte (128 + n mod 64)) "")
  else if decide (n < 65536)%N then
    String (byte (224 + n / 4096)) (String (byte (128 + n / 64 mod 64)) (String (byte (128 + n mod 64)) ""))
  else
    String (byte (240 + n / 262144)) (String (byte (128 + n / 4096 mod 64))
      (String (byte (128 + n / 64 mod 64)) (String (byte (128 + n mod 64)) ""))).

(** ** Printing *)

Definition dquote : ascii := "034"%char.
Definition backslash : ascii := "\"%char.

Definition hex2 (n : N) : string := String (digit_char (n / 16)) (String (digit_char (n mod 16)) "").

(** [<], [>] and [&] are escaped as for embedding in HTML. *)
Definition quote_byte (a : ascii) : string :=
  let n := N_of_ascii a in
  if decide (a = dquote ∨ a = backslash) then String backslash (String a "")
  else if decide (n = 10)%N then "\n"
  else if decide (n = 13)%N then "\r"
  else if decide (n = 9)%N then "\t"
  else if decide (n < 32 ∨ n = 38 ∨ n = 60 ∨ n = 62)%N then "\u00" +:+ hex2 n
  else String a "".

Definition quote_rune (c : string) : string :=
  match c with
  | String a EmptyString => quote_byte a
  | _ => if decide (c = line_sep) then "\u2028" else if decide (c = par_sep) then "\u2029" else c
  end.

Fixpoint quote_from (fuel : nat) (s : string) : string :=
  match fuel with
  | O => ""
  | S f =>
      match s with
      | EmptyString => ""
      | String _ _ =>
          match rune_len s with
          | O => "\ufffd" +:+ quote_from f (drop_bytes 1 s)
          | k => quote_rune (take_bytes k s) +:+ quote_from f (drop_bytes k s)
          end
      end
  end.

Definition quote_body (s : string) : string := quote_from (String.length s) s.
Definition quote (s : string) : string := String dquote (quote_body s +:+ String dquote "").

Fixpoint print (v : json) : string :=
  match v with
  | JNull => "null"
  | JBool b => if b then "true" else "false"
  | JNum lit => lit
  | JStr s => quote s
  | JArr l => "[" +:+ Join "," (map print l) +:+ "]"
  | JObj l => "{" +:+ Join "," (map (λ kv, quote (fst kv) +:+ ":" +:+ print (snd kv)) l) +:+ "}"
  end.

(** ** Parsing *)

Definition hex4 (s : string) : option (N * string) :=
  match s with
  | String a (String b (String c (String d r))) =>
      match digit_val 16 a, digit_val 16 b, digit_val 16 c, digit_val 16 d with
      | Some w, Some x, Some y, Some z => Some ((((w * 16 + x) * 16 + y) * 16 + z)%N, r)
      | _, _, _, _ => None
      end
  | _ => None
  end.

(** The rune an escape stands for: a surrogate half needs the other half right
    behind it, and is U+FFFD without it. *)
Definition unescape_rune (n : N) (r : string) : string * string :=
  if decide (55296 ≤ n < 57344)%N then
    match r with
    | String "\" (String "u" r1) =>
        match hex4 r1 with
        | Some (m, r2) =>
            if decide (n < 56320 ∧ 56320 ≤ m < 57344)%N
            then (encode_rune ((n - 55296) * 1024 + (m - 56320) + 65536)%N, r2)
            else (replacement, r)
        | None => (replacement, r)
        end
    | _ => (replacement, r)
    end
  else (encode_rune n, r).

Definition simple_escape (e : ascii) : option ascii :=
  if decide (e = dquote ∨ e = backslash ∨ e = "/"%char) then Some e
  else if decide (e = "b"%char) then Some (byte 8)
  else if decide (e = "f"%char) then Some (byte 12)
  else if decide (e = "n"%char) then Some (byte 10)
  else if decide (e = "r"%char) then Some (byte 13)
  else if decide (e = "t"%char) then Some (byte 9)
  else None.

Definition prepend (c : string) (o : option (string * string)) : option (string * string) :=
  match o with Some (s, r) => Some (c +:+ s, r) | None => None end.

(** The rest of a string after its opening quote, and what follows it. *)
Fixpoint scan_string (fuel : nat) (s : string) : option (string * string) :=
  match fuel with
  | O => None
  | S f =>
      match s with
      | EmptyString => None
      | String a r =>
          if decide (a = dquote) then Some ("", r)
          else if decide (a = backslash) then
            match r with
            | EmptyString => None
            | String e r1 =>
                if decide (e = "u"%char) then
                  match hex4 r1 with
                  | Some (n, r2) =>
                      let '(c, r3) := unescape_rune n r2 in prepend c (scan_string f r3)
                  | None => None
                  end
                else
                  match simple_escape e with
                  | Some c => prepend (String c "") (scan_string f r1)
                  | None => None
                  end
            end
          else if byte_between 0 31 a then None
          else
            match rune_len s with
            | O => prepend replacement (scan_string f r)
            | k => prepend (take_bytes k s) (scan_string f (drop_bytes k s))
            end
      end
  end.

Definition parse_string (s : string) : option (string * string) :=
  scan_string (S (String.length s)) s.

Definition json_space (a : ascii) : bool :=
  bool_decide (N_of_ascii a ∈ [32; 9; 10; 13]%N).

Fixpoint skip_space (s : string) : string :=
  match s with
  | EmptyString => ""
  | String a r => if json_space a then skip_space r else s
  end.

Definition digit (a : ascii) : bool := byte_between 48 57 a.

Fixpoint digits (s : string) : string * string :=
  match s with
  | EmptyString => ("", "")
  | String a r => if digit a then let '(d, t) := digits r in (String a d, t) else ("", s)
  end.

(** The integer part of a number: no leading zero. *)
Definition int_part (s : string) : option (string * string) :=
  match s with
  | String "0" r => Some ("0", r)
  | _ => match digits s with ("", _) => None | p => Some p end
  end.

Definition frac_part (s : string) : option (string * string) :=
  match s with
  | String "." r => match digits r with ("", _) => None | (d, t) => Some ("." +:+ d, t) end
  | _ => Some ("", s)
  end.

Definition exp_part (s : string) : option (string * string) :=
  match s with
  | String e r =>
      if decide (e = "e"%char ∨ e = "E"%char) then
        let '(sg, r1) := match r with
                         | String "+" t => ("+", t) | String "-" t => ("-", t) | _ => ("", r) end in
        match digits r1 with ("", _) => None | (d, t) => Some (String e (sg +:+ d), t) end
      else Some ("", s)
  | EmptyString => Some ("", "")
  end.

Definition parse_number (s : string) : option (string * string) :=
  let '(sg, r) := match s with String "-" t => ("-", t) | _ => ("", s) end in
  p ← int_part r;
  q ← frac_part (snd p);
  e ← exp_part (snd q);
  Some (sg +:+ fst p +:+ fst q +:+ fst e, snd e).

Definition literal (l s : string) (v : json) : option (json * string) :=
  if HasPrefix s l then Some (v, drop_bytes (String.length l) s) else None.

(** A value, the members of an object after its brace, the items of an array
    after its bracket. *)
Fixpoint parse_value (fuel : nat) (s : string) : option (json * string) :=
  match fuel with
  | O => None
  | S f =>
      match skip_space s with
      | EmptyString => None
      | String a r =>
          if decide (a = dquote) then p ← parse_string r; Some (JStr (fst p), snd p)
          else if decide (a = "{"%char) then
            match skip_space r with
            | String "}" r' => Some (JObj [], r')
            | _ => p ← parse_members f r; Some (JObj (fst p), snd p)
            end
          else if decide (a = "["%char) then
            match skip_space r with
            | String "]" r' => Some (JArr [], r')
            | _ => p ← parse_items f r; Some (JArr (fst p), snd p)
            end
          else if decide (a = "t"%char) then literal "true" (String a r) (JBool true)
          else if decide (a = "f"%char) then literal "false" (String a r) (JBool false)
          else if decide (a = "n"%char) then literal "null" (String a r) JNull
          else p ← parse_number (String a r); Some (JNum (fst p), snd p)
      end
  end
with parse_members (fuel : nat) (s : string) : option (list (string * json) * string) :=
  match fuel with
  | O => None
  | S f =>
      match skip_space s with
      | String a r =>
          if decide (a = dquote) then
            k ← parse_string r;
            match skip_space (snd k) with
            | String ":" r1 =>
                v ← parse_value f r1;
                match skip_space (snd v) with
                | String "," r2 =>
                    p ← parse_members f r2; Some ((fst k, fst v) :: fst p, snd p)
                | String "}" r2 => Some ([(fst k, fst v)], r2)
                | _ => None
                end
            | _ => None
            end
          else None
      | EmptyString => None
      end
  end
with parse_items (fuel : nat) (s : string) : option (list json * string) :=
  match fuel with
  | O => None
  | S f =>
      v ← parse_value f s;
      match skip_space (snd v) with
      | String "," r => p ← parse_items f r; Some (fst v :: fst p, snd p)
      | String "]" r => Some ([fst v], r)
      | _ => None
      end
  end.

Definition invalid_json : goerror := Errorf "invalid JSON".

(** The whole text is one value. A value takes at most two units of fuel per
    byte. *)
Definition parse_json (s : string) : goerror + json :=
  match parse_value (2 * String.length s + 2) s with
  | Some (v, r) => if decide (skip_space r = "") then inr v else inl invalid_json
  | None => inl invalid_json
  end.

(** ** Structs *)

Definition json_name (f : structField) : string :=
  if decide (f_json f = "") then f_name f else f_json f.

Definition encode_gval (v : gval) : json :=
  match v with
  | VInt z => JInt z
  | VBool b => JBool b
  | VStr s => JStr s
  | VOther => JNull
  end.

(** [json.Marshal] of a struct. *)
Definition encode_object (fs : list structField) (vs : list gval) : json :=
  JObj (zip_with (λ f v, (json_name f, encode_gval v)) fs vs).

(** Keys are compared with case folding, for which U+212A is a [k] and U+017F an
    [s]. *)
Fixpoint fold_key (s : string) : string :=
  match s with
  | EmptyString => ""
  | String "226" (String "132" (String "170" r)) => String "k" (fold_key r)
  | String "197" (String "191" r) => String "s" (fold_key r)
  | String a r => String (lower_byte a) (fold_key r)
  end.

Fixpoint index_where {A} (P : A → bool) (l : list A) : option nat :=
  match l with
  | [] => None
  | x :: r => if P x then Some 0%nat else S <$> index_where P r
  end.

(** A field of that very name, or else the first one up to case. *)
Definition find_field (fs : list structField) (key : string) : option nat :=
  match index_where (λ f, bool_decide (json_name f = key)) fs with
  | Some i => Some i
  | None => index_where (λ f, bool_decide (fold_key (json_name f) = fold_key key)) fs
  end.

Definition type_error : goerror := Errorf "json: cannot unmarshal value into Go struct field".

(** A value stored in a field: [null] leaves it alone, and so does a value of
    the wrong type, which is reported. Fields that are structs or slices are
    decoded by their owner. *)
Definition store (k : kind) (v : json) (old : gval) : gval * option goerror :=
  match v, k with
  | JNull, _ => (old, None)
  | JBool b, KBool => (VBool b, None)
  | JStr s, KString => (VStr s, None)
  | JNum lit, (KInt | KInt8 | KInt64) =>
      match ParseInt lit 10 with
      | (z, None) => if int_fits k z then (VInt z, None) else (old, Some type_error)
      | (_, Some _) => (old, Some type_error)
      end
  | JObj _, KStruct => (old, None)
  | JArr _, KSlice => (old, None)
  | _, _ => (old, Some type_error)
  end.

Definition first_error (a b : option goerror) : option goerror :=
  match a with Some _ => a | None => b end.

Definition store_member (fs : list structField) (acc : list gval * option goerror)
    (kv : string * json) : list gval * option goerror :=
  match find_field fs (fst kv) with
  | None => acc
  | Some i =>
      match fs !! i, fst acc !! i with
      | Some f, Some old =>
          let '(v, e) := store (f_kind f) (snd kv) old in
          (<[i := v]> (fst acc), first_error (snd acc) e)
      | _, _ => acc
      end
  end.

(** Members are stored in the order of the document; the first error is the one
    returned, and what was stored stays. *)
Definition decode_object (fs : list structField) (v : json) (old : list gval)
    : list gval * option goerror :=
  match v with
  | JObj ms => foldl (store_member fs) (old, None) ms
  | JNull => (old, None)
  | _ => (old, Some type_error)
  end.

Definition decode_slice (fs : list structField) (v : json) : list (list gval) * option goerror :=
  match v with
  | JArr l =>
      let rs := (λ x, decode_object fs x (zero_vals fs)) <$> l in
      (fst <$> rs, foldl (λ e r, first_error e (snd r)) None rs)
  | JNull => ([], None)
  | _ => ([], Some type_error)
  end.

(** [json.Unmarshal] into a struct, and into a slice of structs. *)
Definition Unmarshal_struct (fs : list structField) (old : list gval) (text : string)
    : list gval * option goerror :=
  match parse_json text with
  | inr v => decode_object fs v old
  | inl e => (old, Some e)
  end.

Definition Unmarshal_slice (fs : list structField) (text : string)
    : list (list gval) * option goerror :=
  match parse_json text with
  | inr v => decode_slice fs v
  | inl e => ([], Some e)
  end.

(** ** Lemmas: strings *)

(** The bytes are UTF-8. *)
Fixpoint utf8_from (fuel : nat) (s : string) : bool :=
  match fuel with
  | O => bool_decide (s = "")
  | S f =>
      match s with
      | EmptyString => true
      | String _ _ => match rune_len s with O => false | k => utf8_from f (drop_bytes k s) end
      end
  end.

Definition utf8 (s : string) : bool := utf8_from (String.length s) s.

Ltac rune_cases :=
  repeat match goal with
    | |- context [if ?b then _ else _] => destruct b eqn:?
    | H : context [if ?b then _ else _] |- _ => destruct b eqn:?
    end.

Lemma rune_len_app c x : rune_len c ≠ 0%nat → rune_len (c +:+ x) = rune_len c.
Proof.
  destruct c as [|a [|b [|c [|d r]]]]; intros Hn; try done; cbn [rune_len] in Hn |- *;
    rewrite ?str_app_cons; cbn [rune_len]; rune_cases; try done.
Qed.

Lemma rune_len_take s k : rune_len s = S k → rune_len (take_bytes (S k) s) = S k.
Proof.
  destruct s as [|a [|b [|c [|d r]]]]; intros Hn; try done; cbn [rune_len] in Hn;
    rune_cases; try done; injection Hn as <-; cbn [take_bytes rune_len];
    repeat match goal with H : ?b = _ |- context [?b] => rewrite H end; try done.
Qed.

Lemma rune_len_le s : (rune_len s ≤ String.length s)%nat.
Proof.
  destruct s as [|a [|b [|c [|d r]]]]; cbn [rune_len String.length]; rune_cases; simpl; lia.
Qed.

Lemma take_drop s k : take_bytes k s +:+ drop_bytes k s = s.
Proof.
  revert s. induction k as [|k IH]; intros s; [by destruct s|].
  destruct s as [|a s]; [done|]. simpl. by rewrite str_app_cons, IH.
Qed.

Lemma length_take s k : (k ≤ String.length s)%nat → String.length (take_bytes k s) = k.
Proof.
  revert s. induction k as [|k IH]; intros s Hk; [by destruct s|].
  destruct s as [|a s]; simpl in *; [lia|]. rewrite IH; lia.
Qed.

Lemma length_drop_bytes s k : String.length (drop_bytes k s) = (String.length s - k)%nat.
Proof.
  revert s. induction k as [|k IH]; intros s; [destruct s; simpl; lia|].
  destruct s as [|a s]; [done|]. simpl. apply IH.
Qed.

(** The first byte of a longer rune is no ASCII byte. *)
Lemma rune_first a b r :
  rune_len (String a (String b r)) = S (S (String.length r)) → byte_between 0 127 a = false.
Proof. cbn [rune_len]. destruct (byte_between 0 127 a); [discriminate|done]. Qed.

Lemma high_byte a : byte_between 0 127 a = false →
  a ≠ dquote ∧ a ≠ backslash ∧ byte_between 0 31 a = false.
Proof.
  unfold byte_between. intros Ha. apply bool_decide_eq_false in Ha. split_and!.
  - intros ->. apply Ha. vm_compute. split; discriminate.
  - intros ->. apply Ha. vm_compute. split; discriminate.
  - apply bool_decide_eq_false. lia.
Qed.

(** One rune, escaped and read back. *)
Lemma scan_quote_byte a f x :
  byte_between 0 127 a = true →
  scan_string (S f) (quote_byte a +:+ x) = prepend (String a "") (scan_string f x).
Proof. destruct a as [[] [] [] [] [] [] [] []]; intros Ha; first [discriminate Ha|reflexivity]. Qed.

Lemma scan_quote_rune c f x :
  c ≠ "" → rune_len c = String.length c →
  scan_string (S f) (quote_rune c +:+ x) = prepend c (scan_string f x).
Proof.
  intros Hne Hc. destruct c as [|a [|b r]]; [done| |].
  - apply scan_quote_byte. cbn in Hc. by destruct (byte_between 0 127 a).
  - cbn [String.length] in Hc. pose proof (rune_first a b r Hc) as Ha.
    cbn [quote_rune]. destruct (decide _) as [->|_]; [reflexivity|].
    destruct (decide _) as [->|_]; [reflexivity|].
    destruct (high_byte a Ha) as (H1 & H2 & H3).
    change (String a (String b r) +:+ x) with (String a (String b r +:+ x)).
    cbn [scan_string]. rewrite decide_False, decide_False, H3 by done.
    change (String a (String b r +:+ x)) with (String a (String b r) +:+ x).
    rewrite rune_len_app by (rewrite Hc; discriminate). rewrite Hc.
    change (S (S (String.length r))) with (String.length (String a (String b r))).
    by rewrite take_bytes_app, drop_bytes_app.
Qed.

Lemma quote_rune_length c : c ≠ "" → (1 ≤ String.length (quote_rune c))%nat.
Proof.
  destruct c as [|a [|b r]]; intros Hc; [done| |].
  - unfold quote_rune, quote_byte. repeat case_decide; simpl; lia.
  - cbn [quote_rune]. repeat case_decide; simpl; lia.
Qed.

Lemma scan_quote_from n f s x :
  (String.length s ≤ n)%nat → utf8_from n s = true →
  (String.length (quote_from n s) < f)%nat →
  scan_string f (quote_from n s +:+ String dquote x) = Some (s, x).
Proof.
  revert s f. induction n as [|n IH]; intros s f Hl Hu Hf.
  { destruct s; simpl in Hl; [|lia]. destruct f; simpl in *; [lia|]. done. }
  destruct s as [|a r]; [destruct f; simpl in *; [lia|done]|].
  cbn [utf8_from quote_from] in *. set (s := String a r) in *.
  destruct (rune_len s) as [|k] eqn:Ek; [done|].
  assert (Hk : (S k ≤ String.length s)%nat) by (rewrite <-Ek; apply rune_len_le).
  assert (Hc : rune_len (take_bytes (S k) s) = String.length (take_bytes (S k) s)).
  { rewrite (rune_len_take s k Ek). by rewrite length_take. }
  assert (Hne : take_bytes (S k) s ≠ "") by done.
  rewrite length_str_app in Hf. pose proof (quote_rune_length _ Hne) as Hq.
  destruct f as [|f]; [lia|]. rewrite <-str_app_assoc, scan_quote_rune by done.
  rewrite (IH _ f); [|rewrite length_drop_bytes; lia|done|lia].
  cbn [prepend]. by rewrite take_drop.
Qed.

Lemma parse_quote s x :
  utf8 s = true → parse_string (quote_body s +:+ String dquote x) = Some (s, x).
Proof.
  intros Hs. unfold parse_string, quote_body. apply scan_quote_from; [done|done|].
  rewrite length_str_app. lia.
Qed.

(** ** Lemmas: documents *)

(** Induction that goes under the lists of arrays and objects. *)
Section json_induction.
Context (P : json → Prop).
Context (Hnull : P JNull) (Hbool : ∀ b, P (JBool b)) (Hnum : ∀ n, P (JNum n)) (Hstr : ∀ s, P (JStr s)).
Context (Harr : ∀ l, Forall P l → P (JArr l)) (Hobj : ∀ l, Forall (λ kv, P (snd kv)) l → P (JObj l)).

Fixpoint json_nested_ind (v : json) : P v :=
  match v with
  | JNull => Hnull
  | JBool b => Hbool b
  | JNum n => Hnum n
  | JStr s => Hstr s
  | JArr l => Harr l ((fix go (l : list json) : Forall P l :=
      match l with [] => Forall_nil_2 P | x :: r => Forall_cons_2 P x r (json_nested_ind x) (go r) end) l)
  | JObj l => Hobj l ((fix go (l : list (string * json)) : Forall (λ kv, P (snd kv)) l :=
      match l with
      | [] => Forall_nil_2 _
      | x :: r => Forall_cons_2 _ x r (json_nested_ind (snd x)) (go r)
      end) l)
  end.
End json_induction.

(** Documents the program writes: UTF-8 strings and printed integers. *)
Fixpoint printable (v : json) : Prop :=
  match v with
  | JNull | JBool _ => True
  | JNum lit => ∃ z, lit = itoa z
  | JStr s => utf8 s = true
  | JArr l => (fix go (l : list json) := match l with [] => True | x :: r => printable x ∧ go r end) l
  | JObj l => (fix go (l : list (string * json)) :=
      match l with [] => True | x :: r => (utf8 (fst x) = true ∧ printable (snd x)) ∧ go r end) l
  end.

Lemma printable_arr l : printable (JArr l) ↔ Forall printable l.
Proof. induction l as [|x l IH]; [done|]. rewrite Forall_cons_iff, <-IH. done. Qed.

Lemma printable_obj l :
  printable (JObj l) ↔ Forall (λ kv, utf8 (fst kv) = true ∧ printable (snd kv)) l.
Proof. induction l as [|x l IH]; [done|]. rewrite Forall_cons_iff, <-IH. done. Qed.

Definition sum_nat (l : list nat) : nat := foldr Nat.add 0%nat l.

(** The fuel a printed document needs. *)
Fixpoint size (v : json) : nat :=
  match v with
  | JArr l => S (sum_nat (map (λ x, S (size x)) l))
  | JObj l => S (sum_nat (map (λ kv, S (size (snd kv))) l))
  | _ => 1
  end%nat.

(** What may follow a value: nothing that continues a number. *)
Definition ends_value (x : string) : Prop :=
  match x with EmptyString => True | String a _ => a = ","%char ∨ a = "}"%char ∨ a = "]"%char end.

Lemma digit_val_digit a : is_Some (digit_val 10 a) → digit a = true ∧ a ≠ "-"%char.
Proof.
  destruct a as [[] [] [] [] [] [] [] []]; intros [v Hv]; first [discriminate Hv|split; [reflexivity|discriminate]].
Qed.

Lemma digits_app d x : all_digits 10 d = true → ends_value x → digits (d +:+ x) = (d, x).
Proof.
  intros Hd Hx. induction d as [|a d IH].
  - destruct x as [|b x]; [done|]. by destruct Hx as [->|[->| ->]].
  - simpl in Hd. apply andb_prop in Hd as [Ha Hd]. apply bool_decide_eq_true in Ha.
    rewrite str_app_cons. simpl. rewrite (proj1 (digit_val_digit a Ha)). by rewrite IH.
Qed.

(** A printed number does not start with a zero, unless it is zero. *)
Lemma render_leading fuel n s a r :
  (N.to_nat (N.log2 n) < fuel)%nat → render_digits fuel 10 n s = String a r →
  a = "0"%char → n = 0%N.
Proof.
  revert n s. induction fuel as [|f IH]; intros n s Hf; [lia|]. cbn [render_digits].
  case_decide as Hn.
  - intros [= <- _] Ha. rewrite N.mod_small in Ha by done.
    assert (Hd : digit_val 10 (digit_char n) = Some 0%N) by by rewrite Ha.
    rewrite digit_val_char in Hd by lia. by injection Hd.
  - intros Hr Ha. apply IH in Hr; [|pose proof (log2_div n 10 ltac:(lia) ltac:(lia)); lia|done].
    exfalso. assert (1 ≤ n / 10)%N by (apply N.div_le_lower_bound; lia). lia.
Qed.

Lemma int_part_render n x : ends_value x → int_part (render_N 10 n +:+ x) = Some (render_N 10 n, x).
Proof.
  intros Hx. destruct (render_N_digit 10 n ltac:(lia)) as (a & r & E & Ha).
  assert (Hd : all_digits 10 (render_N 10 n) = true) by by apply all_digits_render.
  destruct (decide (a = "0"%char)) as [->|Hne].
  - assert (n = 0%N) as -> by (eapply render_leading; [|exact E|done]; lia). done.
  - pose proof (digits_app _ x Hd Hx) as Hdg. rewrite E in Hdg |- *. rewrite str_app_cons in Hdg |- *.
    unfold int_part. destruct a as [[] [] [] [] [] [] [] []]; first [by rewrite Hdg|done].
Qed.

Lemma parse_number_itoa z x : ends_value x → parse_number (itoa z +:+ x) = Some (itoa z, x).
Proof.
  intros Hx. assert (Hf : frac_part x = Some ("", x)).
  { destruct x as [|b x]; [done|]. by destruct Hx as [->|[->| ->]]. }
  assert (He : exp_part x = Some ("", x)).
  { destruct x as [|b x]; [done|]. by destruct Hx as [->|[->| ->]]. }
  unfold itoa, render_Z. case_decide as Hz.
  - rewrite str_app_cons. unfold parse_number. rewrite int_part_render by done.
    simpl. rewrite Hf. simpl. rewrite He. simpl. by rewrite !str_app_nil_r.
  - destruct (render_N_digit 10 (Z.to_N z) ltac:(lia)) as (a & r & E & Ha).
    pose proof (int_part_render (Z.to_N z) x Hx) as Hi. rewrite E in Hi |- *.
    rewrite str_app_cons in Hi |- *. unfold parse_number.
    assert (Hm : a ≠ "-"%char) by by apply digit_val_digit.
    assert (Hs : ∀ X : string, match String a X with String "-" t => ("-", t) | _ => ("", String a X) end
      = ("", String a X)) by by (intros; destruct a as [[] [] [] [] [] [] [] []]).
    rewrite Hs. cbn [fst snd]. rewrite Hi. simpl. rewrite Hf. simpl. rewrite He. simpl.
    by rewrite !str_app_nil_r.
Qed.

Lemma skip_space_head a r : json_space a = false → skip_space (String a r) = String a r.
Proof. intros Ha. simpl. by rewrite Ha. Qed.

(** How a printed value begins. *)
Lemma print_head v :
  printable v → ∃ a r, print v = String a r ∧ json_space a = false ∧ a ≠ "]"%char.
Proof.
  destruct v as [|[]|lit|s|l|l]; intros Hp.
  1-3: by eexists _, _.
  - destruct Hp as [z ->]. unfold itoa, render_Z. case_decide; [by eexists _, _|].
    destruct (render_N_digit 10 (Z.to_N z) ltac:(lia)) as (a & r & E & Ha). exists a, r.
    split; [done|]. destruct a as [[] [] [] [] [] [] [] []], Ha as [d Hd];
      first [discriminate Hd|split; [reflexivity|discriminate]].
  - eexists _, _. split; [reflexivity|]. by split.
  - eexists _, _. split; [reflexivity|]. by split.
  - eexists _, _. split; [reflexivity|]. by split.
Qed.

Lemma parse_value_num f z x :
  ends_value x → parse_value (S f) (itoa z +:+ x) = Some (JNum (itoa z), x).
Proof.
  intros Hx. pose proof (parse_number_itoa z x Hx) as Hn.
  assert (Hh : ∃ a r, itoa z = String a r ∧ (a = "-"%char ∨ is_Some (digit_val 10 a))).
  { unfold itoa, render_Z. case_decide; [by eexists _, _; eauto|].
    destruct (render_N_digit 10 (Z.to_N z) ltac:(lia)) as (a & r & E & Ha). eauto. }
  destruct Hh as (a & r & E & Ha). rewrite E in Hn |- *. rewrite str_app_cons in Hn |- *.
  assert (Hc : json_space a = false ∧ a ≠ dquote ∧ a ≠ "{"%char ∧ a ≠ "["%char ∧ a ≠ "t"%char
    ∧ a ≠ "f"%char ∧ a ≠ "n"%char).
  { destruct Ha as [->|[d Hd]]; [by split_and!|].
    destruct a as [[] [] [] [] [] [] [] []]; first [discriminate Hd|split_and!; (reflexivity||discriminate)]. }
  destruct Hc as (H1 & H2 & H3 & H4 & H5 & H6 & H7).
  cbn [parse_value]. rewrite skip_space_head by done. rewrite !decide_False by done. by rewrite Hn.
Qed.

Definition parses_back (v : json) : Prop :=
  ∀ fuel x, (size v ≤ fuel)%nat → ends_value x → parse_value fuel (print v +:+ x) = Some (v, x).

Lemma parse_items_print l fuel x :
  l ≠ [] → Forall parses_back l → (sum_nat (map (λ v, S (size v)) l) ≤ fuel)%nat →
  parse_items fuel (Join "," (map print l) +:+ String "]" x) = Some (l, x).
Proof.
  intros Hne HF. revert fuel. induction HF as [|v l Hv HF IH]; intros fuel Hf; [done|].
  cbn [map sum_nat foldr] in Hf. destruct fuel as [|fuel]; [lia|].
  destruct l as [|w l].
  - cbn [map Join parse_items]. rewrite Hv; [done|simpl in Hf; lia|simpl; auto].
  - cbn [map parse_items]. rewrite Join_cons, <-str_app_assoc, str_app_cons.
    rewrite Hv; [|simpl in Hf; lia|simpl; auto]. cbn [mbind option_bind fst snd].
    rewrite skip_space_head by done. specialize (IH ltac:(done) fuel). cbn [map] in IH.
    rewrite IH; [done|unfold sum_nat in *; simpl in *; lia].
Qed.

Lemma parse_members_print l fuel x :
  l ≠ [] → Forall (λ kv, utf8 (fst kv) = true ∧ parses_back (snd kv)) l →
  (sum_nat (map (λ kv, S (size (snd kv))) l) ≤ fuel)%nat →
  parse_members fuel (Join "," (map (λ kv, quote (fst kv) +:+ ":" +:+ print (snd kv)) l)
                      +:+ String "}" x) = Some (l, x).
Proof.
  intros Hne HF. revert fuel. induction HF as [|[k v] l [Hk Hv] HF IH]; intros fuel Hf; [done|].
  cbn [map sum_nat foldr fst snd] in *. destruct fuel as [|fuel]; [lia|].
  assert (Hstep : ∀ rest, parse_members (S fuel) ((quote k +:+ ":" +:+ print v) +:+ rest) =
    match parse_value fuel (print v +:+ rest) with
    | Some (w, r) => match skip_space r with
        | String "," r2 => p ← parse_members fuel r2; Some ((k, w) :: fst p, snd p)
        | String "}" r2 => Some ([(k, w)], r2)
        | _ => None end
    | None => None end).
  { intros rest. unfold quote. rewrite !str_app_cons. cbn [parse_members].
    rewrite skip_space_head by done. rewrite decide_True by done.
    rewrite <-!str_app_assoc. change (String dquote "" +:+ ?y) with (String dquote y).
    rewrite parse_quote by done. cbn [mbind option_bind fst snd].
    rewrite str_app_cons. change ("" +:+ print v) with (print v).
    rewrite skip_space_head by done. by destruct (parse_value fuel (print v +:+ rest)) as [[w r]|]. }
  destruct l as [|w l].
  - cbn [map Join]. rewrite Hstep. rewrite Hv; [|lia|simpl; auto]. cbv beta iota.
    by rewrite skip_space_head.
  - cbn [map]. rewrite Join_cons, <-str_app_assoc, Hstep, (str_app_cons ",").
    rewrite Hv; [|lia|simpl; auto]. cbv beta iota. rewrite skip_space_head by done.
    specialize (IH ltac:(done) fuel). cbn [map] in IH. rewrite IH; [done|unfold sum_nat in *; simpl in *; lia].
Qed.

Lemma literal_app l x v : literal l (l +:+ x) v = Some (v, x).
Proof. unfold literal. by rewrite HasPrefix_app, drop_bytes_app. Qed.

Lemma parse_print v : printable v → parses_back v.
Proof.
  induction v as [|b|n|s|l IH|l IH] using json_nested_ind; intros Hp fuel x Hf Hx;
    (destruct fuel as [|fuel]; [simpl in Hf; lia|]).
  - etrans; [|apply (literal_app "null" x JNull)]. reflexivity.
  - destruct b.
    + etrans; [|apply (literal_app "true" x (JBool true))]. reflexivity.
    + etrans; [|apply (literal_app "false" x (JBool false))]. reflexivity.
  - destruct Hp as [z ->]. by apply parse_value_num.
  - cbn [print]. unfold quote. rewrite str_app_cons. cbn [parse_value].
    rewrite skip_space_head by done. rewrite decide_True by done. rewrite <-str_app_assoc.
    change (String dquote "" +:+ x) with (String dquote x). by rewrite parse_quote.
  - apply printable_arr in Hp. destruct l as [|v l]; [done|].
    assert (HF : Forall parses_back (v :: l)).
    { apply list.Forall_forall. intros w Hw. rewrite list.Forall_forall in IH, Hp. eauto. }
    apply Forall_cons_iff in Hp as [Hv _].
    pose proof (parse_items_print (v :: l) fuel x ltac:(done) HF ltac:(simpl in *; lia)) as Hi.
    assert (Hh : ∃ a r, Join "," (map print (v :: l)) +:+ String "]" x = String a r ∧
      json_space a = false ∧ a ≠ "]"%char).
    { destruct (print_head v Hv) as (a & r & E & Ha & Hb). destruct l as [|w l].
      - cbn [map Join]. rewrite E. rewrite str_app_cons. eauto 6.
      - cbn [map]. rewrite Join_cons, E, !str_app_cons. eauto 6. }
    destruct Hh as (a & r & E & Ha & Hb). cbn [print].
    change ("[" +:+ ?y) with (String "[" y). rewrite str_app_cons, <-str_app_assoc.
    change ("]" +:+ x) with (String "]" x). cbn [parse_value]. rewrite skip_space_head by done.
    rewrite E in Hi |- *. rewrite skip_space_head by done.
    destruct a as [[] [] [] [] [] [] [] []]; first [by destruct Hb|simpl; by rewrite Hi].
  - apply printable_obj in Hp. destruct l as [|[k v] l]; [done|].
    assert (HF : Forall (λ kv, utf8 (fst kv) = true ∧ parses_back (snd kv)) ((k, v) :: l)).
    { apply list.Forall_forall. intros w Hw. rewrite list.Forall_forall in IH, Hp.
      destruct (Hp w Hw). eauto. }
    pose proof (parse_members_print ((k, v) :: l) fuel x ltac:(done) HF ltac:(simpl in *; lia)) as Hi.
    set (body := Join "," (map (λ kv, quote (fst kv) +:+ ":" +:+ print (snd kv)) ((k, v) :: l))) in *.
    assert (Hh : ∃ r, body +:+ String "}" x = String dquote r).
    { unfold body. destruct l; cbn [map]; [|rewrite Join_cons]; eexists; reflexivity. }
    destruct Hh as (r & E). cbn [print]. fold body.
    change ("{" +:+ ?y) with (String "{" y). rewrite str_app_cons, <-str_app_assoc.
    change ("}" +:+ x) with (String "}" x). cbn [parse_value]. rewrite skip_space_head by done.
    rewrite E in Hi |- *. rewrite skip_space_head by done. cbn. cbn in Hi. by rewrite Hi.
Qed.

(** The fuel [parse_json] takes is enough. *)
Lemma length_Join c l : String.length (Join c l) = (sum_nat (map String.length l) + (length l - 1))%nat.
Proof.
  induction l as [|x l IH]; [done|]. destruct l as [|y l]; [simpl; lia|].
  rewrite Join_cons, length_str_app. cbn [String.length]. rewrite IH. unfold sum_nat. simpl. lia.
Qed.

Lemma sum_nat_le {A} (f g : A → nat) l :
  Forall (λ x, f x ≤ g x)%nat l → (sum_nat (map f l) ≤ sum_nat (map g l))%nat.
Proof. induction 1; unfold sum_nat in *; simpl; lia. Qed.

Lemma sum_nat_S {A} (f : A → nat) l : sum_nat (map (λ x, S (f x)) l) = (sum_nat (map f l) + length l)%nat.
Proof. induction l; unfold sum_nat in *; simpl; lia. Qed.

Lemma size_print v : printable v → (size v ≤ String.length (print v))%nat.
Proof.
  induction v as [|b|n|s|l IH|l IH] using json_nested_ind; intros Hp.
  - simpl; lia.
  - destruct b; simpl; lia.
  - destruct Hp as [z ->]. simpl. unfold itoa, render_Z. case_decide; [simpl; lia|].
    destruct (render_N_nonempty 10 (Z.to_N z)) as (a & r & ->). simpl. lia.
  - simpl. lia.
  - apply printable_arr in Hp. cbn [size print]. rewrite !length_str_app, length_Join, map_map.
    rewrite sum_nat_S. assert (Hs : (sum_nat (map size l) ≤ sum_nat (map (String.length ∘ print) l))%nat).
    { apply sum_nat_le. apply list.Forall_forall. intros w Hw. rewrite list.Forall_forall in IH, Hp. by apply IH, Hp. }
    rewrite length_map. simpl in *. unfold compose in Hs. lia.
  - apply printable_obj in Hp. cbn [size print]. rewrite !length_str_app, length_Join, map_map.
    rewrite sum_nat_S.
    assert (Hs : (sum_nat (map (λ kv : string * json, size (snd kv)) l) ≤
      sum_nat (map (λ kv, String.length (quote (fst kv) +:+ ":" +:+ print (snd kv))) l))%nat).
    { apply sum_nat_le. apply list.Forall_forall. intros w Hw. rewrite list.Forall_forall in IH, Hp.
      rewrite !length_str_app. specialize (IH w Hw (proj2 (Hp w Hw))). lia. }
    rewrite length_map. simpl in *. lia.
Qed.

(** A printed document parses back. *)
Lemma parse_json_print v : printable v → parse_json (print v) = inr v.
Proof.
  intros Hp. unfold parse_json.
  pose proof (parse_print v Hp (2 * String.length (print v) + 2)%nat "") as Hq.
  rewrite str_app_nil_r in Hq. rewrite Hq; [done|pose proof (size_print v Hp); lia|done].
Qed.

(** ** Lemmas: structs *)

Lemma index_where_lookup {A} (P : A → bool) l i x :
  l !! i = Some x → P x = true → (∀ j y, (j < i)%nat → l !! j = Some y → P y = false) →
  index_where P l = Some i.
Proof.
  revert i. induction l as [|z l IH]; intros i Hi HP Hlt; [done|].
  destruct i as [|i]; simpl in *; [by injection Hi as ->; rewrite HP|].
  rewrite (Hlt 0%nat z) by (done || lia).
  rewrite (IH i); [done|done|done|]. intros j y Hj Hy. apply (Hlt (S j)); [lia|done].
Qed.

Lemma find_field_own fs i f :
  NoDup (json_name <$> fs) → fs !! i = Some f → find_field fs (json_name f) = Some i.
Proof.
  intros Hnd Hi. unfold find_field. rewrite (index_where_lookup _ fs i f); [done|done| |].
  - by apply bool_decide_eq_true.
  - intros j y Hj Hy. apply bool_decide_eq_false. intros E.
    assert (j = i); [|lia]. eapply (NoDup_lookup _ j i (json_name f) Hnd);
      rewrite list_lookup_fmap; [rewrite Hy|rewrite Hi]; simpl; congruence.
Qed.

(** Values that survive being stored in a field of their kind. *)
Definition storable (v : gval) (f : structField) : Prop :=
  match v, f_kind f with
  | VInt z, (KInt | KInt8 | KInt64) => int_fits (f_kind f) z = true
  | VBool _, KBool => True
  | VStr s, KString => utf8 s = true
  | _, _ => False
  end.

Lemma int_fits_int64 k z : int_fits k z = true → in_int64 z.
Proof.
  unfold int_fits, in_int64, min_int64, max_int64.
  destruct k; intros H; apply bool_decide_eq_true in H; unfold min_int64, max_int64 in *; lia.
Qed.

Lemma store_own v f old : storable v f → store (f_kind f) (encode_gval v) old = (v, None).
Proof.
  destruct v as [z|b|s|]; simpl; destruct (f_kind f); intros Hv; try done; simpl;
    change (ParseInt (itoa z) 10) with (Atoi (itoa z));
    rewrite (Atoi_itoa z) by (eapply int_fits_int64; exact Hv); simpl in Hv; by rewrite Hv.
Qed.

(** Decoding what was encoded, from the [n]-th field on. *)
Lemma store_members fs vs old n :
  NoDup (json_name <$> fs) → Forall2 storable (drop n vs) (drop n fs) → length old = length fs →
  length vs = length fs → take n old = take n vs → (n ≤ length fs)%nat →
  foldl (store_member fs) (old, None)
    (zip_with (λ f v, (json_name f, encode_gval v)) (drop n fs) (drop n vs)) = (vs, None).
Proof.
  intros Hnd HF Hlo Hlv Ht Hn. remember (length fs - n)%nat as m eqn:Hm.
  revert n old HF Hlo Ht Hn Hm. induction m as [|m IH]; intros n old HF Hlo Ht Hn Hm.
  - rewrite (drop_ge fs) by lia. simpl. f_equal.
    rewrite (take_ge old), (take_ge vs) in Ht by lia. done.
  - destruct (lookup_lt_is_Some_2 fs n) as [f Hf]; [lia|].
    destruct (lookup_lt_is_Some_2 vs n) as [v Hv]; [lia|].
    rewrite (drop_S _ _ _ Hf), (drop_S _ _ _ Hv) in HF |- *. inversion HF as [|? ? ? ? Hs HF']; subst.
    cbn [zip_with foldl]. unfold store_member at 2. cbn [fst snd].
    rewrite (find_field_own fs n f Hnd Hf), Hf.
    destruct (lookup_lt_is_Some_2 old n) as [o Ho]; [lia|]. rewrite Ho.
    rewrite (store_own v f o Hs). cbn [first_error].
    apply IH; [done|by rewrite length_insert| |lia|lia].
    rewrite (take_S_r _ _ v), (take_S_r vs _ v), take_insert_ge; [by rewrite Ht|lia|done|].
    rewrite list_lookup_insert_eq; [done|lia].
Qed.

Lemma decode_encode_object fs vs old :
  NoDup (json_name <$> fs) → Forall2 storable vs fs → length old = length fs →
  decode_object fs (encode_object fs vs) old = (vs, None).
Proof.
  intros Hnd HF Hl. apply (store_members fs vs old 0 Hnd); [done|done|by eapply Forall2_length|done|lia].
Qed.

Lemma encode_object_printable fs vs :
  Forall (λ f, utf8 (json_name f) = true) fs → Forall2 storable vs fs → printable (encode_object fs vs).
Proof.
  intros Hn HF. apply printable_obj. revert Hn. induction HF as [|v f vs fs Hv HF IH]; intros Hn; [done|].
  apply Forall_cons_iff in Hn as [Hf Hn]. constructor; [|by apply IH]. split; [done|].
  simpl. destruct v; simpl in *; destruct (f_kind f); try done; by eexists.
Qed.

Lemma names_distinct (l : list string) : bool_decide (NoDup l) = true → NoDup l.
Proof. apply bool_decide_eq_true_1. Qed.

(** A struct survives [Marshal] and [Unmarshal]. *)
Lemma Unmarshal_Marshal fs vs old :
  NoDup (json_name <$> fs) → Forall (λ f, utf8 (json_name f) = true) fs → Forall2 storable vs fs →
  length old = length fs → Unmarshal_struct fs old (print (encode_object fs vs)) = (vs, None).
Proof.
  intros Hnd Hu HF Hl. unfold Unmarshal_struct.
  rewrite parse_json_print by by apply encode_object_printable. by apply decode_encode_object.
Qed.
