(* ===== verification/Fmt.v ===== *)
(** * Fmt: a text used as a format without arguments

    The program passes error texts, statements and messages it received to
    [fmt.Fprintf], [fmt.Errorf] and [errors.Annotatef] as formats. A directive in
    such a text prints as missing its argument. Directives with an explicit
    argument index or a star are not treated. *)

From Stdlib Require Import ZArith Lia Ascii.
From stdpp Require Import base strings list.
From S2P Require Import Prelude GoStrings Json.

(** The flags, width and precision of a directive. *)
Fixpoint format_flags (s : string) : string :=
  match s with
  | String a r =>
      if decide (a ∈ ["#"%char; "0"%char; "+"%char; "-"%char; " "%char; "."%char] ∨ digit a = true)
      then format_flags r else s
  | EmptyString => ""
  end.

Definition directive (s : string) : string * string :=
  match format_flags s with
  | EmptyString => ("%!(NOVERB)", "")
  | String "%" r => ("%", r)
  | v =>
      let k := Nat.max 1 (rune_len v) in
      ("%!" +:+ (if decide (rune_len v = 0%nat) then replacement else take_bytes k v) +:+ "(MISSING)",
       drop_bytes k v)
  end.

Fixpoint format_from (fuel : nat) (s : string) : string :=
  match fuel, s with
  | S f, String a r =>
      if decide (a = "%"%char) then
        let '(out, rest) := directive r in out +:+ format_from f rest
      else String a (format_from f r)
  | _, _ => ""
  end.

Definition format_message (msg : string) : string := format_from (String.length msg) msg.

(** A text without a percent sign is printed as it is. *)
Lemma format_from_plain n s :
  (String.length s ≤ n)%nat → byte_in "%" s = false → format_from n s = s.
Proof.
  revert n. induction s as [|a s IH]; intros n Hn Hs; [by destruct n|].
  destruct n as [|n]; simpl in Hn; [lia|]. simpl in Hs. apply orb_false_iff in Hs as [Ha Hs].
  apply bool_decide_eq_false in Ha. simpl. rewrite decide_False by done. rewrite IH; [done|lia|done].
Qed.

Lemma format_message_plain s : byte_in "%" s = false → format_message s = s.
Proof. intros. by apply format_from_plain. Qed.
