(* ===== verification/NetUrl.v ===== *)
(** * NetUrl: queries and forms

    The encoding and parsing of [net/url] that the gateway and the rbac client
    rely on, and the round trip between them. *)

From Stdlib Require Import ZArith Lia Ascii.
From stdpp Require Import base gmap strings list sorting.
From S2P Require Import Prelude GoStrings Http.

(** ** Encoding *)

Definition unreserved (a : ascii) : bool :=
  alnum a || bool_decide (a = "-"%char) || bool_decide (a = "."%char)
  || bool_decide (a = "_"%char) || bool_decide (a = "~"%char).

Definition hex_upper (d : N) : ascii := upper_byte (digit_char d).

(** [url.QueryEscape]. *)
Fixpoint QueryEscape (s : string) : string :=
  match s with
  | EmptyString => ""
  | String a r =>
      (if unreserved a then String a ""
       else if decide (a = " "%char) then "+"
       else String "%" (String (hex_upper (N_of_ascii a / 16))
                          (String (hex_upper (N_of_ascii a mod 16)) ""))) +:+ QueryEscape r
  end.

Definition encode_pairs (k : string) (vs : list string) : list string :=
  (λ v, QueryEscape k +:+ "=" +:+ QueryEscape v) <$> vs.

(** [Values.Encode]: keys in byte order. *)
Definition key_le (a b : string * list string) : Prop := String.leb (fst a) (fst b) = true.

#[export] Instance key_le_dec : RelDecision key_le.
Proof. unfold key_le. solve_decision. Defined.

Definition Encode (v : gmap string (list string)) : string :=
  Join "&" (p ← merge_sort key_le (map_to_list v); encode_pairs (fst p) (snd p)).

(** ** Parsing *)

Definition escape_error (s : string) : goerror := Errorf ("invalid URL escape " +:+ s).

(** [url.QueryUnescape]. *)
Fixpoint QueryUnescape (s : string) : outcome string :=
  match s with
  | EmptyString => Ret ""
  | String "%" (String a (String b r)) =>
      match digit_val 16 a, digit_val 16 b with
      | Some x, Some y => t ← QueryUnescape r; Ret (String (ascii_of_N (16 * x + y)) t)
      | _, _ => Throw (escape_error s)
      end
  | String "%" _ => Throw (escape_error s)
  | String "+" r => t ← QueryUnescape r; Ret (String " " t)
  | String c r => t ← QueryUnescape r; Ret (String c t)
  end.

(** The key and the value of one part, at the first equals sign. *)
Fixpoint split_pair (s : string) : string * string :=
  match s with
  | EmptyString => ("", "")
  | String c r =>
      if decide (c = "="%char) then ("", r)
      else let '(k, v) := split_pair r in (String c k, v)
  end.

Definition form_add (k v : string) (m : gmap string (list string)) : gmap string (list string) :=
  <[k := (default [] (m !! k) ++ [v])%list]> m.

(** [url.ParseQuery]: parts separated by ampersands (the semicolon that old
    versions also accept does not occur in what the program writes); an empty
    part is skipped, and a part that does not unescape is skipped and
    reported. *)
Fixpoint parse_parts (parts : list string) (m : gmap string (list string)) (err : option goerror)
    : gmap string (list string) * option goerror :=
  match parts with
  | [] => (m, err)
  | p :: rest =>
      if decide (p = "") then parse_parts rest m err
      else
        let '(k, v) := split_pair p in
        match QueryUnescape k, QueryUnescape v with
        | Ret k', Ret v' => parse_parts rest (form_add k' v' m) err
        | Throw e, _ | _, Throw e =>
            parse_parts rest m (match err with Some e0 => Some e0 | None => Some e end)
        | Panic _, _ | _, Panic _ => parse_parts rest m err
        end
  end.

Definition ParseQuery (s : string) : gmap string (list string) * option goerror :=
  parse_parts (Split "&" s) ∅ None.

(** ** Lemmas *)

Lemma unescape_escape_byte a r :
  QueryUnescape (QueryEscape (String a "") +:+ r) =
    (t ← QueryUnescape r; Ret (String a t)).
Proof.
  destruct a as [[] [] [] [] [] [] [] []]; reflexivity.
Qed.

Lemma QueryEscape_cons a s : QueryEscape (String a s) = QueryEscape (String a "") +:+ QueryEscape s.
Proof. cbn [QueryEscape]. by rewrite str_app_nil_r. Qed.

Lemma unescape_escape s : QueryUnescape (QueryEscape s) = Ret s.
Proof.
  induction s as [|a s IH]; [done|]. by rewrite QueryEscape_cons, unescape_escape_byte, IH.
Qed.

Lemma escape_byte_no a c :
  c = "&"%char ∨ c = "="%char → byte_in c (QueryEscape (String a "")) = false.
Proof. intros [-> | ->]; destruct a as [[] [] [] [] [] [] [] []]; reflexivity. Qed.

Lemma escape_no s c : c = "&"%char ∨ c = "="%char → byte_in c (QueryEscape s) = false.
Proof.
  intros Hc. induction s as [|a s IH]; [done|].
  rewrite QueryEscape_cons, byte_in_app, (escape_byte_no a c Hc). done.
Qed.

Lemma split_pair_app k v : byte_in "=" k = false → split_pair (k +:+ String "=" v) = (k, v).
Proof.
  induction k as [|c k IH]; simpl; [done|]. intros Hc.
  destruct (decide (c = "="%char)) as [->|Hne]; [done|].
  rewrite IH; [done|]. simpl in Hc. by apply orb_false_iff in Hc as [_ Hc].
Qed.

(** A part as [Encode] writes it. *)
Definition part (k v : string) : string := QueryEscape k +:+ "=" +:+ QueryEscape v.

Lemma part_no_amp k v : byte_in "&" (part k v) = false.
Proof. unfold part. rewrite !byte_in_app, !escape_no by auto. done. Qed.

Lemma parse_part k v rest m err :
  parse_parts (part k v :: rest) m err = parse_parts rest (form_add k v m) err.
Proof.
  cbn [parse_parts]. rewrite decide_False.
  - unfold part. change ("=" +:+ QueryEscape v) with (String "=" (QueryEscape v)).
    rewrite split_pair_app by (apply escape_no; auto). by rewrite !unescape_escape.
  - unfold part. destruct (QueryEscape k); discriminate.
Qed.

Lemma Split_Join c l : l ≠ [] → Forall (λ s, byte_in c s = false) l → Split c (Join c l) = l.
Proof.
  intros Hne HF. induction HF as [|x l Hx HF IH]; [done|]. destruct l as [|y l].
  - simpl. by apply Split_nosep.
  - rewrite Join_cons, Split_app, IH by done. by rewrite Split_nosep.
Qed.

(** Parsing the parts of one key after another. *)
Lemma parse_block k vs rest m err old :
  m !! k = old →
  parse_parts ((part k <$> vs) ++ rest) m err =
    parse_parts rest (match vs with [] => m | _ => <[k := (default [] old ++ vs)%list]> m end) err.
Proof.
  revert m old. induction vs as [|v vs IH]; intros m old Hm; [done|].
  rewrite fmap_cons. change ((part k v :: (part k <$> vs)) ++ rest)%list
    with (part k v :: ((part k <$> vs) ++ rest))%list.
  rewrite parse_part. rewrite (IH _ (Some (default [] old ++ [v])%list)).
  - f_equal. unfold form_add. rewrite Hm. destruct vs as [|v' vs]; [done|].
    simpl. rewrite insert_insert_eq. by rewrite <-app_assoc.
  - unfold form_add. by rewrite lookup_insert_eq, Hm.
Qed.

Lemma parse_blocks (l : list (string * list string)) m :
  Forall (λ p, snd p ≠ []) l → NoDup (fst <$> l) → Forall (λ p, m !! fst p = None) l →
  parse_parts (p ← l; part (fst p) <$> snd p) m None = (list_to_map l ∪ m, None).
Proof.
  revert m. induction l as [|[k vs] l IH]; intros m Hne Hnd Hm.
  { simpl. by rewrite (left_id_L ∅ (∪)). }
  apply Forall_cons_iff in Hne as [Hvs Hne], Hm as [Hk Hm]. simpl in Hvs, Hk.
  apply list.NoDup_cons in Hnd as [Hnk Hnd].
  change (p ← (k, vs) :: l; part (fst p) <$> snd p)
    with ((part k <$> vs) ++ (p ← l; part (fst p) <$> snd p))%list.
  rewrite (parse_block k vs _ m None None Hk). destruct vs as [|v vs]; [done|].
  rewrite IH; [|done|done|].
  - f_equal. simpl. rewrite <-insert_union_l.
    apply map_eq. intros i. destruct (decide (i = k)) as [->|Hi].
    + rewrite lookup_insert_eq. rewrite lookup_union_r; [by rewrite lookup_insert_eq|].
      by apply not_elem_of_list_to_map_1.
    + rewrite lookup_insert_ne by done. rewrite !lookup_union. by rewrite lookup_insert_ne.
  - apply list.Forall_forall. intros [k' vs'] Hin. simpl. rewrite lookup_insert_ne.
    + rewrite list.Forall_forall in Hm. by apply (Hm _ Hin).
    + intros ->. apply Hnk. by apply (list_elem_of_fmap_2 fst) in Hin.
Qed.

(** A form without empty value lists survives encoding and parsing. *)
Lemma ParseQuery_Encode (v : gmap string (list string)) :
  v ≠ ∅ → map_Forall (λ _ vs, vs ≠ []) v → ParseQuery (Encode v) = (v, None).
Proof.
  intros Hv Hne. unfold ParseQuery, Encode.
  set (l := merge_sort key_le (map_to_list v)).
  assert (Hp : l ≡ₚ map_to_list v) by apply merge_sort_Permutation.
  assert (Hl : Forall (λ p : string * list string, snd p ≠ []) l).
  { apply list.Forall_forall. intros [k vs] Hin. rewrite Hp in Hin. simpl.
    apply elem_of_map_to_list in Hin. by apply (Hne k). }
  assert (Hparts : (p ← l; encode_pairs (fst p) (snd p)) = (p ← l; part (fst p) <$> snd p)) by done.
  rewrite Hparts. rewrite Split_Join.
  - rewrite parse_blocks; [|done| |].
    + f_equal. rewrite (right_id_L ∅ (∪)).
      rewrite (list_to_map_proper l (map_to_list v)); [apply list_to_map_to_list| |done].
      rewrite Hp. apply NoDup_fst_map_to_list.
    + rewrite Hp. apply NoDup_fst_map_to_list.
    + apply list.Forall_forall. intros p _. apply lookup_empty.
  - destruct l as [|[k vs] l'] eqn:E.
    + apply Permutation_nil in Hp. by apply map_to_list_empty_iff in Hp.
    + apply Forall_cons_iff in Hl as [Hvs _]. simpl in *. by destruct vs.
  - apply list.Forall_forall. intros s Hin. apply list_elem_of_bind in Hin as ([k vs] & Hin & _).
    apply list_elem_of_fmap in Hin as (x & -> & _). apply part_no_amp.
Qed.

(** ** Texts that need no escape *)

Fixpoint url_plain (s : string) : bool :=
  match s with
  | EmptyString => true
  | String a r => (unreserved a || bool_decide (a = "@"%char)) && url_plain r
  end.

Lemma url_plain_unescape s : url_plain s = true → QueryUnescape s = Ret s.
Proof.
  induction s as [|a s IH]; [done|]. cbn [url_plain]. intros [Ha Hs]%andb_prop. specialize (IH Hs).
  destruct a as [[] [] [] [] [] [] [] []]; first [discriminate Ha|cbn [QueryUnescape]; by rewrite IH].
Qed.

Lemma url_plain_no s c :
  url_plain s = true → unreserved c || bool_decide (c = "@"%char) = false → byte_in c s = false.
Proof.
  intros Hs Hc. induction s as [|a s IH]; [done|]. cbn [url_plain byte_in] in *.
  apply andb_prop in Hs as [Ha Hs]. rewrite IH by done. rewrite bool_decide_eq_false_2; [done|].
  intros ->. by rewrite Hc in Ha.
Qed.

Lemma url_plain_itoa z : url_plain (itoa z) = true.
Proof.
  assert (Hd : ∀ s, all_digits 10 s = true → url_plain s = true).
  { induction s as [|a s IH]; [done|]. cbn [all_digits url_plain]. intros [Ha Hs]%andb_prop.
    rewrite IH by done. apply bool_decide_eq_true in Ha as [v Hv].
    destruct a as [[] [] [] [] [] [] [] []]; first [discriminate Hv|reflexivity]. }
  unfold itoa, render_Z. case_decide; [apply andb_true_intro; split; [done|]|];
    apply Hd; by apply all_digits_render.
Qed.

Definition pair_text (kv : string * string) : string := fst kv +:+ "=" +:+ snd kv.
Definition plain_pair (kv : string * string) : Prop :=
  url_plain (fst kv) = true ∧ url_plain (snd kv) = true.

Lemma parse_plain_parts l m err :
  Forall plain_pair l →
  parse_parts (pair_text <$> l) m err = (foldl (λ m kv, form_add (fst kv) (snd kv) m) m l, err).
Proof.
  intros HF. revert m. induction HF as [|[k v] l [Hk Hv] HF IH]; intros m; [done|].
  rewrite fmap_cons. change (pair_text (k, v)) with (k +:+ String "=" v).
  cbn [parse_parts foldl fst snd] in *. rewrite decide_False by (by destruct k).
  rewrite split_pair_app by (by apply url_plain_no). by rewrite !url_plain_unescape, IH.
Qed.

(** A query written by hand from texts that need no escape parses to its pairs. *)
Lemma ParseQuery_plain l :
  l ≠ [] → Forall plain_pair l →
  ParseQuery (Join "&" (pair_text <$> l)) = (foldl (λ m kv, form_add (fst kv) (snd kv) m) ∅ l, None).
Proof.
  intros Hne HF. unfold ParseQuery. rewrite Split_Join.
  - by apply parse_plain_parts.
  - by destruct l.
  - apply list.Forall_fmap. eapply list.Forall_impl; [exact HF|]. intros [k v] [Hk Hv]. unfold pair_text, compose.
    rewrite !byte_in_app. simpl in *. by rewrite !url_plain_no.
Qed.
