(* ===== verification/SqlDB.v ===== *)
(** * SqlDB: the relational database as the handlers see it

    MySQL, its driver and [database/sql] are not part of the repository: they
    are a [SqlEngine], a state with a connection, a query and an exec function.
    The code runs in a [World], the engine's state together with the trace of
    what was done: the statements sent and the replies written, in order. *)

From Stdlib Require Import ZArith Lia Ascii.
From stdpp Require Import base gmap strings list.
From S2P Require Import Prelude GoStrings Http.

(** ** The engine *)

(** [db_connect] is [GetConnection] (open and ping), [db_prepare] the preparation
    of a statement, [db_query] a query with its arguments and all its rows,
    [db_exec] an execution, which yields [LastInsertId] and [RowsAffected]. *)
Class SqlEngine := {
  db_state : Type;
  db_connect : db_state → option goerror * db_state;
  db_prepare : string → db_state → option goerror * db_state;
  db_query : string → list gval → db_state → (goerror + list (list gval)) * db_state;
  db_exec : string → list gval → db_state → (goerror + Z * Z) * db_state
}.

Inductive event : Type :=
| EvQuery (sql : string) (args : list gval)
| EvExec (sql : string) (args : list gval)
| EvBackend (method url : string) (header : gmap string (list string))
| EvReply (r : reply).

Record World `{SqlEngine} := mkWorld {
  w_db : db_state;
  w_events : list event
}.
Arguments mkWorld {_} _ _.

(** The statements of a trace, and the replies. *)
Definition statement (e : event) : option (string * list gval) :=
  match e with
  | EvQuery q a | EvExec q a => Some (q, a)
  | EvBackend _ _ _ | EvReply _ => None
  end.

Definition executed (e : event) : option string :=
  match e with EvExec q _ => Some q | _ => None end.

Definition replied (e : event) : option reply :=
  match e with EvReply r => Some r | _ => None end.

Section world.
Context `{SqlEngine}.

Definition emit (e : event) : M World unit := λ w,
  (Ret tt, mkWorld (w_db w) (w_events w ++ [e])).

Definition reply_with (r : reply) : M World unit := emit (EvReply r).

Definition GetConnection : M World unit := λ w,
  match db_connect (w_db w) with
  | (None, d) => (Ret tt, mkWorld d (w_events w))
  | (Some e, d) => (Throw e, mkWorld d (w_events w))
  end.

Definition Prepare (sql : string) : M World unit := λ w,
  match db_prepare sql (w_db w) with
  | (None, d) => (Ret tt, mkWorld d (w_events w))
  | (Some e, d) => (Throw e, mkWorld d (w_events w))
  end.

Definition Query (sql : string) (args : list gval) : M World (list (list gval)) := λ w,
  let '(r, d) := db_query sql args (w_db w) in
  let w' := mkWorld d (w_events w ++ [EvQuery sql args]) in
  match r with inl e => (Throw e, w') | inr rows => (Ret rows, w') end.

Definition Exec (sql : string) (args : list gval) : M World (Z * Z) := λ w,
  let '(r, d) := db_exec sql args (w_db w) in
  let w' := mkWorld d (w_events w ++ [EvExec sql args]) in
  match r with inl e => (Throw e, w') | inr x => (Ret x, w') end.
End world.

(** ** Prepared statements

    [database/sql] counts the arguments of a prepared statement before it is
    sent. The program's statements have no quoted question mark, so the
    placeholders are the question marks. *)
Fixpoint placeholders (s : string) : nat :=
  match s with
  | EmptyString => 0
  | String c r => (if decide (c = "?"%char) then 1 else 0) + placeholders r
  end.

Definition arity_error (want got : nat) : goerror :=
  Errorf ("sql: expected " +:+ itoa (Z.of_nat want) +:+ " arguments, got " +:+ itoa (Z.of_nat got)).

Definition StmtQuery `{SqlEngine} (sql : string) (args : list gval) : M World (list (list gval)) :=
  if decide (placeholders sql = length args) then Query sql args
  else throw (arity_error (placeholders sql) (length args)).

Definition StmtExec `{SqlEngine} (sql : string) (args : list gval) : M World (Z * Z) :=
  if decide (placeholders sql = length args) then Exec sql args
  else throw (arity_error (placeholders sql) (length args)).

(** ** [rows.Scan] *)

Definition scan_error : goerror := Errorf "sql: Scan error".

Definition parse_bool (s : string) : option gval :=
  if decide (s ∈ ["1"; "t"; "T"; "TRUE"; "true"; "True"]) then Some (VBool true)
  else if decide (s ∈ ["0"; "f"; "F"; "FALSE"; "false"; "False"]) then Some (VBool false)
  else None.

(** The conversion of a column to a destination of a kind; [VOther] stands for
    NULL, which no plain destination takes. *)
Definition convert_assign (v : gval) (k : kind) : option gval :=
  match k, v with
  | (KInt | KInt8 | KInt64), VInt z => if int_fits k z then Some (VInt z) else None
  | (KInt | KInt8 | KInt64), VStr s =>
      match ParseInt s 10 with
      | (z, None) => if int_fits k z then Some (VInt z) else None
      | (_, Some _) => None
      end
  | KString, VStr s => Some (VStr s)
  | KString, VInt z => Some (VStr (itoa z))
  | KString, VBool b => Some (VStr (if b then "true" else "false"))
  | KBool, VBool b => Some (VBool b)
  | KBool, VInt z => parse_bool (itoa z)
  | KBool, VStr s => parse_bool s
  | _, _ => None
  end.

Fixpoint scan_vals (ks : list kind) (row : list gval) : option (list gval) :=
  match ks, row with
  | [], [] => Some []
  | k :: ks', v :: row' =>
      x ← convert_assign v k;
      xs ← scan_vals ks' row';
      Some (x :: xs)
  | _, _ => None
  end.

Definition scan_row {T} `{Struct T} (row : list gval) : option T :=
  vs ← scan_vals (f_kind <$> fields T) row; of_vals vs.

(** The loop over [rows.Next()]: the first row that does not scan ends it. *)
Fixpoint scan_rows {T} `{Struct T} (rows : list (list gval)) : outcome (list T) :=
  match rows with
  | [] => Ret []
  | row :: rest =>
      match scan_row row with
      | None => Throw scan_error
      | Some x => xs ← scan_rows rest; Ret (x :: xs)
      end
  end.

(** A value of a struct type scans back from its own field values. *)
Lemma scan_vals_self ks vs :
  Forall2 (λ v k, kind_of v k = true) vs ks →
  Forall2 (λ v k, match v with VInt z => int_fits k z = true | VOther => False | _ => True end) vs ks →
  scan_vals ks vs = Some vs.
Proof.
  intros Hk Hf. revert Hf. induction Hk as [|v k vs ks Hv Hk IH]; intros Hf; [done|].
  inversion Hf as [|? ? ? ? Hv' Hf']; subst. simpl.
  assert (convert_assign v k = Some v) as ->.
  { destruct v, k; simpl in *; try discriminate; try done; by rewrite Hv'. }
  simpl. by rewrite IH.
Qed.

(** What a slice is marshalled to: an empty slice built by appending nothing
    to a nil slice is still nil, and prints as [null]. *)
Definition slice_payload {T} `{Struct T} (l : list T) : payload :=
  match l with [] => PNull | _ => PRows (fields T) (to_vals <$> l) end.

Definition nil_slice_payload {T} `{Struct T} (o : option (list T)) : payload :=
  match o with None => PNull | Some l => PRows (fields T) (to_vals <$> l) end.

(** ** Buffers *)

(** [bytes.Buffer.Truncate(b.Len() - 2)]. *)
Definition truncate2 (s : string) : string := take_bytes (String.length s - 2) s.

(** Items written one after another, each followed by a comma and a space. *)
Fixpoint comma_items (l : list string) : string :=
  match l with
  | [] => ""
  | x :: r => (x +:+ ", ") +:+ comma_items r
  end.

Fixpoint comma_join (l : list string) : string :=
  match l with
  | [] => ""
  | [x] => x
  | x :: r => x +:+ ", " +:+ comma_join r
  end.

Lemma truncate2_app s : truncate2 (s +:+ ", ") = s.
Proof.
  unfold truncate2. rewrite length_str_app. simpl.
  replace (String.length s + 2 - 2)%nat with (String.length s) by lia. apply take_bytes_app.
Qed.

Lemma comma_items_snoc l x : comma_items (l ++ [x]) = comma_items l +:+ (x +:+ ", ").
Proof.
  induction l as [|y l IH]; simpl; [by rewrite str_app_nil_r|]. rewrite IH.
  by rewrite !str_app_assoc.
Qed.

Lemma comma_join_items l x : comma_join (l ++ [x]) = comma_items l +:+ x.
Proof.
  induction l as [|y l IH]; [done|]. destruct l as [|z l]; simpl in *.
  - by rewrite str_app_nil_r, str_app_assoc.
  - rewrite IH. by rewrite !str_app_assoc.
Qed.

(** Dropping the last separator leaves the joined items. *)
Lemma truncate2_items p l : l ≠ [] → truncate2 (p +:+ comma_items l) = p +:+ comma_join l.
Proof.
  intros Hl. destruct (exists_last Hl) as (l' & x & ->).
  rewrite comma_items_snoc, comma_join_items, !str_app_assoc. apply truncate2_app.
Qed.

(** ** Traces

    Every state of the model carries the trace of events so far. *)
Class Traced (S : Type) := trace_of : S → list event.

#[export] Instance World_traced `{SqlEngine} : Traced World := w_events.

(** [extends P m]: whatever [m] does to the state, it only adds to the trace, and
    every event it adds satisfies [P]. *)
Definition extends {S A} `{Traced S} (P : event → Prop) (m : M S A) : Prop :=
  ∀ s, ∃ evs, trace_of (m s).2 = (trace_of s ++ evs)%list ∧ Forall P evs.

Section generic_trace.
Context {S : Type} `{Traced S}.

Lemma extends_same {A} P (m : M S A) : (∀ s, trace_of (m s).2 = trace_of s) → extends P m.
Proof. intros Hm s. exists []. by rewrite Hm, app_nil_r. Qed.

Lemma extends_ret {A} P (a : A) : extends P (mret (M := M S) a).
Proof. by apply extends_same. Qed.

Lemma extends_lift {A} P (o : outcome A) : extends P (lift (S := S) o).
Proof. by apply extends_same. Qed.

Lemma extends_throw {A} P e : extends P (throw (S := S) (A:=A) e).
Proof. by apply extends_same. Qed.

Lemma extends_gopanic {A} P e : extends P (gopanic (S := S) (A:=A) e).
Proof. by apply extends_same. Qed.

Lemma extends_get P : extends P (get_state (S := S)).
Proof. by apply extends_same. Qed.

Lemma extends_modify P f : (∀ s, trace_of (f s) = trace_of s) → extends P (modify f).
Proof. intros Hf. by apply extends_same. Qed.

Lemma extends_bind {A B} P (m : M S A) (f : A → M S B) :
  extends P m → (∀ a, extends P (f a)) → extends P (mbind f m).
Proof.
  intros Hm Hf s. destruct (Hm s) as (e1 & H1 & F1). unfold mbind, M_bind.
  destruct (m s) as [[a|e|p] s']; simpl in *; [|by exists e1..].
  destruct (Hf a s') as (e2 & H2 & F2). exists (e1 ++ e2)%list.
  rewrite H2, H1, app_assoc. split; [done|]. by apply Forall_app.
Qed.

Lemma extends_try {A B} P (m : M S A) (h : goerror → M S B) (k : A → M S B) :
  extends P m → (∀ e, extends P (h e)) → (∀ a, extends P (k a)) → extends P (try m h k).
Proof.
  intros Hm Hh Hk s. destruct (Hm s) as (e1 & H1 & F1). unfold try.
  destruct (m s) as [[a|e|p] s']; simpl in *; [| |by exists e1].
  - destruct (Hk a s') as (e2 & H2 & F2). exists (e1 ++ e2)%list.
    rewrite H2, H1, app_assoc. split; [done|]. by apply Forall_app.
  - destruct (Hh e s') as (e2 & H2 & F2). exists (e1 ++ e2)%list.
    rewrite H2, H1, app_assoc. split; [done|]. by apply Forall_app.
Qed.

Lemma extends_weaken {A} (P Q : event → Prop) (m : M S A) :
  (∀ e, P e → Q e) → extends P m → extends Q m.
Proof.
  intros HPQ Hm s. destruct (Hm s) as (evs & He & HF). exists evs. split; [done|].
  eapply Forall_impl; eauto.
Qed.

(** [m] ends with a reply, or panics; it never returns an error. *)
Definition answers (m : M S unit) : Prop :=
  ∀ s, match m s with
       | (Ret tt, s') => ∃ pre r, trace_of s' = (trace_of s ++ pre ++ [EvReply r])%list
       | (Throw _, _) => False
       | (Panic _, s') => ∃ pre, trace_of s' = (trace_of s ++ pre)%list
       end.

Lemma answers_after (m m' : M S unit) s s1 pre :
  answers m' → m s = m' s1 → trace_of s1 = (trace_of s ++ pre)%list →
  match m s with
  | (Ret tt, s') => ∃ pre r, trace_of s' = (trace_of s ++ pre ++ [EvReply r])%list
  | (Throw _, _) => False
  | (Panic _, s') => ∃ pre, trace_of s' = (trace_of s ++ pre)%list
  end.
Proof.
  intros Hm -> Ht. specialize (Hm s1). destruct (m' s1) as [[[]|e|p] s2]; [|done|].
  - destruct Hm as (pre' & r & Hm). exists (pre ++ pre')%list, r. by rewrite Hm, Ht, !app_assoc.
  - destruct Hm as (pre' & Hm). exists (pre ++ pre')%list. by rewrite Hm, Ht, app_assoc.
Qed.

Lemma answers_try {A} P (m : M S A) (h : goerror → M S unit) (k : A → M S unit) :
  extends P m → (∀ e, answers (h e)) → (∀ a, answers (k a)) → answers (try m h k).
Proof.
  intros Hm Hh Hk s. destruct (Hm s) as (pre & Hp & _). unfold try.
  destruct (m s) as [[a|e|p] s1] eqn:E; simpl in Hp; [| |by exists pre].
  - by eapply (answers_after (λ _, k a s1) (k a) s).
  - by eapply (answers_after (λ _, h e s1) (h e) s).
Qed.

(** Code that returns no error. *)
Definition calm_code {A} (m : M S A) : Prop := ∀ s, match (m s).1 with Throw _ => False | _ => True end.

Lemma answers_bind {A} P (m : M S A) (k : A → M S unit) :
  extends P m → calm_code m → (∀ a, answers (k a)) → answers (mbind k m).
Proof.
  intros Hm Hc Hk s. destruct (Hm s) as (pre & Hp & _). specialize (Hc s). unfold mbind, M_bind.
  destruct (m s) as [[a|e|p] s1] eqn:E; simpl in *; [|done|by exists pre].
  by eapply (answers_after (λ _, k a s1) (k a) s).
Qed.
End generic_trace.

Section trace.
Context `{SqlEngine}.

Lemma extends_emit P e : P e → extends P (emit e).
Proof. intros He w. exists [e]. simpl. split; [done|]. by apply Forall_cons_iff. Qed.

Lemma extends_reply P r : P (EvReply r) → extends P (reply_with r).
Proof. apply extends_emit. Qed.

Lemma extends_connect P : extends P GetConnection.
Proof.
  intros w. exists []. unfold GetConnection.
  destruct (db_connect (w_db w)) as [[e|] d]; simpl; by rewrite app_nil_r.
Qed.

Lemma extends_prepare P sql : extends P (Prepare sql).
Proof.
  intros w. exists []. unfold Prepare.
  destruct (db_prepare sql (w_db w)) as [[e|] d]; simpl; by rewrite app_nil_r.
Qed.

Lemma extends_query P q a : P (EvQuery q a) → extends P (Query q a).
Proof.
  intros HP w. exists [EvQuery q a]. unfold Query.
  destruct (db_query q a (w_db w)) as [[e|x] d]; simpl; (split; [done|by apply Forall_cons_iff]).
Qed.

Lemma extends_exec P q a : P (EvExec q a) → extends P (Exec q a).
Proof.
  intros HP w. exists [EvExec q a]. unfold Exec.
  destruct (db_exec q a (w_db w)) as [[e|x] d]; simpl; (split; [done|by apply Forall_cons_iff]).
Qed.

Lemma extends_stmt_query P q a : P (EvQuery q a) → extends P (StmtQuery q a).
Proof. intros HP. unfold StmtQuery. destruct (decide _); [by apply extends_query|apply extends_throw]. Qed.

Lemma extends_stmt_exec P q a : P (EvExec q a) → extends P (StmtExec q a).
Proof. intros HP. unfold StmtExec. destruct (decide _); [by apply extends_exec|apply extends_throw]. Qed.
End trace.

Create HintDb trace.
#[export] Hint Resolve extends_ret extends_lift extends_throw extends_gopanic extends_bind
  extends_try extends_get extends_connect extends_prepare extends_reply extends_query extends_exec : trace.
#[export] Hint Extern 1 (extends _ (if ?b then _ else _)) => destruct b : trace.
#[export] Hint Extern 1 (extends _ (match ?x with _ => _ end)) => destruct x : trace.
#[export] Hint Extern 1 (∀ _, extends _ _) => intros : trace.

(** Walk through a program whose primitive steps are covered by [trace]. *)
Ltac trace_go :=
  repeat (intros; first
    [ solve [auto 2 with trace]
    | apply extends_bind
    | apply extends_try
    | match goal with |- extends _ (match ?x with _ => _ end) => destruct x end ]).

(** ** A concrete engine

    An engine that answers from a script, used to evaluate the model on concrete
    inputs: queries take the next row set, executions the next result; a spent
    script answers with no rows and with [(0, 0)]. *)
Module Scripted.
Record state := mkState {
  connects : list (option goerror);
  row_sets : list (goerror + list (list gval));
  results : list (goerror + Z * Z)
}.

Definition next {A} (d : A) (l : list A) : A * list A :=
  match l with [] => (d, []) | x :: r => (x, r) end.

#[export] Instance engine : SqlEngine := {
  db_state := state;
  db_connect s := let '(x, r) := next None (connects s) in
                  (x, mkState r (row_sets s) (results s));
  db_prepare _ s := (None, s);
  db_query _ _ s := let '(x, r) := next (inr []) (row_sets s) in
                    (x, mkState (connects s) r (results s));
  db_exec _ _ s := let '(x, r) := next (inr (0, 0)) (results s) in
                   (x, mkState (connects s) (row_sets s) r)
}.

Definition world (rows : list (goerror + list (list gval))) (res : list (goerror + Z * Z)) : World :=
  mkWorld (mkState [] rows res : db_state (SqlEngine := engine)) [].
End Scripted.
