(* ===== verification/Orm.v ===== *)
(** * Orm: the query builder the handlers use

    [crab/orm], vendored with the repository: statements built from the fields of
    a result type, the joins and further queries that nested structs and slices
    cause, inserts and updates. Nested types have plain fields only, as all of
    the program's do. *)

From Stdlib Require Import ZArith Lia Ascii.
From stdpp Require Import base strings list.
From S2P Require Import Prelude GoStrings Http Json Fmt SqlDB.

Definition ErrNotFound : goerror := ErrVar "crab/meta" "ErrNotFound" "not found".
Definition ErrFieldNotFound : goerror :=
  ErrVar "crab/meta" "ErrFieldNotFound" "struc's field not found".

(** [util.FieldEscape]: camel case to snake case; a run of capitals counts as
    one word. *)
Definition is_upper (a : ascii) : bool :=
  bool_decide (65 ≤ N_of_ascii a ≤ 90)%N.

Fixpoint field_escape (up : bool) (k : string) : string :=
  match k with
  | EmptyString => ""
  | String c r =>
      if is_upper c then
        (if up then "" else "_") +:+ String (lower_byte c) (field_escape true r)
      else String c (field_escape false r)
  end.

Definition FieldEscape (k : string) : string := field_escape true k.

Record Stmt := mkStmt {
  s_table : string; s_where : string; s_sort : string; s_order : string;
  s_group : string; s_offset : Z; s_limit : Z
}.

Definition NewStmt (table : string) : Stmt := mkStmt table "" "" "" "" 0 0.

(** The argument of [Where] is already formatted. *)
Definition Where (w : string) (s : Stmt) : Stmt :=
  mkStmt (s_table s) w (s_sort s) (s_order s) (s_group s) (s_offset s) (s_limit s).
Definition Sort (x : string) (s : Stmt) : Stmt :=
  mkStmt (s_table s) (s_where s) x (s_order s) (s_group s) (s_offset s) (s_limit s).
Definition Order (x : string) (s : Stmt) : Stmt :=
  mkStmt (s_table s) (s_where s) (s_sort s) x (s_group s) (s_offset s) (s_limit s).
Definition Group (x : string) (s : Stmt) : Stmt :=
  mkStmt (s_table s) (s_where s) (s_sort s) (s_order s) x (s_offset s) (s_limit s).
Definition Offset (n : Z) (s : Stmt) : Stmt :=
  mkStmt (s_table s) (s_where s) (s_sort s) (s_order s) (s_group s) n (s_limit s).
Definition Limit (n : Z) (s : Stmt) : Stmt :=
  mkStmt (s_table s) (s_where s) (s_sort s) (s_order s) (s_group s) (s_offset s) n.

Definition SQLCondition (s : Stmt) : string :=
  (if decide (s_where s = "") then "" else " where " +:+ s_where s) +:+
  (if decide (s_sort s = "") then ""
   else " order by " +:+ s_sort s +:+ (if decide (s_order s = "") then "" else " " +:+ s_order s)) +:+
  (if decide (s_group s = "") then "" else " group by " +:+ s_group s) +:+
  (if decide (0 < s_limit s) then
     " limit " +:+ (if decide (0 < s_offset s) then itoa (s_offset s) +:+ "," else "")
       +:+ itoa (s_limit s)
   else "").

Definition SQLCount (s : Stmt) : string := "select count(*) from " +:+ s_table s +:+ SQLCondition s.

Definition column_name (f : structField) : string :=
  if decide (f_db f = "") then FieldEscape (f_name f) else f_db f.

(** ** Columns

    What the builder reads of a result type: plain fields; a nested struct
    tagged [db_table:"one"], which joins its table; slices of structs tagged
    ["more"] or ["one2more"], which are filled by further queries. Nested types
    have plain fields only. *)
Inductive column : Type :=
| Scalar (f : structField)
| One (name : string) (sub : list structField)
| More (name : string) (sub : list structField)
| One2More (name : string) (sub : list structField).

Fixpoint struct_columns (fs : list structField) (table : string) : string :=
  match fs with
  | [] => ""
  | f :: rest =>
      let name := column_name f in
      (if Contains name "." then "" else table +:+ ".") +:+ name +:+ ", " +:+ struct_columns rest table
  end.

Definition addWhere (w : string) (s : Stmt) : Stmt :=
  Where (if decide (s_where s = "") then w else s_where s +:+ " and " +:+ w) s.

Definition join_table (field : string) (s : Stmt) : Stmt :=
  mkStmt (s_table s +:+ "," +:+ field) (s_where s) (s_sort s) (s_order s) (s_group s) (s_offset s)
    (s_limit s).

(** The columns to select; joining a table changes the statement. *)
Fixpoint SQLColumn (cs : list column) (table : string) (s : Stmt) : string * Stmt :=
  match cs with
  | [] => ("", s)
  | Scalar f :: rest =>
      let '(t, s') := SQLColumn rest table s in (struct_columns [f] table +:+ t, s')
  | One name sub :: rest =>
      let field := FieldEscape name in
      let s1 := addWhere (table +:+ "." +:+ field +:+ "_id = " +:+ field +:+ ".id") (join_table field s) in
      let '(t, s') := SQLColumn rest table s1 in (struct_columns sub field +:+ t, s')
  | More _ _ :: rest | One2More _ _ :: rest => SQLColumn rest table s
  end.

Definition firstTable (s : Stmt) : string := List.hd "" (Split "," (s_table s)).

Definition SQLQuery (cs : list column) (s : Stmt) : string :=
  let '(columns, s') := SQLColumn cs (firstTable s) s in
  truncate2 ("select " +:+ columns) +:+ " from " +:+ s_table s' +:+ SQLCondition s'.

(** A row as it is scanned: nested structs take their columns, slices none. *)
Inductive cell : Type :=
| Cell (v : gval)
| Sub (row : list gval)
| Subs (rows : list (list gval)).

Definition column_kinds (c : column) : list kind :=
  match c with
  | Scalar f => [f_kind f]
  | One _ sub => f_kind <$> sub
  | More _ _ | One2More _ _ => []
  end.

Fixpoint group_cells (cs : list column) (vs : list gval) : list cell :=
  match cs with
  | [] => []
  | Scalar _ :: rest => Cell (List.hd VOther vs) :: group_cells rest (List.tl vs)
  | One _ sub :: rest => Sub (take (length sub) vs) :: group_cells rest (drop (length sub) vs)
  | More _ _ :: rest | One2More _ _ :: rest => Subs [] :: group_cells rest vs
  end.

(** The position of the field named [ID] among the scanned values, or the first
    one, and its value. *)
Fixpoint id_index (cs : list column) (n : nat) : option nat :=
  match cs with
  | [] => None
  | c :: rest =>
      match c with
      | Scalar f => if decide (f_name f = "ID") then Some n else id_index rest (S n)
      | _ => id_index rest (n + length (column_kinds c))
      end
  end.

Definition row_id (cs : list column) (vs : list gval) : Z :=
  nth_int vs (from_option id 0%nat (id_index cs 0)).

Definition relation_where (name first : string) (id : Z) : string :=
  let t1 := FieldEscape name in let t2 := FieldEscape first in
  "id in (select " +:+ t1 +:+ "_id from " +:+ t2 +:+ "_" +:+ t1 +:+ "_relation where " +:+ t2
    +:+ "_id=" +:+ itoa id +:+ ")".

Definition one2more_where (name first : string) (id : Z) : string :=
  FieldEscape name +:+ "." +:+ FieldEscape first +:+ "_id=" +:+ itoa id.

(** A result type of the builder. *)
Class Table (T : Type) := {
  columns : list column;
  of_cells : list cell → option T
}.
Arguments columns T {_}.

#[export] Instance struct_table {T} `{Struct T} : Table T := {
  columns := Scalar <$> fields T;
  of_cells cells := of_vals ((λ c, match c with Cell v => v | _ => VOther end) <$> cells)
}.

(** ** Inserts and updates *)

(** Columns and placeholders of an insert, with the arguments bound to them. *)
Fixpoint insert_parts (fs : list structField) (vs : list gval) : string * string * list gval :=
  match fs, vs with
  | f :: fs', v :: vs' =>
      let '(cols, marks, refs) := insert_parts fs' vs' in
      if decide (f_kind f = KStruct ∨ f_db_default f = "auto") then (cols, marks, refs)
      else if decide (f_db_default f = "") then
        (column_name f +:+ ", " +:+ cols, "?, " +:+ marks, v :: refs)
      else (column_name f +:+ ", " +:+ cols, f_db_default f +:+ ", " +:+ marks, refs)
  | _, _ => ("", "", [])
  end.

Definition SQLInsert (fs : list structField) (vs : list gval) (s : Stmt) : string * list gval :=
  let '(cols, marks, refs) := insert_parts fs vs in
  (truncate2 ("insert into " +:+ s_table s +:+ " (" +:+ cols)
   +:+ truncate2 (") values (" +:+ marks) +:+ ") ", refs).

Fixpoint update_parts (fs : list structField) (vs : list gval) : string * list gval :=
  match fs, vs with
  | f :: fs', v :: vs' =>
      let '(sets, refs) := update_parts fs' vs' in
      if decide (f_kind f ≠ KStruct ∧ f_kind f ≠ KSlice ∧ f_db_default f = "") then
        ("`" +:+ column_name f +:+ "`=?, " +:+ sets, v :: refs)
      else (sets, refs)
  | _, _ => ("", [])
  end.

Definition SQLUpdate (fs : list structField) (vs : list gval) (s : Stmt) : string * list gval :=
  let '(sets, refs) := update_parts fs vs in
  (truncate2 ("update `" +:+ s_table s +:+ "` set " +:+ sets) +:+ SQLCondition s, refs).

Section orm.
Context `{SqlEngine}.

(** The rows of a statement; a failure carries the statement, printed as a
    format. *)
Definition Stmt_rows (cs : list column) (s : Stmt) : M World (list (list gval)) :=
  let sql := SQLQuery cs s in
  let? rows := Query sql [] catch e => throw (Annotatef e (format_message sql)) in mret rows.

(** The query for a slice of structs with plain fields: no rows at all is an
    error, which the caller of this one ignores. *)
Definition Stmt_subs (sub : list structField) (s : Stmt) : M World (list (list gval)) :=
  let? rows := Stmt_rows (Scalar <$> sub) s
    catch e => (if decide (Cause e = ErrNotFound) then mret [] else throw e) in
  match mapM (M := option) (scan_vals (f_kind <$> sub)) rows with
  | None => throw scan_error
  | Some rs => mret rs
  end.

Fixpoint fill_slices (cs : list column) (first : string) (id : Z) (cells : list cell)
    : M World (list cell) :=
  match cs, cells with
  | More name sub :: cs', _ :: cells' =>
      rows ← Stmt_subs sub (addWhere (relation_where name first id) (NewStmt (FieldEscape name)));
      rest ← fill_slices cs' first id cells'; mret (Subs rows :: rest)
  | One2More name sub :: cs', _ :: cells' =>
      rows ← Stmt_subs sub (addWhere (one2more_where name first id) (NewStmt (FieldEscape name)));
      rest ← fill_slices cs' first id cells'; mret (Subs rows :: rest)
  | _ :: cs', c :: cells' => rest ← fill_slices cs' first id cells'; mret (c :: rest)
  | _, _ => mret []
  end.

(** One turn of the loop over the rows. *)
Definition scan_object {T} `{Table T} (s : Stmt) (row : list gval) : M World T :=
  match scan_vals (columns T ≫= column_kinds) row with
  | None => throw scan_error
  | Some vs =>
      cells ← fill_slices (columns T) (firstTable s) (row_id (columns T) vs)
                (group_cells (columns T) vs);
      match of_cells cells with Some x => mret x | None => throw scan_error end
  end.

Fixpoint scan_objects {T} `{Table T} (s : Stmt) (rows : list (list gval)) : M World (list T) :=
  match rows with
  | [] => mret []
  | row :: rest => x ← scan_object s row; xs ← scan_objects s rest; mret (x :: xs)
  end.

(** [Query(&slice)]: no rows at all is an error. *)
Definition Stmt_QueryAll {T} `{Table T} (s : Stmt) : M World (list T) :=
  rows ← Stmt_rows (columns T) s;
  result ← scan_objects s rows;
  match result with
  | [] => throw ErrNotFound
  | _ => mret result
  end.

(** [Query(&struct)]: the limit is forced to one and the first row is kept. *)
Definition Stmt_QueryOne {T} `{Table T} (s : Stmt) : M World T :=
  rows ← Stmt_rows (columns T) (Limit 1 s);
  match rows with
  | [] => throw ErrNotFound
  | row :: _ => scan_object s row
  end.

(** [Count]: the error of [rows.Next] is left for [Scan] to report. *)
Definition Stmt_Count (s : Stmt) : M World Z :=
  rows ← Query (SQLCount s) [];
  match rows with
  | row :: _ => match scan_vals [KInt64] row with Some [VInt n] => mret n | _ => throw scan_error end
  | [] => throw (Errorf "sql: Rows are closed")
  end.

(** The data as a list of fields and values. *)
Definition Insert_vals (fs : list structField) (vs : list gval) (s : Stmt) : M World Z :=
  let '(sql, refs) := SQLInsert fs vs s in
  r ← Exec sql refs; mret (fst r).

Definition Update_vals (fs : list structField) (vs : list gval) (s : Stmt) : M World Z :=
  let '(sql, refs) := SQLUpdate fs vs s in
  r ← Exec sql refs; mret (snd r).

Definition Stmt_Insert {T} `{Struct T} (data : T) (s : Stmt) : M World Z :=
  Insert_vals (fields T) (to_vals data) s.

Definition Stmt_Exec (sql : string) (args : list gval) : M World Z :=
  r ← Exec sql args; mret (snd r).
End orm.
