(* ===== verification/RbacDb.v ===== *)
(** * RbacDb: the tables of the rbac service and its SQL layer

    [rbac/meta/model.go] (the rows) and [rbac/db.go] (statement construction
    and execution). Statements are built by string concatenation exactly as the
    code does; their meaning is the engine's. *)

From Stdlib Require Import ZArith Lia Ascii.
From stdpp Require Import base strings list.
From S2P Require Import Prelude GoStrings Http SqlDB.

(** ** Rows: [rbac/meta/model.go] *)

Definition col_id : structField := mkField "ID" KInt64 "id" "auto" "" "".
Definition col_app : structField := mkField "AppID" KInt64 "app_id" "" "" "".
Definition col_ctime : structField := mkField "Ctime" KString "ctime" "now()" "" "".
Definition col_mtime : structField := mkField "Mtime" KString "mtime" "now()" "" "".
Definition col_str (name db : string) : structField := mkField name KString db "" "" "".
Definition col_int (name db : string) : structField := mkField name KInt64 db "" "" "".

Record Role := mkRole {
  Role_ID : Z; Role_AppID : Z; Role_Name : string; Role_UserID : Z;
  Role_Comments : string; Role_Ctime : string; Role_Mtime : string
}.

#[export] Instance Role_struct : Struct Role := {
  fields := [col_id; col_app; col_str "Name" "name"; col_int "UserID" "user_id";
             col_str "Comments" "comments"; col_ctime; col_mtime];
  to_vals r := [VInt (Role_ID r); VInt (Role_AppID r); VStr (Role_Name r); VInt (Role_UserID r);
                VStr (Role_Comments r); VStr (Role_Ctime r); VStr (Role_Mtime r)];
  of_vals vs := match vs with
    | [VInt a; VInt b; VStr c; VInt d; VStr e; VStr f; VStr g] => Some (mkRole a b c d e f g)
    | _ => None end
}.

Record App := mkApp {
  App_ID : Z; App_Name : string; App_Email : string; App_Token : string;
  App_Comments : string; App_Ctime : string; App_Mtime : string
}.

#[export] Instance App_struct : Struct App := {
  fields := [col_id; col_str "Name" "name"; col_str "Email" "email";
             mkField "Token" KString "token" "''" "" "";
             col_str "Comments" "comments"; col_ctime; col_mtime];
  to_vals r := [VInt (App_ID r); VStr (App_Name r); VStr (App_Email r); VStr (App_Token r);
                VStr (App_Comments r); VStr (App_Ctime r); VStr (App_Mtime r)];
  of_vals vs := match vs with
    | [VInt a; VStr b; VStr c; VStr d; VStr e; VStr f; VStr g] => Some (mkApp a b c d e f g)
    | _ => None end
}.

Record Resource := mkResource {
  Resource_ID : Z; Resource_AppID : Z; Resource_Name : string; Resource_Comments : string;
  Resource_Ctime : string; Resource_Mtime : string
}.

#[export] Instance Resource_struct : Struct Resource := {
  fields := [col_id; col_app; col_str "Name" "name"; col_str "Comments" "comments";
             col_ctime; col_mtime];
  to_vals r := [VInt (Resource_ID r); VInt (Resource_AppID r); VStr (Resource_Name r);
                VStr (Resource_Comments r); VStr (Resource_Ctime r); VStr (Resource_Mtime r)];
  of_vals vs := match vs with
    | [VInt a; VInt b; VStr c; VStr d; VStr e; VStr f] => Some (mkResource a b c d e f)
    | _ => None end
}.

Record User := mkUser {
  User_ID : Z; User_AppID : Z; User_Name : string; User_Email : string;
  User_Ctime : string; User_Mtime : string
}.

#[export] Instance User_struct : Struct User := {
  fields := [col_id; col_app; col_str "Name" "name"; col_str "Email" "email";
             col_ctime; col_mtime];
  to_vals r := [VInt (User_ID r); VInt (User_AppID r); VStr (User_Name r);
                VStr (User_Email r); VStr (User_Ctime r); VStr (User_Mtime r)];
  of_vals vs := match vs with
    | [VInt a; VInt b; VStr c; VStr d; VStr e; VStr f] => Some (mkUser a b c d e f)
    | _ => None end
}.

Record RoleResource := mkRoleResource {
  RoleResource_ID : Z; RoleResource_AppID : Z; RoleResource_ResourceID : Z;
  RoleResource_ResourceName : string; RoleResource_RoleID : Z; RoleResource_RoleName : string;
  RoleResource_RoleComments : string; RoleResource_Ctime : string; RoleResource_Mtime : string
}.

#[export] Instance RoleResource_struct : Struct RoleResource := {
  fields := [col_id; col_app; col_int "ResourceID" "resource_id";
             col_str "ResourceName" "resource.name"; col_int "RoleID" "role_id";
             col_str "RoleName" "role.name"; col_str "RoleComments" "role.comments";
             col_ctime; col_mtime];
  to_vals r := [VInt (RoleResource_ID r); VInt (RoleResource_AppID r);
                VInt (RoleResource_ResourceID r); VStr (RoleResource_ResourceName r);
                VInt (RoleResource_RoleID r); VStr (RoleResource_RoleName r);
                VStr (RoleResource_RoleComments r); VStr (RoleResource_Ctime r);
                VStr (RoleResource_Mtime r)];
  of_vals vs := match vs with
    | [VInt a; VInt b; VInt c; VStr d; VInt e; VStr f; VStr g; VStr h; VStr i] =>
        Some (mkRoleResource a b c d e f g h i)
    | _ => None end
}.

Record RoleUser := mkRoleUser {
  RoleUser_ID : Z; RoleUser_AppID : Z; RoleUser_AdminID : Z; RoleUser_UserID : Z;
  RoleUser_UserName : string; RoleUser_UserEmail : string; RoleUser_RoleID : Z;
  RoleUser_RoleName : string; RoleUser_RoleComments : string;
  RoleUser_Ctime : string; RoleUser_Mtime : string
}.

#[export] Instance RoleUser_struct : Struct RoleUser := {
  fields := [col_id; col_app; col_int "AdminID" "role.user_id"; col_int "UserID" "user_id";
             col_str "UserName" "user.name"; col_str "UserEmail" "user.email";
             col_int "RoleID" "role_id"; col_str "RoleName" "role.name";
             col_str "RoleComments" "role.comments"; col_ctime; col_mtime];
  to_vals r := [VInt (RoleUser_ID r); VInt (RoleUser_AppID r); VInt (RoleUser_AdminID r);
                VInt (RoleUser_UserID r); VStr (RoleUser_UserName r); VStr (RoleUser_UserEmail r);
                VInt (RoleUser_RoleID r); VStr (RoleUser_RoleName r);
                VStr (RoleUser_RoleComments r); VStr (RoleUser_Ctime r); VStr (RoleUser_Mtime r)];
  of_vals vs := match vs with
    | [VInt a; VInt b; VInt c; VInt d; VStr e; VStr f; VInt g; VStr h; VStr i; VStr j; VStr k] =>
        Some (mkRoleUser a b c d e f g h i j k)
    | _ => None end
}.

Ltac solve_struct_laws := split; [by intros [] | intros []; repeat constructor].

#[export] Instance Role_laws : StructLaws Role. Proof. solve_struct_laws. Qed.
#[export] Instance App_laws : StructLaws App. Proof. solve_struct_laws. Qed.
#[export] Instance Resource_laws : StructLaws Resource. Proof. solve_struct_laws. Qed.
#[export] Instance User_laws : StructLaws User. Proof. solve_struct_laws. Qed.
#[export] Instance RoleResource_laws : StructLaws RoleResource. Proof. solve_struct_laws. Qed.
#[export] Instance RoleUser_laws : StructLaws RoleUser. Proof. solve_struct_laws. Qed.

(** ** Statement construction: [rbac/db.go] *)

(** The column name a field selects. *)
Definition select_name (f : structField) : string :=
  if decide (f_db f = "") then ToLower (f_name f) else f_db f.

(** One iteration of the loop that writes the selected columns; a name with a
    dot is already qualified. *)
Fixpoint select_columns (dt : string) (fs : list structField) : string :=
  match fs with
  | [] => ""
  | f :: rest =>
      let name := select_name f in
      (if Contains name "." then "" else dt +:+ ".") +:+ name +:+ ", " +:+ select_columns dt rest
  end.

(** [strings.Split(table, ",")[0]]. *)
Definition driving_table (table : string) : string := List.hd "" (Split "," table).

Definition where_clause (where_ : string) : string :=
  if decide (where_ = "") then "" else " where " +:+ where_.

Definition select_sql (fs : list structField) (table where_ : string) : string :=
  "select " +:+ truncate2 (select_columns (driving_table table) fs) +:+ " from " +:+ table
    +:+ where_clause where_.

Definition count_sql (table where_ : string) : string :=
  "select count(*) from " +:+ table +:+ where_clause where_.

Definition order_clause (sort order : string) : string :=
  if decide (sort = "") then ""
  else " order by " +:+ sort +:+ (if decide (order = "") then "" else " " +:+ order).

Definition limit_clause (offset count : Z) : string :=
  if decide (0 < count) then " limit " +:+ itoa offset +:+ "," +:+ itoa count else "".

Definition query_sql (fs : list structField) (table where_ sort order : string)
    (offset count : Z) : string :=
  select_sql fs table where_ +:+ order_clause sort order +:+ limit_clause offset count.

(** Fields [add] leaves out: generated columns and columns of another table. *)
Definition skipped (f : structField) : bool :=
  bool_decide (f_db_default f = "auto") || Contains (f_db f) ".".

Fixpoint add_columns (fs : list structField) : string :=
  match fs with
  | [] => ""
  | f :: rest =>
      (if skipped f then ""
       else (if decide (f_db f = "") then f_name f else f_db f) +:+ ", ") +:+ add_columns rest
  end.

(** The literal written for a field; a kind the switch does not list writes
    nothing at all, not even a separator. *)
Definition add_value (f : structField) (v : gval) : string :=
  match f_kind f, v with
  | (KInt | KInt64), VInt z => itoa z +:+ ", "
  | KBool, VBool b => if b then "1, " else "0, "
  | KString, VStr s =>
      if decide (s = "") then f_db_default f +:+ ", " else "'" +:+ s +:+ "', "
  | _, _ => ""
  end.

Fixpoint add_values (fs : list structField) (vs : list gval) : string :=
  match fs, vs with
  | f :: fs', v :: vs' => (if skipped f then "" else add_value f v) +:+ add_values fs' vs'
  | _, _ => ""
  end.

Definition add_sql (table : string) (fs : list structField) (vs : list gval) : string :=
  truncate2 (truncate2 ("insert into " +:+ table +:+ " (" +:+ add_columns fs)
             +:+ ") values (" +:+ add_values fs vs)
  +:+ ") ON DUPLICATE KEY UPDATE id=LAST_INSERT_ID(id), mtime=now()".

(** ** Execution *)

Section db.
Context `{SqlEngine}.

Definition queryAll {T} `{Struct T} (table where_ : string) : M World (list T) :=
  if decide (length (fields T) = 0%nat) then throw (Errorf "result not found field") else
  _ ← GetConnection;
  rows ← Query (select_sql (fields T) table where_) [];
  lift (scan_rows rows).

(** [row := db.QueryRow(c); row.Scan(&count)]: the error is dropped, and
    [count] keeps its value when there is one. *)
Definition scan_count (c : string) (count : Z) : M World Z :=
  let? rows := Query c [] catch _ => mret count in
  mret match rows with
       | row :: _ => match scan_vals [KInt] row with Some [VInt n] => n | _ => count end
       | [] => count
       end.

Definition query {T} `{Struct T} (table where_ sort order : string) (offset count : Z)
    : M World (Z * list T) :=
  if decide (length (fields T) = 0%nat) then throw (Errorf "result not found field") else
  _ ← GetConnection;
  rows ← Query (query_sql (fields T) table where_ sort order offset count) [];
  result ← lift (scan_rows rows);
  total ← scan_count (count_sql table where_) count;
  mret (total, result).

Definition add {T} `{Struct T} (table : string) (data : T) : M World Z :=
  if decide (length (fields T) = 0%nat) then throw (Errorf "data not found field") else
  _ ← GetConnection;
  r ← Exec (add_sql table (fields T) (to_vals data)) [];
  mret (fst r).

Definition updateAppToken (id : Z) (token : string) : M World unit :=
  _ ← GetConnection;
  _ ← Exec "update app set token=?, mtime=now() where id=?" [VStr token; VInt id];
  mret tt.

Definition updateRole_sql (role : Role) : string :=
  "update role set name='" +:+ Role_Name role +:+ "', comments='" +:+ Role_Comments role
    +:+ "', mtime=now() where id=" +:+ itoa (Role_ID role)
    +:+ " and app_id=" +:+ itoa (Role_AppID role).

Definition updateRole (role : Role) : M World unit :=
  _ ← GetConnection;
  _ ← Exec (updateRole_sql role) [];
  mret tt.

Definition updateUser_sql (u : User) : string :=
  "update user set name='" +:+ User_Name u +:+ "', email='" +:+ User_Email u
    +:+ "', mtime=now() where id=" +:+ itoa (User_ID u) +:+ " and app_id=" +:+ itoa (User_AppID u).

Definition updateUser (u : User) : M World unit :=
  _ ← GetConnection;
  _ ← Exec (updateUser_sql u) [];
  mret tt.

Definition exec (sql : string) : M World Z :=
  _ ← GetConnection;
  r ← Exec sql [];
  mret (snd r).

Definition validate (sql : string) : M World bool :=
  _ ← GetConnection;
  rows ← Query sql [];
  mret match rows with [] => false | _ => true end.
End db.
