(* ===== verification/RbacService.v ===== *)
(** * RbacService: the operations of the rbac service

    The exported functions of [rbac/app.go], [rbac/user.go], [rbac/role.go],
    [rbac/resource.go] and [rbac/relation.go], on top of [RbacDb], and the
    token of [rbac/init.go]. Application ids, role ids and resource ids are
    [int64]. *)

From Stdlib Require Import ZArith Lia Ascii.
From stdpp Require Import base strings list.
From S2P Require Import Prelude GoStrings Crypto Http SqlDB RbacDb.

Definition errInvalidToken : goerror := ErrVar "rbac" "errInvalidToken" "invalid token".

(** The token is the AES encryption of an 8-byte buffer holding the id as a
    varint. *)
Definition parseToken `{BlockCipher} (r : Request) : outcome Z :=
  let token := header_get (r_header r) "token" in
  match AesDecrypt token AesKey with
  | Panic p => Panic p
  | Throw e => Throw (Annotatef errInvalidToken ("token:" +:+ token +:+ ", error:" +:+ Error e))
  | Ret buf =>
      let '(id, n) := Varint buf in
      if decide (n < 1) then Throw (Errorf ("invalid token " +:+ token)) else Ret id
  end.

Section service.
Context `{SqlEngine} `{BlockCipher}.

(** ** [rbac/app.go] *)

Definition make_token (id : Z) : outcome string :=
  buf ← PutVarint (replicate 8 0) id;
  AesEncrypt buf AesKey.

Definition AppAdd (name email comments : string) : M World (Z * string) :=
  let app := mkApp 0 name email "" comments "" "" in
  id ← add "app" app;
  token ← lift (make_token id);
  _ ← updateAppToken id token;
  mret (id, token).

(** ** [rbac/user.go] *)

Definition UserUpdate (appID userID : Z) (name email : string) : M World unit :=
  updateUser (mkUser userID appID name email "" "").

Definition UserAdd (appID : Z) (name email : string) : M World Z :=
  add "user" (mkUser 0 appID name email "" "").

Definition UserGetAll (appID : Z) : M World (list User) :=
  queryAll "user" ("id=" +:+ itoa appID).

(** ** [rbac/relation.go]: role and user *)

Definition RoleUserAdd (appID roleID : Z) (name email : string) : M World Z :=
  uid ← UserAdd appID name email;
  add "role_user" (mkRoleUser 0 appID 0 uid "" "" roleID "" "" "" "").

Definition RoleUserDelete_sql (appID roleID : Z) (email : string) : string :=
  "delete from role_user where app_id=" +:+ itoa appID +:+ " and role_id=" +:+ itoa roleID
    +:+ " and user_id = (select id from user where app_id=" +:+ itoa appID
    +:+ " and email='" +:+ email +:+ "')".

Definition RoleUserDelete (appID roleID : Z) (email : string) : M World unit :=
  _ ← exec (RoleUserDelete_sql appID roleID email); mret tt.

(** ** [rbac/role.go] *)

Definition RoleAdd (appID : Z) (name user email comments : string) : M World Z :=
  uid ← UserAdd appID user email;
  rid ← add "role" (mkRole 0 appID name uid comments "" "");
  _ ← RoleUserAdd appID rid user email;
  mret rid.

Definition RoleUpdate (appID roleID : Z) (name comments : string) : M World unit :=
  updateRole (mkRole roleID appID name 0 comments "" "").

Definition RoleGetWithToken (token email : string) : M World (list Role) :=
  buf ← lift (AesDecrypt token AesKey);
  let '(id, n) := Varint buf in
  if decide (n < 1) then throw (Errorf ("invalid token " +:+ token)) else
  queryAll "role" ("app_id=" +:+ itoa id +:+ " and role.user_id=user.id" +:+
    (if decide (email = "") then "" else " and user.email='" +:+ email +:+ "'")).

(** The conditional clauses the query functions append to [where]. *)
Definition id_clause (col : string) (id : Z) : string :=
  if decide (0 < id) then " and " +:+ col +:+ "=" +:+ itoa id else "".

Definition email_clause (email : string) : string :=
  if decide (email = "") then "" else " and user.email='" +:+ email +:+ "'".

Definition role_user_join : string :=
  "role_user.role_id = role.id and role_user.user_id = user.id".

(** [if total == 0 || len(rs) == 0 { return 0, nil, nil }]. *)
Definition or_nothing {T} (p : Z * list T) : Z * list T :=
  match p with
  | (_, []) => (0, [])
  | (total, rs) => if decide (total = 0) then (0, []) else (total, rs)
  end.

Definition RoleQuery (appID roleID : Z) (email sort order : string) (offset limit : Z)
    : M World (Z * list RoleUser) :=
  p ← query "role_user, role, user"
    (role_user_join +:+ id_clause "role_user.app_id" appID +:+ email_clause email
      +:+ id_clause "role_user.role_id" roleID) sort order offset limit;
  mret (or_nothing p).

Definition role_has_users : string := "当前角色已关联用户，不能删除".
Definition role_has_resources : string := "当前角色存在关联资源，不能删除".

Definition role_user_exists_sql (appID roleID : Z) : string :=
  "select id from role_user where app_id=" +:+ itoa appID +:+ " and role_id=" +:+ itoa roleID
    +:+ " limit 1".
Definition role_resource_exists_sql (appID roleID : Z) : string :=
  "select id from role_resource where app_id=" +:+ itoa appID +:+ " and role_id=" +:+ itoa roleID
    +:+ " limit 1".
Definition role_delete_sql (appID roleID : Z) : string :=
  "delete from role where id=" +:+ itoa roleID +:+ " and app_id=" +:+ itoa appID.

Definition RoleDelete (appID roleID : Z) : M World unit :=
  ok ← validate (role_user_exists_sql appID roleID);
  if (ok : bool) then throw (Errorf role_has_users) else
  ok ← validate (role_resource_exists_sql appID roleID);
  if (ok : bool) then throw (Errorf role_has_resources) else
  _ ← exec (role_delete_sql appID roleID);
  mret tt.

(** ** [rbac/resource.go] *)

Definition ResourceAdd (appID : Z) (name comments : string) : M World Z :=
  add "resource" (mkResource 0 appID name comments "" "").

Definition ResourceQuery_where (appID resID : Z) : string :=
  let where1 := if decide (0 < appID) then "app_id=" +:+ itoa appID else "" in
  if decide (0 < resID) then
    (if decide (where1 = "") then where1 else where1 +:+ " and ") +:+ " id=" +:+ itoa resID
  else where1.

Definition ResourceQuery (appID resID : Z) (sort order : string) (offset limit : Z)
    : M World (Z * list Resource) :=
  query "resource" (ResourceQuery_where appID resID) sort order offset limit.

(** [where.Truncate(where.Len() - 1)] drops the last comma, or, without any id,
    the opening parenthesis. *)
Definition ResourceGet_where (appID : Z) (resID : list Z) : string :=
  let buf := "app_id=" +:+ itoa appID +:+ " and id in (" +:+
             foldr (λ id acc, itoa id +:+ "," +:+ acc) "" resID in
  take_bytes (String.length buf - 1) buf +:+ ")".

Definition ResourceGet (appID : Z) (resID : list Z) : M World (list Resource) :=
  p ← query "resource" (ResourceGet_where appID resID) "" "" 0 0;
  mret (snd p).

Definition resource_delete_sql (resID : Z) : string :=
  "delete from resource where id=" +:+ itoa resID.
Definition resource_unlink_sql (resID : Z) : string :=
  "delete from role_resource where resource_id=" +:+ itoa resID.

Definition ResourceDelete (resID : Z) : M World unit :=
  _ ← exec (resource_delete_sql resID);
  _ ← exec (resource_unlink_sql resID);
  mret tt.

(** ** [rbac/relation.go] *)

Definition RoleResourceQuery (appID resID roleID : Z) (sort order : string) (offset limit : Z)
    : M World (Z * list RoleResource) :=
  p ← query "role_resource, role, resource"
    ("role_resource.role_id = role.id and role_resource.resource_id = resource.id"
      +:+ id_clause "role_resource.app_id" appID +:+ id_clause "resource.id" resID
      +:+ id_clause "role.id" roleID) sort order offset limit;
  mret (or_nothing p).

Definition RelationUserQuery (appID roleID : Z) (sort order : string) (offset limit : Z)
    : M World (Z * list RoleUser) :=
  p ← query "role_user, role, user"
    (role_user_join +:+ id_clause "role_user.app_id" appID
      +:+ id_clause "role_user.role_id" roleID) sort order offset limit;
  mret (or_nothing p).

Definition RelationRoleQuery (appID : Z) (email sort order : string) (offset limit : Z)
    : M World (Z * list RoleUser) :=
  p ← query "role_user, role, user"
    (role_user_join +:+ id_clause "role_user.app_id" appID +:+ email_clause email)
    sort order offset limit;
  mret (or_nothing p).

Definition RelationRoleUserQuery (appID roleID : Z) (email sort order : string)
    (offset limit : Z) : M World (Z * list RoleUser) :=
  p ← query "role_user, role, user"
    (role_user_join +:+ id_clause "role_user.app_id" appID
      +:+ id_clause "role_user.role_id" roleID +:+ email_clause email)
    sort order offset limit;
  mret (or_nothing p).

Definition UnrelatedResourceRoles (appID resourceID : Z) (email sort order : string)
    (offset limit : Z) : M World (Z * list Role) :=
  p ← query "role"
    ("id NOT in (select role_resource.role_id from role_resource where role_resource.resource_id = "
      +:+ itoa resourceID +:+ ")" +:+
      (if decide (email = "") then ""
       else " and role.user_id = (select id from user where user.email = '" +:+ email +:+ "') "))
    sort order offset limit;
  mret (or_nothing p).

Definition RoleUserGet (appID roleID : Z) (email : string) : M World (list RoleUser) :=
  queryAll "role_user, role, user"
    (role_user_join +:+ id_clause "role_user.app_id" appID +:+ email_clause email
      +:+ id_clause "role_id" roleID).

Definition RelationResourceRoleAdd (appID resourceID roleID : Z) : M World Z :=
  add "role_resource" (mkRoleResource 0 appID resourceID "" roleID "" "" "" "").

Definition RelationResourceRoleDel (appID resID roleID : Z) : M World unit :=
  _ ← exec ("delete from role_resource where app_id=" +:+ itoa appID +:+ " and resource_id="
            +:+ itoa resID +:+ " and role_id=" +:+ itoa roleID);
  mret tt.

Definition owner_sql (roleID : Z) (owner : string) : string :=
  "select id from role where id=" +:+ itoa roleID
    +:+ " and user_id=(select id from user where email='" +:+ owner +:+ "')".

Definition RelationUserRoleDel_sql (appID roleID : Z) (email : string) : string :=
  "delete from role_user where app_id=" +:+ itoa appID +:+ " and role_id=" +:+ itoa roleID
    +:+ " and user_id=(select id from user where email='" +:+ email +:+ "')".

Definition RelationUserRoleDel (appID roleID : Z) (email owner : string) : M World unit :=
  _ ← (if decide (owner = "") then mret tt else
        ok ← validate (owner_sql roleID owner);
        if (ok : bool) then mret tt
        else throw (Errorf ("user:" +:+ email +:+ " is not role owner")));
  _ ← exec (RelationUserRoleDel_sql appID roleID email);
  mret tt.

Definition RelationValidate_sql (appID resID : Z) (email : string) : string :=
  "select id from role_resource where app_id=" +:+ itoa appID +:+ " and resource_id="
    +:+ itoa resID +:+ " and role_id in (select role_id from role_user where user_id = "
    +:+ "(select id from user where email='" +:+ email +:+ "'))".

Definition relation_not_exist : goerror := Errorf "relation not exist".

Definition RelationValidate (appID resID : Z) (email : string) : M World unit :=
  ok ← validate (RelationValidate_sql appID resID email);
  if (ok : bool) then mret tt else throw relation_not_exist.

(** The anonymous struct [UserResourceGet] scans into. *)
Record DistinctID := mkDistinctID { DistinctID_ID : Z }.

#[export] Instance DistinctID_struct : Struct DistinctID := {
  fields := [mkField "ID" KInt64 "DISTINCT role_resource.resource_id" "" "" ""];
  to_vals r := [VInt (DistinctID_ID r)];
  of_vals vs := match vs with [VInt a] => Some (mkDistinctID a) | _ => None end
}.

Definition UserResourceGet (appID : Z) (email : string) : M World (list Z) :=
  vars ← queryAll "role_resource"
    ("app_id=" +:+ itoa appID
      +:+ " and role_id in  (select role_id from role_user where role_user.user_id = "
      +:+ "(select id from user where email='" +:+ email +:+ "' and app_id=" +:+ itoa appID +:+ "))");
  mret (DistinctID_ID <$> vars).

Definition RoleResourceDelete_sql (appID roleID resourceID : Z) : string :=
  "delete from role_resource where app_id=" +:+ itoa appID +:+ " and role_id=" +:+ itoa roleID
    +:+ " and resource_id = " +:+ itoa resourceID.

Definition RoleResourceDelete (appID roleID resourceID : Z) : M World unit :=
  _ ← exec (RoleResourceDelete_sql appID roleID resourceID); mret tt.
End service.
