(* ===== verification/RbacHandlers.v ===== *)
(** * RbacHandlers: the HTTP interface of the rbac service

    The request handlers of [rbac/app.go], [rbac/user.go], [rbac/role.go],
    [rbac/resource.go] and [rbac/relation.go] and the routes of [ServerInit].
    A handler decodes its variables, resolves the application from the token
    header, calls the service and writes one reply. *)

From Stdlib Require Import ZArith Lia Ascii.
From stdpp Require Import base strings list.
From S2P Require Import Prelude GoStrings Crypto Http SqlDB Orm RbacDb RbacService.

Section handlers.
Context `{SqlEngine} `{BlockCipher} `{EmailPattern}.

Definition fail (status : Z) (e : goerror) : M World unit :=
  reply_with (SendResponse status (Error e)).

Definition not_found : M World unit := reply_with (SendResponse StatusNotFound "not found").

(** [util.DecodeRequestValue(r, &vars)] on a fresh [vars]. *)
Definition decode (fs : list structField) (r : Request) : M World (list gval) :=
  lift (DecodeRequestValue true fs (zero_vals fs) r).

Definition token_of (r : Request) : M World Z := lift (parseToken r).

(** The [sort], [order], [offset] and [limit] variables of a paged query. *)
Definition paging : list structField :=
  [var_str "sort"; var_str "order"; var_int "offset"; var_int "limit"].

(** ** [rbacAPP] *)

Definition rbacAPP_GET (r : Request) : M World unit :=
  let? v := decode (var_int "app_id" :: var_str "email" :: paging) r
    catch e => fail StatusBadRequest e in
  let where_ := "id=" +:+ itoa (nth_int v 0) +:+
    (if decide (nth_str v 1 = "") then "" else " and email='" +:+ nth_str v 1 +:+ "'") in
  let? p := query (T:=App) "app" where_ (nth_str v 2) (nth_str v 3) (nth_int v 4) (nth_int v 5)
    catch e => fail StatusBadRequest e in
  if decide (fst p = 0 ∨ snd p = []) then not_found
  else reply_with (SendResponseData (slice_payload (snd p))).

Definition rbacAPP_POST (r : Request) : M World unit :=
  let? v := decode [var_str "name"; var_str "email"; var_str "comments"] r
    catch e => fail StatusInternalServerError e in
  let? p := AppAdd (nth_str v 0) (nth_str v 1) (nth_str v 2)
    catch e => fail StatusInternalServerError e in
  reply_with (SendResponseData (PVal (VStr (snd p)))).

(** ** [rbacUser], [rbacUserInfo] *)

Definition rbacUser_GET (r : Request) : M World unit :=
  let? v := decode paging r catch e => fail StatusBadRequest e in
  appID ← (let? id := token_of r catch _ => mret 0 in mret id);
  let where_ := if decide (appID = 0) then "" else "id=" +:+ itoa appID in
  let? p := query (T:=User) "user" where_ (nth_str v 0) (nth_str v 1) (nth_int v 2) (nth_int v 3)
    catch e => fail StatusInternalServerError e in
  if decide (fst p = 0 ∨ snd p = []) then not_found
  else reply_with (SendResponseData (slice_payload (snd p))).

Definition rbacUser_PUT (r : Request) : M World unit :=
  let? v := decode [var_int "user_id"; var_str "name"; var_str "email"] r
    catch e => fail StatusInternalServerError e in
  let? appID := token_of r catch e => fail StatusBadRequest e in
  let? _ := UserUpdate appID (nth_int v 0) (nth_str v 1) (nth_str v 2)
    catch e => fail StatusBadRequest e in
  reply_with SendResponseOK.

Definition rbacUser_POST (r : Request) : M World unit :=
  let? v := decode [var_str "name"; var_str "email"] r
    catch e => fail StatusInternalServerError e in
  let? appID := token_of r catch e => fail StatusBadRequest e in
  let? id := UserAdd appID (nth_str v 0) (nth_str v 1)
    catch e => fail StatusInternalServerError e in
  reply_with (SendResponseData (PVal (VInt id))).

Definition rbacUserInfo_GET (r : Request) : M World unit :=
  let? v := decode [var_str "email"] r catch e => fail StatusBadRequest e in
  let? _ := GetConnection catch e => fail StatusInternalServerError e in
  let? u := Stmt_QueryOne (T:=User) (Where ("email='" +:+ nth_str v 0 +:+ "'") (NewStmt "user"))
    catch e => fail StatusInternalServerError e in
  reply_with (SendResponseData (PRow (fields User) (to_vals u))).

(** ** [rbacRole] *)

Definition rbacRole_GET (r : Request) : M World unit :=
  let? v := decode (var_int "query" :: var_str "role_id" :: paging) r
    catch e => fail StatusBadRequest e in
  let? appID := token_of r catch e => fail StatusBadRequest e in
  let where_ := "app_id=" +:+ itoa appID in
  if decide (nth_int v 0 = 0) then
    let? rs := queryAll (T:=Role) "role" (where_ +:+ " and id=" +:+ nth_str v 1)
      catch e => fail StatusBadRequest e in
    reply_with (SendResponseData (slice_payload rs))
  else
    let? p := query (T:=Role) "role" where_ (nth_str v 2) (nth_str v 3) (nth_int v 4) (nth_int v 5)
      catch e => fail StatusInternalServerError e in
    reply_with (SendRows (fst p) (slice_payload (snd p))).

Definition rbacRole_POST (r : Request) : M World unit :=
  let? v := decode [var_str "name"; var_str "user"; var_str "email"; var_str "comments"] r
    catch e => fail StatusInternalServerError e in
  let? appID := token_of r catch e => fail StatusBadRequest e in
  let? id := RoleAdd appID (nth_str v 0) (nth_str v 1) (nth_str v 2) (nth_str v 3)
    catch e => fail StatusInternalServerError e in
  reply_with (SendResponseData (PVal (VInt id))).

Definition rbacRole_PUT (r : Request) : M World unit :=
  let? v := decode [var_int "role_id"; var_str "name"; var_str "comments"] r
    catch e => fail StatusInternalServerError e in
  let? appID := token_of r catch e => fail StatusBadRequest e in
  let? _ := RoleUpdate appID (nth_int v 0) (nth_str v 1) (nth_str v 2)
    catch e => fail StatusBadRequest e in
  reply_with SendResponseOK.

Definition rbacRole_DELETE_where (appID id : Z) (name : string) : string :=
  if decide (id ≠ 0) then "app_id=" +:+ itoa appID +:+ " and role_id=" +:+ itoa id
  else if decide (name ≠ "") then
    "app_id=" +:+ itoa appID +:+ " and role_id=(select id from role where app_id=" +:+ itoa appID
      +:+ " and name='" +:+ name +:+ "')"
  else "".

(** The second statement; with neither an id nor a name it is still the first
    one. *)
Definition rbacRole_DELETE_sql (appID id : Z) (name sql : string) : string :=
  if decide (id ≠ 0) then "delete from role where id=" +:+ itoa id
  else if decide (name ≠ "") then
    "delete from role where app_id=" +:+ itoa appID +:+ " and name='" +:+ name +:+ "'"
  else sql.

Definition rbacRole_DELETE (r : Request) : M World unit :=
  let? v := decode [var_int "role_id"; var_str "name"] r catch e => fail StatusBadRequest e in
  let? appID := token_of r catch e => fail StatusBadRequest e in
  let sql := "delete from role_user where " +:+
             rbacRole_DELETE_where appID (nth_int v 0) (nth_str v 1) in
  let? _ := exec sql catch e => fail StatusInternalServerError e in
  let? _ := exec (rbacRole_DELETE_sql appID (nth_int v 0) (nth_str v 1) sql)
    catch e => fail StatusInternalServerError e in
  reply_with SendResponseOK.

(** ** [rbacResource] *)

Definition rbacResource_GET (r : Request) : M World unit :=
  let? v := decode (var_int "id" :: var_int "query" :: paging) r
    catch e => fail StatusBadRequest e in
  let? appID := token_of r catch e => fail StatusBadRequest e in
  if decide (nth_int v 1 = 0) then
    let? rs := ResourceGet appID [nth_int v 0] catch e => fail StatusBadRequest e in
    reply_with (SendResponseData (slice_payload rs))
  else
    let? p := ResourceQuery appID 0 (nth_str v 2) (nth_str v 3) (nth_int v 4) (nth_int v 5)
      catch e => fail StatusInternalServerError e in
    if decide (fst p = 0 ∨ snd p = []) then not_found
    else reply_with (SendResponseData (slice_payload (snd p))).

Definition rbacResource_POST (r : Request) : M World unit :=
  let? v := decode [var_str "Name"; var_str "Comments"] r
    catch e => fail StatusInternalServerError e in
  let? appID := token_of r catch e => fail StatusBadRequest e in
  let? id := ResourceAdd appID (nth_str v 0) (nth_str v 1)
    catch e => fail StatusInternalServerError e in
  reply_with (SendResponseData (PVal (VInt id))).

Definition rbacResource_DELETE (r : Request) : M World unit :=
  let? _ := token_of r catch e => fail StatusBadRequest e in
  match ParseInt (values_get (r_query r) "id") 10 with
  | (_, Some e) => fail StatusInternalServerError e
  | (id, None) =>
      let? _ := ResourceDelete id catch e => fail StatusInternalServerError e in
      reply_with SendResponseOK
  end.

(** ** [rbacRoleResource] *)

Definition rbacRoleResource_DELETE (r : Request) : M World unit :=
  let? v := decode [var_int "resource_id"; var_int "role_id"] r
    catch e => fail StatusBadRequest e in
  let? appID := token_of r catch e => fail StatusBadRequest e in
  let? _ := RoleResourceDelete appID (nth_int v 1) (nth_int v 0)
    catch e => fail StatusBadRequest e in
  reply_with SendResponseOK.

Definition rbacRoleResource_GET (r : Request) : M World unit :=
  let? v := decode (var_int "api" :: var_int "resource_id" :: var_int "role_id" :: paging) r
    catch e => fail StatusBadRequest e in
  let? appID := token_of r catch e => fail StatusBadRequest e in
  let? p := RoleResourceQuery appID (nth_int v 1) (nth_int v 2) (nth_str v 3) (nth_str v 4)
      (nth_int v 5) (nth_int v 6)
    catch e => fail StatusBadRequest e in
  if decide (snd p = []) then not_found
  else if decide (nth_int v 0 = 1) then reply_with (SendData (slice_payload (snd p)))
  else reply_with (SendRows (fst p) (slice_payload (snd p))).

Definition rbacRoleResource_POST (r : Request) : M World unit :=
  let? v := decode [var_int "role_id"; var_int "resource_id"] r
    catch e => fail StatusInternalServerError e in
  let? appID := token_of r catch e => fail StatusBadRequest e in
  let? id := add "role_resource"
      (mkRoleResource 0 appID (nth_int v 1) "" (nth_int v 0) "" "" "" "")
    catch e => fail StatusInternalServerError e in
  reply_with (SendResponseData (PVal (VInt id))).

(** ** [rbacRoleUser] *)

(** [if vars.Query == 0 { SendData } else { SendRows }], after the check for no
    rows. *)
Definition send_relation {T} `{Struct T} (all : bool) (p : Z * list T) : M World unit :=
  if decide (snd p = []) then not_found
  else if all then reply_with (SendData (slice_payload (snd p)))
  else reply_with (SendRows (fst p) (slice_payload (snd p))).

Definition rbacRoleUser_GET (r : Request) : M World unit :=
  let? v := decode (var_int "query" :: var_str "email" :: var_int "role_id" :: paging) r
    catch e => fail StatusBadRequest e in
  let? appID := token_of r catch e => fail StatusBadRequest e in
  let? p := RelationRoleUserQuery appID (nth_int v 2) (nth_str v 1) (nth_str v 3) (nth_str v 4)
      (nth_int v 5) (nth_int v 6)
    catch e => fail StatusBadRequest e in
  send_relation (bool_decide (nth_int v 0 = 0)) p.

Definition rbacRoleUser_POST (r : Request) : M World unit :=
  let? v := decode [var_str "name"; var_str "email"; var_int "role_id"] r
    catch e => fail StatusInternalServerError e in
  let? appID := token_of r catch e => fail StatusBadRequest e in
  let? id := RoleUserAdd appID (nth_int v 2) (nth_str v 0) (nth_str v 1)
    catch e => fail StatusInternalServerError e in
  reply_with (SendResponseData (PVal (VInt id))).

Definition rbacRoleUser_DELETE (r : Request) : M World unit :=
  let? v := decode [var_str "email"; var_int "role_id"] r
    catch e => fail StatusInternalServerError e in
  let? appID := token_of r catch e => fail StatusBadRequest e in
  let? _ := RoleUserDelete appID (nth_int v 1) (nth_str v 0)
    catch e => fail StatusInternalServerError e in
  reply_with SendResponseOK.

(** ** [userResource], [userRole], [resourceRolesUnrelated] *)

Definition userResource_GET (r : Request) : M World unit :=
  let email := values_get (r_query r) "email" in
  let? id := token_of r catch e => fail StatusBadRequest e in
  let? result := UserResourceGet id email catch e => fail StatusBadRequest e in
  if decide (result = []) then reply_with (SendData (PRows (fields Resource) []))
  else
    let? res := ResourceGet id result catch e => fail StatusBadRequest e in
    reply_with (SendData (slice_payload res)).

Definition userRole_GET (r : Request) : M World unit :=
  let? v := decode (var_int "query" :: var_str "email" :: paging) r
    catch e => fail StatusBadRequest e in
  let? appID := token_of r catch e => fail StatusBadRequest e in
  let? p := RelationRoleUserQuery appID 0 (nth_str v 1) (nth_str v 2) (nth_str v 3)
      (nth_int v 4) (nth_int v 5)
    catch e => fail StatusBadRequest e in
  send_relation (bool_decide (nth_int v 0 = 0)) p.

Definition resourceRolesUnrelated_GET (r : Request) : M World unit :=
  let? v := decode (var_int "query" :: var_int "resource_id" :: var_str "email" :: paging) r
    catch e => fail StatusBadRequest e in
  let? appID := token_of r catch e => fail StatusBadRequest e in
  let? p := UnrelatedResourceRoles appID (nth_int v 1) (nth_str v 2) (nth_str v 3) (nth_str v 4)
      (nth_int v 5) (nth_int v 6)
    catch e => fail StatusBadRequest e in
  send_relation (bool_decide (nth_int v 0 = 0)) p.

(** ** [ServerInit] *)

Definition route : Type := (string * string) * (Request → M World unit).

Definition public_routes : list route :=
  [ (("GET", "/rbac/user/"), rbacUser_GET);
    (("GET", "/rbac/user/info/"), rbacUserInfo_GET);
    (("GET", "/rbac/app/"), rbacAPP_GET);
    (("POST", "/rbac/app/"), rbacAPP_POST) ].

(** Routes that change the tables. *)
Definition write_routes : list route :=
  [ (("PUT", "/rbac/user/"), rbacUser_PUT);
    (("POST", "/rbac/user/"), rbacUser_POST);
    (("POST", "/rbac/role/user/"), rbacRoleUser_POST);
    (("DELETE", "/rbac/role/user/"), rbacRoleUser_DELETE);
    (("DELETE", "/rbac/role/resource/"), rbacRoleResource_DELETE);
    (("POST", "/rbac/role/resource/"), rbacRoleResource_POST);
    (("POST", "/rbac/role/"), rbacRole_POST);
    (("PUT", "/rbac/role/"), rbacRole_PUT);
    (("POST", "/rbac/resource/"), rbacResource_POST) ].

Definition delete_routes : list route :=
  [ (("DELETE", "/rbac/role/"), rbacRole_DELETE);
    (("DELETE", "/rbac/resource/"), rbacResource_DELETE) ].

Definition read_routes : list route :=
  [ (("GET", "/rbac/user/role/"), userRole_GET);
    (("GET", "/rbac/role/user/"), rbacRoleUser_GET);
    (("GET", "/rbac/role/resource/"), rbacRoleResource_GET);
    (("GET", "/rbac/resource/role/unrelated/"), resourceRolesUnrelated_GET);
    (("GET", "/rbac/role/"), rbacRole_GET);
    (("GET", "/rbac/resource/"), rbacResource_GET);
    (("GET", "/rbac/user/resource/"), userResource_GET) ].

Definition ServerInit_routes : list route :=
  public_routes ++ write_routes ++ delete_routes ++ read_routes.

(** The full-path match of the server. *)
Definition rbac_serve (r : Request) : option (M World unit) :=
  (λ p, (snd (snd p)) r) <$> list_find (λ x : route, fst x = (r_method r, r_path r)) ServerInit_routes.
End handlers.
