(* ===== verification/SqlText.v ===== *)
(** * SqlText: what the texts of the rbac service's statements say

    [rbac/db.go] builds its statements by pasting. Here is the grammar they belong
    to, a meaning for it on tables of rows, and that [add] writes one literal for
    each column it names. Integers are pasted as such and texts between quotes, so
    the grammar only covers texts without a quote or a backslash. *)

From Stdlib Require Import ZArith Lia Ascii.
From stdpp Require Import base strings list.
From S2P Require Import Prelude GoStrings Http SqlDB Orm RbacDb.

(** ** Writing statements *)

(** A literal, nothing at all (what [add] pastes for an empty text), or the column
    of a row looked up by conditions. *)
Inductive operand : Type :=
| Num (z : Z)
| Text (s : string)
| Now
| Blank
| Lookup (column table : string) (conditions : list (string * string * operand)).

(** A condition compares a column by equality, written with spaces or without. *)
Definition condition : Type := string * string * operand.

Inductive write : Type :=
| Update (table : string) (sets : list (string * operand)) (conditions : list condition)
| Delete (table : string) (conditions : list condition)
| Insert (table : string) (columns : list string) (values : list operand).

Fixpoint join (sep : string) (l : list string) : string :=
  match l with
  | [] => ""
  | [x] => x
  | x :: r => x +:+ sep +:+ join sep r
  end.

Fixpoint show_operand (o : operand) : string :=
  match o with
  | Num z => itoa z
  | Text s => "'" +:+ s +:+ "'"
  | Now => "now()"
  | Blank => ""
  | Lookup column table cs =>
      "(select " +:+ column +:+ " from " +:+ table +:+ " where " +:+
      join " and " ((λ '(c, eq, v), c +:+ eq +:+ show_operand v) <$> cs) +:+ ")"
  end.

Definition show_conditions (cs : list condition) : string :=
  join " and " ((λ '(c, eq, v), c +:+ eq +:+ show_operand v) <$> cs).

Definition show (st : write) : string :=
  match st with
  | Update table sets cs =>
      "update " +:+ table +:+ " set " +:+ join ", " ((λ '(c, v), c +:+ "=" +:+ show_operand v) <$> sets)
        +:+ " where " +:+ show_conditions cs
  | Delete table cs => "delete from " +:+ table +:+ " where " +:+ show_conditions cs
  | Insert table columns values =>
      "insert into " +:+ table +:+ " (" +:+ comma_join columns +:+ ") values (" +:+
        comma_join (show_operand <$> values) +:+ ") ON DUPLICATE KEY UPDATE id=LAST_INSERT_ID(id), mtime=now()"
  end.

(** Names are letters and underscores, texts have nothing to escape, so that a
    statement can only be read the way it is meant. *)
Definition name_byte (a : ascii) : bool :=
  let n := N_of_ascii a in
  ((97 <=? n) && (n <=? 122) || (65 <=? n) && (n <=? 90) || (n =? 95))%N.

Definition is_name (s : string) : bool := forallb name_byte (String.list_ascii_of_string s).

Definition quote_free (s : string) : bool := negb (byte_in "'" s) && negb (byte_in "\" s).

Fixpoint readable_operand (o : operand) : bool :=
  match o with
  | Text s => quote_free s
  | Lookup column table cs =>
      is_name column && is_name table &&
      forallb (λ '(c, eq, v), is_name c && (bool_decide (eq = "=") || bool_decide (eq = " = "))
                              && readable_operand v) cs
  | _ => true
  end.

Definition readable_conditions (cs : list condition) : bool :=
  forallb (λ '(c, eq, v), is_name c && (bool_decide (eq = "=") || bool_decide (eq = " = "))
                          && readable_operand v) cs.

Definition readable (st : write) : bool :=
  match st with
  | Update table sets cs =>
      is_name table && forallb (λ '(c, v), is_name c && readable_operand v) sets && readable_conditions cs
  | Delete table cs => is_name table && readable_conditions cs
  | Insert table columns values =>
      is_name table && forallb is_name columns && forallb readable_operand values &&
      bool_decide (length columns = length values)
  end.

(** ** Their meaning *)

(** A row gives its columns values; the clock and the default of a column are not
    known here. *)
Definition sql_row : Type := string → option gval.

Section meaning.
Variable tables : string → list sql_row.

Fixpoint value (o : operand) : option gval :=
  match o with
  | Num z => Some (VInt z)
  | Text s => Some (VStr s)
  | Now | Blank => None
  | Lookup column table cs =>
      r ← List.find (λ r, forallb (λ '(c, _, v), bool_decide (r c = value v)) cs) (tables table); r column
  end.

Definition satisfies (cs : list condition) (r : sql_row) : bool :=
  forallb (λ '(c, _, v), bool_decide (r c = value v)) cs.

(** The rows a statement changes, removes or adds. *)
Definition touched (st : write) : list sql_row :=
  match st with
  | Update table _ cs | Delete table cs => List.filter (satisfies cs) (tables table)
  | Insert _ columns values => [λ c, '(i, _) ← list_find (c =.) columns; v ← values !! i; value v]
  end.

End meaning.

(** Every row it touches, whatever the tables hold, is of one application. *)
Definition within (id : Z) (st : write) : Prop :=
  ∀ tables row, row ∈ touched tables st → row "app_id" = Some (VInt id).

Lemma satisfies_within tables cs id row :
  ("app_id", "=", Num id) ∈ cs → satisfies tables cs row = true → row "app_id" = Some (VInt id).
Proof.
  intros Hin Hs. unfold satisfies in Hs. rewrite forallb_forall in Hs.
  specialize (Hs _ (proj1 (list_elem_of_In _ _) Hin)). by apply bool_decide_eq_true_1 in Hs.
Qed.

Lemma delete_within table cs id : ("app_id", "=", Num id) ∈ cs → within id (Delete table cs).
Proof.
  intros Hin tables row Hr%list_elem_of_In. apply filter_In in Hr as [_ Hr]. by eapply satisfies_within.
Qed.

Lemma update_within table sets cs id : ("app_id", "=", Num id) ∈ cs → within id (Update table sets cs).
Proof.
  intros Hin tables row Hr%list_elem_of_In. apply filter_In in Hr as [_ Hr]. by eapply satisfies_within.
Qed.

Lemma insert_within table columns values id :
  within id (Insert table ("app_id" :: columns) (Num id :: values)).
Proof. intros tables row Hr%list_elem_of_singleton. by subst row. Qed.

(** ** Inserts *)

Definition insert_name (f : structField) : string :=
  if decide (f_db f = "") then f_name f else f_db f.

Definition insert_literal (f : structField) (v : gval) : string :=
  match v with
  | VInt z => itoa z
  | VBool b => if b then "1" else "0"
  | VStr s => if decide (s = "") then f_db_default f else "'" +:+ s +:+ "'"
  | VOther => ""
  end.

(** The columns an insert names, and the literals it gives them. *)
Definition insert_names (fs : list structField) : list string :=
  insert_name <$> List.filter (negb ∘ skipped) fs.

Fixpoint insert_literals (fs : list structField) (vs : list gval) : list string :=
  match fs, vs with
  | f :: fs', v :: vs' =>
      if skipped f then insert_literals fs' vs' else insert_literal f v :: insert_literals fs' vs'
  | _, _ => []
  end.

Definition insertable (k : kind) : bool :=
  match k with KInt | KInt64 | KBool | KString => true | _ => false end.

Lemma add_columns_items fs : add_columns fs = comma_items (insert_names fs).
Proof.
  induction fs as [|f fs IH]; [done|]. unfold insert_names in *. simpl.
  destruct (skipped f); simpl; [done|]. by rewrite IH.
Qed.

Lemma add_values_items fs vs :
  Forall2 (λ v f, kind_of v (f_kind f) = true) vs fs →
  Forall (λ f, skipped f = false → insertable (f_kind f) = true) fs →
  add_values fs vs = comma_items (insert_literals fs vs).
Proof.
  intros Hk. induction Hk as [|v f vs fs Hv Hk IH]; intros Hf; [done|].
  apply Forall_cons_iff in Hf as [Hf Hfs]. simpl. rewrite IH by done.
  destruct (skipped f); [done|]. specialize (Hf eq_refl). simpl. f_equal.
  unfold add_value, insert_literal.
  destruct (f_kind f), v as [z|[]|s|]; try done; destruct (decide _); try done.
  by rewrite <-!str_app_assoc.
Qed.

Lemma insert_literals_length fs vs :
  length vs = length fs → length (insert_literals fs vs) = length (insert_names fs).
Proof.
  unfold insert_names. revert vs. induction fs as [|f fs IH]; intros [|v vs] Hl; try done.
  injection Hl as Hl. simpl. destruct (skipped f); simpl; [by apply IH|]. f_equal. by apply IH.
Qed.

(** For every struct type whose inserted fields are integers, booleans or
    strings, [add] writes one literal per named column, in the same order: the
    statement is the columns joined by commas and the literals joined by
    commas, and the two lists have equal length. *)
Theorem add_sql_aligned {T} `{StructLaws T} (table : string) (x : T) :
  Forall (λ f, skipped f = false → insertable (f_kind f) = true) (fields T) →
  insert_names (fields T) ≠ [] →
  add_sql table (fields T) (to_vals x) =
    "insert into " +:+ table +:+ " (" +:+ comma_join (insert_names (fields T))
      +:+ ") values (" +:+ comma_join (insert_literals (fields T) (to_vals x))
      +:+ ") ON DUPLICATE KEY UPDATE id=LAST_INSERT_ID(id), mtime=now()"
  ∧ length (insert_literals (fields T) (to_vals x)) = length (insert_names (fields T)).
Proof.
  intros Hf Hne. pose proof (to_vals_kinds x) as Hk.
  assert (Hl := insert_literals_length (fields T) (to_vals x) (Forall2_length Hk)).
  split; [|done]. unfold add_sql. rewrite add_columns_items, add_values_items by done.
  rewrite !str_app_assoc, (truncate2_items _ (insert_names _)) by done.
  rewrite truncate2_items.
  - by rewrite ?str_app_assoc.
  - intros E. rewrite E in Hl. by destruct (insert_names _).
Qed.
