(* ===== verification/Wire.v ===== *)
(** * Wire: requests and replies as text

    What connects a client of the program to a server of it: the bodies that
    [crab/http/server] and [util/utils.go] write for a reply, the request a
    server sees of what a client sends, and [crab/http/client], whose [do]
    every operation of [util/rbac] goes through. *)

From Stdlib Require Import ZArith Lia Ascii.
From stdpp Require Import base gmap strings list.
From S2P Require Import Prelude GoStrings Http Json NetUrl SqlDB.

(** ** Replies *)

Definition payload_json (p : payload) : json :=
  match p with
  | PNull => JNull
  | PVal v => encode_gval v
  | PRow fs row => encode_object fs row
  | PRows fs rows => JArr (encode_object fs <$> rows)
  | PJson v => v
  end.

(** [server.Response]: the message and the data are left out when empty. A nil
    slice in the data is not an empty interface, and is written as [null]. *)
Definition Response (status : Z) (message : string) (data : option json) : json :=
  JObj (("Status", JInt status)
        :: (if decide (message = "") then [] else [("Message", JStr message)])
        ++ (match data with Some d => [("Data", d)] | None => [] end)).

Definition reply_text (r : reply) : string :=
  match r with
  | SendResponse status msg => print (Response status msg None)
  | SendResponseData d => print (Response 0 "" (Some (payload_json d)))
  | SendResponseOK => print (Response 0 "" None)
  | SendRows total d => print (JObj [("total", JInt total); ("rows", payload_json d)])
  | SendData d => print (payload_json d)
  | WriteHeader _ => ""
  | WriteText s => s
  end.

(** The first header written is the status; any body written before one, or no
    header at all, makes it 200. *)
Definition reply_status (rs : list reply) : Z :=
  match rs with WriteHeader code :: _ => code | _ => StatusOK end.

Definition reply_body (rs : list reply) : string := foldr (λ r acc, reply_text r +:+ acc) "" rs.

(** ** Requests *)

(** What follows the first byte [c], if there is one, and what precedes it. *)
Fixpoint cut (c : ascii) (s : string) : string * option string :=
  match s with
  | EmptyString => ("", None)
  | String a r =>
      if decide (a = c) then ("", Some r)
      else let '(h, t) := cut c r in (String a h, t)
  end.

(** The path and the raw query of an [http] URL without fragment or escapes in
    its path. *)
Definition url_target (url : string) : string * string :=
  let '(_, rest) := cut "/" (TrimPrefix url "http://") in
  let '(path, query) := cut "?" (default "" rest) in
  (String "/" path, default "" query).

Definition form_type : string := "application/x-www-form-urlencoded".

(** [parsePostForm]: only a body declared as a form is one. *)
Definition post_form (method : string) (header : gmap string (list string)) (body : string)
    : gmap string (list string) * option goerror :=
  if decide (method ∈ ["POST"; "PUT"; "PATCH"] ∧ header_get header "Content-Type" = form_type)
  then ParseQuery body else (∅, None).

(** The request the server sees. [ParseForm] reports an error of the body
    before one of the query. *)
Definition request_of (method url : string) (header : gmap string (list string)) (body : string)
    : Request :=
  let '(path, raw) := url_target url in
  let '(query, qerr) := ParseQuery raw in
  let '(post, perr) := post_form method header body in
  mkRequest method path query header
    (match perr, qerr with Some e, _ | None, Some e => Throw e | None, None => Ret post end)
    (Ret body).

(** ** A server

    [httpServer.ServeHTTP] around the handler of a route: no route is answered
    with an error, a panic with status 500. *)
Section server.
Context `{SqlEngine}.

Definition invalid_request : M World unit := reply_with (SendResponse StatusNotFound "invalid request").

Definition server_ServeHTTP (route : Request → option (M World unit)) (r : Request) : M World unit :=
  recover (match route r with Some h => h | None => invalid_request end)
    (λ p, _ ← reply_with (WriteHeader StatusInternalServerError); reply_with (WriteText p)).

(** The replies a run adds to the trace. *)
Definition new_replies (w w' : World) : list reply :=
  omap replied (drop (length (w_events w)) (w_events w')).
End server.

(** ** [crab/http/client] *)

(** What a client needs of the network: [http.Client.Do] and the reading of the
    body; the status comes back with the body. *)
Class Transport (S : Type) :=
  round_trip : string → string → gmap string (list string) → string → M S (Z * string).

Definition StatusError (code : Z) : goerror := Errorf ("HTTP Status " +:+ itoa code).

Definition client_do {S} `{Transport S} (method url : string) (headers : list (string * string))
    (body : string) : M S string :=
  p ← round_trip method url (foldr (λ kv h, header_set h (fst kv) (snd kv)) ∅ headers) body;
  if decide (fst p ≠ StatusOK) then throw (StatusError (fst p)) else mret (snd p).

(** A client and a server of the same process, sharing the world: what is sent
    is handled at once. *)
Definition loopback `{SqlEngine} (route : Request → option (M World unit)) : Transport World :=
  λ method url header body w,
    match server_ServeHTTP route (request_of method url header body) w with
    | (Ret _, w') =>
        let rs := new_replies w w' in (Ret (reply_status rs, reply_body rs), w')
    | (Throw e, w') => (Throw e, w')
    | (Panic p, w') => (Panic p, w')
    end.
