(* ===== verification/RbacTheory.v ===== *)
(** * RbacTheory: what the rbac service guarantees

    Tokens identify one application; every protected route needs one; writes
    without quotes in their texts are confined to the application of the token,
    except for the deletions by id, which are not; inserts are well formed; compound operations run their
    statements in a fixed order and stop at the first error. *)

From Stdlib Require Import ZArith Lia Ascii.
From stdpp Require Import base strings list.
From S2P Require Import Prelude GoStrings Crypto Http SqlDB Orm RbacDb RbacService RbacHandlers SqlText Wire.

(** ** Decoding *)

Section decoding.
Context `{EmailPattern}.

Lemma decode_field_no_panic form f old : is_panic (decode_field true form f old) = false.
Proof. unfold decode_field. go_cases. Qed.

Lemma decode_fields_no_panic form fs vs : is_panic (decode_fields true form fs vs) = false.
Proof.
  revert vs. induction fs as [|f fs IH]; intros [|v vs]; simpl; try done.
  pose proof (decode_field_no_panic form f v). pose proof (IH vs).
  destruct (decode_field true form f v); simpl; try done.
  destruct (decode_fields true form fs vs); done.
Qed.

Lemma valid_field_no_panic f v : is_panic (valid_field f v) = false.
Proof. unfold valid_field. go_cases. Qed.

Lemma Valid_no_panic fs vs : is_panic (Valid fs vs) = false.
Proof.
  revert vs. induction fs as [|f fs IH]; intros [|v vs]; simpl; try done.
  pose proof (valid_field_no_panic f v).
  destruct (valid_field f v) as [[]| |]; simpl; try done.
Qed.

(** A struct passed by pointer decodes to values or an error. *)
Lemma DecodeRequestValue_no_panic fs old r :
  is_panic (r_post r) = false → is_panic (DecodeRequestValue true fs old r) = false.
Proof.
  intros Hp. unfold DecodeRequestValue, parsed_form.
  destruct (r_post r) as [q| |]; simpl in *; try done.
  pose proof (decode_fields_no_panic (merge_values q (r_query r)) fs old).
  destruct (decode_fields true _ fs old) as [vs| |]; simpl; try done.
  pose proof (Valid_no_panic fs vs). by destruct (Valid fs vs) as [[]| |].
Qed.
End decoding.

(** ** Traces of the SQL layer *)

Section traces.
Context `{SqlEngine} `{BlockCipher} `{EmailPattern}.

Lemma extends_exec_sql P sql : P (EvExec sql []) → extends P (exec sql).
Proof. intros. unfold exec. eauto with trace. Qed.

Lemma extends_add {T} `{Struct T} P table (x : T) :
  P (EvExec (add_sql table (fields T) (to_vals x)) []) → extends P (add table x).
Proof. intros. unfold add. eauto with trace. Qed.

Lemma extends_token {B} P r id (h : goerror → M World B) k :
  parseToken r = Ret id → extends P (k id) → extends P (try (token_of r) h k).
Proof. intros Ht Hk. unfold try, token_of, lift. by rewrite Ht. Qed.

Lemma extends_fail P st e : (∀ r, P (EvReply r)) → extends P (fail st e).
Proof. intros HP. apply extends_reply, HP. Qed.

Lemma extends_decode P fs r : extends P (decode fs r).
Proof. apply extends_lift. Qed.
End traces.

#[export] Hint Resolve extends_exec_sql extends_add extends_fail extends_decode : trace.

(** Nothing but the replies [evs] comes of a run that stops at the token. *)
Definition stopped `{SqlEngine} {A} (o : outcome A) (evs : list event) (m : M World A) (w : World) : Prop :=
  m w = (o, mkWorld (w_db w) (w_events w ++ evs)).

(** One error reply, or the panic of a token that cannot be deciphered. *)
Definition refused `{SqlEngine} `{BlockCipher} (r : Request) (m : M World unit) (w : World) : Prop :=
  (∃ st msg, (st = StatusBadRequest ∨ st = StatusInternalServerError) ∧
     stopped (Ret tt) [EvReply (SendResponse st msg)] m w) ∨
  (∃ p, parseToken r = Panic p ∧ stopped (Panic p) [] m w).

(** A statement of the grammar of [SqlText] that only touches rows of one
    application: those an update changes or a deletion removes, whatever the tables
    hold, and the one an insertion adds (the unique keys of the tables it is used
    for contain [app_id], so a row it finds there already is of the application
    too). *)
Definition writes_for (id : Z) (sql : string) : Prop :=
  ∃ st, sql = show st ∧ readable st = true ∧ within id st.

Definition confined (id : Z) (e : event) : Prop :=
  match e with EvExec sql args => args = [] ∧ writes_for id sql | _ => True end.

(** No text of the request's form has a quote or a backslash. *)
Definition nothing_to_escape (r : Request) : Prop :=
  ∀ form k, parsed_form r = Ret form → quote_free (values_get form k) = true.

Section theory.
Context `{SqlEngine} `{BlockCipher} `{EmailPattern}.

Lemma refused_decode st fs r k w :
  is_panic (r_post r) = false → (st = StatusBadRequest ∨ st = StatusInternalServerError) →
  (∀ v, refused r (k v) w) → refused r (try (decode fs r) (fail st) k) w.
Proof.
  intros Hp Hst Hk. unfold refused, stopped, try, decode, lift.
  pose proof (DecodeRequestValue_no_panic fs (zero_vals fs) r Hp).
  destruct (DecodeRequestValue true fs (zero_vals fs) r) as [v|e|p]; [apply Hk| |done].
  left. by exists st, (Error e).
Qed.

Lemma refused_token r (k : Z → M World unit) w :
  (∀ id, parseToken r ≠ Ret id) → refused r (try (token_of r) (fail StatusBadRequest) k) w.
Proof.
  intros He. unfold refused, stopped, try, token_of, lift. destruct (parseToken r) as [id|e|p] eqn:E.
  - by destruct (He id).
  - left. exists StatusBadRequest, (Error e). auto.
  - right. exists p. split; [done|]. rewrite app_nil_r. by destruct w.
Qed.

(** The routes that look at the token. *)
Definition protected_routes : list route := write_routes ++ delete_routes ++ read_routes.

Lemma protected_refuses (rt : route) r w :
  rt ∈ protected_routes → is_panic (r_post r) = false → (∀ id, parseToken r ≠ Ret id) → refused r (snd rt r) w.
Proof.
  intros Hin Hp He. unfold protected_routes, write_routes, delete_routes, read_routes in Hin. simpl in Hin.
  repeat (apply elem_of_cons in Hin as [->|Hin]; [simpl;
    first [by apply refused_token
          | apply refused_decode; [done|unfold StatusBadRequest, StatusInternalServerError; by auto|intros v; by apply refused_token]] |]).
  by apply elem_of_nil in Hin.
Qed.

(** The route of a request is found by its method and path. *)
Lemma protected_found r :
  (r_method r, r_path r) ∈ fst <$> protected_routes →
  ∃ rt, rt ∈ protected_routes ∧ rbac_serve r = Some (snd rt r).
Proof.
  intros Hin. assert (∃ rt, rt ∈ protected_routes ∧ list_find (λ x : route, fst x = (r_method r, r_path r))
    ServerInit_routes = Some (fst (default (0%nat, rt) (list_find (λ x : route, fst x = (r_method r, r_path r))
    ServerInit_routes)), rt)) as (rt & Hrt & Hf).
  { unfold protected_routes, write_routes, delete_routes, read_routes in Hin |- *. simpl in Hin.
    repeat (apply elem_of_cons in Hin as [->|Hin];
      [eexists; split; [|reflexivity]; repeat first [by left | right] |]).
    by apply elem_of_nil in Hin. }
  exists rt. split; [done|]. unfold rbac_serve. by rewrite Hf.
Qed.

(** C34: a request to any route other than the four public ones, whose token
    header gives no application, is answered without anything reaching the
    database: with one error reply, or, when the token cannot be deciphered at all
    (bytes that are no whole blocks, wrong padding), with what the server makes of
    the panic of [AesDecrypt], a status of 500 and its message. *)
Theorem rbac_token_required r w :
  (r_method r, r_path r) ∈ fst <$> protected_routes →
  is_panic (r_post r) = false → (∀ id, parseToken r ≠ Ret id) →
  ∃ evs, stopped (Ret tt) evs (server_ServeHTTP rbac_serve r) w ∧
    ((∃ st msg, (st = StatusBadRequest ∨ st = StatusInternalServerError) ∧ evs = [EvReply (SendResponse st msg)]) ∨
     (∃ p, parseToken r = Panic p ∧
        evs = [EvReply (WriteHeader StatusInternalServerError); EvReply (WriteText p)])).
Proof.
  intros Hin Hp He. destruct (protected_found r Hin) as (rt & Hrt & Hs).
  unfold stopped, server_ServeHTTP, recover. rewrite Hs.
  destruct (protected_refuses rt r w Hrt Hp He) as [(st & msg & Hst & ->)|(p & Hpanic & ->)].
  - exists [EvReply (SendResponse st msg)]. split; [done|]. left. eauto.
  - exists [EvReply (WriteHeader StatusInternalServerError); EvReply (WriteText p)]. split; [|right; eauto].
    unfold reply_with, emit. unfold_M. simpl. by rewrite app_nil_r, <-app_assoc.
Qed.

(** ** What the write routes write *)

Lemma decoded_quote_free fs r v i :
  nothing_to_escape r → DecodeRequestValue true fs (zero_vals fs) r = Ret v → quote_free (nth_str v i) = true.
Proof.
  intros Hr. unfold DecodeRequestValue. destruct (parsed_form r) as [form| |] eqn:Ef; [|done..]. cbn [mbind outcome_bind].
  destruct (decode_fields true form fs (zero_vals fs)) as [vs| |] eqn:Ed; [|done..]. cbn [mbind outcome_bind].
  destruct (Valid fs vs); [|done..]. intros [= <-].
  assert (Hall : ∀ fs vs, decode_fields true form fs (zero_vals fs) = Ret vs →
    Forall (λ v, match v with VStr s => quote_free s = true | _ => True end) vs).
  { clear fs vs Ed. induction fs as [|f fs IH]; intros vs; [intros [= <-]; constructor|]. simpl.
    destruct (decode_field true form f _) as [x| |] eqn:Ex; [|done..]. cbn [mbind outcome_bind].
    destruct (decode_fields true form fs _) as [xs| |] eqn:Exs; [|done..]. intros [= <-].
    constructor; [|by apply IH]. unfold decode_field, set_field in Ex.
    repeat (case_match; simplify_eq/=; try done); by apply Hr. }
  apply Hall in Ed. unfold nth_str. destruct (vs !! i) as [x|] eqn:Ex; [|done].
  rewrite list.Forall_lookup in Ed. specialize (Ed i x Ex). by destruct x.
Qed.

Lemma extends_decoded {B} P fs r h (k : list gval → M World B) :
  (∀ e, extends P (h e)) → (∀ v, DecodeRequestValue true fs (zero_vals fs) r = Ret v → extends P (k v)) →
  extends P (try (decode fs r) h k).
Proof.
  intros Hh Hk. unfold try, decode, lift.
  destruct (DecodeRequestValue true fs (zero_vals fs) r) as [v|e|p]; [by apply Hk|by apply Hh|].
  intros s. exists []. by rewrite app_nil_r.
Qed.

(** The literal of a text of a struct. *)
Definition inserted (s : string) : operand := if decide (s = "") then Blank else Text s.

Lemma readable_inserted s : quote_free s = true → readable_operand (inserted s) = true.
Proof. intros. unfold inserted. by destruct (decide _). Qed.

(** A statement is shown equal to the text of the code by writing both out. *)
Ltac written_out := unfold show, show_conditions; cbn -[itoa comma_join]; rewrite <-?str_app_assoc;
  cbn -[itoa comma_join]; rewrite <-?str_app_assoc; reflexivity.

Lemma written_user uid id name email :
  quote_free name = true → quote_free email = true →
  writes_for id (updateUser_sql (mkUser uid id name email "" "")).
Proof.
  intros Hn He. exists (Update "user" [("name", Text name); ("email", Text email); ("mtime", Now)]
                          [("id", "=", Num uid); ("app_id", "=", Num id)]).
  split; [unfold updateUser_sql; written_out|]. split; [cbn; by rewrite Hn, He|].
  apply update_within. set_solver.
Qed.

Lemma written_role rid uid id name comments :
  quote_free name = true → quote_free comments = true →
  writes_for id (updateRole_sql (mkRole rid id name uid comments "" "")).
Proof.
  intros Hn Hc. exists (Update "role" [("name", Text name); ("comments", Text comments); ("mtime", Now)]
                          [("id", "=", Num rid); ("app_id", "=", Num id)]).
  split; [unfold updateRole_sql; written_out|]. split; [cbn; by rewrite Hn, Hc|].
  apply update_within. set_solver.
Qed.

Lemma deleted_member id rid email :
  quote_free email = true → writes_for id (RoleUserDelete_sql id rid email).
Proof.
  intros He. exists (Delete "role_user"
    [("app_id", "=", Num id); ("role_id", "=", Num rid);
     ("user_id", " = ", Lookup "id" "user" [("app_id", "=", Num id); ("email", "=", Text email)])]).
  split; [unfold RoleUserDelete_sql; written_out|]. split; [cbn; by rewrite He|].
  apply delete_within. set_solver.
Qed.

Lemma deleted_link id rid resID : writes_for id (RoleResourceDelete_sql id rid resID).
Proof.
  exists (Delete "role_resource"
    [("app_id", "=", Num id); ("role_id", "=", Num rid); ("resource_id", " = ", Num resID)]).
  split; [unfold RoleResourceDelete_sql; written_out|]. split; [done|]. apply delete_within. set_solver.
Qed.

(** What [add] is given has its application in its first column. *)
Lemma written_insert {T} `{StructLaws T} id table (x : T) columns values :
  Forall (λ f, skipped f = false → insertable (f_kind f) = true) (fields T) →
  insert_names (fields T) = "app_id" :: columns →
  insert_literals (fields T) (to_vals x) = show_operand <$> (Num id :: values) →
  readable (Insert table ("app_id" :: columns) (Num id :: values)) = true →
  writes_for id (add_sql table (fields T) (to_vals x)).
Proof.
  intros Hf Hn Hl Hr. exists (Insert table ("app_id" :: columns) (Num id :: values)).
  split; [|split; [done|apply insert_within]].
  destruct (add_sql_aligned table x Hf) as [-> _]; [by rewrite Hn|]. by rewrite Hn, Hl.
Qed.

Ltac inserted_row :=
  [> repeat constructor | done | cbn -[itoa]; unfold inserted; repeat destruct (decide _); done
   | cbn; rewrite ?readable_inserted; done ].

Lemma confined_UserAdd id name email :
  quote_free name = true → quote_free email = true → extends (confined id) (UserAdd id name email).
Proof.
  intros Hn He. apply extends_add. split; [done|].
  apply (written_insert id "user" _ ["name"; "email"; "ctime"; "mtime"] [inserted name; inserted email; Now; Now]).
  all: inserted_row.
Qed.

Lemma confined_ResourceAdd id name comments :
  quote_free name = true → quote_free comments = true → extends (confined id) (ResourceAdd id name comments).
Proof.
  intros Hn Hc. apply extends_add. split; [done|].
  apply (written_insert id "resource" _ ["name"; "comments"; "ctime"; "mtime"]
           [inserted name; inserted comments; Now; Now]).
  all: inserted_row.
Qed.

Lemma confined_RoleUserAdd id rid name email :
  quote_free name = true → quote_free email = true → extends (confined id) (RoleUserAdd id rid name email).
Proof.
  intros Hn He. apply extends_bind; [by apply confined_UserAdd|]. intros uid. apply extends_add. split; [done|].
  apply (written_insert id "role_user" _ ["user_id"; "role_id"; "ctime"; "mtime"] [Num uid; Num rid; Now; Now]).
  all: inserted_row.
Qed.

Lemma confined_link id rid resID name :
  extends (confined id) (add "role_resource" (mkRoleResource 0 id resID name rid "" "" "" "")).
Proof.
  apply extends_add. split; [done|].
  apply (written_insert id "role_resource" _ ["resource_id"; "role_id"; "ctime"; "mtime"]
           [Num resID; Num rid; Now; Now]).
  all: inserted_row.
Qed.

Lemma confined_RoleAdd id name user email comments :
  quote_free name = true → quote_free user = true → quote_free email = true → quote_free comments = true →
  extends (confined id) (RoleAdd id name user email comments).
Proof.
  intros Hn Hu He Hc. apply extends_bind; [by apply confined_UserAdd|]. intros uid.
  apply extends_bind; [|intros rid; apply extends_bind; [by apply confined_RoleUserAdd|eauto with trace]].
  apply extends_add. split; [done|].
  apply (written_insert id "role" _ ["name"; "user_id"; "comments"; "ctime"; "mtime"]
           [inserted name; Num uid; inserted comments; Now; Now]).
  all: inserted_row.
Qed.

Lemma confined_updates id sql : writes_for id sql →
  extends (confined id) (_ ← GetConnection; _ ← Exec sql []; mret tt).
Proof. intros. assert (confined id (EvExec sql [])) by done. eauto with trace. Qed.

Lemma confined_exec id sql : writes_for id sql →
  extends (confined id) (_ ← exec sql; mret tt).
Proof. intros. assert (confined id (EvExec sql [])) by done. eauto with trace. Qed.

(** C35: when nothing in the request needs an escape, every statement a write route
    executes for the token of an application reads as a deletion or an update whose
    conditions, all joined by and, bind [app_id] to that application, or as the
    insertion of a row with that [app_id]: it touches rows of no other one. The
    routes are all the writing ones except the deletions of roles and resources by
    id. *)
Theorem rbac_writes_confined (rt : route) r id :
  rt ∈ write_routes → parseToken r = Ret id → nothing_to_escape r → extends (confined id) (snd rt r).
Proof.
  intros Hin Hid Hr. unfold write_routes in Hin.
  assert (∀ e, confined id (EvReply e)) by done.
  repeat (apply elem_of_cons in Hin as [->|Hin];
    [simpl; apply extends_decoded; [eauto with trace|];
     intros v Hv; apply extends_token with id; [done|];
     apply extends_try; [|eauto with trace..]|]); [..|by apply elem_of_nil in Hin].
  all: pose proof (λ i, decoded_quote_free _ _ _ i Hr Hv) as Hq.
  - apply confined_updates. by apply written_user.
  - by apply confined_UserAdd.
  - by apply confined_RoleUserAdd.
  - apply confined_exec. by apply deleted_member.
  - apply confined_exec. apply deleted_link.
  - apply confined_link.
  - by apply confined_RoleAdd.
  - apply confined_updates. by apply written_role.
  - by apply confined_ResourceAdd.
Qed.

(** ** Tokens *)

Lemma parseToken_of_make_token `{!BlockCipherLaws} id token r :
  0 ≤ id ≤ max_int64 → make_token id = Ret token →
  header_get (r_header r) "token" = token → parseToken r = Ret id.
Proof.
  intros Hid Hm Hr. unfold make_token in Hm.
  destruct (decide (id < 2 ^ 55)) as [Hlt|Hge].
  - destruct (varint_roundtrip id) as (buf & n & Hp & Hb & Hv & Hn); [lia|].
    rewrite Hp in Hm. cbn [mbind outcome_bind] in Hm.
    destruct (aes_encrypt_total AesKey ltac:(by left) (bytes_of_ok _) buf Hb) as (s & Es & Ed).
    rewrite Es in Hm. injection Hm as <-.
    unfold parseToken. rewrite Hr, Ed, Hv. by rewrite decide_False by lia.
  - rewrite varint_overflow in Hm by lia. done.
Qed.

Lemma AppAdd_inv name email comments w id token w' :
  AppAdd name email comments w = (Ret (id, token), w') →
  (∃ w1, add "app" (mkApp 0 name email "" comments "" "") w = (Ret id, w1)) ∧
  make_token id = Ret token.
Proof.
  unfold AppAdd. unfold_M.
  destruct (add _ _ w) as [[i| |] w1]; [|done..].
  destruct (make_token i) as [t| |] eqn:Ht; [|done..].
  destruct (updateAppToken i t w1) as [[[]| |] w2]; [|done..].
  intros [= <- <- <-]. eauto.
Qed.

(** C40: when [AppAdd] returns an application and its token, a request carrying
    that token in its header is resolved to that very application, whatever the
    database did. *)
Theorem AppAdd_token_identifies `{!BlockCipherLaws} name email comments w id token w' r :
  AppAdd name email comments w = (Ret (id, token), w') → 0 ≤ id ≤ max_int64 →
  header_get (r_header r) "token" = token →
  parseToken r = Ret id.
Proof.
  intros Ha Hid Hr. destruct (AppAdd_inv _ _ _ _ _ _ _ Ha) as [_ Ht].
  by eapply parseToken_of_make_token.
Qed.

(** An application id of [2^55] or more does not fit the 8-byte buffer its
    token is built in: [AppAdd] panics, and it does so after the row has been
    inserted and before a token has been stored. *)
Theorem AppAdd_large_id_panics name email comments w id w1 :
  add "app" (mkApp 0 name email "" comments "" "") w = (Ret id, w1) →
  2 ^ 55 ≤ id ≤ max_int64 →
  AppAdd name email comments w = (Panic "runtime error: index out of range", w1).
Proof.
  intros Ha Hid. unfold AppAdd. unfold_M. rewrite Ha. unfold make_token.
  by rewrite varint_overflow.
Qed.

(** ** Compound operations *)

Lemma add_run {T} `{Struct T} table (x : T) w :
  fields T ≠ [] →
  (∃ e d, add table x w = (Throw e, mkWorld d (w_events w))) ∨
  (∃ e d, add table x w = (Throw e, mkWorld d (w_events w ++
             [EvExec (add_sql table (fields T) (to_vals x)) []]))) ∨
  (∃ id d, add table x w = (Ret id, mkWorld d (w_events w ++
             [EvExec (add_sql table (fields T) (to_vals x)) []]))).
Proof.
  intros Hf. unfold add. rewrite decide_False by (by destruct (fields T)). unfold_M.
  unfold GetConnection. destruct (db_connect (w_db w)) as [[e|] d]; [eauto|]. right.
  unfold Exec. simpl. destruct (db_exec _ _ d) as [[e|[i n]] d'].
  - left. eauto.
  - right. exists i, d'. done.
Qed.

Definition insert_user (appID : Z) (name email : string) : event :=
  EvExec (add_sql "user" (fields User) (to_vals (mkUser 0 appID name email "" ""))) [].
Definition insert_role (appID : Z) (name : string) (uid : Z) (comments : string) : event :=
  EvExec (add_sql "role" (fields Role) (to_vals (mkRole 0 appID name uid comments "" ""))) [].
Definition insert_role_user (appID uid rid : Z) : event :=
  EvExec (add_sql "role_user" (fields RoleUser)
            (to_vals (mkRoleUser 0 appID 0 uid "" "" rid "" "" "" ""))) [].

(** [RoleAdd] runs four inserts in order: the creator, the role owned by the
    id that insert returned, the creator again, and the membership linking the
    role just created to the second user id. An error stops it, leaving a prefix
    of these inserts behind and never a role reported as created; on success all
    four ran and the result is the role linked by the last one. *)
Theorem RoleAdd_sequence appID name user email comments w :
  ∃ uid uid2 rid n,
    let inserts := [insert_user appID user email; insert_role appID name uid comments;
                    insert_user appID user email; insert_role_user appID uid2 rid] in
    let '(o, w') := RoleAdd appID name user email comments w in
    w_events w' = (w_events w ++ take n inserts)%list ∧ (n ≤ 4)%nat ∧
    match o with
    | Ret id => id = rid ∧ n = 4%nat
    | Throw _ => True
    | Panic _ => False
    end.
Proof.
  unfold RoleAdd, RoleUserAdd, UserAdd. unfold_M.
  assert (HU : fields User ≠ []) by done. assert (HR : fields Role ≠ []) by done.
  assert (HRU : fields RoleUser ≠ []) by done.
  destruct (add_run "user" (mkUser 0 appID user email "" "") w HU) as
    [(e&d&E)|[(e&d&E)|(uid&d&E)]]; rewrite E.
  { exists 0, 0, 0, 0%nat. simpl. rewrite app_nil_r. split_and!; [done|lia|done]. }
  { exists 0, 0, 0, 1%nat. simpl. split_and!; [done|lia|done]. }
  set (w1 := mkWorld d _).
  destruct (add_run "role" (mkRole 0 appID name uid comments "" "") w1 HR) as
    [(e&d1&E1)|[(e&d1&E1)|(rid&d1&E1)]]; rewrite E1.
  { exists uid, 0, 0, 1%nat. simpl. split_and!; [done|lia|done]. }
  { exists uid, 0, 0, 2%nat. simpl. rewrite <-!app_assoc. split_and!; [done|lia|done]. }
  set (w2 := mkWorld d1 _).
  destruct (add_run "user" (mkUser 0 appID user email "" "") w2 HU) as
    [(e&d2&E2)|[(e&d2&E2)|(uid2&d2&E2)]]; rewrite E2.
  { exists uid, 0, 0, 2%nat. simpl. rewrite <-!app_assoc. split_and!; [done|lia|done]. }
  { exists uid, 0, 0, 3%nat. simpl. rewrite <-!app_assoc. split_and!; [done|lia|done]. }
  set (w3 := mkWorld d2 _).
  destruct (add_run "role_user" (mkRoleUser 0 appID 0 uid2 "" "" rid "" "" "" "") w3 HRU) as
    [(e&d3&E3)|[(e&d3&E3)|(id&d3&E3)]]; rewrite E3.
  { exists uid, uid2, rid, 3%nat. simpl. rewrite <-!app_assoc. split_and!; [done|lia|done]. }
  all: exists uid, uid2, rid, 4%nat; simpl; rewrite <-!app_assoc; split_and!; done || lia.
Qed.

Lemma validate_run sql w :
  (∃ e d evs, validate sql w = (Throw e, mkWorld d (w_events w ++ evs)) ∧
              Forall (λ x, executed x = None) evs) ∨
  (∃ rows d0 d1, db_query sql [] d0 = (inr rows, d1) ∧
     validate sql w = (Ret (match rows with [] => false | _ => true end),
                       mkWorld d1 (w_events w ++ [EvQuery sql []]))).
Proof.
  unfold validate. unfold_M. unfold GetConnection.
  destruct (db_connect (w_db w)) as [[e|] d].
  { left. exists e, d, []. rewrite app_nil_r. auto. }
  unfold Query. simpl. destruct (db_query sql [] d) as [[e|rows] d1] eqn:E; simpl.
  - left. exists e, d1, [EvQuery sql []]. split; [done|]. by repeat constructor.
  - right. exists rows, d, d1. auto.
Qed.

Lemma exec_run sql w :
  ∃ d evs, w_events (exec sql w).2 = (w_events w ++ evs)%list ∧
    (evs = [] ∨ evs = [EvExec sql []]) ∧ w_db (exec sql w).2 = d ∧
    (∀ n, (exec sql w).1 = Ret n → evs = [EvExec sql []]).
Proof.
  unfold exec. unfold_M. unfold GetConnection.
  destruct (db_connect (w_db w)) as [[e|] d].
  { exists d, []. rewrite app_nil_r. simpl. split_and!; auto. done. }
  unfold Exec. simpl. destruct (db_exec sql [] d) as [[e|[i n]] d1]; simpl; eexists _, _; eauto.
Qed.

(** [RoleDelete] executes nothing but the deletion of that role in that
    application, and executes it only after the engine has answered with no rows
    both to the search for its users and to the search for its resources; it
    reports success only if it was executed. *)
Theorem RoleDelete_only_unrelated appID roleID w :
  let '(o, w') := RoleDelete appID roleID w in
  ∃ evs, w_events w' = (w_events w ++ evs)%list ∧
    (∀ sql args, EvExec sql args ∈ evs →
       sql = role_delete_sql appID roleID ∧
       (∃ d0 d1, db_query (role_user_exists_sql appID roleID) [] d0 = (inr [], d1)) ∧
       (∃ d0 d1, db_query (role_resource_exists_sql appID roleID) [] d0 = (inr [], d1))) ∧
    (o = Ret tt → EvExec (role_delete_sql appID roleID) [] ∈ evs).
Proof.
  assert (Hno : ∀ evs, Forall (λ x, executed x = None) evs → ∀ sql args, EvExec sql args ∉ evs).
  { intros evs HF sql args Hin. rewrite List.Forall_forall in HF.
    apply list_elem_of_In, HF in Hin. done. }
  unfold RoleDelete. unfold_M.
  destruct (validate_run (role_user_exists_sql appID roleID) w) as
    [(e&d&evs&E&HF)|(rows&d0&d1&Hq&E)]; rewrite E.
  { exists evs. split_and!; [done| |done]. intros ?? Hin. by apply Hno in Hin. }
  destruct rows as [|row rows].
  2:{ exists [EvQuery (role_user_exists_sql appID roleID) []]. split_and!; [done| |done].
      intros ?? Hin. apply list_elem_of_singleton in Hin. done. }
  set (w1 := mkWorld d1 _).
  destruct (validate_run (role_resource_exists_sql appID roleID) w1) as
    [(e&d&evs&E1&HF)|(rows&d2&d3&Hq1&E1)]; rewrite E1; simpl; rewrite <-app_assoc.
  { eexists. split_and!; [done| |done]. intros ?? Hin.
    apply elem_of_app in Hin as [Hin|Hin]; [by apply list_elem_of_singleton in Hin|by apply Hno in Hin]. }
  destruct rows as [|row rows].
  2:{ eexists. split_and!; [done| |done]. intros ?? Hin.
      repeat (apply elem_of_cons in Hin as [Hin|Hin]; [done|]). by apply elem_of_nil in Hin. }
  set (w2 := mkWorld d3 _).
  destruct (exec_run (role_delete_sql appID roleID) w2) as (d & evs & Ev & Hevs & _ & Hret).
  destruct (exec (role_delete_sql appID roleID) w2) as [o w3]. simpl in *.
  assert (w_events w3 = (w_events w ++ ([EvQuery (role_user_exists_sql appID roleID) [];
     EvQuery (role_resource_exists_sql appID roleID) []] ++ evs))%list) as Hw.
  { rewrite Ev. unfold w2, w1. simpl. by rewrite <-!app_assoc. }
  destruct o as [n|e|p]; eexists; (split_and!; [exact Hw| |]); try done.
  1,3,4: intros sql args Hin; apply elem_of_app in Hin as [Hin|Hin];
    [repeat (apply elem_of_cons in Hin as [Hin|Hin]; [done|]); by apply elem_of_nil in Hin|];
    destruct Hevs as [-> | ->]; [by apply elem_of_nil in Hin|];
    apply list_elem_of_singleton in Hin as [= -> ->]; eauto 10.
  intros _. rewrite (Hret n eq_refl). simpl. set_solver.
Qed.
End theory.

(** ** Inserts *)

(** A role added with an empty comment gets an empty slot among the values:
    the statement [add] sends is not SQL. *)
Theorem insert_role_without_comments appID name uid :
  name ≠ "" →
  add_sql "role" (fields Role) (to_vals (mkRole 0 appID name uid "" "" "")) =
    "insert into role (app_id, name, user_id, comments, ctime, mtime) values ("
      +:+ itoa appID +:+ ", '" +:+ name +:+ "', " +:+ itoa uid +:+ ", , now(), now())"
      +:+ " ON DUPLICATE KEY UPDATE id=LAST_INSERT_ID(id), mtime=now()".
Proof.
  intros Hn. unfold add_sql. rewrite add_columns_items, add_values_items; [| |].
  - rewrite !str_app_assoc, truncate2_items by done. simpl insert_literals.
    rewrite truncate2_items by done. unfold insert_literal. rewrite decide_False by done.
    simpl. by rewrite <-!str_app_assoc.
  - apply to_vals_kinds.
  - repeat constructor.
Qed.

(** ** Queries and deletions *)

Section queries.
Context `{SqlEngine} `{BlockCipher} `{EmailPattern}.

(** The paged queries on members of a role agree: the query by role and the
    query by user are the query by both with the other criterion left open, and
    the members of a user's role found through [/rbac/user/role/] are those the
    query by user finds. *)
Theorem relation_queries_agree appID roleID email sort order offset limit w :
  RelationUserQuery appID roleID sort order offset limit w =
    RelationRoleUserQuery appID roleID "" sort order offset limit w ∧
  RelationRoleQuery appID email sort order offset limit w =
    RelationRoleUserQuery appID 0 email sort order offset limit w ∧
  RoleQuery appID 0 email sort order offset limit w =
    RelationRoleQuery appID email sort order offset limit w ∧
  RoleQuery appID roleID "" sort order offset limit w =
    RelationUserQuery appID roleID sort order offset limit w.
Proof.
  unfold RelationUserQuery, RelationRoleUserQuery, RelationRoleQuery, RoleQuery.
  change (email_clause "") with "". change (id_clause "role_user.role_id" 0) with "".
  rewrite !str_app_nil_r. change ("" +:+ email_clause email) with (email_clause email).
  by rewrite ?str_app_nil_r.
Qed.

(** Deleting a resource ignores the application of the token: any two valid
    tokens, of whatever applications, have the same effect on the same id. *)
Theorem resource_delete_ignores_application r1 r2 id1 id2 w :
  parseToken r1 = Ret id1 → parseToken r2 = Ret id2 → r_query r1 = r_query r2 →
  rbacResource_DELETE r1 w = rbacResource_DELETE r2 w.
Proof.
  intros Ha Hb Hq. unfold rbacResource_DELETE, token_of, lift, try. by rewrite Ha, Hb, Hq.
Qed.

(** A deletion of a role that names neither an id nor a name sends the
    deletion of memberships with nothing after its [where], twice when the
    first is accepted, and no other statement. *)
Theorem role_delete_unspecified r appID :
  DecodeRequestValue true [var_int "role_id"; var_str "name"] [VInt 0; VStr ""] r
    = Ret [VInt 0; VStr ""] →
  parseToken r = Ret appID →
  extends (λ e, ∀ sql args, statement e = Some (sql, args) → sql = "delete from role_user where ")
    (rbacRole_DELETE r).
Proof.
  intros Hd Ht w. unfold rbacRole_DELETE, decode, token_of, lift. unfold try at 1 2.
  change (zero_vals _) with [VInt 0; VStr ""]. rewrite Hd, Ht. cbn -[exec fail].
  apply extends_try; [by apply extends_exec_sql; intros ?? [= <- <-]| |];
    intros ?; [by apply extends_fail|].
  apply extends_try; [by apply extends_exec_sql; intros ?? [= <- <-]| |];
    intros ?; [by apply extends_fail|]. by apply extends_reply.
Qed.

(** [RelationUserRoleDel] on behalf of an owner removes the membership only
    after the engine has answered the search for a role with that id and that
    owner with at least one row; without an owner it removes it directly. Either
    way nothing but that membership is deleted. *)
Theorem RelationUserRoleDel_owner_checked appID roleID email owner w :
  let '(o, w') := RelationUserRoleDel appID roleID email owner w in
  ∃ evs, w_events w' = (w_events w ++ evs)%list ∧
    (∀ sql args, EvExec sql args ∈ evs →
       sql = RelationUserRoleDel_sql appID roleID email ∧
       (owner = "" ∨ ∃ row rows d0 d1, db_query (owner_sql roleID owner) [] d0 = (inr (row :: rows), d1))) ∧
    (o = Ret tt → EvExec (RelationUserRoleDel_sql appID roleID email) [] ∈ evs).
Proof.
  assert (Hdel : ∀ w1 pre (Q : Prop), w_events w1 = (w_events w ++ pre)%list →
    (∀ sql args, EvExec sql args ∉ pre) → Q →
    let '(o, w') := (_ ← exec (RelationUserRoleDel_sql appID roleID email); mret tt) w1 in
    ∃ evs, w_events w' = (w_events w ++ evs)%list ∧
      (∀ sql args, EvExec sql args ∈ evs →
         sql = RelationUserRoleDel_sql appID roleID email ∧ Q) ∧
      (o = Ret tt → EvExec (RelationUserRoleDel_sql appID roleID email) [] ∈ evs)).
  { intros w1 pre Q Hw Hpre HQ.
    destruct (exec_run (RelationUserRoleDel_sql appID roleID email) w1) as (d & evs & Ev & Hevs & _ & Hret).
    unfold_M. destruct (exec _ w1) as [[n|e|p] w2]; simpl in *; exists (pre ++ evs)%list;
      rewrite Ev, Hw, <-app_assoc; (split_and!; [done| |]); try done.
    2:{ intros _. rewrite (Hret n eq_refl); set_solver. }
    all: intros sql args Hin; apply elem_of_app in Hin as [Hin|Hin]; [by apply Hpre in Hin|];
      destruct Hevs as [-> | ->]; [by apply elem_of_nil in Hin|];
      apply list_elem_of_singleton in Hin as [= -> ->]; auto. }
  unfold RelationUserRoleDel. destruct (decide (owner = "")) as [Ho|Ho].
  - apply (Hdel w []); [by rewrite app_nil_r|intros ?? Hin; by apply elem_of_nil in Hin|auto].
  - destruct (validate_run (owner_sql roleID owner) w) as
      [(e&d&evs&E&HF)|(rows&d0&d1&Hq&E)]; unfold_M; rewrite E; simpl.
    + exists evs. split_and!; [done| |done]. intros sql args Hin.
      rewrite List.Forall_forall in HF. by apply list_elem_of_In, HF in Hin.
    + destruct rows as [|row rows].
      * simpl. eexists. split_and!; [done| |done]. intros ?? Hin.
        by apply list_elem_of_singleton in Hin.
      * apply Hdel with (pre := [EvQuery (owner_sql roleID owner) []]); [done| |eauto 10].
        intros ?? Hin. by apply list_elem_of_singleton in Hin.
Qed.
End queries.

(** ** Concrete runs *)

Module Runs.
#[local] Existing Instance Scripted.engine.
#[local] Existing Instance XorCipher.cipher.
#[local] Instance any_email : EmailPattern := λ _, true.

Definition token5 : string :=
  match make_token 5 with Ret t => t | _ => "" end.

Definition request (method path : string) (hdr : gmap string (list string))
    (form : gmap string (list string)) : Request :=
  mkRequest method path ∅ hdr (Ret form) (Ret "").

Definition with_token (t : string) : gmap string (list string) := {[ "Token" := [t] ]}.

(** Without a token, and with one that is not made of whole blocks. *)
Theorem rbac_token_required_witness :
  (∃ evs, stopped (Ret tt) evs (server_ServeHTTP rbac_serve (request "POST" "/rbac/role/" ∅ {[ "name" := ["dev"] ]}))
    (Scripted.world [] []) ∧ length evs = 1%nat) ∧
  ∃ p, stopped (Ret tt) [EvReply (WriteHeader StatusInternalServerError); EvReply (WriteText p)]
    (server_ServeHTTP rbac_serve (request "GET" "/rbac/role/" (with_token "AAAA") ∅)) (Scripted.world [] []).
Proof.
  split.
  - destruct (rbac_token_required (request "POST" "/rbac/role/" ∅ {[ "name" := ["dev"] ]}) (Scripted.world [] []))
      as (evs & Hs & Hevs); [by do 6 right; left|done|vm_compute; discriminate|].
    exists evs. split; [exact Hs|]. destruct Hevs as [(st & msg & _ & ->)|(p & Hp & ->)]; [done|].
    vm_compute in Hp. discriminate.
  - destruct (rbac_token_required (request "GET" "/rbac/role/" (with_token "AAAA") ∅) (Scripted.world [] []))
      as (evs & Hs & Hevs); [by do 15 right; left|done|vm_compute; discriminate|].
    destruct Hevs as [(st & msg & _ & ->)|(p & Hp & ->)]; [|by exists p].
    vm_compute in Hs. discriminate.
Defined.

Theorem rbac_writes_confined_witness :
  extends (confined 5)
    (rbacRole_PUT (request "PUT" "/rbac/role/" (with_token token5) {[ "role_id" := ["7"] ]})).
Proof.
  apply (rbac_writes_confined (("PUT", "/rbac/role/"), rbacRole_PUT));
    [by do 7 right; left|vm_compute; reflexivity|].
  intros form k [= <-]. unfold values_get, merge_values. rewrite lookup_union_with, lookup_empty.
  destruct (decide (k = "role_id")) as [->|Hk]; [reflexivity|].
  rewrite lookup_singleton_ne by done. reflexivity.
Defined.

(** A name that holds a quote ends the literal it is pasted into, and may give the
    update conditions of its own: this one is for another role of another application. *)
Example name_ends_literal :
  updateRole_sql (mkRole 3 5 "x' where id=4 -- " 0 "" "" "") =
    "update role set name='x' where id=4 -- ', comments='', mtime=now() where id=3 and app_id=5".
Proof. reflexivity. Qed.

Theorem AppAdd_token_identifies_witness :
  parseToken (request "GET" "/rbac/role/" (with_token token5) ∅) = Ret 5.
Proof.
  apply (AppAdd_token_identifies "shop" "a@b.c" "x"
           (Scripted.world [] [inr (5, 1); inr (0, 1)]) 5 token5
           (AppAdd "shop" "a@b.c" "x" (Scripted.world [] [inr (5, 1); inr (0, 1)])).2);
    [vm_compute; reflexivity|unfold max_int64; lia|vm_compute; reflexivity].
Defined.

Theorem AppAdd_large_id_panics_witness :
  (AppAdd "shop" "a@b.c" "x" (Scripted.world [] [inr (2 ^ 55, 1)])).1
    = Panic "runtime error: index out of range".
Proof.
  rewrite (AppAdd_large_id_panics "shop" "a@b.c" "x" (Scripted.world [] [inr (2 ^ 55, 1)]) (2 ^ 55)
    (add "app" (mkApp 0 "shop" "a@b.c" "" "x" "" "") (Scripted.world [] [inr (2 ^ 55, 1)])).2);
    [reflexivity|vm_compute; reflexivity|unfold max_int64; lia].
Defined.

Theorem add_sql_aligned_witness :
  add_sql "role_user" (fields RoleUser) (to_vals (mkRoleUser 0 5 0 2 "" "" 7 "" "" "" "")) =
    "insert into role_user (app_id, user_id, role_id, ctime, mtime) values (5, 2, 7, now(), now())"
      +:+ " ON DUPLICATE KEY UPDATE id=LAST_INSERT_ID(id), mtime=now()".
Proof.
  destruct (add_sql_aligned "role_user" (mkRoleUser 0 5 0 2 "" "" 7 "" "" "" "")) as [E _].
  - repeat constructor; vm_compute; auto.
  - vm_compute. discriminate.
  - rewrite E. vm_compute. reflexivity.
Defined.

Theorem insert_role_without_comments_witness :
  add_sql "role" (fields Role) (to_vals (mkRole 0 5 "dev" 2 "" "" "")) =
    "insert into role (app_id, name, user_id, comments, ctime, mtime) values (5, 'dev', 2, , now(), now())"
      +:+ " ON DUPLICATE KEY UPDATE id=LAST_INSERT_ID(id), mtime=now()".
Proof. rewrite (insert_role_without_comments 5 "dev" 2); [reflexivity|discriminate]. Defined.

Definition token6 : string :=
  match make_token 6 with Ret t => t | _ => "" end.

Theorem resource_delete_ignores_application_witness :
  rbacResource_DELETE (request "DELETE" "/rbac/resource/" (with_token token5) ∅) (Scripted.world [] []) =
  rbacResource_DELETE (request "DELETE" "/rbac/resource/" (with_token token6) ∅) (Scripted.world [] []).
Proof.
  apply (resource_delete_ignores_application _ _ 5 6); vm_compute; reflexivity.
Defined.

Theorem role_delete_unspecified_witness :
  extends (λ e, ∀ sql args, statement e = Some (sql, args) → sql = "delete from role_user where ")
    (rbacRole_DELETE (request "DELETE" "/rbac/role/" (with_token token5) ∅)).
Proof. apply (role_delete_unspecified _ 5); vm_compute; reflexivity. Defined.
End Runs.
