(* ===== verification/BTree.v ===== *)
(** * BTree: the B-tree behind the prefixes of a server

    [_vendor/github.com/google/btree/btree.go] as the dispatcher uses it: [New],
    [ReplaceOrInsert], [Get] and the ascending iteration, for any order. A tree
    here has one owner, because nothing in the program calls [Clone]: the copies
    [mutableFor] would make are not made, and nodes are not taken from a free
    list with anything in them. [None] is a panic. *)

From Stdlib Require Import ZArith Lia Sorting.Sorted.
From stdpp Require Import base list sorting.
From S2P Require Import Prelude.

#[local] Open Scope nat_scope.

(** [sort.Search]: the loop halves the range, so its length is fuel enough. *)
Fixpoint search_loop (fuel : nat) (f : nat → bool) (i j : nat) : nat :=
  match fuel with
  | O => i
  | S fuel =>
      if decide (i < j) then
        let h := (i + j) / 2 in
        if f h then search_loop fuel f i h else search_loop fuel f (S h) j
      else i
  end.

Definition Search (n : nat) (f : nat → bool) : nat := search_loop n f 0 n.

(** [insertAt] of [items] and of [children]. *)
Definition insertAt {A} (index : nat) (x : A) (s : list A) : option (list A) :=
  if decide (index ≤ length s) then Some (take index s ++ x :: drop index s)%list else None.

Section btree.
Context {Item : Type} (less : Item → Item → bool).

(** ** Nodes *)

Inductive node : Type := Node (items : list Item) (children : list node).

Definition items (n : node) : list Item := let '(Node i _) := n in i.
Definition children (n : node) : list node := let '(Node _ c) := n in c.

(** [items.find]. *)
Definition find (s : list Item) (item : Item) : nat * bool :=
  let i := Search (length s) (λ k, match s !! k with Some x => less item x | None => false end) in
  match i with
  | O => (i, false)
  | S j => match s !! j with Some x => if less x item then (i, false) else (j, true) | None => (i, false) end
  end.

Definition split (i : nat) (n : node) : option (node * Item * node) :=
  item ← items n !! i;
  match children n with
  | [] => Some (Node (take i (items n)) [], item, Node (drop (S i) (items n)) [])
  | cs =>
      if decide (S i ≤ length cs) then
        Some (Node (take i (items n)) (take (S i) cs), item, Node (drop (S i) (items n)) (drop (S i) cs))
      else None
  end.

Definition maybeSplitChild (i maxItems : nat) (n : node) : option (bool * node) :=
  c ← children n !! i;
  if decide (length (items c) < maxItems) then Some (false, n) else
  '(first, item, second) ← split (maxItems / 2) c;
  its ← insertAt i item (items n);
  cs ← insertAt (S i) second (<[i := first]> (children n));
  Some (true, Node its cs).

(** [n.mutableChild(i).insert(item, maxItems)]. *)
Definition insert_child (ins : node → option (option Item * node)) (i : nat) (n : node)
    : option (option Item * node) :=
  c ← children n !! i;
  '(out, c') ← ins c;
  Some (out, Node (items n) (<[i := c']> (children n))).

Definition set_item (i : nat) (item : Item) (n : node) : option (option Item * node) :=
  out ← items n !! i;
  Some (Some out, Node (<[i := item]> (items n)) (children n)).

(** [node.insert]; it goes down one level at a time. *)
Fixpoint insert (fuel : nat) (item : Item) (maxItems : nat) (n : node) : option (option Item * node) :=
  match fuel with
  | O => None
  | S fuel =>
      let '(i, found) := find (items n) item in
      if found then set_item i item n else
      match children n with
      | [] => its ← insertAt i item (items n); Some (None, Node its [])
      | _ =>
          '(did, n) ← maybeSplitChild i maxItems n;
          if did : bool then
            inTree ← items n !! i;
            if less item inTree then insert_child (insert fuel item maxItems) i n
            else if less inTree item then insert_child (insert fuel item maxItems) (S i) n
            else set_item i item n
          else insert_child (insert fuel item maxItems) i n
      end
  end.

(** [node.get]. *)
Fixpoint get (fuel : nat) (key : Item) (n : node) : option (option Item) :=
  match fuel with
  | O => None
  | S fuel =>
      let '(i, found) := find (items n) key in
      if found then out ← items n !! i; Some (Some out)
      else match children n with
           | [] => Some None
           | cs => c ← cs !! i; get fuel key c
           end
  end.

Section iterate.
Context {K : Type} (iter : K → Item → K * bool) (start stop : option Item) (includeStart : bool).

(** One turn of the loop of [iterate] upwards, at item [i]; [rec] iterates over a
    child. The result is [hit], [ok] and what the iterator keeps. *)
Definition ascend_item (rec : node → bool → K → option (bool * bool * K)) (n : node) (i : nat) (hit : bool) (s : K)
    : option (bool * bool * K) :=
  x ← items n !! i;
  if match start with Some a => less x a | None => false end then Some (hit, true, s) else
  '(hit, ok, s) ← match children n with
                  | [] => Some (hit, true, s)
                  | cs => c ← cs !! i; rec c hit s
                  end;
  if negb ok then Some (hit, false, s) else
  if negb includeStart && negb hit && match start with Some a => negb (less a x) | None => false end
  then Some (true, true, s) else
  if match stop with Some b => negb (less x b) | None => false end then Some (true, false, s) else
  let '(s, more) := iter s x in Some (true, more, s).

Fixpoint ascend_loop (rec : node → bool → K → option (bool * bool * K)) (n : node) (js : list nat) (hit : bool) (s : K)
    : option (bool * bool * K) :=
  match js with
  | [] => Some (hit, true, s)
  | i :: js =>
      '(hit, ok, s) ← ascend_item rec n i hit s;
      if ok : bool then ascend_loop rec n js hit s else Some (hit, false, s)
  end.

(** [node.iterate] with the direction [ascend]. *)
Fixpoint iterate (fuel : nat) (n : node) (hit : bool) (s : K) : option (bool * bool * K) :=
  match fuel with
  | O => None
  | S fuel =>
      '(hit, ok, s) ← ascend_loop (iterate fuel) n (seq 0 (length (items n))) hit s;
      if negb ok then Some (hit, false, s) else
      match list.last (children n) with
      | None => Some (hit, true, s)
      | Some c => iterate fuel c hit s
      end
  end.
End iterate.

(** ** Trees *)

Record BTree := mkBTree { t_degree : nat; t_length : nat; t_root : option node }.

Definition New (degree : nat) : option BTree :=
  if decide (degree ≤ 1) then None else Some (mkBTree degree 0 None).

Definition maxItems (t : BTree) : nat := t_degree t * 2 - 1.

(** How deep the recursions go: all leaves are at one depth. *)
Fixpoint height (n : node) : nat :=
  match n with
  | Node _ [] => 1
  | Node _ (c :: _) => S (height c)
  end.

Definition ReplaceOrInsert (item : Item) (t : BTree) : option (option Item * BTree) :=
  match t_root t with
  | None => Some (None, mkBTree (t_degree t) (S (t_length t)) (Some (Node [item] [])))
  | Some root =>
      root ← (if decide (maxItems t ≤ length (items root)) then
                '(oldroot, item2, second) ← split (maxItems t / 2) root;
                Some (Node [item2] [oldroot; second])
              else Some root);
      '(out, root) ← insert (height root) item (maxItems t) root;
      Some (out, mkBTree (t_degree t) (match out with None => S (t_length t) | Some _ => t_length t end) (Some root))
  end.

Definition Get (key : Item) (t : BTree) : option (option Item) :=
  match t_root t with None => Some None | Some root => get (height root) key root end.

Definition Has (key : Item) (t : BTree) : option bool :=
  out ← Get key t; Some (match out with Some _ => true | None => false end).

(** The iterator is a function of what it keeps between its calls. *)
Definition AscendGreaterOrEqual {K} (pivot : Item) (iter : K → Item → K * bool) (s : K) (t : BTree) : option K :=
  match t_root t with
  | None => Some s
  | Some root => '(_, _, s) ← iterate iter (Some pivot) None true (height root) root false s; Some s
  end.
End btree.

Arguments node : clear implicits.
Arguments BTree : clear implicits.
Arguments Node {Item} _ _.
