(* ===== verification/BTreeTheory.v ===== *)
(** * BTreeTheory: a B-tree is the sorted list of its items

    For every strict weak order: searching a node, splitting it and inserting
    below it keep the shape of the tree, all leaves at one depth and between
    [degree - 1] and [2 * degree - 1] items in a node, and do to the items in
    order what the same operation does to a sorted list. No operation panics, and
    the depth grows with the logarithm of the number of items. *)

From Stdlib Require Import ZArith Lia Sorting.Sorted.
From stdpp Require Import base list sorting.
From S2P Require Import Prelude BTree.

#[local] Open Scope nat_scope.
#[local] Open Scope list_scope.

(** ** [sort.Search] *)

Lemma search_loop_spec f n fuel i j :
  j - i ≤ fuel → i ≤ j ≤ n → (∀ a b, a ≤ b < n → f a = true → f b = true) →
  (∀ a, a < i → f a = false) → (∀ b, j ≤ b < n → f b = true) →
  let k := search_loop fuel f i j in
  k ≤ n ∧ (∀ a, a < k → f a = false) ∧ (∀ b, k ≤ b < n → f b = true).
Proof.
  revert i j. induction fuel as [|fuel IH]; intros i j Hfuel Hij Hmono Hlow Hhigh; cbn [search_loop].
  - assert (i = j) as -> by lia. split_and!; [lia|done|done].
  - destruct (decide (i < j)) as [Hlt|Hge].
    2: { assert (i = j) as -> by lia. split_and!; [lia|done|done]. }
    assert (i ≤ (i + j) / 2 < j) as Hh.
    { split; [apply Nat.div_le_lower_bound; lia|apply Nat.Div0.div_lt_upper_bound; lia]. }
    cbv zeta. destruct (f ((i + j) / 2)) eqn:Hf; apply IH; try done; try lia.
    + intros b Hb. apply (Hmono ((i + j) / 2)); [lia|done].
    + intros a Ha. destruct (f a) eqn:Ef; [|done].
      by rewrite (Hmono a ((i + j) / 2)) in Hf by (lia || done).
Qed.

Lemma Search_spec f n :
  (∀ a b, a ≤ b < n → f a = true → f b = true) →
  Search n f ≤ n ∧ (∀ a, a < Search n f → f a = false) ∧ (∀ b, Search n f ≤ b < n → f b = true).
Proof. intros Hmono. apply search_loop_spec; [lia|lia|done|intros; lia|intros; lia]. Qed.

(** ** Strict weak orders, and sorted lists of items *)

Class StrictWeak {Item} (less : Item → Item → bool) : Prop := {
  less_irrefl x : less x x = false;
  less_trans x y z : less x y = true → less y z = true → less x z = true;
  less_weak x y z : less x z = true → less x y = true ∨ less y z = true
}.

Section order.
Context {Item : Type} (less : Item → Item → bool) `{!StrictWeak less}.

Definition same (x y : Item) : bool := negb (less x y) && negb (less y x).

Definition sorted (l : list Item) : Prop := StronglySorted (λ x y, less x y = true) l.

Definition all_less (l : list Item) (p : Item) : Prop := ∀ x, x ∈ l → less x p = true.
Definition all_greater (l : list Item) (p : Item) : Prop := ∀ x, x ∈ l → less p x = true.

(** What the operations are on a list. *)
Fixpoint sorted_insert (p : Item) (l : list Item) : list Item :=
  match l with
  | [] => [p]
  | q :: r => if same p q then p :: r else if less p q then p :: l else q :: sorted_insert p r
  end.

Definition sorted_get (p : Item) (l : list Item) : option Item := List.find (same p) l.

Definition sorted_from (pivot : Item) (l : list Item) : list Item := List.filter (λ q, negb (less q pivot)) l.

Lemma less_asym x y : less x y = true → less y x = false.
Proof.
  intros Hxy. destruct (less y x) eqn:Hyx; [|done].
  pose proof (less_trans x y x Hxy Hyx) as Hxx. by rewrite (less_irrefl (less:=less)) in Hxx.
Qed.

Lemma less_not_same x y : less x y = true → same y x = false ∧ same x y = false.
Proof. intros Hxy. unfold same. rewrite Hxy. simpl. by rewrite andb_false_r. Qed.

Lemma same_refl x : same x x = true.
Proof. unfold same. by rewrite (less_irrefl (less:=less)). Qed.

Lemma same_spec x y : same x y = true ↔ less x y = false ∧ less y x = false.
Proof. unfold same. rewrite andb_true_iff, !negb_true_iff. done. Qed.

Lemma less_same_l x y z : same x y = true → less y z = true → less x z = true.
Proof.
  intros [Hxy Hyx]%same_spec Hyz. destruct (less_weak y x z Hyz) as [H|H]; [congruence|done].
Qed.

Lemma less_same_r x y z : less x y = true → same y z = true → less x z = true.
Proof.
  intros Hxy [Hyz Hzy]%same_spec. destruct (less_weak x z y Hxy) as [H|H]; [done|congruence].
Qed.

Lemma sorted_app a b : sorted (a ++ b) ↔ (∀ x y, x ∈ a → y ∈ b → less x y = true) ∧ sorted a ∧ sorted b.
Proof. apply StronglySorted_app. Qed.

Lemma sorted_cons x l : sorted (x :: l) ↔ all_greater l x ∧ sorted l.
Proof. unfold sorted. by rewrite StronglySorted_cons, list.Forall_forall. Qed.

(** Around an item of a sorted list. *)
Lemma sorted_around a x b : sorted (a ++ x :: b) → all_less a x ∧ all_greater b x.
Proof.
  rewrite sorted_app, sorted_cons. intros (Hab & _ & Hb & _). split; [|done].
  intros y Hy. apply Hab; [done|]. by constructor.
Qed.

Lemma all_less_app a b p : all_less (a ++ b) p ↔ all_less a p ∧ all_less b p.
Proof. unfold all_less. setoid_rewrite elem_of_app. naive_solver. Qed.

Lemma all_greater_app a b p : all_greater (a ++ b) p ↔ all_greater a p ∧ all_greater b p.
Proof. unfold all_greater. setoid_rewrite elem_of_app. naive_solver. Qed.

Lemma all_less_cons x l p : all_less (x :: l) p ↔ less x p = true ∧ all_less l p.
Proof. unfold all_less. setoid_rewrite elem_of_cons. naive_solver. Qed.

Lemma all_greater_cons x l p : all_greater (x :: l) p ↔ less p x = true ∧ all_greater l p.
Proof. unfold all_greater. setoid_rewrite elem_of_cons. naive_solver. Qed.

Lemma all_less_trans l x p : all_less l x → less x p = true → all_less l p.
Proof. intros Hl Hx y Hy. by apply (less_trans y x p); [apply Hl|]. Qed.

Lemma all_greater_trans l x p : all_greater l x → less p x = true → all_greater l p.
Proof. intros Hl Hx y Hy. by apply (less_trans p x y); [|apply Hl]. Qed.

(** The list operations work between the smaller and the greater items. *)
Lemma insert_after a l p : all_less a p → sorted_insert p (a ++ l) = a ++ sorted_insert p l.
Proof.
  induction a as [|x a IH]; [done|]. rewrite all_less_cons. intros [Hx Ha]. simpl.
  destruct (less_not_same x p Hx) as [-> _]. rewrite (less_asym x p) by done. by rewrite IH.
Qed.

Lemma insert_before l b p : all_greater b p → sorted_insert p (l ++ b) = sorted_insert p l ++ b.
Proof.
  intros Hb. induction l as [|x l IH]; simpl.
  - destruct b as [|y b]; [done|]. apply all_greater_cons in Hb as [Hy _]. simpl.
    destruct (less_not_same p y Hy) as [_ ->]. by rewrite Hy.
  - destruct (same p x); [done|]. destruct (less p x); [done|]. by rewrite IH.
Qed.

Lemma insert_between a l b p :
  all_less a p → all_greater b p → sorted_insert p (a ++ l ++ b) = a ++ sorted_insert p l ++ b.
Proof. intros Ha Hb. by rewrite insert_after, insert_before. Qed.

Lemma insert_same a x b p : all_less a p → same p x = true → sorted_insert p (a ++ x :: b) = a ++ p :: b.
Proof. intros Ha Hx. rewrite insert_after by done. simpl. by rewrite Hx. Qed.

Lemma get_after a l p : all_less a p → sorted_get p (a ++ l) = sorted_get p l.
Proof.
  unfold sorted_get. induction a as [|x a IH]; [done|]. rewrite all_less_cons. intros [Hx Ha]. simpl.
  destruct (less_not_same x p Hx) as [-> _]. by apply IH.
Qed.

Lemma get_before l b p : all_greater b p → sorted_get p (l ++ b) = sorted_get p l.
Proof.
  unfold sorted_get. intros Hb. induction l as [|x l IH]; simpl; [|by destruct (same p x)].
  induction b as [|y b IHb]; [done|]. apply all_greater_cons in Hb as [Hy Hb]. simpl.
  destruct (less_not_same p y Hy) as [_ ->]. by apply IHb.
Qed.

Lemma get_between a l b p : all_less a p → all_greater b p → sorted_get p (a ++ l ++ b) = sorted_get p l.
Proof. intros Ha Hb. by rewrite get_after, get_before. Qed.

Lemma get_same a x b p : all_less a p → same p x = true → sorted_get p (a ++ x :: b) = Some x.
Proof. intros Ha Hx. rewrite get_after by done. unfold sorted_get. simpl. by rewrite Hx. Qed.

Lemma insert_elem p l x : x ∈ sorted_insert p l → x = p ∨ x ∈ l.
Proof.
  induction l as [|q r IH]; simpl; [set_solver|].
  destruct (same p q); [set_solver|]. destruct (less p q); [set_solver|].
  rewrite !elem_of_cons. naive_solver.
Qed.

Lemma insert_sorted p l : sorted l → sorted (sorted_insert p l).
Proof.
  induction l as [|q r IH]; simpl; [intros _; repeat constructor|]. intros Hs.
  pose proof (proj1 (sorted_cons q r) Hs) as [Hq Hr].
  destruct (same p q) eqn:Hsame; [|destruct (less p q) eqn:Hl]; apply sorted_cons.
  - split; [|done]. intros x Hx. apply (less_same_l p q x); [done|by apply Hq].
  - split; [|done]. apply all_greater_cons. split; [done|]. by apply (all_greater_trans r q).
  - split; [|by apply IH]. intros x [->|Hx]%insert_elem; [|by apply Hq].
    destruct (less q p) eqn:Hqp; [done|]. unfold same in Hsame. by rewrite Hl, Hqp in Hsame.
Qed.

Lemma insert_length p l :
  sorted l → length (sorted_insert p l) = match sorted_get p l with Some _ => length l | None => S (length l) end.
Proof.
  unfold sorted_get. induction l as [|q r IH]; [done|]. simpl. intros Hs.
  pose proof (proj1 (sorted_cons q r) Hs) as [Hq Hr].
  destruct (same p q); [done|]. destruct (less p q) eqn:Hl; simpl.
  - assert (List.find (same p) r = None) as ->; [|done].
    rewrite <-(app_nil_l r). apply (get_before []). by apply (all_greater_trans r q).
  - rewrite IH by done. by destruct (List.find _ r).
Qed.

(** [find]: what precedes the index is less, and the item there the same or
    greater. *)
Lemma find_spec s p :
  sorted s → ∃ i found, find less s p = (i, found) ∧ i ≤ length s ∧ all_less (take i s) p ∧
  if found : bool then ∃ x, s !! i = Some x ∧ same p x = true else all_greater (drop i s) p.
Proof.
  intros Hs. set (f k := match s !! k with Some x => less p x | None => false end).
  destruct (Search_spec f (length s)) as (Hk & Hlow & Hhigh).
  { intros a b Hab. unfold f. destruct (s !! a) as [x|] eqn:Hx; [|done]. intros Hp.
    destruct (lookup_lt_is_Some_2 s b) as [y Hy]; [lia|]. rewrite Hy.
    destruct (decide (a = b)) as [<-|]; [congruence|]. apply (less_trans p x y); [done|].
    rewrite <-(take_drop b s), (drop_S s y b Hy) in Hs. apply sorted_around in Hs as [Hs _]. apply Hs.
    apply list_elem_of_lookup. exists a. rewrite lookup_take_lt by lia. done. }
  unfold find. fold f. remember (Search (length s) f) as k eqn:Ek. clear Ek.
  assert (all_greater (drop k s) p) as Hgt.
  { intros x [j Hj]%list_elem_of_lookup. rewrite lookup_drop in Hj. pose proof (lookup_lt_Some _ _ _ Hj).
    specialize (Hhigh (k + j)). unfold f in Hhigh. rewrite Hj in Hhigh. apply Hhigh. lia. }
  destruct k as [|j].
  - exists 0, false. split_and!; [done|lia|intros x Hx; by apply elem_of_nil in Hx|done].
  - destruct (lookup_lt_is_Some_2 s j) as [x Hx]; [lia|]. rewrite Hx.
    pose proof (Hlow j (Nat.lt_succ_diag_r j)) as Hp. unfold f in Hp. rewrite Hx in Hp.
    pose proof Hs as Hs'. rewrite <-(take_drop j s), (drop_S s x j Hx) in Hs'. apply sorted_around in Hs' as [Hbefore _].
    destruct (less x p) eqn:Hxp.
    + exists (S j), false. split_and!; [done|done| |done]. rewrite (take_S_r s j x Hx), all_less_app, all_less_cons.
      split_and!; [by apply (all_less_trans _ x p)|done|intros y Hy; by apply elem_of_nil in Hy].
    + exists j, true. split_and!; [done|lia| |exists x; split; [done|]; by rewrite same_spec].
      intros y Hy. apply (less_same_r y x p); [by apply Hbefore|]. by rewrite same_spec.
Qed.

(** ** The items of a tree in order *)

(** Children and items, alternating, from a child and from an item. *)
Fixpoint after (its : list Item) (cs : list (list Item)) : list Item :=
  match its, cs with x :: its, c :: cs => x :: c ++ after its cs | _, _ => [] end.

Definition weave (cs : list (list Item)) (its : list Item) : list Item :=
  match cs with [] => its | c :: cs => c ++ after its cs end.

(** What precedes a child. *)
Fixpoint before (cs : list (list Item)) (its : list Item) : list Item :=
  match cs, its with c :: cs, x :: its => c ++ x :: before cs its | _, _ => [] end.

Fixpoint in_order (n : node Item) : list Item :=
  match n with Node its cs => weave (map in_order cs) its end.

Lemma weave_child i cs its c :
  length cs = S (length its) → cs !! i = Some c →
  weave cs its = before (take i cs) (take i its) ++ c ++ after (drop i its) (drop (S i) cs).
Proof.
  revert i its. induction cs as [|c0 cs IH]; [done|]. intros [|i] its Hlen Hc; simplify_eq/=; [done|].
  destruct its as [|x its]; simpl in *; [by destruct cs|].
  destruct cs as [|c1 cs]; [done|]. rewrite <-app_assoc. f_equal. simpl. f_equal.
  apply (IH i its); [lia|done].
Qed.

Lemma after_weave i its cs x :
  length cs = S (length its) → its !! i = Some x →
  after (drop i its) (drop (S i) cs) = x :: weave (drop (S i) cs) (drop (S i) its).
Proof.
  intros Hlen Hx. pose proof (lookup_lt_Some _ _ _ Hx). rewrite (drop_S its x i Hx). simpl.
  by destruct (drop (S i) cs) as [|c cs'] eqn:E; [apply (f_equal length) in E; rewrite length_drop in E; simpl in E; lia|].
Qed.

Lemma before_snoc i cs its c x :
  cs !! i = Some c → its !! i = Some x →
  before (take (S i) cs) (take (S i) its) = before (take i cs) (take i its) ++ c ++ [x].
Proof.
  revert i its. induction cs as [|c0 cs IH]; [done|]. intros [|i] [|x0 its] Hc Hx; try done; simplify_eq/=.
  - done.
  - rewrite <-app_assoc. f_equal. simpl. f_equal. by rewrite <-(IH i its).
Qed.

(** The items around child [i] of a sorted node, when [i] is where [p] belongs. *)
Lemma around_child i cs its c p :
  length cs = S (length its) → cs !! i = Some c → sorted (weave cs its) →
  all_less (take i its) p → all_greater (drop i its) p →
  all_less (before (take i cs) (take i its)) p ∧ all_greater (after (drop i its) (drop (S i) cs)) p.
Proof.
  intros Hlen Hc Hs Hlow Hhigh. pose proof (lookup_lt_Some _ _ _ Hc).
  rewrite (weave_child i cs its c) in Hs by done. split.
  - destruct i as [|i]; [intros y Hy; by apply elem_of_nil in Hy|].
    destruct (lookup_lt_is_Some_2 its i) as [x Hx]; [lia|].
    destruct (lookup_lt_is_Some_2 cs i) as [c0 Hc0]; [lia|].
    rewrite (before_snoc i cs its c0 x) in Hs |- * by done.
    rewrite (take_S_r its i x Hx), all_less_app, all_less_cons in Hlow. destruct Hlow as (_ & Hxp & _).
    rewrite <-!app_assoc, app_assoc in Hs. simpl in Hs. apply sorted_around in Hs as [Hs _].
    rewrite app_assoc, all_less_app, all_less_cons.
    split_and!; [by apply (all_less_trans _ x p)|done|intros y Hy; by apply elem_of_nil in Hy].
  - destruct (decide (i < length its)) as [Hi|].
    2: { rewrite drop_ge by lia. intros y Hy. by apply elem_of_nil in Hy. }
    destruct (lookup_lt_is_Some_2 its i) as [x Hx]; [lia|].
    rewrite (after_weave i its cs x) in Hs |- * by done. rewrite (drop_S its x i Hx), all_greater_cons in Hhigh.
    destruct Hhigh as [Hpx _]. rewrite app_assoc in Hs. apply sorted_around in Hs as [_ Hs].
    apply all_greater_cons. split; [done|]. by apply (all_greater_trans _ x p).
Qed.

(** ** Shape

    A node of height [h] with at least [lo] items: leaves have the height 0, and
    every node below it has at least [d - 1] items. *)
Section shape.
Context (d : nat) (Hd : 2 ≤ d).

Fixpoint node_ok (lo h : nat) (n : node Item) : Prop :=
  lo ≤ length (items n) ≤ 2 * d - 1 ∧
  match h with
  | O => children n = []
  | S h => length (children n) = S (length (items n)) ∧ Forall (node_ok (d - 1) h) (children n)
  end.

Lemma node_ok_height lo h n : node_ok lo h n → height n = S h.
Proof.
  revert lo n. induction h as [|h IH]; intros lo [its cs] [_ Hn]; cbn [children items] in Hn.
  - by subst cs.
  - destruct Hn as [Hlen Hcs]. destruct cs as [|c cs]; [done|]. apply list.Forall_cons in Hcs as [Hc _].
    cbn [height]. by rewrite (IH (d - 1)).
Qed.

Lemma in_order_leaf its : in_order (Node its []) = its.
Proof. done. Qed.

Lemma in_order_node n : in_order n = weave (map in_order (children n)) (items n).
Proof. by destruct n. Qed.

Lemma map_lookup i (cs : list (node Item)) c : cs !! i = Some c → map in_order cs !! i = Some (in_order c).
Proof. intros Hc. change (map in_order cs) with (in_order <$> cs). by rewrite list_lookup_fmap, Hc. Qed.

Lemma map_drop i (cs : list (node Item)) : map in_order (drop i cs) = drop i (map in_order cs).
Proof. apply fmap_drop. Qed.

Lemma map_take i (cs : list (node Item)) : map in_order (take i cs) = take i (map in_order cs).
Proof. apply fmap_take. Qed.

Lemma middle : (2 * d - 1) / 2 = d - 1.
Proof. replace (2 * d - 1) with (1 + (d - 1) * 2) by lia. rewrite Nat.div_add by done. done. Qed.

Lemma split_spec lo h c :
  node_ok lo h c → length (items c) = 2 * d - 1 →
  ∃ first item second, split ((2 * d - 1) / 2) c = Some (first, item, second) ∧
    node_ok (d - 1) h first ∧ node_ok (d - 1) h second ∧
    length (items first) = d - 1 ∧ length (items second) = d - 1 ∧
    in_order c = in_order first ++ item :: in_order second.
Proof.
  destruct c as [its cs]. intros Hok Hlen. cbn [items] in Hlen. rewrite middle.
  destruct (lookup_lt_is_Some_2 its (d - 1)) as [item Hitem]; [lia|].
  assert (length (take (d - 1) its) = d - 1) as Ht by (rewrite length_take; lia).
  assert (length (drop (S (d - 1)) its) = d - 1) as Hdr by (rewrite length_drop; lia).
  destruct h as [|h]; cbn [node_ok items children] in Hok; destruct Hok as [_ Hcs].
  - subst cs. exists (Node (take (d - 1) its) []), item, (Node (drop (S (d - 1)) its) []).
    unfold split. cbn [items children]. rewrite Hitem. cbn [mbind option_bind node_ok items children].
    split_and!; [done|lia|lia|done|lia|lia|done|done|done|].
    rewrite !in_order_leaf. rewrite <-(take_drop (d - 1) its) at 1. by rewrite (drop_S its item).
  - destruct Hcs as [Hn Hcs].
    exists (Node (take (d - 1) its) (take (S (d - 1)) cs)), item, (Node (drop (S (d - 1)) its) (drop (S (d - 1)) cs)).
    split_and!.
    + unfold split. cbn [items children]. rewrite Hitem. cbn [mbind option_bind].
      destruct cs as [|c0 cs']; [done|]. rewrite decide_True by lia. done.
    + cbn [node_ok items children]. rewrite !length_take. split_and!; [lia|lia|lia|by apply Forall_take].
    + cbn [node_ok items children]. rewrite !length_drop. split_and!; [lia|lia|lia|by apply Forall_drop].
    + done.
    + done.
    + rewrite !in_order_node. cbn [items children]. rewrite map_take, map_drop.
      assert (length (map in_order cs) = S (length its)) as Hm by (by rewrite length_map).
      destruct (lookup_lt_is_Some_2 (map in_order cs) (d - 1)) as [o Ho]; [lia|].
      rewrite (weave_child (d - 1) _ its o), (after_weave (d - 1) its _ item) by done.
      rewrite (weave_child (d - 1) (take _ _) (take _ _) o).
      * rewrite (drop_ge (take (d - 1) its)) by lia. rewrite !take_take, !Nat.min_l by lia. cbn [after].
        by rewrite app_nil_r, <-app_assoc.
      * rewrite !length_take. lia.
      * by rewrite lookup_take_lt by lia.
Qed.

(** ** Insertion *)

Definition left (i : nat) (n : node Item) : list Item :=
  before (take i (map in_order (children n))) (take i (items n)).

Definition right (i : nat) (n : node Item) : list Item :=
  after (drop i (items n)) (drop (S i) (map in_order (children n))).

Lemma node_children lo h n : node_ok lo (S h) n → length (map in_order (children n)) = S (length (items n)).
Proof. intros (_ & Hlen & _). by rewrite length_map. Qed.

Lemma child_ok lo h n i c : node_ok lo (S h) n → children n !! i = Some c → node_ok (d - 1) h c.
Proof. intros (_ & _ & Hcs) Hc. by eapply Forall_lookup_1 in Hcs. Qed.

Lemma in_order_child lo h n i c :
  node_ok lo (S h) n → children n !! i = Some c → in_order n = left i n ++ in_order c ++ right i n.
Proof.
  intros Hn Hc. rewrite in_order_node. apply weave_child; [by eapply node_children|by apply map_lookup].
Qed.

Lemma set_child lo h n i c c' :
  node_ok lo (S h) n → children n !! i = Some c → node_ok (d - 1) h c' →
  let n' := Node (items n) (<[i := c']> (children n)) in
  node_ok lo (S h) n' ∧ in_order n' = left i n ++ in_order c' ++ right i n.
Proof.
  intros Hn Hc Hc'. pose proof (lookup_lt_Some _ _ _ Hc) as Hi. cbv zeta.
  assert (node_ok lo (S h) (Node (items n) (<[i := c']> (children n)))) as Hn'.
  { destruct Hn as (Hl & Hlen & Hcs). split; [done|]. cbn [items children]. rewrite length_insert.
    split; [done|]. by apply Forall_insert. }
  split; [done|]. rewrite (in_order_child lo h _ i c' Hn') by (by apply list_lookup_insert_eq).
  unfold left, right. cbn [items children]. rewrite <-!map_take, <-!map_drop.
  rewrite take_insert_ge, drop_insert_lt by lia. done.
Qed.

(** An item of a node, in the middle of what the node holds. *)
Lemma item_at lo h n i x :
  node_ok lo h n → items n !! i = Some x → ∃ a b, in_order n = a ++ x :: b ∧
    ∀ y, in_order (Node (<[i := y]> (items n)) (children n)) = a ++ y :: b.
Proof.
  intros Hn Hx. pose proof (lookup_lt_Some _ _ _ Hx) as Hi. destruct h as [|h].
  - destruct Hn as [_ Hcs]. exists (take i (items n)), (drop (S i) (items n)). split.
    + rewrite in_order_node, Hcs. simpl. by rewrite take_drop_middle.
    + intros y. rewrite Hcs, in_order_leaf. by rewrite insert_take_drop.
  - pose proof (node_children _ _ _ Hn) as Hlen.
    destruct (lookup_lt_is_Some_2 (map in_order (children n)) i) as [c Hc]; [lia|].
    exists (left i n ++ c), (weave (drop (S i) (map in_order (children n))) (drop (S i) (items n))).
    split; [|intros y]; rewrite in_order_node; cbn [items children].
    + rewrite (weave_child i _ _ c), (after_weave i _ _ x), <-app_assoc by done. done.
    + rewrite (weave_child i _ _ c), (after_weave i _ _ y), <-app_assoc
        by (rewrite ?length_insert, ?list_lookup_insert_eq by done; done).
      unfold left. by rewrite take_insert_ge, drop_insert_lt by lia.
Qed.

(** A result is the insertion of [p] into what the node holds. *)
Definition inserts (lo h : nat) (p : Item) (n : node Item) (r : option (option Item * node Item)) : Prop :=
  ∃ n', r = Some (sorted_get p (in_order n), n') ∧ node_ok lo h n' ∧ in_order n' = sorted_insert p (in_order n).

Lemma set_item_inserts lo h n i x p :
  node_ok lo h n → sorted (in_order n) → items n !! i = Some x → same p x = true → inserts lo h p n (set_item i p n).
Proof.
  intros Hn Hs Hx Hp. destruct (item_at lo h n i x Hn Hx) as (a & b & He & Hset).
  assert (all_less a p) as Ha.
  { rewrite He in Hs. apply sorted_around in Hs as [Ha _]. intros y Hy. apply (less_same_r y x p); [by apply Ha|].
    apply same_spec. apply same_spec in Hp. naive_solver. }
  exists (Node (<[i := p]> (items n)) (children n)). unfold set_item. rewrite Hx, Hset, He. split_and!.
  - by rewrite get_same.
  - destruct h; cbn [node_ok items children] in *; by rewrite length_insert.
  - by rewrite insert_same.
Qed.

Lemma insert_child_inserts ins lo h n i p :
  node_ok lo (S h) n → sorted (in_order n) → i ≤ length (items n) →
  all_less (take i (items n)) p → all_greater (drop i (items n)) p →
  (∀ c, children n !! i = Some c → sorted (in_order c) → inserts (d - 1) h p c (ins c)) →
  inserts lo (S h) p n (insert_child ins i n).
Proof.
  intros Hn Hs Hi Hlow Hhigh Hins. pose proof (node_children _ _ _ Hn) as Hlen. rewrite length_map in Hlen.
  destruct (lookup_lt_is_Some_2 (children n) i) as [c Hc]; [lia|].
  pose proof (in_order_child lo h n i c Hn Hc) as He.
  destruct (around_child i (map in_order (children n)) (items n) (in_order c) p) as [Hl Hr];
    [by rewrite length_map|by apply map_lookup|by rewrite <-in_order_node|done|done|].
  destruct (Hins c Hc) as (c' & Hr' & Hok & Hc').
  { rewrite He in Hs. by apply sorted_app in Hs as (_ & _ & (_ & Hs & _)%sorted_app). }
  destruct (set_child lo h n i c c' Hn Hc Hok) as [Hn' He'].
  exists (Node (items n) (<[i := c']> (children n))). unfold insert_child. rewrite Hc. cbn [mbind option_bind]. rewrite Hr'.
  cbn [mbind option_bind]. split; [|split; [done|]].
  - do 2 f_equal. rewrite He. symmetry. by apply get_between.
  - rewrite He', He, Hc'. symmetry. by apply insert_between.
Qed.

(** Splitting a full child leaves what the node holds as it is, with the middle
    item of the child between its two halves. *)
Lemma maybeSplitChild_spec lo h n i c :
  node_ok lo (S h) n → children n !! i = Some c → length (items n) < 2 * d - 1 →
  if decide (length (items c) < 2 * d - 1) then maybeSplitChild i (2 * d - 1) n = Some (false, n) else
  ∃ n' item first second, maybeSplitChild i (2 * d - 1) n = Some (true, n') ∧
    node_ok lo (S h) n' ∧ in_order n' = in_order n ∧
    items n' = take i (items n) ++ item :: drop i (items n) ∧
    children n' !! i = Some first ∧ children n' !! S i = Some second ∧
    length (items first) = d - 1 ∧ length (items second) = d - 1.
Proof.
  intros Hn Hc Hfull. unfold maybeSplitChild. rewrite Hc. cbn [mbind option_bind].
  destruct (decide _) as [|Hge]; [done|]. pose proof (child_ok _ _ _ _ _ Hn Hc) as Hcok.
  pose proof (lookup_lt_Some _ _ _ Hc) as Hi. destruct Hn as (Hlo & Hlen & Hcs).
  assert (length (items c) = 2 * d - 1) as Hcl by (destruct h; destruct Hcok; lia).
  destruct (split_spec _ _ _ Hcok Hcl) as (first & item & second & Hsplit & Hok1 & Hok2 & Hl1 & Hl2 & He).
  rewrite Hsplit. cbn [mbind option_bind]. unfold insertAt. rewrite length_insert, !decide_True by lia.
  cbn [mbind option_bind]. rewrite drop_insert_lt by lia.
  rewrite (take_S_r (<[i := first]> (children n)) i first), take_insert_ge by (done || by apply list_lookup_insert_eq).
  set (n' := Node _ _). exists n', item, first, second.
  assert (children n' !! i = Some first) as Hfirst.
  { cbn [n' children]. rewrite <-app_assoc. simpl. rewrite lookup_app_r by (rewrite length_take; lia).
    rewrite length_take_le by lia. by rewrite Nat.sub_diag. }
  assert (node_ok lo (S h) n') as Hn'.
  { cbn [n' node_ok items children]. rewrite !length_app. simpl. rewrite !length_take, !length_drop.
    split_and!; [lia|lia|lia|]. rewrite !list.Forall_app, !list.Forall_cons.
    split_and!; try done; [by apply Forall_take|by apply Forall_drop]. }
  split_and!; try done.
  - rewrite (in_order_child lo h n' i first) by done.
    rewrite (in_order_child lo h n i c) by done. rewrite He. unfold left, right. cbn [n' items children].
    rewrite <-!map_take, <-!map_drop.
    rewrite !take_app_le, !drop_app_ge by (rewrite ?length_app, ?length_take; simpl; lia).
    rewrite !take_take, !Nat.min_id, !length_app, !length_take. simpl.
    rewrite !Nat.min_l by lia. rewrite (Nat.add_1_r i), !Nat.sub_diag. simpl. by rewrite <-app_assoc.
  - cbn [n' children]. rewrite lookup_app_r by (rewrite length_app, length_take; simpl; lia).
    rewrite length_app, length_take_le by lia. simpl. by rewrite Nat.add_1_r, Nat.sub_diag.
Qed.

Lemma after_items its cs : length its = length cs → sorted (after its cs) → sorted its ∧ ∀ x, x ∈ its → x ∈ after its cs.
Proof.
  revert cs. induction its as [|x its IH]; intros [|c cs] Hlen Hs; try done.
  cbn [after] in *. apply sorted_cons in Hs as [Hx Hs]. pose proof (proj1 (sorted_app _ _) Hs) as (_ & _ & Hs').
  destruct (IH cs) as [Hits Hin]; [simpl in Hlen; lia|done|]. split.
  - apply sorted_cons. split; [|done]. intros y Hy. apply Hx, elem_of_app. right. by apply Hin.
  - intros y. rewrite !elem_of_cons, elem_of_app. intros [->|Hy]; [by left|]. right. right. by apply Hin.
Qed.

Lemma items_sorted lo h n : node_ok lo h n → sorted (in_order n) → sorted (items n).
Proof.
  rewrite in_order_node. destruct h as [|h]; intros Hn Hs.
  - destruct Hn as [_ Hcs]. by rewrite Hcs in Hs.
  - apply node_children in Hn. destruct (map in_order (children n)) as [|c cs]; [done|].
    apply sorted_app in Hs as (_ & _ & Hs). by apply (after_items _ cs); [simpl in Hn; lia|].
Qed.

Lemma inserts_same lo h p n n' r : in_order n' = in_order n → inserts lo h p n' r → inserts lo h p n r.
Proof. intros He. unfold inserts. by rewrite He. Qed.

Lemma leaf_inserts lo p n i :
  node_ok lo 0 n → i ≤ length (items n) → length (items n) < 2 * d - 1 →
  all_less (take i (items n)) p → all_greater (drop i (items n)) p →
  inserts lo 0 p n (its ← insertAt i p (items n); Some (None, Node its [])).
Proof.
  destruct n as [its cs]. cbn [items]. intros [Hlen Hcs] Hi Hfull Hlow Hhigh. cbn [items children] in *. subst cs.
  exists (Node (take i its ++ p :: drop i its) []). unfold insertAt. rewrite decide_True by done. simpl in Hlen.
  pose proof (insert_between (take i its) [] (drop i its) p Hlow Hhigh) as Hins.
  pose proof (get_between (take i its) [] (drop i its) p Hlow Hhigh) as Hget.
  rewrite app_nil_l, take_drop in Hins, Hget. rewrite !in_order_leaf, Hins, Hget.
  split; [done|]. split; [|done]. split; [|done]. cbn [items]. rewrite length_app. simpl.
  rewrite length_take, length_drop. lia.
Qed.

(** [insert] below a node that is not full is insertion into what it holds. *)
Lemma insert_inserts h lo n p :
  node_ok lo h n → sorted (in_order n) → length (items n) < 2 * d - 1 →
  inserts lo h p n (insert less (S h) p (2 * d - 1) n).
Proof.
  revert lo n. induction h as [|h IH]; intros lo n Hn Hs Hfull;
    destruct (find_spec (items n) p (items_sorted _ _ _ Hn Hs)) as (i & found & Hfind & Hi & Hlow & Hrest);
    cbn [insert]; rewrite Hfind; destruct found;
    try (destruct Hrest as (x & Hx & Hp); by apply (set_item_inserts _ _ _ _ x)).
  { rewrite (proj2 Hn). by apply leaf_inserts. }
  pose proof Hn as (_ & Hlen & _).
  destruct (lookup_lt_is_Some_2 (children n) i) as [c Hc]; [lia|].
  destruct (children n) as [|c0 cs0] eqn:Ecs; [done|]. rewrite <-Ecs in Hc. clear c0 cs0 Ecs Hlen.
  pose proof (maybeSplitChild_spec lo h n i c Hn Hc Hfull) as Hsplit. destruct (decide _) as [Hc'|_].
  - rewrite Hsplit. cbn [mbind option_bind]. apply insert_child_inserts; [done..|].
    intros c' Hc'' Hs'. assert (c' = c) as -> by congruence. apply IH; [by eapply child_ok|done|done].
  - destruct Hsplit as (n' & item & first & second & -> & Hn' & He & Hits & Hfirst & Hsecond & Hl1 & Hl2).
    cbn [mbind option_bind]. apply (inserts_same _ _ _ _ n' _ He). rewrite <-He in Hs.
    assert (length (take i (items n)) = i) as Hlt by (rewrite length_take; lia).
    assert (items n' !! i = Some item) as Hitem.
    { rewrite Hits, lookup_app_r by lia. by rewrite Hlt, Nat.sub_diag. }
    assert (take i (items n') = take i (items n)) as Htake by (rewrite Hits, take_app_le by lia; by rewrite take_ge by lia).
    assert (drop (S i) (items n') = drop i (items n)) as Hdrop.
    { rewrite Hits, drop_app_ge by lia. rewrite Hlt. by replace (S i - i) with 1 by lia. }
    pose proof (lookup_lt_Some _ _ _ Hitem). rewrite Hitem. cbn [mbind option_bind].
    destruct (less p item) eqn:Hpi; [|destruct (less item p) eqn:Hip].
    + apply insert_child_inserts; [done|done|lia|by rewrite Htake| |].
      * rewrite (drop_S _ item i Hitem), all_greater_cons, Hdrop. done.
      * intros c' Hc' Hs'. assert (c' = first) as -> by congruence. apply IH; [by eapply child_ok|done|lia].
    + apply insert_child_inserts; [done|done|lia| |by rewrite Hdrop|].
      * rewrite (take_S_r _ i item Hitem), all_less_app, all_less_cons, Htake.
        split_and!; [done|done|intros y Hy; by apply elem_of_nil in Hy].
      * intros c' Hc' Hs'. assert (c' = second) as -> by congruence. apply IH; [by eapply child_ok|done|lia].
    + apply (set_item_inserts _ _ _ _ item); [done..|]. by apply same_spec.
Qed.

(** ** Lookup *)

Lemma get_finds h lo n p :
  node_ok lo h n → sorted (in_order n) → get less (S h) p n = Some (sorted_get p (in_order n)).
Proof.
  revert lo n. induction h as [|h IH]; intros lo n Hn Hs;
    destruct (find_spec (items n) p (items_sorted _ _ _ Hn Hs)) as (i & found & Hfind & Hi & Hlow & Hrest);
    cbn [get]; rewrite Hfind; destruct found;
    try (destruct Hrest as (x & Hx & Hp); destruct (set_item_inserts _ _ _ _ x p Hn Hs Hx Hp) as (n' & Hset & _);
      unfold set_item in Hset; rewrite Hx in Hset |- *; cbn [mbind option_bind] in Hset |- *; congruence).
  - pose proof (get_between (take i (items n)) [] (drop i (items n)) p Hlow Hrest) as Hget.
    rewrite app_nil_l, take_drop in Hget. rewrite in_order_node, (proj2 Hn). simpl. by rewrite Hget.
  - pose proof Hn as (_ & Hlen & _). destruct (lookup_lt_is_Some_2 (children n) i) as [c Hc]; [lia|].
    destruct (children n) as [|c0 cs0] eqn:Ecs; [done|]. rewrite <-Ecs in Hc |- *. rewrite Hc. cbn [mbind option_bind].
    pose proof (in_order_child lo h n i c Hn Hc) as He.
    destruct (around_child i (map in_order (children n)) (items n) (in_order c) p) as [Hl Hr];
      [by eapply node_children|by apply map_lookup|by rewrite <-in_order_node|done|done|].
    rewrite He in Hs |- *. rewrite get_between by done. apply sorted_app in Hs as (_ & _ & (_ & Hs & _)%sorted_app).
    by apply (IH (d - 1)), Hs; [eapply child_ok].
Qed.

(** ** Size *)

Lemma after_length m its cs :
  length its = length cs → Forall (λ c, m ≤ length c) cs → length its * S m ≤ length (after its cs).
Proof.
  revert cs. induction its as [|x its IH]; intros [|c cs] Hlen Hcs; try done.
  apply list.Forall_cons in Hcs as [Hc Hcs]. cbn [after length]. rewrite length_app.
  specialize (IH cs ltac:(simpl in Hlen; lia) Hcs). lia.
Qed.

Lemma in_order_length h lo n m :
  node_ok lo (S h) n → Forall (λ c, m ≤ length (in_order c)) (children n) →
  m + length (items n) * S m ≤ length (in_order n).
Proof.
  intros Hn Hcs. pose proof (node_children _ _ _ Hn) as Hlen. rewrite in_order_node.
  assert (Forall (λ c, m ≤ length c) (map in_order (children n))) as Hm by (by apply Forall_fmap).
  destruct (map in_order (children n)) as [|c cs]; [done|]. apply list.Forall_cons in Hm as [Hc Hm].
  cbn [weave]. rewrite length_app. pose proof (after_length m (items n) cs ltac:(simpl in Hlen; lia) Hm). lia.
Qed.

Lemma many_items h n : node_ok (d - 1) h n → d ^ S h ≤ S (length (in_order n)).
Proof.
  revert n. induction h as [|h IH]; intros n Hn.
  - rewrite in_order_node, (proj2 Hn). simpl. destruct Hn. lia.
  - pose proof (proj1 Hn) as [Hlo _]. pose proof (Nat.pow_nonzero d (S h)) as Hnz.
    assert (d ^ S (S h) = d * d ^ S h) as -> by done.
    assert (Forall (λ c, d ^ S h - 1 ≤ length (in_order c)) (children n)) as Hcs.
    { destruct Hn as (_ & _ & Hcs). eapply list.Forall_impl; [exact Hcs|]. intros c Hc%IH. lia. }
    pose proof (in_order_length h (d - 1) n (d ^ S h - 1) Hn Hcs) as Hlen.
    replace (S (d ^ S h - 1)) with (d ^ S h) in Hlen by lia. nia.
Qed.

(** A root of height [h] has at least [2 * d ^ h - 1] items below it. *)
Lemma root_items h n : node_ok 1 h n → 2 * d ^ h ≤ S (length (in_order n)).
Proof.
  destruct h as [|h]; intros Hn.
  - rewrite in_order_node, (proj2 Hn). simpl. destruct Hn. lia.
  - pose proof (proj1 Hn) as [Hlo _]. pose proof (Nat.pow_nonzero d (S h)) as Hnz.
    assert (Forall (λ c, d ^ S h - 1 ≤ length (in_order c)) (children n)) as Hcs.
    { destruct Hn as (_ & _ & Hcs). eapply list.Forall_impl; [exact Hcs|]. intros c Hc%many_items. lia. }
    pose proof (in_order_length h 1 n (d ^ S h - 1) Hn Hcs) as Hlen.
    replace (S (d ^ S h - 1)) with (d ^ S h) in Hlen by lia. nia.
Qed.

(** ** Iteration *)

Section ascend.
Context {K : Type} (iter : K → Item → K * bool) (a : Item).

(** The iterator over a list: whether it went to the end, and what it kept. *)
Fixpoint run_iter (l : list Item) (s : K) : bool * K :=
  match l with
  | [] => (true, s)
  | x :: l => let '(s, more) := iter s x in if more then run_iter l s else (false, s)
  end.

Lemma run_iter_app l1 l2 s :
  run_iter (l1 ++ l2) s = let '(ok, s) := run_iter l1 s in if ok then run_iter l2 s else (false, s).
Proof.
  revert s. induction l1 as [|x l1 IH]; intros s; [done|]. cbn [app run_iter].
  destruct (iter s x) as [s' [|]]; [apply IH|done].
Qed.

Lemma sorted_from_app l1 l2 : sorted_from a (l1 ++ l2) = sorted_from a l1 ++ sorted_from a l2.
Proof. apply filter_app. Qed.

Lemma sorted_from_less l x : all_less l x → less x a = true → sorted_from a l = [].
Proof.
  intros Hl Hx. unfold sorted_from. induction l as [|y l IH]; [done|]. apply all_less_cons in Hl as [Hy Hl]. simpl.
  rewrite (less_trans y x a Hy Hx). by apply IH.
Qed.

(** What is left from child [i] on, and what is in that child. *)
Definition rest (i : nat) (n : node Item) : list Item :=
  weave (drop i (map in_order (children n))) (drop i (items n)).

Definition child_items (i : nat) (n : node Item) : list Item :=
  match children n !! i with Some c => in_order c | None => [] end.

Lemma rest_item lo h n i x :
  node_ok lo h n → items n !! i = Some x → rest i n = child_items i n ++ x :: rest (S i) n.
Proof.
  intros Hn Hx. unfold rest, child_items. rewrite (drop_S _ _ _ Hx). destruct h as [|h].
  - rewrite (proj2 Hn). cbn [map]. by rewrite !drop_nil, lookup_nil.
  - pose proof (node_children _ _ _ Hn) as Hlen. pose proof (lookup_lt_Some _ _ _ Hx).
    destruct (lookup_lt_is_Some_2 (children n) i) as [c Hc]; [rewrite length_map in Hlen; lia|].
    destruct (lookup_lt_is_Some_2 (children n) (S i)) as [c' Hc']; [rewrite length_map in Hlen; lia|].
    rewrite Hc, (drop_S _ _ _ (map_lookup _ _ _ Hc)), (drop_S _ _ _ (map_lookup _ _ _ Hc')). done.
Qed.

Lemma rest_last lo h n :
  node_ok lo h n → rest (length (items n)) n = match list.last (children n) with Some c => in_order c | None => [] end.
Proof.
  intros Hn. unfold rest. rewrite (drop_ge (items n)) by done. destruct h as [|h].
  - rewrite (proj2 Hn). cbn [map]. by rewrite !drop_nil.
  - pose proof (node_children _ _ _ Hn) as Hlen. rewrite length_map in Hlen. rewrite last_lookup, Hlen. simpl.
    destruct (lookup_lt_is_Some_2 (children n) (length (items n))) as [c Hc]; [lia|].
    rewrite Hc, (drop_S _ _ _ (map_lookup _ _ _ Hc)). rewrite drop_ge by (rewrite length_map; lia).
    simpl. by rewrite app_nil_r.
Qed.

(** What [iterate] comes to when it meets the items [l]. *)
Definition walks (l : list Item) (s : K) (r : option (bool * bool * K)) : Prop :=
  ∃ hit, let '(ok, s') := run_iter (sorted_from a l) s in r = Some (hit, ok, s').

(** The loop from item [i] on and the last child, given what the children do. *)
Lemma ascend_walks rec lo h n k i :
  node_ok lo h n → i + k = length (items n) → sorted (rest i n) →
  (∀ c hit s, c ∈ children n → sorted (in_order c) → walks (in_order c) s (rec c hit s)) →
  ∀ hit s, walks (rest i n) s
    ('(hit, ok, s) ← ascend_loop less iter (Some a) None true rec n (seq i k) hit s;
     if negb ok then Some (hit, false, s) else
     match list.last (children n) with None => Some (hit, true, s) | Some c => rec c hit s end).
Proof.
  intros Hn Hik Hs Hrec. revert i Hik Hs. induction k as [|k IH]; intros i Hik Hs hit s.
  - cbn [seq ascend_loop mbind option_bind negb]. rewrite Nat.add_0_r in Hik. subst i.
    rewrite (rest_last lo h n Hn) in Hs |- *. destruct (list.last (children n)) as [c|] eqn:Hc; [|by exists hit].
    apply Hrec; [|done]. rewrite last_lookup in Hc. by eapply list_elem_of_lookup_2.
  - destruct (lookup_lt_is_Some_2 (items n) i) as [x Hx]; [lia|].
    rewrite (rest_item lo h n i x Hn Hx) in Hs |- *.
    pose proof (sorted_around _ _ _ Hs) as [Hbefore _].
    pose proof Hs as (_ & Hsc & (_ & Hsr)%sorted_cons)%sorted_app.
    cbn [seq ascend_loop]. unfold ascend_item at 1. rewrite Hx. cbn [mbind option_bind]. unfold walks.
    rewrite sorted_from_app. cbn [sorted_from List.filter]. destruct (less x a) eqn:Hxa.
    + rewrite (sorted_from_less _ x) by done. cbn [negb app mbind option_bind]. apply IH; [lia|done].
    + cbn [negb]. rewrite run_iter_app.
      assert (walks (child_items i n) s
        (match children n with [] => Some (hit, true, s) | cs => c ← cs !! i; rec c hit s end)) as [hit' Hchild].
      { unfold child_items in Hsc |- *. destruct (children n) as [|c0 cs0] eqn:Ecs; [by exists hit|].
        rewrite <-Ecs in *. destruct (lookup_lt_is_Some_2 (children n) i) as [c Hc].
        { destruct h as [|h]; [by rewrite (proj2 Hn) in Ecs|]. destruct Hn as (_ & -> & _). lia. }
        rewrite Hc in Hsc |- *. cbn [mbind option_bind]. apply Hrec; [|done]. by eapply list_elem_of_lookup_2. }
      destruct (run_iter (sorted_from a (child_items i n)) s) as [[|] s1]; rewrite Hchild; cbn [mbind option_bind negb].
      * cbn [run_iter andb]. destruct (iter s1 x) as [s2 [|]]; cbn [mbind option_bind negb]; [|by exists true].
        apply IH; [lia|done].
      * by exists hit'.
Qed.

Lemma iterate_walks h lo n hit s :
  node_ok lo h n → sorted (in_order n) →
  walks (in_order n) s (iterate less iter (Some a) None true (S h) n hit s).
Proof.
  revert lo n hit s. induction h as [|h IH]; intros lo n hit s Hn Hs; cbn [iterate];
    (assert (in_order n = rest 0 n) as He by apply in_order_node); rewrite He in Hs |- *;
    apply (ascend_walks _ _ _ _ _ 0 Hn); try done.
  - intros c hit' s' Hc. rewrite (proj2 Hn) in Hc. by apply elem_of_nil in Hc.
  - intros c hit' s' Hc Hsc. destruct Hn as (_ & _ & Hcs). rewrite list.Forall_forall in Hcs. apply (IH (d - 1)); [by apply Hcs|done].
Qed.
End ascend.
End shape.

(** ** Trees *)

Definition contents (t : BTree Item) : list Item :=
  match t_root t with None => [] | Some r => in_order r end.

(** The shape of a tree, its order and its count. *)
Record tree_ok (t : BTree Item) : Prop := {
  ok_degree : 2 ≤ t_degree t;
  ok_root : ∀ r, t_root t = Some r → ∃ h, node_ok (t_degree t) 1 h r;
  ok_sorted : sorted (contents t);
  ok_length : t_length t = length (contents t)
}.

Lemma New_ok d : 2 ≤ d → ∃ t, New d = Some t ∧ tree_ok t ∧ contents t = [] ∧ t_degree t = d.
Proof.
  intros Hd. exists (mkBTree d 0 None). unfold New. rewrite decide_False by lia. split_and!; try done.
  split; [done|done|constructor|done].
Qed.

(** A full root becomes the two halves under a new one. *)
Lemma grow_root d h r :
  2 ≤ d → node_ok d 1 h r → ∃ h' r',
    (if decide (2 * d - 1 ≤ length (items r)) then
       '(oldroot, item2, second) ← split ((2 * d - 1) / 2) r; Some (Node [item2] [oldroot; second])
     else Some r) = Some r' ∧
    node_ok d 1 h' r' ∧ length (items r') < 2 * d - 1 ∧ in_order r' = in_order r.
Proof.
  intros Hd Hr. destruct (decide _) as [Hfull|Hfull].
  - destruct (split_spec d Hd 1 h r Hr) as (first & item & second & -> & Hok1 & Hok2 & Hl1 & Hl2 & He).
    { destruct h; destruct Hr; lia. }
    exists (S h), (Node [item] [first; second]). cbn [mbind option_bind]. split_and!; [done| | |].
    + cbn [node_ok items children]. rewrite !list.Forall_cons. split_and!; [simpl; lia|simpl; lia|done|done|done|done].
    + simpl. lia.
    + rewrite He. simpl. by rewrite app_nil_r.
  - exists h, r. split_and!; [done|done|lia|done].
Qed.

Lemma ReplaceOrInsert_ok p t :
  tree_ok t → ∃ t', ReplaceOrInsert less p t = Some (sorted_get p (contents t), t') ∧
    tree_ok t' ∧ contents t' = sorted_insert p (contents t) ∧ t_degree t' = t_degree t.
Proof.
  intros [Hd Hroot Hs Hlen]. unfold ReplaceOrInsert. destruct (t_root t) as [r|] eqn:Hr.
  - destruct (Hroot r eq_refl) as [h Hok]. unfold contents, maxItems in *. rewrite Hr in *.
    destruct (grow_root (t_degree t) h r Hd Hok) as (h' & r' & Hgrow & Hok' & Hfull & He).
    replace (t_degree t * 2 - 1) with (2 * t_degree t - 1) by lia. rewrite Hgrow. cbn [mbind option_bind].
    rewrite (node_ok_height _ _ _ _ Hok'). rewrite <-He in *.
    destruct (insert_inserts _ Hd h' 1 r' p Hok' Hs Hfull) as (r'' & -> & Hok'' & He''). cbn [mbind option_bind].
    exists (mkBTree (t_degree t) (match sorted_get p (in_order r') with Some _ => t_length t | None => S (t_length t) end) (Some r'')).
    split; [by destruct (sorted_get p (in_order r'))|]. split_and!; [|done|done].
    split; cbn [t_degree t_root t_length contents].
    + done.
    + intros r0 [= <-]. by exists h'.
    + unfold contents. cbn [t_root]. rewrite He''. by apply insert_sorted.
    + unfold contents. cbn [t_root]. rewrite He'', insert_length by done. by rewrite Hlen.
  - unfold contents in *. rewrite Hr in *. exists (mkBTree (t_degree t) (S (t_length t)) (Some (Node [p] []))).
    split_and!; try done. split; cbn [t_degree t_root t_length].
    + done.
    + intros r [= <-]. exists 0. cbn [node_ok items children]. simpl. split; [lia|done].
    + unfold contents. cbn. repeat constructor.
    + unfold contents. cbn. by rewrite Hlen.
Qed.

Lemma Get_ok p t : tree_ok t → Get less p t = Some (sorted_get p (contents t)).
Proof.
  intros [Hd Hroot Hs _]. unfold Get, contents in *. destruct (t_root t) as [r|] eqn:Hr; [|done].
  destruct (Hroot r eq_refl) as [h Hok]. rewrite (node_ok_height _ _ _ _ Hok). by eapply get_finds.
Qed.

Lemma Ascend_ok {K} (iter : K → Item → K * bool) a t s :
  tree_ok t → AscendGreaterOrEqual less a iter s t = Some (snd (run_iter iter (sorted_from a (contents t)) s)).
Proof.
  intros [Hd Hroot Hs _]. unfold AscendGreaterOrEqual, contents in *. destruct (t_root t) as [r|] eqn:Hr; [|done].
  destruct (Hroot r eq_refl) as [h Hok]. rewrite (node_ok_height _ _ _ _ Hok).
  destruct (iterate_walks _ Hd iter a h 1 r false s Hok Hs) as [hit Hw].
  destruct (run_iter _ _ _) as [ok s']. by rewrite Hw.
Qed.

(** The depth is bounded by the logarithm of the number of items. *)
Lemma depth_ok t r : tree_ok t → t_root t = Some r → 2 * t_degree t ^ (height r - 1) ≤ S (t_length t).
Proof.
  intros [Hd Hroot _ ->] Hr. destruct (Hroot r Hr) as [h Hok]. rewrite (node_ok_height _ _ _ _ Hok). simpl.
  unfold contents. rewrite Hr, Nat.sub_0_r. by apply root_items.
Qed.
End order.

(** ** What the tree promises *)

(** The items inserted one after the other. *)
Fixpoint insert_all {Item} (less : Item → Item → bool) (ps : list Item) (t : BTree Item) : option (BTree Item) :=
  match ps with
  | [] => Some t
  | p :: ps => '(_, t) ← ReplaceOrInsert less p t; insert_all less ps t
  end.

Lemma insert_all_ok {Item} (less : Item → Item → bool) `{!StrictWeak less} ps t :
  tree_ok less t → ∃ t', insert_all less ps t = Some t' ∧ tree_ok less t' ∧ t_degree t' = t_degree t ∧
    contents t' = foldl (λ l p, sorted_insert less p l) (contents t) ps.
Proof.
  revert t. induction ps as [|p ps IH]; intros t Ht; [by exists t|]. cbn [insert_all foldl].
  destruct (ReplaceOrInsert_ok less p t Ht) as (t1 & -> & Ht1 & <- & Hd). cbn [mbind option_bind].
  destruct (IH t1 Ht1) as (t' & ? & ? & ? & ?). exists t'. split_and!; try done. congruence.
Qed.

(** C19: for every strict weak order and degree, whatever is inserted in whatever
    order: no operation of the tree panics, and [ReplaceOrInsert], [Get], the count
    and the walk from an item on, however its iterator ends it, answer as the
    sorted list of the items does, in which a later item replaces the same one
    before it. All leaves are at one depth, every node has at most
    [2 * degree - 1] items, and the depth is logarithmic in their number. *)
Theorem btree_is_sorted_list {Item} (less : Item → Item → bool) d (ps : list Item) :
  StrictWeak less → 2 ≤ d →
  let l := foldl (λ l p, sorted_insert less p l) [] ps in
  sorted less l ∧
  ∃ t0 t, New d = Some t0 ∧ insert_all less ps t0 = Some t ∧
    (∀ p, ∃ t', ReplaceOrInsert less p t = Some (sorted_get less p l, t')) ∧
    (∀ key, Get less key t = Some (sorted_get less key l)) ∧
    (∀ K (iter : K → Item → K * bool) pivot s,
       AscendGreaterOrEqual less pivot iter s t = Some (snd (run_iter iter (sorted_from less pivot l) s))) ∧
    t_length t = length l ∧
    ∀ r, t_root t = Some r → (∃ h, node_ok d 1 h r) ∧ 2 * d ^ (height r - 1) ≤ S (length l).
Proof.
  intros Hsw Hd. cbv zeta. destruct (New_ok less d Hd) as (t0 & Hnew & Ht0 & Hc0 & Hdeg).
  destruct (insert_all_ok less ps t0 Ht0) as (t & Hins & Ht & Hdeg' & Hc). rewrite Hc0 in Hc. rewrite <-Hc.
  split; [apply (ok_sorted _ _ Ht)|]. exists t0, t. split_and!; [done|done| | | |apply (ok_length _ _ Ht)|].
  - intros p. destruct (ReplaceOrInsert_ok less p t Ht) as (t' & ? & _). by exists t'.
  - intros key. by apply Get_ok.
  - intros K iter pivot s. by apply Ascend_ok.
  - intros r Hr. rewrite <-Hdeg, <-Hdeg', <-(ok_length _ _ Ht). split; [by apply (ok_root _ _ Ht)|by apply (depth_ok less)].
Qed.

Definition nat_less (x y : nat) : bool := bool_decide (x < y).

#[export] Instance nat_less_weak : StrictWeak nat_less.
Proof. split; unfold nat_less; intros *; rewrite ?bool_decide_eq_true, ?bool_decide_eq_false; lia. Qed.

(** Twenty-five items in a tree of three levels, as the server makes it. *)
Theorem btree_is_sorted_list_witness : ∃ t0 t,
  New 3 = Some t0 ∧ insert_all nat_less (seq 0 25 ++ [7]) t0 = Some t ∧ Get nat_less 7 t = Some (Some 7) ∧
  AscendGreaterOrEqual nat_less 20 (λ s x, (x :: s, bool_decide (x < 23))) [] t = Some [23; 22; 21; 20] ∧ t_length t = 25.
Proof.
  destruct (btree_is_sorted_list nat_less 3 (seq 0 25 ++ [7])) as (_ & t0 & t & H0 & Ht & _ & Hget & Hwalk & Hlen & _).
  - apply nat_less_weak.
  - lia.
  - exists t0, t. split_and!; [exact H0|exact Ht|rewrite Hget; reflexivity|rewrite Hwalk; reflexivity|rewrite Hlen; reflexivity].
Defined.
