(* ===== verification/Dispatch.v ===== *)
(** * Dispatch: the routes of a server

    [crab/http/server/handler.go]: objects are registered under a path or a
    prefix, and a request is answered by the handler of its path or else by one
    of the longest prefix. The prefixes are in a [BTree]. *)

From Stdlib Require Import ZArith Lia Ascii Sorting.Sorted.
From stdpp Require Import base gmap strings list.
From S2P Require Import BTree Prelude GoStrings Http.

(** ** Regular expressions

    What the code asks of [regexp]: the names in braces of a path, the path with
    each of them replaced by [(.+)], compiling that, and matching. *)
Class Regexps := {
  regexp : Type;
  key_names : string → list string;
  key_pattern : string → string;
  Compile : string → outcome regexp;
  MatchString : regexp → string → bool;
  FindAllStringSubmatch : regexp → string → list (list string)
}.

(** No character of the path means anything to [regexp], and there are no
    braces. *)
Definition plain_byte (c : ascii) : bool :=
  negb (byte_in c "\.+*?()|[]{}^$").

Fixpoint plain (s : string) : bool :=
  match s with EmptyString => true | String c r => plain_byte c && plain r end.

(** A plain path is its own pattern, and a text matches it when it contains it. *)
Class RegexpLaws `{Regexps} := {
  plain_names p : plain p = true → key_names p = [];
  plain_pattern p : plain p = true → key_pattern p = p;
  plain_match p : plain p = true → ∃ re, Compile p = Ret re ∧ ∀ s, MatchString re s = Contains s p
}.

(** ** The tables of a server *)

Section server.
Context {H : Type} `{Regexps}.

Record handler := mkHandler { h_path : string; h_call : H }.
Record handlerRegexp := mkHandlerRegexp { hr_keys : list string; hr_exp : regexp; hr_handler : handler }.
Record prefix := mkPrefix { px_path : string; px_exps : list handlerRegexp }.

Record httpServer := mkServer { sv_path : gmap string handler; sv_prefix : BTree prefix }.

(** The prefixes are [btree.New(3)]. *)
Definition newHTTPServer : httpServer := mkServer ∅ (mkBTree 3 0 None).

(** The order of the tree is that of the paths turned round. *)
Definition Less (p q : prefix) : bool := bool_decide (Compare (px_path p) (px_path q) = 1).

(** An operation of the tree, which may panic. *)
Definition tree_op {A} (o : option A) : outcome A :=
  match o with Some a => Ret a | None => Panic "runtime error: index out of range" end.

(** ** Registering *)

(** An object as [reflect] shows it: whether it is a pointer, its type, and its
    exported methods in the order of their names, each with its function if it
    has the type of a handler. *)
Record object := mkObject {
  ob_ptr : bool; ob_type : string; ob_methods : list (string * option H)
}.

(** [NameToPath]. *)
Fixpoint slashes (depth d index i : Z) (s : string) : string * Z :=
  match s with
  | EmptyString => ("", index)
  | String c r =>
      if decide (c = "."%char ∨ c = "*"%char) then
        let '(t, idx) := slashes depth (d + 1) (if decide (d + 1 = depth) then i else index) (i + 1) r in
        (String "/" t, idx)
      else let '(t, idx) := slashes depth d index (i + 1) r in (String c t, idx)
  end.

Definition NameToPath (name : string) (depth : Z) : string :=
  let '(s, index) := slashes depth 0 0 0 name in drop_bytes (Z.to_nat index) s.

Definition http_methods : list string := ["POST"; "GET"; "PUT"; "DELETE"].

Definition newHandlerRegexp (h : handler) : outcome handlerRegexp :=
  match Compile (key_pattern (h_path h)) with
  | Ret exp => Ret (mkHandlerRegexp (key_names (h_path h)) exp h)
  | Throw e => Panic (Error e)
  | Panic p => Panic p
  end.

Definition need_ptr : goerror := Errorf "need ptr".
Definition exist_url (method path : string) : goerror := Errorf ("exist url:" +:+ method +:+ " " +:+ path).

(** The path a prefix is filed under: what precedes the first key. *)
Definition prefix_path (method path : string) : string :=
  let idx := Index path "{" in
  method +:+ (if decide (idx > 0) then take_bytes (Z.to_nat idx) path else path).

Definition register_prefix (method path : string) (h : handler) : M httpServer unit :=
  s ← get_state;
  let p := mkPrefix (prefix_path method path) [] in
  has ← lift (tree_op (Has Less p (sv_prefix s)));
  p ← (if has : bool then
         found ← lift (tree_op (Get Less p (sv_prefix s)));
         match found with Some q => mret q | None => gopanic nil_deref end
       else mret p);
  exp ← lift (newHandlerRegexp h);
  r ← lift (tree_op (ReplaceOrInsert Less (mkPrefix (px_path p) (px_exps p ++ [exp])) (sv_prefix s)));
  put_state (mkServer (sv_path s) (snd r)).

Definition register_path (method path : string) (h : handler) : M httpServer unit :=
  s ← get_state;
  match sv_path s !! h_path h with
  | Some _ => throw (exist_url method path)
  | None => put_state (mkServer (<[h_path h := h]> (sv_path s)) (sv_prefix s))
  end.

(** The loop of [register] over the methods. *)
Fixpoint register_methods (path : string) (isPrefix : bool) (ms : list (string * option H)) : M httpServer unit :=
  match ms with
  | [] => mret tt
  | (method, call) :: rest =>
      if decide (method ∉ http_methods) then register_methods path isPrefix rest else
      match call with
      | None => register_methods path isPrefix rest
      | Some call =>
          let h := mkHandler (method +:+ path) call in
          _ ← (if isPrefix then register_prefix method path h else register_path method path h);
          register_methods path isPrefix rest
      end
  end.

(** Without a path it is the name of the type; a path starts with a slash. *)
Definition full_path (obj : object) (path : string) : string :=
  let path := if decide (path = "") then NameToPath (ob_type obj) 0 +:+ "/" else path in
  if HasPrefix path "/" then path else "/" +:+ path.

Definition register (obj : object) (path : string) (isPrefix : bool) : M httpServer unit :=
  if ob_ptr obj then register_methods (full_path obj path) isPrefix (ob_methods obj) else throw need_ptr.

Definition Register (obj : object) : M httpServer unit := register obj "" false.
Definition RegisterPath (obj : object) (path : string) : M httpServer unit := register obj path false.
Definition RegisterPrefix (obj : object) (path : string) : M httpServer unit := register obj path true.
Definition RegisterHandler (call : H) (method path : string) : M httpServer unit :=
  register_path method path (mkHandler (method +:+ path) call).

(** A sequence of registrations whose errors nobody looks at, as in the
    [ServerInit] of the program's servers. *)
Fixpoint register_all (regs : list (object * string * bool)) : M httpServer unit :=
  match regs with
  | [] => mret tt
  | (obj, path, isPrefix) :: rest =>
      let? _ := register obj path isPrefix catch _ => register_all rest in register_all rest
  end.

(** ** Finding *)

(** [parseRequestValues]: one value of the request for each match; the index
    counts the matches, not the groups. *)
Fixpoint request_values (keys : list string) (ms : list (list string)) : outcome (list (string * string)) :=
  match ms with
  | [] => Ret []
  | v :: rest =>
      match keys, v !! 1%nat with
      | k :: keys', Some x => l ← request_values keys' rest; Ret ((k, x) :: l)
      | _, _ => Panic "runtime error: index out of range"
      end
  end.

Definition parseRequestValues (path : string) (ur : handlerRegexp) : outcome (list (string * string)) :=
  request_values (hr_keys ur) (FindAllStringSubmatch (hr_exp ur) path).

(** The iterator over the prefixes keeps the last one it saw and whether that is
    one of the path; it goes on until it is. *)
Definition prefix_iter (path : string) (_ : prefix * bool) (item : prefix) : prefix * bool * bool :=
  let ok := HasPrefix path (px_path item) in ((item, ok), negb ok).

(** The loop over the expressions of a prefix: a handler and, if it has keys, its
    values. *)
Fixpoint match_exps (path : string) (exps : list handlerRegexp)
    : outcome (option (H * option (list (string * string)))) :=
  match exps with
  | [] => Ret None
  | ue :: rest =>
      if MatchString (hr_exp ue) path then
        match hr_keys ue with
        | [] => Ret (Some (h_call (hr_handler ue), None))
        | _ => vs ← parseRequestValues path ue; Ret (Some (h_call (hr_handler ue), Some vs))
        end
      else match_exps path rest
  end.

Definition getHandler (method path : string) (s : httpServer)
    : outcome (option (H * option (list (string * string)))) :=
  let path := method +:+ path in
  match sv_path s !! path with
  | Some h => Ret (Some (h_call h, None))
  | None =>
      r ← tree_op (AscendGreaterOrEqual Less (mkPrefix path []) (prefix_iter path) (mkPrefix "" [], false) (sv_prefix s));
      let '(p, ok) := r in
      if ok : bool then match_exps path (px_exps p) else Ret None
  end.
End server.

Arguments handler : clear implicits.
Arguments handlerRegexp H {_}.
Arguments prefix H {_}.
Arguments httpServer H {_}.
Arguments object : clear implicits.
