(* ===== verification/DispatchTheory.v ===== *)
(** * DispatchTheory: which handler a request reaches

    The tables of [Dispatch] against the routes they were made from: a request
    reaches the handler of its path, and otherwise the one of the longest prefix
    registered for it. *)

From Stdlib Require Import ZArith Lia Ascii Sorting.Sorted.
From stdpp Require Import base gmap strings list.
From S2P Require Import BTree BTreeTheory Prelude GoStrings Http Dispatch.

#[local] Open Scope list_scope.

(** ** Prefixes and plain paths *)

Lemma HasPrefix_Contains s p : HasPrefix s p = true → Contains s p = true.
Proof. intros Hp. unfold Contains, Index. destruct s; cbn [index_from]; by rewrite Hp. Qed.

Lemma plain_app a b : plain (a +:+ b) = plain a && plain b.
Proof. induction a as [|c a IH]; [done|]. change (String c a +:+ b) with (String c (a +:+ b)). simpl. by rewrite IH, andb_assoc. Qed.

Lemma plain_no_key p : plain p = true → Index p "{" = -1.
Proof.
  intros Hp. unfold Index. destruct (index_from_spec 0 p "{") as [?|(a & b & -> & _)]; [done|].
  rewrite !plain_app in Hp. apply andb_prop in Hp as [_ Hp]. done.
Qed.

Lemma plain_prefix_path method path : plain (method +:+ path) = true → prefix_path method path = method +:+ path.
Proof. rewrite plain_app. intros [_ Hp]%andb_prop. unfold prefix_path. by rewrite plain_no_key. Qed.

Section server.
Context {H : Type} `{Regexps}.
Implicit Type s : httpServer H.
Implicit Types p q x : prefix H.

(** ** The tree of prefixes *)

Definition above (p q : prefix H) : Prop := Compare (px_path p) (px_path q) = 1.

Lemma Less_above p q : Less p q = true ↔ above p q.
Proof. unfold Less, above. by rewrite bool_decide_eq_true. Qed.

#[export] Instance Less_weak : StrictWeak (Less (H:=H)).
Proof.
  split.
  - intros p. unfold Less. rewrite bool_decide_eq_false. by rewrite (proj2 (Compare_eq _ _) eq_refl).
  - intros p q r. rewrite !Less_above. by apply Compare_trans.
  - intros p q r. rewrite !Less_above. unfold above. intros Hpr.
    destruct (Compare_range (px_path p) (px_path q)) as [Hc|[Hc|Hc]]; [|apply Compare_eq in Hc|by left].
    + right. apply (Compare_trans _ (px_path p)); [|done]. by rewrite Compare_flip, Hc.
    + right. by rewrite <-Hc.
Qed.

(** The items are in the order of the tree, no two under one path. *)
Definition ordered (l : list (prefix H)) : Prop := StronglySorted above l.

Lemma sorted_ordered l : sorted Less l ↔ ordered l.
Proof.
  split; induction 1 as [|p r Hr IH Hp]; constructor; try done; eapply list.Forall_impl; try exact Hp;
    intros q; by rewrite Less_above.
Qed.

Lemma same_path p q : same Less p q = true ↔ px_path p = px_path q.
Proof.
  unfold same, Less. rewrite andb_true_iff, !negb_true_iff, !bool_decide_eq_false, (Compare_flip (px_path p)).
  rewrite <-Compare_eq. pose proof (Compare_range (px_path p) (px_path q)). lia.
Qed.

(** Replacing keeps the items of other paths. *)
Lemma replaced_elem p l x :
  ordered l → x ∈ sorted_insert Less p l ↔ x = p ∨ (x ∈ l ∧ px_path x ≠ px_path p).
Proof.
  intros Ho. induction Ho as [|q r Hr IH Hq]; cbn [sorted_insert].
  { rewrite list_elem_of_singleton. split; [by left|]. by intros [?|[?%elem_of_nil ?]]. }
  rewrite list.Forall_forall in Hq.
  assert (Hout : ∀ y, y ∈ r → px_path y ≠ px_path q).
  { intros y Hy He. specialize (Hq y Hy). unfold above in Hq. rewrite He in Hq.
    by rewrite (proj2 (Compare_eq _ _) eq_refl) in Hq. }
  destruct (same Less p q) eqn:Es.
  - apply same_path in Es. rewrite !elem_of_cons. rewrite Es. naive_solver.
  - assert (Hne : px_path q ≠ px_path p).
    { intros He. symmetry in He. apply same_path in He. by rewrite He in Es. }
    destruct (Less p q) eqn:El; rewrite !elem_of_cons.
    + apply Less_above in El.
      assert (Hnr : ∀ y, y ∈ r → px_path y ≠ px_path p).
      { intros y Hy He. pose proof (Compare_trans _ _ _ El (Hq y Hy)) as Hc. rewrite He in Hc.
        by rewrite (proj2 (Compare_eq _ _) eq_refl) in Hc. }
      naive_solver.
    + rewrite IH. naive_solver.
Qed.

(** What the iterator over the prefixes stops at, in the list of them. *)
Fixpoint first_prefix (path : string) (l : list (prefix H)) : option (prefix H) :=
  match l with
  | [] => None
  | p :: r => if HasPrefix path (px_path p) then Some p else first_prefix path r
  end.

Lemma run_prefix_iter path l p0 :
  match first_prefix path l with
  | Some p => snd (run_iter (prefix_iter path) l (p0, false)) = (p, true)
  | None => snd (snd (run_iter (prefix_iter path) l (p0, false))) = false
  end.
Proof.
  revert p0. induction l as [|q l IH]; intros p0; [done|]. cbn [first_prefix run_iter prefix_iter].
  destruct (HasPrefix path (px_path q)); [done|]. apply IH.
Qed.

(** The walk finds the longest prefix there is. *)
Lemma first_prefix_spec path (l : list (prefix H)) :
  ordered l →
  match first_prefix path (sorted_from Less (mkPrefix path []) l) with
  | Some p => p ∈ l ∧ HasPrefix path (px_path p) = true ∧
      ∀ q, q ∈ l → HasPrefix path (px_path q) = true → (String.length (px_path q) ≤ String.length (px_path p))%nat
  | None => ∀ q, q ∈ l → HasPrefix path (px_path q) = false
  end.
Proof.
  intros Ho. induction Ho as [|p r Hr IH Hp]; simpl; [by intros q ?%elem_of_nil|].
  destruct (Less p (mkPrefix path [])) eqn:El; simpl.
  - apply Less_above in El. unfold above in El. simpl in El.
    assert (Hno : HasPrefix path (px_path p) = false).
    { destruct (HasPrefix path (px_path p)) eqn:E; [|done]. by apply Compare_prefix in E. }
    destruct (first_prefix _ _) as [q|].
    + destruct IH as (Hq & Hpre & Hmax). split_and!; [by right|done|].
      intros q' [->|Hq']%elem_of_cons Hpre'; [congruence|by apply Hmax].
    + intros q' [->|Hq']%elem_of_cons; [done|by apply IH].
  - destruct (HasPrefix path (px_path p)) eqn:E.
    + split_and!; [by left|done|]. intros q [->|Hq]%elem_of_cons Hpre; [done|].
      rewrite list.Forall_forall in Hp. specialize (Hp q Hq).
      pose proof (longer_prefix path _ _ E Hpre Hp). lia.
    + destruct (first_prefix _ _) as [q|].
      * destruct IH as (Hq & Hpre & Hmax). split_and!; [by right|done|].
        intros q' [->|Hq']%elem_of_cons Hpre'; [congruence|by apply Hmax].
      * intros q' [->|Hq']%elem_of_cons; [done|by apply IH].
Qed.

(** ** What is registered *)

Definition method_route (path : string) (mc : string * option H) : option (string * H) :=
  if decide (fst mc ∈ http_methods) then (λ c, (fst mc +:+ path, c)) <$> snd mc else None.

(** The routes of an object: its HTTP methods that have the type of a handler. *)
Definition object_routes (obj : object H) (path : string) : list (string * H) :=
  if ob_ptr obj then omap (method_route (full_path obj path)) (ob_methods obj) else [].

Definition routes_of (kind : bool) (regs : list (object H * string * bool)) : list (string * H) :=
  reg ← regs; if decide (snd reg = kind) then object_routes (fst (fst reg)) (snd (fst reg)) else [].

(** The one expression of a prefix that was registered once, without keys. *)
Definition plain_exp (p : prefix H) (h : H) : Prop :=
  ∃ re, px_exps p = [mkHandlerRegexp [] re (mkHandler (px_path p) h)] ∧
        ∀ t, MatchString re t = Contains t (px_path p).

(** The tables hold the routes [R] of paths and [P] of prefixes. *)
Record table (s : httpServer H) (R P : list (string * H)) : Prop := {
  tb_paths k h : h_call <$> sv_path s !! k = Some h ↔ (k, h) ∈ R;
  tb_tree : tree_ok Less (sv_prefix s);
  tb_prefix p : p ∈ contents (sv_prefix s) → ∃ h, (px_path p, h) ∈ P ∧ plain_exp p h;
  tb_listed k h : (k, h) ∈ P → ∃ p, p ∈ contents (sv_prefix s) ∧ px_path p = k ∧ plain_exp p h
}.

Lemma tb_ordered s R P : table s R P → ordered (contents (sv_prefix s)).
Proof. intros T. apply sorted_ordered, (ok_sorted _ _ (tb_tree _ _ _ T)). Qed.

Lemma table_new : table newHTTPServer [] [].
Proof.
  split; simpl; [| |by intros p ?%elem_of_nil|by intros k h ?%elem_of_nil].
  - intros k h. rewrite lookup_empty. simpl. split; [done|by intros ?%elem_of_nil].
  - destruct (New_ok (Less (H:=H)) 3) as (t & [= <-] & Ht & _); [lia|done].
Qed.

Lemma table_perm s R R' P P' : R ≡ₚ R' → P ≡ₚ P' → table s R P → table s R' P'.
Proof.
  intros HR HP [T1 T2 T3 T4]. split.
  - intros k h. by rewrite <-HR.
  - done.
  - intros p Hp. destruct (T3 p Hp) as (h & Hh & He). exists h. by rewrite <-HP.
  - intros k h. rewrite <-HP. apply T4.
Qed.

Lemma not_key {k : string} {h : H} {R} : k ∉ R.*1 → (k, h) ∉ R.
Proof. intros Hk Hin. apply Hk. by apply (list_elem_of_fmap_2' fst R (k, h)). Qed.

Lemma table_path s R P method path h :
  table s R P → method +:+ path ∉ R.*1 →
  ∃ s', register_path method path (mkHandler (method +:+ path) h) s = (Ret tt, s') ∧
        table s' ((method +:+ path, h) :: R) P.
Proof.
  intros [T1 T2 T3 T4] Hk. unfold register_path, mbind, M_bind, get_state. cbn [h_path].
  destruct (sv_path s !! (method +:+ path)) as [h0|] eqn:E.
  { exfalso. apply (not_key Hk (h := h_call h0)), T1. by rewrite E. }
  eexists. split; [reflexivity|]. split; simpl; [|done..]. intros k h'. rewrite elem_of_cons.
  destruct (decide (k = method +:+ path)) as [->|Hn].
  - rewrite lookup_insert_eq. simpl. split; [intros [= ->]; by left|].
    intros [[= ->]|Hin]; [done|]. by apply (not_key Hk) in Hin.
  - rewrite lookup_insert_ne by done. rewrite T1. naive_solver.
Qed.

Lemma table_Get_none k s R P : table s R P → k ∉ P.*1 → Get Less (mkPrefix k []) (sv_prefix s) = Some None.
Proof.
  intros T Hk. rewrite (Get_ok Less) by apply (tb_tree _ _ _ T). unfold sorted_get.
  destruct (List.find _ _) as [p|] eqn:E; [|done].
  apply find_some in E as [Hin Hs]. apply same_path in Hs. simpl in Hs. subst k.
  apply list_elem_of_In in Hin. destruct (tb_prefix s R P T p Hin) as (h & Hh & _).
  by apply (not_key Hk) in Hh.
Qed.
End server.

Section registering.
Context {H : Type} `{RegexpLaws}.
Implicit Type s : httpServer H.

Lemma table_prefix s R P method path h :
  table s R P → plain (method +:+ path) = true → method +:+ path ∉ P.*1 →
  ∃ s', register_prefix method path (mkHandler (method +:+ path) h) s = (Ret tt, s') ∧
        table s' R ((method +:+ path, h) :: P).
Proof.
  intros T Hp Hk. unfold register_prefix, mbind, M_bind, get_state. rewrite plain_prefix_path by done.
  unfold Has. rewrite (table_Get_none _ _ _ _ T Hk). unfold mret, option_ret, M_ret. cbn [mbind option_bind tree_op].
  cbn [lift px_path px_exps app].
  destruct (plain_match _ Hp) as (re & Hc & Hm). unfold lift, newHandlerRegexp. cbn [h_path].
  rewrite plain_pattern, Hc, plain_names by done. cbn [put_state].
  set (px := mkPrefix (method +:+ path) [mkHandlerRegexp [] re (mkHandler (method +:+ path) h)]).
  assert (He : plain_exp px h) by by exists re.
  pose proof (tb_ordered _ _ _ T) as Ho.
  destruct (ReplaceOrInsert_ok Less px _ (tb_tree _ _ _ T)) as (t & -> & Ht & Hct & _). cbn [tree_op snd].
  eexists. split; [reflexivity|]. split; cbn [sv_path sv_prefix]; rewrite ?Hct.
  - apply (tb_paths _ _ _ T).
  - done.
  - intros p [->|[Hin Hn]]%replaced_elem; [exists h; split; [left|done]| |done].
    destruct (tb_prefix _ _ _ T p Hin) as (h' & Hh & Hpe). exists h'. split; [by right|done].
  - intros k h'. rewrite elem_of_cons. intros [[= -> ->]|Hin].
    + exists px. split; [apply replaced_elem; [done|by left]|done].
    + destruct (tb_listed _ _ _ T k h' Hin) as (p & Hpin & <- & Hpe). exists p. split; [|done].
      apply replaced_elem; [done|]. right. split; [done|]. intros Heq. simpl in Heq.
      rewrite Heq in Hin. by apply (not_key Hk) in Hin.
Qed.

(** The routes of the kind that is registered grow; those of the other stay. *)
Definition grown (isPrefix : bool) (new R P : list (string * H)) : list (string * H) * list (string * H) :=
  if isPrefix then (R, new ++ P) else (new ++ R, P).

Definition fresh (isPrefix : bool) (new R P : list (string * H)) : Prop :=
  if isPrefix then NoDup (new ++ P).*1 ∧ Forall (λ k, plain k = true) new.*1 else NoDup (new ++ R).*1.

Notation extended s isPrefix new R P :=
  (table s (fst (grown isPrefix new R P)) (snd (grown isPrefix new R P))).

Lemma fresh_app isPrefix a b R P :
  fresh isPrefix (a ++ b) R P →
  fresh isPrefix a R P ∧ fresh isPrefix b (fst (grown isPrefix a R P)) (snd (grown isPrefix a R P)).
Proof.
  assert (Hswap : ∀ Q : list (string * H), ((a ++ b) ++ Q).*1 ≡ₚ (b ++ a ++ Q).*1).
  { intros Q. by rewrite (Permutation_app_comm a b), app_assoc. }
  assert (Hdrop : ∀ Q : list (string * H), NoDup (b ++ a ++ Q).*1 → NoDup (a ++ Q).*1).
  { intros Q. rewrite fmap_app. by intros (_ & _ & ?)%list.NoDup_app. }
  destruct isPrefix; simpl; rewrite Hswap.
  - rewrite (fmap_app _ a b). intros [Hn [Ha Hb]%Forall_app]. auto.
  - auto.
Qed.

Lemma extended_app s isPrefix a b R P :
  extended s isPrefix b (fst (grown isPrefix a R P)) (snd (grown isPrefix a R P)) → extended s isPrefix (a ++ b) R P.
Proof.
  destruct isPrefix; simpl; apply table_perm; try done; by rewrite app_assoc, (Permutation_app_comm b a).
Qed.

Lemma method_route_some path (mc : string * option H) k h :
  method_route path mc = Some (k, h) → mc = (fst mc, Some h) ∧ k = fst mc +:+ path ∧ fst mc ∈ http_methods.
Proof.
  unfold method_route. destruct mc as [m [c|]]; simpl; destruct (decide _); naive_solver.
Qed.

Lemma method_route_none path isPrefix (mc : string * option H) ms :
  method_route path mc = None → register_methods path isPrefix (mc :: ms) = register_methods path isPrefix ms.
Proof.
  unfold method_route. destruct mc as [m c]. cbn [register_methods fst snd]. destruct (decide (m ∈ http_methods)) as [Hm|Hm].
  - rewrite decide_False by (by intros []). by destruct c.
  - by rewrite decide_True.
Qed.

Lemma table_methods ms path isPrefix s R P :
  table s R P → fresh isPrefix (omap (method_route path) ms) R P →
  ∃ s', register_methods path isPrefix ms s = (Ret tt, s') ∧ extended s' isPrefix (omap (method_route path) ms) R P.
Proof.
  revert s R P. induction ms as [|mc ms IH]; intros s R P T Hf.
  { exists s. split; [done|]. by destruct isPrefix. }
  cbn [omap list_omap] in *. destruct (method_route path mc) as [[k h]|] eqn:E; cycle 1.
  { rewrite method_route_none by done. by apply IH. }
  apply method_route_some in E as (-> & -> & Hm). set (method := fst mc) in *. clearbody method.
  change (?x :: omap ?f ms) with ([x] ++ omap f ms) in Hf |- *.
  apply fresh_app in Hf as [Hf1 Hf2].
  assert (Hone : ∃ s1, (if isPrefix then register_prefix method path (mkHandler (method +:+ path) h)
      else register_path method path (mkHandler (method +:+ path) h)) s = (Ret tt, s1) ∧
      extended s1 isPrefix [(method +:+ path, h)] R P).
  { destruct isPrefix; simpl in Hf1.
    - destruct Hf1 as [[Hk _]%list.NoDup_cons [Hp _]%Forall_cons_iff]. by apply table_prefix.
    - apply list.NoDup_cons in Hf1 as [Hk _]. by apply table_path. }
  destruct Hone as (s1 & E1 & T1). destruct (IH s1 _ _ T1 Hf2) as (s2 & E2 & T2).
  exists s2. split; [|by apply extended_app]. cbn [register_methods].
  rewrite decide_False by (by intros []). unfold mbind, M_bind. by rewrite E1.
Qed.

Lemma table_all regs s R P :
  table s R P →
  NoDup (routes_of false regs ++ R).*1 → NoDup (routes_of true regs ++ P).*1 →
  Forall (λ k, plain k = true) (routes_of true regs).*1 →
  ∃ s', register_all regs s = (Ret tt, s') ∧ table s' (routes_of false regs ++ R) (routes_of true regs ++ P).
Proof.
  revert s R P. induction regs as [|[[obj path] isPrefix] regs IH]; intros s R P T HR HP Hpl; [by exists s|].
  set (new := object_routes obj path).
  assert (Hreg : fresh isPrefix new R P → ∃ s1 o, register obj path isPrefix s = (o, s1) ∧
      (∀ p, o ≠ Panic p) ∧ extended s1 isPrefix new R P).
  { unfold register, new, object_routes. destruct (ob_ptr obj); intros Hf.
    - destruct (table_methods (ob_methods obj) (full_path obj path) isPrefix s R P T Hf) as (s1 & E1 & T1).
      by exists s1, (Ret tt).
    - exists s, (Throw need_ptr). split_and!; [done|done|]. by destruct isPrefix. }
  assert (Hcons : ∀ kind, routes_of kind ((obj, path, isPrefix) :: regs) =
      (if decide (isPrefix = kind) then new else []) ++ routes_of kind regs) by done.
  rewrite !Hcons in HR, HP, Hpl |- *.
  assert (Hfresh : fresh isPrefix new R P ∧
      NoDup (routes_of false regs ++ fst (grown isPrefix new R P)).*1 ∧
      NoDup (routes_of true regs ++ snd (grown isPrefix new R P)).*1 ∧
      Forall (λ k, plain k = true) (routes_of true regs).*1).
  { assert (Hd : ∀ (A B : list (string * H)), NoDup (A ++ B).*1 → NoDup B.*1).
    { intros A B. rewrite fmap_app. by intros (_ & _ & ?)%list.NoDup_app. }
    assert (Hp : ∀ A B C : list (string * H), (A ++ B) ++ C ≡ₚ B ++ A ++ C).
    { intros A B C. by rewrite (Permutation_app_comm A B), app_assoc. }
    rewrite fmap_app, Forall_app in Hpl. destruct isPrefix; simpl in *; rewrite Hp in *; naive_solver. }
  destruct Hfresh as (Hf & HR' & HP' & Hpl').
  destruct (Hreg Hf) as (s1 & o & E1 & Ho & T1). destruct (IH s1 _ _ T1 HR' HP' Hpl') as (s2 & E2 & T2).
  exists s2. split.
  - cbn [register_all]. unfold try. rewrite E1. destruct o as [[]|e|p]; [done..|]. by destruct (Ho p).
  - eapply table_perm; [| |exact T2]; destruct isPrefix; simpl; try done; rewrite <-app_assoc; apply Permutation_app_swap_app.
Qed.
End registering.

(** ** Which handler is found *)

(** The handler of a path, and that of the longest prefix of one. *)
Definition find_route {H} (key : string) (R : list (string * H)) : option H :=
  snd <$> List.find (λ x, bool_decide (fst x = key)) R.

Fixpoint longest_prefix {H} (key : string) (P : list (string * H)) : option (string * H) :=
  match P with
  | [] => None
  | (p, h) :: rest =>
      let best := longest_prefix key rest in
      if HasPrefix key p then
        match best with
        | Some (q, _) => if (String.length p <=? String.length q)%nat then best else Some (p, h)
        | None => Some (p, h)
        end
      else best
  end.

Definition reference {H} (key : string) (R P : list (string * H)) : option H :=
  match find_route key R with Some h => Some h | None => snd <$> longest_prefix key P end.

Lemma find_route_some {H} key (R : list (string * H)) h : find_route key R = Some h → (key, h) ∈ R.
Proof.
  unfold find_route. destruct (List.find _ R) as [[k h']|] eqn:E; [|done]. intros [= ->].
  apply find_some in E as [Hin Hk%bool_decide_eq_true]. simpl in Hk. subst k. by apply list_elem_of_In.
Qed.

Lemma find_route_none {H} key (R : list (string * H)) h : find_route key R = None → (key, h) ∉ R.
Proof.
  unfold find_route. destruct (List.find _ R) as [x|] eqn:E; [done|]. intros _ Hin%list_elem_of_In.
  pose proof (find_none _ _ E _ Hin) as Hn. simpl in Hn. by rewrite bool_decide_true in Hn.
Qed.

Lemma longest_prefix_spec {H} key (P : list (string * H)) :
  match longest_prefix key P with
  | Some (p, h) => (p, h) ∈ P ∧ HasPrefix key p = true ∧
      ∀ q h', (q, h') ∈ P → HasPrefix key q = true → (String.length q ≤ String.length p)%nat
  | None => ∀ q h', (q, h') ∈ P → HasPrefix key q = false
  end.
Proof.
  induction P as [|[p h] P IH]; simpl; [by intros q h' ?%elem_of_nil|].
  destruct (HasPrefix key p) eqn:E.
  - destruct (longest_prefix key P) as [[q hq]|].
    + destruct IH as (Hin & Hq & Hmax). destruct (Nat.leb_spec (String.length p) (String.length q)).
      * split_and!; [by right|done|]. intros q' h' [[= -> ->]|Hin']%elem_of_cons Hq'; [done|by eapply Hmax].
      * split_and!; [by left|done|]. intros q' h' [[= -> ->]|Hin']%elem_of_cons Hq'; [done|].
        specialize (Hmax q' h' Hin' Hq'). lia.
    + split_and!; [by left|done|]. intros q' h' [[= -> ->]|Hin']%elem_of_cons Hq'; [done|].
      by rewrite (IH q' h') in Hq'.
  - destruct (longest_prefix key P) as [[q hq]|].
    + destruct IH as (Hin & Hq & Hmax). split_and!; [by right|done|].
      intros q' h' [[= -> ->]|Hin']%elem_of_cons Hq'; [congruence|by eapply Hmax].
    + intros q' h' [[= -> ->]|Hin']%elem_of_cons; [done|by eapply IH].
Qed.

Lemma same_length_prefix s p q :
  HasPrefix s p = true → HasPrefix s q = true → String.length p = String.length q → p = q.
Proof.
  revert s q. induction p as [|x p IH]; intros [|z s] [|y q]; simpl; try done.
  intros [->%bool_decide_eq_true Hp]%andb_prop [->%bool_decide_eq_true Hq]%andb_prop [= Hl].
  f_equal. by apply (IH s).
Qed.

Lemma unique_route {H} k (h h' : H) (R : list (string * H)) : NoDup R.*1 → (k, h) ∈ R → (k, h') ∈ R → h = h'.
Proof.
  induction R as [|[k0 h0] R IH]; [by intros _ ?%elem_of_nil|]. intros [Hk Hn]%list.NoDup_cons.
  intros [He|Hin]%elem_of_cons [He'|Hin']%elem_of_cons; simplify_eq; try done.
  - by apply (not_key Hk) in Hin'.
  - by apply (not_key Hk) in Hin.
  - by apply IH.
Qed.

Section finding.
Context {H : Type} `{RegexpLaws}.

Lemma table_getHandler (s : httpServer H) R P method path :
  table s R P → NoDup P.*1 →
  getHandler method path s = Ret ((λ h, (h, None)) <$> reference (method +:+ path) R P).
Proof.
  intros T HP. unfold getHandler, reference. set (key := method +:+ path). clearbody key.
  destruct (sv_path s !! key) as [hd|] eqn:E.
  { assert (Hin : (key, h_call hd) ∈ R) by (apply (tb_paths _ _ _ T); by rewrite E).
    destruct (find_route key R) as [h|] eqn:Er; [|by apply (find_route_none _ _ (h_call hd)) in Er].
    apply find_route_some, (tb_paths _ _ _ T) in Er. rewrite E in Er. by injection Er as ->. }
  destruct (find_route key R) as [h|] eqn:Er.
  { apply find_route_some, (tb_paths _ _ _ T) in Er. by rewrite E in Er. }
  rewrite (Ascend_ok Less) by apply (tb_tree _ _ _ T). cbn [tree_op mbind outcome_bind].
  pose proof (first_prefix_spec key _ (tb_ordered _ _ _ T)) as Hf.
  pose proof (longest_prefix_spec key P) as Hl.
  pose proof (run_prefix_iter key (sorted_from Less (mkPrefix key []) (contents (sv_prefix s))) (mkPrefix "" [])) as Hit.
  destruct (run_iter _ _ _) as [go [p0 ok]]. cbn [snd] in Hit |- *.
  destruct (first_prefix _ _) as [p|]; [injection Hit as -> ->|subst ok].
  - destruct Hf as (Hin & Hp & Hmax). destruct (tb_prefix _ _ _ T p Hin) as (h & HhP & re & Hexps & Hre).
    destruct (longest_prefix key P) as [[q hq]|]; [|by rewrite (Hl _ _ HhP) in Hp].
    destruct Hl as (HqP & Hq & Hqmax). destruct (tb_listed _ _ _ T q hq HqP) as (p' & Hin' & <- & _).
    assert (Heq : px_path p = px_path p').
    { apply (same_length_prefix key); [done|done|].
      specialize (Hmax p' Hin' Hq). specialize (Hqmax _ _ HhP Hp). lia. }
    rewrite Heq in HhP. rewrite (unique_route _ _ _ _ HP HhP HqP) in Hexps.
    rewrite Hexps. cbn [match_exps hr_exp hr_keys hr_handler h_call]. by rewrite Hre, HasPrefix_Contains.
  - destruct (longest_prefix key P) as [[q hq]|]; [|done]. destruct Hl as (HqP & Hq & _).
    destruct (tb_listed _ _ _ T q hq HqP) as (p' & Hin' & <- & _). by rewrite (Hf p' Hin') in Hq.
Qed.

(** C18: the tables answer as the routes they were made from: after any sequence
    of registrations with distinct routes, a request reaches the object registered
    for its method and path and, if there is none, the one registered for the
    longest prefix of it, however the tree of prefixes was filled. *)
Theorem dispatch_reference (regs : list (object H * string * bool)) method path :
  NoDup (routes_of false regs).*1 → NoDup (routes_of true regs).*1 →
  Forall (λ k, plain k = true) (routes_of true regs).*1 →
  ∃ s, register_all regs newHTTPServer = (Ret tt, s) ∧
    getHandler method path s =
      Ret ((λ h, (h, None)) <$> reference (method +:+ path) (routes_of false regs) (routes_of true regs)).
Proof.
  intros HR HP Hpl.
  destruct (table_all regs newHTTPServer [] [] table_new) as (s & E & T); [by rewrite app_nil_r..|done|].
  rewrite !app_nil_r in T. exists s. split; [done|]. by apply table_getHandler.
Qed.
End finding.

(** ** Runs *)

Module Literal.

(** Expressions that mean what they say. *)
#[export] Instance literal : Regexps := {|
  regexp := string; key_names _ := []; key_pattern p := p; Compile p := Ret p;
  MatchString re s := Contains s re; FindAllStringSubmatch _ _ := []
|}.

#[export] Instance literal_laws : RegexpLaws.
Proof. split; [done..|]. intros p _. by exists p. Qed.

Definition page (name : string) : object string := mkObject true ("*web." +:+ name) [("GET", Some name); ("String", None)].

(** Filed out of order. *)
Definition site : list (object string * string * bool) :=
  [(page "root", "/", true); (page "static", "/static/", true); (page "images", "static/img/", true);
   (page "about", "", false); (mkObject false "web.value" [("GET", Some "value")], "/value", false)].

Theorem dispatch_reference_witness :
  ∃ s, register_all site newHTTPServer = (Ret tt, s) ∧
    (λ p, getHandler "GET" p s) <$> ["/static/img/a"; "/static/a"; "/a"; "/web/about/"] =
      [Ret (Some ("images", None)); Ret (Some ("static", None)); Ret (Some ("root", None)); Ret (Some ("about", None))].
Proof.
  destruct (register_all site newHTTPServer) as [o s] eqn:E.
  assert (Hd : ∀ path, ∃ s', register_all site newHTTPServer = (Ret tt, s') ∧
    getHandler "GET" path s' = Ret ((λ h, (h, None)) <$>
      reference ("GET" +:+ path) (routes_of false site) (routes_of true site))).
  { intros path. apply (dispatch_reference site "GET" path).
    - apply (bool_decide_eq_true_1 (NoDup _)). vm_compute. reflexivity.
    - apply (bool_decide_eq_true_1 (NoDup _)). vm_compute. reflexivity.
    - vm_compute. repeat constructor. }
  exists s. destruct (Hd "") as (s0 & E0 & _). rewrite E in E0. injection E0 as -> ->. split; [reflexivity|].
  cbn [fmap list_fmap].
  assert (Hg : ∀ path, getHandler "GET" path s0 = Ret ((λ h, (h, None)) <$>
      reference ("GET" +:+ path) (routes_of false site) (routes_of true site))).
  { intros path. destruct (Hd path) as (s' & E' & Hp). rewrite E in E'. injection E' as <-. exact Hp. }
  rewrite !Hg. vm_compute. reflexivity.
Defined.
End Literal.
