(* ===== verification/RbacClient.v ===== *)
(** * RbacClient: the client of the rbac service

    [util/rbac/rbac.go]: every operation builds a URL, and for some a form, by
    hand, sends it with the application's token and decodes the JSON of the
    reply. The network is a [Transport]. *)

From Stdlib Require Import ZArith Lia Ascii.
From stdpp Require Import base gmap strings list.
From S2P Require Import Prelude GoStrings Http Json Fmt NetUrl SqlDB RbacDb Wire.

(** ** [Client] *)

Record Client := mkClient { c_host : string; c_token : string; c_timeout : Z }.

Definition timeout : Z := 10.

Definition New (host token : string) : Client := mkClient host token timeout.

(** [rbacResponse]. *)
Definition rbacResponse : list structField :=
  [mkField "Status" KInt "" "" "" ""; mkField "Message" KString "" "" "" "";
   mkField "Data" KInt64 "" "" "" ""].

(** A reply whose data is decoded by its own function. *)
Definition envelope (k : kind) : list structField :=
  [mkField "Status" KInt "" "" "" ""; mkField "Message" KString "" "" "" "";
   mkField "Data" k "" "" "" ""].

(** The member stored under [Data]; a reply has at most one. *)
Definition data_member (v : json) : option json :=
  match v with
  | JObj ms =>
      snd <$> head (List.filter
        (λ kv, bool_decide (find_field (envelope KStruct) (fst kv) = Some 2%nat)) ms)
  | _ => None
  end.

Section client.
Context {S : Type} `{Transport S}.

(** Reading a reply: an error of [json.Unmarshal] is returned. *)
Definition unmarshal {A} (p : A * option goerror) : M S A :=
  match p with (_, Some e) => throw e | (a, None) => mret a end.

Definition get (c : Client) (url : string) : M S string :=
  client_do "GET" url [("Token", c_token c)] "".
Definition post (c : Client) (url body : string) : M S string :=
  client_do "POST" url [("Token", c_token c); ("Content-Type", form_type)] body.
Definition put (c : Client) (url body : string) : M S string :=
  client_do "PUT" url [("Token", c_token c)] body.
Definition delete_ (c : Client) (url : string) : M S string :=
  client_do "DELETE" url [("Token", c_token c)] "".

Definition responseError (buf : string) : M S unit :=
  resp ← unmarshal (Unmarshal_struct rbacResponse (zero_vals rbacResponse) buf);
  if decide (nth_int resp 0 ≠ 0) then throw (Errorf (format_message (nth_str resp 1))) else mret tt.

Definition responseID (buf : string) : M S Z :=
  resp ← unmarshal (Unmarshal_struct rbacResponse (zero_vals rbacResponse) buf);
  if decide (nth_int resp 0 ≠ 0) then throw (Errorf (format_message (nth_str resp 1)))
  else mret (nth_int resp 2).

(** Rows of the type asked for. *)
Definition of_rows {T} `{Struct T} (rows : list (list gval)) : list T := omap of_vals rows.

Definition unmarshal_slice (T : Type) `{Struct T} (buf : string) : M S (list T) :=
  rows ← unmarshal (Unmarshal_slice (fields T) buf); mret (of_rows rows).

(** A slice that is returned as it was decoded: [null] leaves it nil, which is
    [None]. *)
Definition unmarshal_slice_or_nil (T : Type) `{Struct T} (buf : string) : M S (option (list T)) :=
  rows ← unmarshal_slice T buf;
  mret (match parse_json buf with inr JNull => None | _ => Some rows end).

(** The anonymous structs with a status, a message and a struct or a slice of
    structs as data. *)
Definition unmarshal_envelope {A} (k : kind) (zero : A) (decode : json → A * option goerror)
    (buf : string) : M S (Z * string * A) :=
  match parse_json buf with
  | inl e => throw e
  | inr v =>
      let '(vs, e1) := decode_object (envelope k) v (zero_vals (envelope k)) in
      let '(a, e2) := match data_member v with
                      | Some d => decode d
                      | None => (zero, None)
                      end in
      match first_error e1 e2 with
      | Some e => throw e
      | None => mret (nth_int vs 0, nth_str vs 1, a)
      end
  end.

Definition decode_row {T} `{Struct T} (zero : T) (v : json) : T * option goerror :=
  let '(vs, e) := decode_object (fields T) v (to_vals zero) in (default zero (of_vals vs), e).

Definition decode_rows {T} `{Struct T} (v : json) : list T * option goerror :=
  let '(rows, e) := decode_slice (fields T) v in (of_rows rows, e).

Definition url_of (c : Client) (rest : string) : string := "http://" +:+ c_host c +:+ rest.

Definition GetUserResources (c : Client) (email : string) : M S (list Resource) :=
  buf ← get c (url_of c ("/rbac/user/resource/?email=" +:+ email));
  unmarshal_slice Resource buf.

Definition GetUserResourceIDs (c : Client) (email : string) : M S (list Z) :=
  res ← GetUserResources c email; mret (Resource_ID <$> res).

Definition zero_user : User := mkUser 0 0 "" "" "" "".

Definition GetUser (c : Client) (email : string) : M S User :=
  buf ← get c (url_of c ("/rbac/user/info/?email=" +:+ email));
  '(status, msg, u) ← unmarshal_envelope KStruct zero_user (decode_row zero_user) buf;
  if decide (status ≠ 0) then throw (Errorf msg) else mret u.

Definition form_of (l : list (string * string)) : string :=
  Encode (list_to_map ((λ kv, (fst kv, [snd kv])) <$> l)).

Definition PostResource (c : Client) (name comments : string) : M S Z :=
  buf ← post c (url_of c "/rbac/resource/") (form_of [("Name", name); ("Comments", comments)]);
  responseID buf.

Definition PutRole (c : Client) (roleID : Z) (name comments : string) : M S unit :=
  buf ← put c (url_of c "/rbac/role/")
    (form_of [("role_id", itoa roleID); ("name", name); ("comments", comments)]);
  responseError buf.

Definition PostRole (c : Client) (name comments user email : string) : M S Z :=
  buf ← post c (url_of c "/rbac/role/")
    (form_of [("name", name); ("comments", comments); ("user", user); ("email", email)]);
  responseID buf.

Definition role_resource_url (c : Client) (roleID resID : Z) : string :=
  url_of c ("/rbac/role/resource/?role_id=" +:+ itoa roleID +:+ "&resource_id=" +:+ itoa resID).

Definition PostRoleResource (c : Client) (roleID resID : Z) : M S Z :=
  buf ← post c (role_resource_url c roleID resID) ""; responseID buf.

Definition DeleteResourceRole (c : Client) (resID roleID : Z) : M S unit :=
  buf ← delete_ c (role_resource_url c roleID resID); _ ← responseID buf; mret tt.

Definition DeleteResource (c : Client) (resID : Z) : M S unit :=
  buf ← delete_ c (url_of c ("/rbac/resource/?id=" +:+ itoa resID)); responseError buf.

Definition DeleteRoleUser (c : Client) (roleID : Z) (email : string) : M S unit :=
  buf ← delete_ c (url_of c ("/rbac/role/user/?role_id=" +:+ itoa roleID +:+ "&email=" +:+ email));
  responseError buf.

Definition DeleteRole (c : Client) (id : Z) (name : string) : M S unit :=
  buf ← delete_ c (url_of c ("/rbac/role/?id=" +:+ itoa id +:+ "&name=" +:+ name));
  responseError buf.

Definition GetResourceRoles (c : Client) (resID : Z) : M S (option (list RoleResource)) :=
  buf ← get c (url_of c ("/rbac/role/resource/?resource_id=" +:+ itoa resID +:+ "&api=1"));
  unmarshal_slice_or_nil RoleResource buf.

Definition out_of_range : string := "runtime error: index out of range".

Definition GetResource (c : Client) (resID : Z) : M S Resource :=
  buf ← get c (url_of c ("/rbac/resource/?id=" +:+ itoa resID));
  '(status, msg, data) ← unmarshal_envelope KSlice [] (decode_rows (T:=Resource)) buf;
  if decide (status ≠ 0) then throw (Errorf (format_message msg))
  else match data with r :: _ => mret r | [] => gopanic out_of_range end.

Definition GetResourceRolesUnrelated (c : Client) (resID : Z) (email : string) : M S (option (list Role)) :=
  buf ← get c (url_of c ("/rbac/resource/role/unrelated/?resource_id=" +:+ itoa resID
                          +:+ "&email=" +:+ email));
  unmarshal_slice_or_nil Role buf.

Definition GetRole (c : Client) (roleID : Z) : M S Role :=
  buf ← get c (url_of c ("/rbac/role/?role_id=" +:+ itoa roleID));
  '(status, msg, data) ← unmarshal_envelope KSlice [] (decode_rows (T:=Role)) buf;
  if decide (status ≠ 0) then throw (Errorf (format_message msg))
  else match data with
       | r :: _ => mret r
       | [] => throw (Errorf ("role:" +:+ itoa roleID +:+ " not found"))
       end.

Definition GetRoleUsers (c : Client) (roleID : Z) : M S (list RoleUser) :=
  buf ← get c (url_of c ("/rbac/role/user/?role_id=" +:+ itoa roleID));
  unmarshal_slice RoleUser buf.

Definition GetUserRoles (c : Client) (email : string) : M S (list RoleUser) :=
  buf ← get c (url_of c ("/rbac/user/role/?email=" +:+ email));
  unmarshal_slice RoleUser buf.

Definition PostRoleUser (c : Client) (roleID : Z) (user email : string) : M S Z :=
  buf ← post c (url_of c ("/rbac/role/user/?role_id=" +:+ itoa roleID +:+ "&name=" +:+ user
                           +:+ "&email=" +:+ email)) "";
  responseID buf.

Definition PostUser (c : Client) (user email : string) : M S Z :=
  buf ← post c (url_of c ("/rbac/user/?name=" +:+ user +:+ "&email=" +:+ email)) "";
  responseID buf.

Definition PutUser (c : Client) (userID : Z) (user email : string) : M S unit :=
  buf ← put c (url_of c ("/rbac/user/?user_id=" +:+ itoa userID +:+ "&name=" +:+ user
                          +:+ "&email=" +:+ email)) "";
  responseError buf.

Definition DeleteUser (c : Client) (userID : Z) : M S unit :=
  buf ← delete_ c (url_of c ("/rbac/user/?user_id=" +:+ itoa userID)); responseError buf.
End client.
