(* ===== verification/RbacClientTheory.v ===== *)
(** * RbacClientTheory: the rbac client and the rbac service together

    The client of [util/rbac] is run against the routes of [rbac] over a loopback
    network. What its operations do is then what the service's operations do
    for the application of the client's token, except where the two disagree
    about names, methods or shapes. *)

From Stdlib Require Import ZArith Lia Ascii.
From stdpp Require Import base gmap strings list.
From S2P Require Import Prelude GoStrings Crypto Http Json Fmt NetUrl SqlDB Orm RbacDb RbacService.
From S2P Require Import RbacHandlers RbacTheory Wire RbacClient.

(** ** Reading values *)

(** The value of a key in a list of pairs: the first one, or the empty string. *)
Fixpoint pairs_get (l : list (string * string)) (k : string) : string :=
  match l with
  | [] => ""
  | kv :: r => if decide (fst kv = k) then snd kv else pairs_get r k
  end.

Definition query_of (l : list (string * string)) : gmap string (list string) :=
  foldl (λ m kv, form_add (fst kv) (snd kv) m) ∅ l.

Definition body_of (l : list (string * string)) : gmap string (list string) :=
  list_to_map ((λ kv, (fst kv, [snd kv])) <$> l).

Lemma query_of_get l k : values_get (query_of l) k = pairs_get l k.
Proof.
  unfold query_of.
  assert (Hg : ∀ m, map_Forall (λ _ vs, vs ≠ []) m →
    values_get (foldl (λ m kv, form_add (fst kv) (snd kv) m) m l) k =
      match m !! k with Some (x :: _) => x | _ => pairs_get l k end).
  { induction l as [|[k' v] l IH]; intros m Hm; simpl.
    - unfold values_get. destruct (m !! k) as [[|x vs]|]; done.
    - rewrite IH.
      + unfold form_add. destruct (decide (k' = k)) as [->|Hne].
        * rewrite lookup_insert_eq. destruct (m !! k) as [[|x vs]|] eqn:E; simpl; try done.
        * by rewrite lookup_insert_ne.
      + unfold form_add. apply map_Forall_insert_2; [|done]. by destruct (default [] (m !! k')). }
  rewrite Hg by apply map_Forall_empty. by rewrite lookup_empty.
Qed.

Lemma body_of_get l k : values_get (body_of l) k = pairs_get l k.
Proof.
  unfold body_of. induction l as [|[k' v] l IH]; [done|]. simpl. unfold values_get in *.
  destruct (decide (k' = k)) as [->|Hne]; [by rewrite lookup_insert_eq|by rewrite lookup_insert_ne].
Qed.

Lemma merge_values_empty_l q : merge_values ∅ q = q.
Proof. unfold merge_values. apply map_eq. intros i. rewrite lookup_union_with, lookup_empty. by destruct (q !! i). Qed.

Lemma merge_values_empty_r p : merge_values p ∅ = p.
Proof. unfold merge_values. apply map_eq. intros i. rewrite lookup_union_with, lookup_empty. by destruct (p !! i). Qed.

Lemma form_of_parses l : l ≠ [] → ParseQuery (form_of l) = (body_of l, None).
Proof.
  intros Hl. unfold form_of. apply ParseQuery_Encode.
  - destruct l as [|[k v] l]; [done|]. simpl. apply insert_non_empty.
  - clear Hl. unfold body_of. induction l as [|[k v] l IH]; [apply map_Forall_empty|].
    by apply map_Forall_insert_2.
Qed.

(** ** Decoding variables *)

Section decode.
Context `{EmailPattern}.

(** The anonymous structs of the handlers. *)
Definition is_var (f : structField) : bool :=
  bool_decide (f_valid f = "" ∧ f_json f ≠ "" ∧ (f_kind f = KInt64 ∨ f_kind f = KString)).

Definition decoded (get : string → string) (f : structField) : gval :=
  match f_kind f with
  | KString => VStr (get (f_json f))
  | _ => match ParseInt (get (f_json f)) 10 with (z, None) => VInt z | _ => VInt 0 end
  end.

(** Integers that do not parse stay zero, since no variable is validated. *)
Lemma decode_vars fs r post get :
  forallb is_var fs = true → r_post r = Ret post →
  (∀ k, values_get (merge_values post (r_query r)) k = get k) →
  DecodeRequestValue true fs (zero_vals fs) r = Ret (decoded get <$> fs).
Proof.
  intros Hv Hp Hget. unfold DecodeRequestValue, parsed_form. rewrite Hp. cbn [mbind outcome_bind].
  assert (decode_fields true (merge_values post (r_query r)) fs (zero_vals fs) = Ret (decoded get <$> fs)
    ∧ Valid fs (decoded get <$> fs) = Ret tt) as [Hd Hv']; [|rewrite Hd; cbn [mbind outcome_bind]; by rewrite Hv'].
  clear Hp. induction fs as [|f fs IH]; [done|]. cbn [forallb] in Hv.
  apply andb_prop in Hv as [Hf Hv]. apply bool_decide_eq_true in Hf as (Hf1 & Hf2 & Hf3).
  destruct (IH Hv) as [IH1 IH2].
  change (zero_vals (f :: fs)) with (zero_value (f_kind f) :: zero_vals fs).
  cbn [decode_fields Valid]. rewrite fmap_cons. cbn [Valid]. split.
  - assert (decode_field true (merge_values post (r_query r)) f (zero_value (f_kind f))
      = Ret (decoded get f)) as ->; [|cbn [mbind outcome_bind]; by rewrite IH1].
    unfold decode_field, decoded, set_field. rewrite decide_False, Hget by done.
    destruct Hf3 as [Hk|Hk]; rewrite Hk; [|done].
    destruct (ParseInt (get (f_json f)) 10) as [z [e|]]; [|done]. by rewrite decide_True.
  - unfold valid_field. rewrite decide_True by done. cbn [mbind outcome_bind]. exact IH2.
Qed.
End decode.

(** ** Requests *)

Lemma cut_app c a b : byte_in c a = false → cut c (a +:+ String c b) = (a, Some b).
Proof.
  induction a as [|x a IH]; cbn [byte_in]; intros Ha.
  { change (cut c (String c b) = ("", Some b)). simpl. by rewrite decide_True. }
  apply orb_false_iff in Ha as [Hx Ha]. apply bool_decide_eq_false in Hx.
  rewrite str_app_cons. cbn [cut]. rewrite decide_False by done. by rewrite IH.
Qed.

(** A host name, as far as the URLs are concerned. *)
Definition plain_host (c : Client) : Prop := byte_in "/" (c_host c) = false.

Lemma url_target_of c path :
  plain_host c →
  url_target (url_of c (String "/" path)) =
    (let '(p, q) := cut "?" path in (String "/" p, default "" q)).
Proof.
  intros Hh. unfold url_target, url_of. rewrite TrimPrefix_app, cut_app by done. done.
Qed.

Lemma request_of_query method c path l h body url :
  plain_host c → byte_in "?" path = false → l ≠ [] → Forall plain_pair l →
  url = url_of c (String "/" (path +:+ String "?" (Join "&" (pair_text <$> l)))) →
  post_form method h body = (∅, None) →
  request_of method url h body =
    mkRequest method (String "/" path) (query_of l) h (Ret ∅) (Ret body).
Proof.
  intros Hh Hp Hl HF -> Hb. unfold request_of.
  rewrite url_target_of by done.
  rewrite cut_app by done. cbn [from_option id]. rewrite ParseQuery_plain by done. by rewrite Hb.
Qed.

(** A URL with a query in it that parses. *)
Lemma request_of_raw method c path raw q h body url :
  plain_host c → byte_in "?" path = false →
  url = url_of c (String "/" (path +:+ String "?" raw)) → ParseQuery raw = (q, None) →
  post_form method h body = (∅, None) →
  request_of method url h body = mkRequest method (String "/" path) q h (Ret ∅) (Ret body).
Proof.
  intros Hh Hp -> Hq Hb. unfold request_of. rewrite url_target_of by done.
  rewrite cut_app by done. cbn [from_option id default]. by rewrite Hq, Hb.
Qed.

(** The first value of a key stays the first. *)
Lemma parse_parts_first ps m err k v vs :
  m !! k = Some (v :: vs) → ∃ vs', (parse_parts ps m err).1 !! k = Some (v :: vs').
Proof.
  revert m err vs. induction ps as [|p ps IH]; intros m err vs Hm; [by exists vs|].
  cbn [parse_parts]. destruct (decide (p = "")); [by eapply IH|]. destruct (split_pair p) as [k1 v1].
  destruct (QueryUnescape k1) as [k2|e|x], (QueryUnescape v1) as [v2|e'|x']; try by eapply IH.
  unfold form_add. destruct (decide (k2 = k)) as [->|Hne].
  - eapply IH. rewrite lookup_insert_eq, Hm. reflexivity.
  - eapply IH. by rewrite lookup_insert_ne.
Qed.

(** A query written by hand, and what the service reads in it. *)
Definition query_text (l : list (string * string)) : string := Join "&" (pair_text <$> l).
Definition pasted (l : list (string * string)) (k : string) : string := values_get (ParseQuery (query_text l)).1 k.

Lemma pasted_plain l k : l ≠ [] → Forall plain_pair l → pasted l k = pairs_get l k.
Proof. intros Hl HF. unfold pasted, query_text. rewrite ParseQuery_plain by done. apply query_of_get. Qed.

Lemma pasted_first kv l : plain_pair kv → l ≠ [] → pasted (kv :: l) (fst kv) = snd kv.
Proof.
  intros [Hk Hv] Hl. destruct l as [|kv' l]; [done|]. unfold pasted, query_text, ParseQuery.
  rewrite fmap_cons, fmap_cons, Join_cons, Split_app. destruct kv as [k v]. simpl in Hk, Hv.
  rewrite Split_nosep by (unfold pair_text; rewrite !byte_in_app; simpl; by rewrite !url_plain_no).
  cbn [app]. change (pair_text (k, v)) with (k +:+ String "=" v). cbn [parse_parts fst snd].
  rewrite decide_False by (by destruct k). rewrite split_pair_app by (by apply url_plain_no).
  rewrite !url_plain_unescape by done. unfold values_get.
  destruct (parse_parts_first (Split "&" (Join "&" (pair_text kv' :: (pair_text <$> l)))) (form_add k v ∅) None k v []) as [vs ->].
  - unfold form_add. by rewrite lookup_insert_eq, lookup_empty.
  - done.
Qed.

Lemma request_of_form method c path h body post :
  plain_host c → byte_in "?" path = false → post_form method h body = (post, None) →
  request_of method (url_of c (String "/" path)) h body =
    mkRequest method (String "/" path) ∅ h (Ret post) (Ret body).
Proof.
  intros Hh Hp Hb. unfold request_of.
  rewrite url_target_of by done.
  assert (Hc : cut "?" path = (path, None)).
  { clear Hb. induction path as [|x a IH]; [done|]. cbn [byte_in] in Hp.
    apply orb_false_iff in Hp as [Hx Ha]. apply bool_decide_eq_false in Hx.
    cbn [cut]. rewrite decide_False by done. by rewrite IH. }
  rewrite Hc. cbn [from_option id]. by rewrite Hb.
Qed.

(** ** Tokens *)

Definition bare_request (token : string) : Request :=
  mkRequest "" "" ∅ {["Token" := [token]]} (Ret ∅) (Ret "").

(** The application a client acts for. *)
Definition token_app `{BlockCipher} (token : string) : outcome Z := parseToken (bare_request token).

Lemma parseToken_header `{BlockCipher} r token :
  header_get (r_header r) "token" = token → parseToken r = token_app token.
Proof.
  intros Ht. unfold token_app, parseToken. rewrite Ht.
  assert (header_get (r_header (bare_request token)) "token" = token) as ->; [|done].
  unfold header_get, values_get. change (CanonicalKey "token") with "Token". simpl.
  by rewrite lookup_singleton_eq.
Qed.

Definition headers (l : list (string * string)) : gmap string (list string) :=
  foldr (λ kv h, header_set h (fst kv) (snd kv)) ∅ l.

Lemma headers_token t l : header_get (headers (("Token", t) :: l)) "token" = t.
Proof.
  unfold header_get, values_get, headers. simpl. unfold header_set.
  change (CanonicalKey "token") with "Token". change (CanonicalKey "Token") with "Token".
  by rewrite lookup_insert_eq.
Qed.

Lemma post_form_body t body post :
  ParseQuery body = (post, None) →
  post_form "POST" (headers [("Token", t); ("Content-Type", form_type)]) body = (post, None).
Proof.
  intros Hb. unfold post_form. rewrite decide_True; [done|]. split; [by left|].
  unfold header_get, values_get, headers, header_set. simpl.
  change (CanonicalKey "Token") with "Token". change (CanonicalKey "Content-Type") with "Content-Type".
  rewrite lookup_insert_ne by done. by rewrite lookup_insert_eq.
Qed.

(** A body is not a form unless it is declared as one. *)
Lemma post_form_undeclared method t body : post_form method (headers [("Token", t)]) body = (∅, None).
Proof.
  unfold post_form. rewrite decide_False; [done|]. intros [_ Hc]. revert Hc.
  unfold header_get, values_get, headers, header_set. simpl.
  change (CanonicalKey "Token") with "Token". change (CanonicalKey "Content-Type") with "Content-Type".
  rewrite lookup_insert_ne by done. by rewrite lookup_empty.
Qed.

(** ** The loopback *)

Section exchange.
Context `{SqlEngine} `{BlockCipher} `{EmailPattern}.

Definition silent {A} (m : M World A) : Prop := extends (λ e, replied e = None) m.

(** The client's network is the service itself. *)
#[local] Instance net : Transport World := loopback rbac_serve.

(** One reply, written last, is what the client gets. *)
Lemma loopback_reply method url h body handler w w1 r :
  rbac_serve (request_of method url (headers h) body) = Some handler →
  handler w = reply_with r w1 →
  (∃ evs, w_events w1 = (w_events w ++ evs)%list ∧ Forall (λ e, replied e = None) evs) →
  (∀ c, r ≠ WriteHeader c) →
  client_do method url h body w = (Ret (reply_text r), snd (reply_with r w1)).
Proof.
  intros Hs Hh (evs & He & HF) Hr. unfold client_do. fold (headers h).
  assert (Ht : round_trip method url (headers h) body w = (Ret (StatusOK, reply_text r), snd (reply_with r w1))).
  { unfold round_trip, net, loopback, server_ServeHTTP. rewrite Hs. unfold recover. rewrite Hh.
    unfold reply_with, emit. unfold new_replies. cbn [w_events fst snd]. rewrite He.
    rewrite <-app_assoc, drop_app_length, omap_app.
    assert (omap replied evs = []) as ->.
    { clear He. induction HF as [|e evs Hn HF IH]; [done|]. simpl. by rewrite Hn. }
    simpl. rewrite str_app_nil_r. destruct r; try done. by destruct (Hr code). }
  unfold mbind, M_bind. rewrite Ht. cbn [fst snd]. by rewrite decide_False by (intros Hx; by apply Hx).
Qed.

(** ** Reading replies *)

Lemma response_status st msg d :
  utf8 msg = true → in_int64 st → match d with Some v => printable v | None => True end →
  printable (Response st msg d).
Proof.
  intros Hm Hst Hd. apply printable_obj. unfold Response.
  constructor; [split; [done|by eexists]|]. apply Forall_app. split.
  - destruct (decide _); [done|]. by constructor.
  - destruct d; [by constructor|done].
Qed.

Lemma decode_response st msg data :
  in_int64 st → utf8 msg = true → (∀ d, data = Some d → in_int64 d) →
  Unmarshal_struct rbacResponse (zero_vals rbacResponse) (print (Response st msg (JInt <$> data)))
    = ([VInt st; VStr msg; VInt (default 0 data)], None).
Proof.
  intros Hst Hm Hd. unfold Unmarshal_struct.
  rewrite parse_json_print by (apply response_status; [done|done|]; destruct data; [by eexists|done]).
  assert (Hint : ∀ z old, in_int64 z → store KInt (JInt z) old = (VInt z, None)).
  { intros z old Hz. unfold store, JInt. change (ParseInt (itoa z) 10) with (Atoi (itoa z)).
    rewrite Atoi_itoa by done. cbn. by rewrite bool_decide_eq_true_2. }
  unfold Response. cbn [decode_object]. cbn [foldl]. unfold store_member at 2.
  change (find_field rbacResponse (fst ("Status", JInt st))) with (Some 0%nat).
  cbn [lookup list_lookup rbacResponse fst snd zero_vals fmap list_fmap compose f_kind zero_value].
  rewrite Hint by done. rewrite foldl_app.
  assert (Hmsg : foldl (store_member rbacResponse)
      (<[0%nat := VInt st]> [VInt 0; VStr ""; VInt 0], first_error None None)
      (if decide (msg = "") then [] else [("Message", JStr msg)]) = ([VInt st; VStr msg; VInt 0], None)).
  { destruct (decide (msg = "")) as [->|]; done. }
  cbn [lookup list_lookup rbacResponse fst snd zero_vals fmap list_fmap compose f_kind zero_value] in Hmsg |- *.
  rewrite Hmsg. destruct data as [d|]; [|done]. specialize (Hd d eq_refl). cbn [fmap option_fmap option_map].
  cbn [foldl]. unfold store_member.
  change (find_field rbacResponse (fst ("Data", JInt d))) with (Some 2%nat).
  cbn [lookup list_lookup rbacResponse fst snd f_kind].
  assert (store KInt64 (JInt d) (VInt 0) = (VInt d, None)) as ->; [by apply Hint|done].
Qed.

Lemma int64_0 : in_int64 0.
Proof. unfold in_int64, min_int64, max_int64. lia. Qed.

(** What the two readers of replies make of them. *)
Lemma responseID_data id (s : World) :
  in_int64 id → responseID (reply_text (SendResponseData (PVal (VInt id)))) s = (Ret id, s).
Proof.
  intros Hid. unfold responseID, reply_text.
  change (Some (payload_json (PVal (VInt id)))) with (JInt <$> Some id).
  rewrite decode_response; [done|apply int64_0|done|]. by intros d [= <-].
Qed.

Lemma responseID_error st msg (s : World) :
  in_int64 st → st ≠ 0 → utf8 msg = true →
  responseID (reply_text (SendResponse st msg)) s = (Throw (Errorf (format_message msg)), s).
Proof.
  intros Hst Hne Hm. unfold responseID, reply_text.
  change (print (Response st msg None)) with (print (Response st msg (JInt <$> None))).
  rewrite decode_response by done. unfold unmarshal, mbind, M_bind, mret, M_ret.
  change (nth_int [VInt st; VStr msg; VInt (default 0 None)] 0) with st.
  by rewrite decide_True.
Qed.

Lemma responseError_error st msg (s : World) :
  in_int64 st → st ≠ 0 → utf8 msg = true →
  responseError (reply_text (SendResponse st msg)) s = (Throw (Errorf (format_message msg)), s).
Proof.
  intros Hst Hne Hm. unfold responseError, reply_text.
  change (print (Response st msg None)) with (print (Response st msg (JInt <$> None))).
  rewrite decode_response by done. unfold unmarshal, mbind, M_bind, mret, M_ret.
  change (nth_int [VInt st; VStr msg; VInt (default 0 None)] 0) with st.
  by rewrite decide_True.
Qed.

Lemma responseError_ok (s : World) : responseError (reply_text SendResponseOK) s = (Ret tt, s).
Proof.
  unfold responseError, reply_text.
  change (print (Response 0 "" None)) with (print (Response 0 "" (JInt <$> None))).
  by rewrite decode_response.
Qed.

Lemma responseID_ok (s : World) : responseID (reply_text SendResponseOK) s = (Ret 0, s).
Proof.
  unfold responseID, reply_text.
  change (print (Response 0 "" None)) with (print (Response 0 "" (JInt <$> None))).
  by rewrite decode_response.
Qed.
End exchange.

(** ** Service operations inside handlers *)

Section operations.
Context `{SqlEngine} `{BlockCipher} `{EmailPattern}.

(** Operations that return or fail, but do not panic. *)
Definition calm {A} (m : M World A) : Prop := ∀ w, is_panic (m w).1 = false.

Lemma calm_bind {A B} (m : M World A) (f : A → M World B) :
  calm m → (∀ a, calm (f a)) → calm (mbind f m).
Proof.
  intros Hm Hf w. specialize (Hm w). unfold mbind, M_bind.
  destruct (m w) as [[a|e|p] w']; [apply Hf|done|done].
Qed.

Lemma calm_ret {A} (a : A) : calm (mret a).
Proof. done. Qed.

Lemma calm_connect : calm GetConnection.
Proof. intros w. unfold GetConnection. by destruct (db_connect (w_db w)) as [[e|] d]. Qed.

Lemma calm_exec q a : calm (Exec q a).
Proof. intros w. unfold Exec. by destruct (db_exec q a (w_db w)) as [[e|x] d]. Qed.

Lemma calm_query q a : calm (Query q a).
Proof. intros w. unfold Query. by destruct (db_query q a (w_db w)) as [[e|x] d]. Qed.

Lemma calm_add {T} `{Struct T} table (x : T) : calm (add table x).
Proof.
  unfold add. destruct (decide _); [done|]. apply calm_bind; [apply calm_connect|intros _].
  apply calm_bind; [apply calm_exec|]. intros a. apply calm_ret.
Qed.

Lemma calm_exec_sql sql : calm (exec sql).
Proof.
  unfold exec. apply calm_bind; [apply calm_connect|intros _].
  apply calm_bind; [apply calm_exec|]. intros a. apply calm_ret.
Qed.

Lemma silent_add {T} `{Struct T} table (x : T) : silent (add table x).
Proof. by apply extends_add. Qed.

Lemma silent_exec_sql sql : silent (exec sql).
Proof. by apply extends_exec_sql. Qed.

Lemma silent_bind {A B} (m : M World A) (f : A → M World B) :
  silent m → (∀ a, silent (f a)) → silent (mbind f m).
Proof. apply extends_bind. Qed.

(** A handler past its variables and its token. *)
Lemma handler_vars fs r post get (h : goerror → M World unit) k w :
  forallb is_var fs = true → r_post r = Ret post →
  (∀ x, values_get (merge_values post (r_query r)) x = get x) →
  try (decode fs r) h k w = k (decoded get <$> fs) w.
Proof.
  intros Hv Hp Hg. unfold try, decode, lift. by rewrite (decode_vars fs r post get Hv Hp Hg).
Qed.

Lemma handler_token r token app (h : goerror → M World unit) k w :
  header_get (r_header r) "token" = token → token_app token = Ret app →
  try (token_of r) h k w = k app w.
Proof. intros Ht Ha. unfold try, token_of, lift. by rewrite (parseToken_header r token Ht), Ha. Qed.

#[local] Existing Instance net.

(** The client's view of a handler that runs a service operation and then sends
    its result or its error. *)
Definition exchanged {A} (client : M World A) (service : M World A) (st : Z) (sent : A → reply) (w : World)
    : Prop :=
  match service w with
  | (Ret a, w1) =>
      client w = (Ret a, (reply_with (sent a) w1).2)
  | (Throw e, w1) =>
      utf8 (Error e) = true →
      client w = (Throw (Errorf (format_message (Error e))), (reply_with (SendResponse st (Error e)) w1).2)
  | (Panic _, _) => False
  end.

Lemma exchange {A} method url h body handler (svc : M World A) (read : string → M World A) st sent w :
  rbac_serve (request_of method url (headers h) body) = Some handler →
  handler w = try svc (fail st) (λ a, reply_with (sent a)) w →
  silent svc → calm svc → (∀ a c, sent a ≠ WriteHeader c) →
  (∀ e s, utf8 (Error e) = true →
     read (reply_text (SendResponse st (Error e))) s = (Throw (Errorf (format_message (Error e))), s)) →
  (∀ a w1 s, svc w = (Ret a, w1) → read (reply_text (sent a)) s = (Ret a, s)) →
  exchanged (buf ← client_do method url h body; read buf) svc st sent w.
Proof.
  intros Hs Hh Hq Hc Hsent Herr Hok. unfold exchanged. specialize (Hq w). specialize (Hc w).
  unfold try in Hh. destruct (svc w) as [[a|e|p] w1]; [| |done].
  - unfold mbind, M_bind. rewrite (loopback_reply method url h body handler w w1 (sent a)); [|done..|apply Hsent].
    by apply (Hok a w1).
  - intros Hu. unfold mbind, M_bind.
    rewrite (loopback_reply method url h body handler w w1 (SendResponse st (Error e))); [|done..].
    by apply Herr.
Qed.
End operations.

(** ** Creations, changes *)

(** The client's operations that add something. *)
Inductive creation : Type :=
| CreateRoleResource (roleID resID : Z)
| CreateResource (name comments : string)
| CreateRole (name comments user email : string)
| CreateUser (name email : string)
| CreateRoleUser (roleID : Z) (name email : string).

(** The change operations likewise, without those that do not reach their handler
    as intended ([PutRole_ignores_arguments], [DeleteRole_ignores_id],
    [DeleteUser_always_fails]). *)
Inductive change : Type :=
| UnlinkRoleResource (resID roleID : Z)
| RemoveResource (resID : Z)
| RemoveRoleUser (roleID : Z) (email : string)
| ChangeUser (userID : Z) (name email : string).

(** What the client pastes into a URL unescaped. *)
Definition user_query (name email : string) : list (string * string) := [("name", name); ("email", email)].
Definition role_user_query (roleID : Z) (name email : string) : list (string * string) :=
  [("role_id", itoa roleID); ("name", name); ("email", email)].
Definition removal_query (roleID : Z) (email : string) : list (string * string) :=
  [("role_id", itoa roleID); ("email", email)].
Definition change_query (userID : Z) (name email : string) : list (string * string) :=
  [("user_id", itoa userID); ("name", name); ("email", email)].

(** A query that travels as it is, without a space, a control byte, the mark of a
    fragment or a semicolon in it, and whose escapes are well-formed. *)
Fixpoint travels (s : string) : bool :=
  match s with
  | EmptyString => true
  | String a r =>
      (32 <? N_of_ascii a)%N && negb (N_of_ascii a =? 127)%N && negb (Ascii.eqb a "#") && negb (Ascii.eqb a ";") && travels r
  end.

Definition sent_query (l : list (string * string)) : Prop :=
  travels (query_text l) = true ∧ (ParseQuery (query_text l)).2 = None.

(** Identifiers are 64-bit, and what is pasted makes a query; what goes through a
    form is arbitrary. *)
Definition creation_ok (cr : creation) : Prop :=
  match cr with
  | CreateRoleResource roleID resID => in_int64 roleID ∧ in_int64 resID
  | CreateResource _ _ | CreateRole _ _ _ _ => True
  | CreateUser name email => sent_query (user_query name email)
  | CreateRoleUser roleID name email => in_int64 roleID ∧ sent_query (role_user_query roleID name email)
  end.

Definition change_ok (ch : change) : Prop :=
  match ch with
  | UnlinkRoleResource resID roleID => in_int64 resID ∧ in_int64 roleID
  | RemoveResource resID => in_int64 resID
  | RemoveRoleUser roleID email => in_int64 roleID ∧ sent_query (removal_query roleID email)
  | ChangeUser userID name email => in_int64 userID ∧ sent_query (change_query userID name email)
  end.

(** The operation with the texts the service reads in the query. *)
Definition creation_read (cr : creation) : creation :=
  match cr with
  | CreateUser name email =>
      let l := user_query name email in CreateUser (pasted l "name") (pasted l "email")
  | CreateRoleUser roleID name email =>
      let l := role_user_query roleID name email in CreateRoleUser roleID (pasted l "name") (pasted l "email")
  | cr => cr
  end.

Definition change_read (ch : change) : change :=
  match ch with
  | RemoveRoleUser roleID email => RemoveRoleUser roleID (pasted (removal_query roleID email) "email")
  | ChangeUser userID name email =>
      let l := change_query userID name email in ChangeUser userID (pasted l "name") (pasted l "email")
  | ch => ch
  end.

(** Texts that need no escape. *)
Definition creation_plain (cr : creation) : Prop :=
  match cr with
  | CreateUser name email | CreateRoleUser _ name email => url_plain name = true ∧ url_plain email = true
  | _ => True
  end.

Definition change_plain (ch : change) : Prop :=
  match ch with
  | RemoveRoleUser _ email => url_plain email = true
  | ChangeUser _ name email => url_plain name = true ∧ url_plain email = true
  | _ => True
  end.

Ltac plain_pairs := repeat constructor; first [done | apply url_plain_itoa].

Lemma creation_read_plain cr : creation_plain cr → creation_read cr = cr.
Proof.
  destruct cr; try done; intros [Hn He]; cbn [creation_read]; cbv zeta; rewrite !pasted_plain by (done || plain_pairs); done.
Qed.

Lemma change_read_plain ch : change_plain ch → change_read ch = ch.
Proof.
  destruct ch; try done; [intros He|intros [Hn He]]; cbn [change_read]; cbv zeta;
    rewrite !pasted_plain by (done || plain_pairs); done.
Qed.

Lemma sent_query_parses l :
  sent_query l → ∃ q, ParseQuery (query_text l) = (q, None) ∧ ∀ k, values_get q k = pasted l k.
Proof.
  intros [_ Hp]. exists (ParseQuery (query_text l)).1. split; [|done].
  destruct (ParseQuery (query_text l)) as [q e]. simpl in Hp. by subst.
Qed.

(** The status a failure is reported with. *)
Definition change_status (ch : change) : Z :=
  match ch with
  | UnlinkRoleResource _ _ | ChangeUser _ _ _ => StatusBadRequest
  | RemoveResource _ | RemoveRoleUser _ _ => StatusInternalServerError
  end.

(** Steps the exchanges share: the request a URL or a form makes, the variables
    and the token it carries. *)
Ltac by_query method c path l :=
  rewrite (request_of_query method c path l) by
    (done || (repeat constructor; first [done | apply url_plain_itoa]) || apply post_form_undeclared
     || by apply post_form_body);
  reflexivity.

Ltac by_pasted method c path l q Hq :=
  rewrite (request_of_raw method c path (query_text l) q) by
    (done || apply post_form_undeclared || by apply post_form_body);
  reflexivity.

Ltac by_form method c path hs body post :=
  rewrite (request_of_form method c path hs body post) by
    (done || apply post_form_undeclared || (apply post_form_body, form_of_parses; done));
  reflexivity.

Ltac vars_from_query l :=
  rewrite (handler_vars _ _ ∅ (pairs_get l));
  [|done|done|intros x; cbn [r_query]; by rewrite merge_values_empty_l, query_of_get].

Ltac vars_from_pasted l Hg :=
  rewrite (handler_vars _ _ ∅ (pasted l));
  [|done|done|intros x; cbn [r_query]; by rewrite merge_values_empty_l, Hg].

Ltac vars_from_body l :=
  rewrite (handler_vars _ _ (body_of l) (pairs_get l));
  [|done|done|intros x; cbn [r_query]; by rewrite merge_values_empty_r, body_of_get].

Ltac for_application c app :=
  rewrite (handler_token _ (c_token c) app); [|apply headers_token|done]; cbn [fmap list_fmap].

Section operations_agree.
Context `{SqlEngine} `{BlockCipher} `{EmailPattern}.
#[local] Existing Instance net.

Definition client_create (c : Client) (cr : creation) : M World Z :=
  match cr with
  | CreateRoleResource roleID resID => PostRoleResource c roleID resID
  | CreateResource name comments => PostResource c name comments
  | CreateRole name comments user email => PostRole c name comments user email
  | CreateUser name email => PostUser c name email
  | CreateRoleUser roleID name email => PostRoleUser c roleID name email
  end.

Definition service_create (app : Z) (cr : creation) : M World Z :=
  match cr with
  | CreateRoleResource roleID resID => RelationResourceRoleAdd app resID roleID
  | CreateResource name comments => ResourceAdd app name comments
  | CreateRole name comments user email => RoleAdd app name user email comments
  | CreateUser name email => UserAdd app name email
  | CreateRoleUser roleID name email => RoleUserAdd app roleID name email
  end.

Lemma silent_create app cr : silent (service_create app cr).
Proof.
  destruct cr; simpl; try apply silent_add.
  - apply silent_bind; [apply silent_add|intros uid]. apply silent_bind; [apply silent_add|intros rid].
    apply silent_bind; [|intros x; apply extends_ret].
    apply silent_bind; [apply silent_add|intros y; apply silent_add].
  - apply silent_bind; [apply silent_add|intros uid; apply silent_add].
Qed.

Lemma calm_create app cr : calm (service_create app cr).
Proof.
  destruct cr; simpl; try apply calm_add.
  - apply calm_bind; [apply calm_add|intros uid]. apply calm_bind; [apply calm_add|intros rid].
    apply calm_bind; [|intros x; apply calm_ret].
    apply calm_bind; [apply calm_add|intros y; apply calm_add].
  - apply calm_bind; [apply calm_add|intros uid; apply calm_add].
Qed.

Definition create_reply (id : Z) : reply := SendResponseData (PVal (VInt id)).

Lemma decoded_int z get k : in_int64 z → get k = itoa z → decoded get (var_int k) = VInt z.
Proof.
  intros Hz Hg. unfold decoded. cbn. rewrite Hg. change (ParseInt (itoa z) 10) with (Atoi (itoa z)).
  by rewrite Atoi_itoa.
Qed.

(** The request behind a creation, and the handler it reaches. *)
Lemma create_handler c app cr :
  plain_host c → token_app (c_token c) = Ret app → creation_ok cr →
  ∃ url body handler,
    client_create c cr = (buf ← client_do "POST" url [("Token", c_token c); ("Content-Type", form_type)] body;
                          responseID buf) ∧
    rbac_serve (request_of "POST" url (headers [("Token", c_token c); ("Content-Type", form_type)]) body)
      = Some handler ∧
    ∀ w, handler w = try (service_create app (creation_read cr)) (fail StatusInternalServerError)
                       (λ id, reply_with (create_reply id)) w.
Proof.
  intros Hh Ht Hok.
  set (hs := [("Token", c_token c); ("Content-Type", form_type)]).
  assert (Hb0 : post_form "POST" (headers hs) "" = (∅, None)) by by apply post_form_body.
  destruct cr as [roleID resID|name comments|name comments user email|name email|roleID name email];
    cbn [creation_ok client_create service_create] in *.
  - destruct Hok as [Hr Hs]. set (l := [("role_id", itoa roleID); ("resource_id", itoa resID)]).
    exists (role_resource_url c roleID resID), "",
      (rbacRoleResource_POST (mkRequest "POST" "/rbac/role/resource/" (query_of l) (headers hs) (Ret ∅) (Ret ""))). split; [done|].
    split; [by_query "POST" c "rbac/role/resource/" l|]. intros w. unfold rbacRoleResource_POST.
    vars_from_query l.
    for_application c app. rewrite (decoded_int roleID), (decoded_int resID) by done. done.
  - set (l := [("Name", name); ("Comments", comments)]).
    exists (url_of c "/rbac/resource/"), (form_of l),
      (rbacResource_POST (mkRequest "POST" "/rbac/resource/" ∅ (headers hs) (Ret (body_of l)) (Ret (form_of l)))). split; [done|].
    split; [by_form "POST" c "rbac/resource/" (headers hs) (form_of l) (body_of l)|]. intros w. unfold rbacResource_POST.
    vars_from_body l.
    by for_application c app.
  - set (l := [("name", name); ("comments", comments); ("user", user); ("email", email)]).
    exists (url_of c "/rbac/role/"), (form_of l),
      (rbacRole_POST (mkRequest "POST" "/rbac/role/" ∅ (headers hs) (Ret (body_of l)) (Ret (form_of l)))). split; [done|].
    split; [by_form "POST" c "rbac/role/" (headers hs) (form_of l) (body_of l)|]. intros w. unfold rbacRole_POST.
    vars_from_body l.
    by for_application c app.
  - set (l := user_query name email) in *. destruct (sent_query_parses l Hok) as (q & Hq & Hg).
    exists (url_of c ("/rbac/user/?name=" +:+ name +:+ "&email=" +:+ email)), "",
      (rbacUser_POST (mkRequest "POST" "/rbac/user/" q (headers hs) (Ret ∅) (Ret ""))). split; [done|].
    split; [by_pasted "POST" c "rbac/user/" l q Hq|]. intros w. unfold rbacUser_POST.
    vars_from_pasted l Hg.
    by for_application c app.
  - destruct Hok as [Hr Hok]. set (l := role_user_query roleID name email) in *.
    destruct (sent_query_parses l Hok) as (q & Hq & Hg).
    exists (url_of c ("/rbac/role/user/?role_id=" +:+ itoa roleID +:+ "&name=" +:+ name
                           +:+ "&email=" +:+ email)), "",
      (rbacRoleUser_POST (mkRequest "POST" "/rbac/role/user/" q (headers hs) (Ret ∅) (Ret ""))). split; [done|].
    split; [by_pasted "POST" c "rbac/role/user/" l q Hq|]. intros w. unfold rbacRoleUser_POST.
    vars_from_pasted l Hg.
    for_application c app.
    by rewrite (decoded_int roleID) by (done || by apply (pasted_first ("role_id", itoa roleID)); [plain_pairs|]).
Qed.

(** One exchange of a creation, for whatever client and service agree on. *)
Lemma creation_exchanged c app cr w :
  plain_host c → token_app (c_token c) = Ret app → creation_ok cr →
  (∀ id w1, service_create app (creation_read cr) w = (Ret id, w1) → in_int64 id) →
  exchanged (client_create c cr) (service_create app (creation_read cr)) StatusInternalServerError create_reply w.
Proof.
  intros Hh Ht Hok Hid. destruct (create_handler c app cr Hh Ht Hok) as (url & body & handler & -> & Hs & Hw).
  eapply exchange; [exact Hs|apply Hw|apply silent_create|apply calm_create|done| |].
  - intros e s Hu. by apply responseID_error.
  - intros id w1 s Hr. apply responseID_data. by eapply Hid.
Qed.

(** C10: a creation through the client is the service's operation for the
    application of the client's token: it runs the same statements, returns the
    identifier the service produced, and fails with the service's message when that
    fails. Resources and roles travel as forms, with any text. Names and addresses
    of users are pasted into the URL: whenever that makes a query that travels and
    parses, the operation is the one on what the service reads there, which is what
    was given when that needs no escape. *)
Theorem creations_refine c app cr w :
  plain_host c → token_app (c_token c) = Ret app → creation_ok cr →
  (∀ id w1, service_create app (creation_read cr) w = (Ret id, w1) → in_int64 id) →
  exchanged (client_create c cr) (service_create app (creation_read cr)) StatusInternalServerError create_reply w ∧
  (creation_plain cr → creation_read cr = cr).
Proof. intros Hh Ht Hok Hid. split; [by apply creation_exchanged|apply creation_read_plain]. Qed.

Definition client_change (c : Client) (ch : change) : M World unit :=
  match ch with
  | UnlinkRoleResource resID roleID => DeleteResourceRole c resID roleID
  | RemoveResource resID => DeleteResource c resID
  | RemoveRoleUser roleID email => DeleteRoleUser c roleID email
  | ChangeUser userID name email => PutUser c userID name email
  end.

Definition service_change (app : Z) (ch : change) : M World unit :=
  match ch with
  | UnlinkRoleResource resID roleID => RoleResourceDelete app roleID resID
  | RemoveResource resID => ResourceDelete resID
  | RemoveRoleUser roleID email => RoleUserDelete app roleID email
  | ChangeUser userID name email => UserUpdate app userID name email
  end.

Lemma silent_change app ch : silent (service_change app ch).
Proof.
  destruct ch; simpl; try (apply silent_bind; [apply silent_exec_sql|intros x]); try apply extends_ret.
  - apply silent_bind; [apply silent_exec_sql|intros y; apply extends_ret].
  - apply silent_bind; [by apply extends_connect|intros x].
    apply silent_bind; [by apply extends_exec|intros y; apply extends_ret].
Qed.

Lemma calm_change app ch : calm (service_change app ch).
Proof.
  destruct ch; simpl; try (apply calm_bind; [apply calm_exec_sql|intros x]); try apply calm_ret.
  - apply calm_bind; [apply calm_exec_sql|intros y; apply calm_ret].
  - apply calm_bind; [apply calm_connect|intros x].
    apply calm_bind; [apply calm_exec|intros y; apply calm_ret].
Qed.

Definition change_reply (x : unit) : reply := SendResponseOK.

(** A reply the client only looks at for an error. *)
Definition reads_outcome (read : string → M World unit) : Prop :=
  (∀ s, read (reply_text SendResponseOK) s = (Ret tt, s)) ∧
  ∀ st e s, in_int64 st → st ≠ 0 → utf8 (Error e) = true →
    read (reply_text (SendResponse st (Error e))) s = (Throw (Errorf (format_message (Error e))), s).

Lemma reads_outcome_error : reads_outcome responseError.
Proof. split; [apply responseError_ok|]. intros st e s Hst Hne Hu. by apply responseError_error. Qed.

Lemma reads_outcome_id : reads_outcome (λ buf, _ ← responseID buf; mret tt).
Proof.
  split; [intros s; unfold mbind, M_bind; by rewrite responseID_ok|].
  intros st e s Hst Hne Hu. unfold mbind, M_bind. by rewrite responseID_error.
Qed.

Lemma change_handler c app ch :
  plain_host c → token_app (c_token c) = Ret app → change_ok ch →
  ∃ method url handler read,
    client_change c ch = (buf ← client_do method url [("Token", c_token c)] ""; read buf) ∧
    reads_outcome read ∧
    rbac_serve (request_of method url (headers [("Token", c_token c)]) "") = Some handler ∧
    ∀ w, handler w = try (service_change app (change_read ch)) (fail (change_status ch))
                       (λ x, reply_with (change_reply x)) w.
Proof.
  intros Hh Ht Hok. set (hs := [("Token", c_token c)]).
  assert (Hb0 : ∀ method, post_form method (headers hs) "" = (∅, None)) by (intros; apply post_form_undeclared).
  destruct ch as [resID roleID|resID|roleID email|userID name email];
    cbn [change_ok client_change service_change change_status] in *.
  - destruct Hok as [Hs Hr]. set (l := [("role_id", itoa roleID); ("resource_id", itoa resID)]).
    exists "DELETE", (role_resource_url c roleID resID),
      (rbacRoleResource_DELETE (mkRequest "DELETE" "/rbac/role/resource/" (query_of l) (headers hs) (Ret ∅) (Ret ""))),
      (λ buf, _ ← responseID buf; mret tt).
    split; [done|]. split; [apply reads_outcome_id|].
    split; [by_query "DELETE" c "rbac/role/resource/" l|]. intros w. unfold rbacRoleResource_DELETE.
    vars_from_query l.
    for_application c app. rewrite (decoded_int resID), (decoded_int roleID) by done. done.
  - set (l := [("id", itoa resID)]).
    exists "DELETE", (url_of c ("/rbac/resource/?id=" +:+ itoa resID)),
      (rbacResource_DELETE (mkRequest "DELETE" "/rbac/resource/" (query_of l) (headers hs) (Ret ∅) (Ret ""))),
      responseError.
    split; [done|]. split; [apply reads_outcome_error|].
    split; [by_query "DELETE" c "rbac/resource/" l|]. intros w. unfold rbacResource_DELETE.
    for_application c app.
    cbn [r_query]. rewrite query_of_get. change (pairs_get l "id") with (itoa resID).
    change (ParseInt (itoa resID) 10) with (Atoi (itoa resID)). by rewrite Atoi_itoa.
  - destruct Hok as [Hr Hok]. set (l := removal_query roleID email) in *.
    destruct (sent_query_parses l Hok) as (q & Hq & Hg).
    exists "DELETE", (url_of c ("/rbac/role/user/?role_id=" +:+ itoa roleID +:+ "&email=" +:+ email)),
      (rbacRoleUser_DELETE (mkRequest "DELETE" "/rbac/role/user/" q (headers hs) (Ret ∅) (Ret ""))),
      responseError.
    split; [done|]. split; [apply reads_outcome_error|].
    split; [by_pasted "DELETE" c "rbac/role/user/" l q Hq|]. intros w. unfold rbacRoleUser_DELETE.
    vars_from_pasted l Hg.
    for_application c app.
    by rewrite (decoded_int roleID) by (done || by apply (pasted_first ("role_id", itoa roleID)); [plain_pairs|]).
  - destruct Hok as [Hu Hok]. set (l := change_query userID name email) in *.
    destruct (sent_query_parses l Hok) as (q & Hq & Hg).
    exists "PUT", (url_of c ("/rbac/user/?user_id=" +:+ itoa userID +:+ "&name=" +:+ name
                          +:+ "&email=" +:+ email)),
      (rbacUser_PUT (mkRequest "PUT" "/rbac/user/" q (headers hs) (Ret ∅) (Ret ""))),
      responseError.
    split; [done|]. split; [apply reads_outcome_error|].
    split; [by_pasted "PUT" c "rbac/user/" l q Hq|]. intros w. unfold rbacUser_PUT.
    vars_from_pasted l Hg.
    for_application c app.
    by rewrite (decoded_int userID) by (done || by apply (pasted_first ("user_id", itoa userID)); [plain_pairs|]).
Qed.

(** C11: unlinking a role from a resource, removing a resource, removing a user
    from a role and updating a user through the client is the service's operation
    for the application of the client's token, failures included. Names and
    addresses are pasted into the URL: whenever that makes a query that travels and
    parses, the operation is the one on what the service reads there, which is what
    was given when that needs no escape. (The client's other three operations of
    the kind are not the service's: [PutRole_ignores_arguments],
    [DeleteRole_ignores_id], [DeleteUser_always_fails].) *)
Theorem changes_refine c app ch w :
  plain_host c → token_app (c_token c) = Ret app → change_ok ch →
  exchanged (client_change c ch) (service_change app (change_read ch)) (change_status ch) change_reply w ∧
  (change_plain ch → change_read ch = ch).
Proof.
  intros Hh Ht Hok. split; [|apply change_read_plain].
  destruct (change_handler c app ch Hh Ht Hok) as (method & url & handler & read & -> & [Hro Hre] & Hs & Hw).
  eapply exchange; [exact Hs|apply Hw|apply silent_change|apply calm_change|by intros [] ?| |].
  - intros e s Hu. apply Hre; [|by destruct ch|done]. destruct ch; vm_compute; split; discriminate.
  - intros [] w1 s _. apply Hro.
Qed.
End operations_agree.

(** ** Queries *)

(** A row whose fields survive the wire, and a row type whose field names do. *)
Definition wire_ok {T} `{Struct T} (x : T) : Prop := Forall2 storable (to_vals x) (fields T).

Definition named (T : Type) `{Struct T} : Prop :=
  NoDup (json_name <$> fields T) ∧ Forall (λ f, utf8 (json_name f) = true) (fields T).

Ltac solve_named := split; [apply names_distinct; vm_compute; reflexivity|repeat constructor].

Lemma Resource_named : named Resource.
Proof. solve_named. Qed.

Lemma Role_named : named Role.
Proof. solve_named. Qed.

Definition rows_json {T} `{Struct T} (l : list T) : json :=
  JArr (encode_object (fields T) <$> (to_vals <$> l)).

Section rows.
Context {T : Type} `{StructLaws T}.

Lemma rows_printable (l : list T) : named T → Forall wire_ok l → printable (rows_json l).
Proof.
  intros [_ Hu] HF. apply printable_arr. apply list.Forall_fmap, list.Forall_fmap.
  eapply list.Forall_impl; [exact HF|]. intros x Hx. by apply encode_object_printable.
Qed.

Lemma decode_slice_rows (l : list T) :
  named T → Forall wire_ok l → decode_slice (fields T) (rows_json l) = (to_vals <$> l, None).
Proof.
  intros [Hd _] HF. unfold decode_slice, rows_json.
  assert (Hone : ∀ x : T, wire_ok x →
    decode_object (fields T) (encode_object (fields T) (to_vals x)) (zero_vals (fields T)) = (to_vals x, None)).
  { intros x Hx. apply decode_encode_object; [done|done|]. unfold zero_vals; by rewrite length_fmap. }
  f_equal.
  - induction HF as [|x l Hx HF IH]; [done|]. rewrite !fmap_cons, IH, Hone by done. done.
  - induction HF as [|x l Hx HF IH]; [done|]. rewrite !fmap_cons. cbn [foldl]. by rewrite Hone.
Qed.

Lemma of_rows_to (l : list T) : of_rows (to_vals <$> l) = l.
Proof.
  unfold of_rows. induction l as [|x l IH]; [done|]. rewrite fmap_cons. cbn [omap list_omap]. rewrite of_to_vals. f_equal. exact IH.
Qed.

Lemma decode_rows_back (l : list T) : named T → Forall wire_ok l → decode_rows (rows_json l) = (l, None).
Proof. intros Hn HF. unfold decode_rows. by rewrite decode_slice_rows, of_rows_to. Qed.

Lemma payload_rows (l : list T) :
  payload_json (slice_payload l) = match l with [] => JNull | _ => rows_json l end.
Proof. by destruct l. Qed.

Lemma unmarshal_rows {S} (l : list T) (s : S) :
  named T → Forall wire_ok l →
  unmarshal_slice T (print (payload_json (slice_payload l))) s = (Ret l, s).
Proof.
  intros Hn HF. unfold unmarshal_slice, Unmarshal_slice. rewrite payload_rows.
  destruct l as [|x l]; [done|]. rewrite parse_json_print by by apply rows_printable.
  rewrite decode_slice_rows by done. unfold unmarshal, mbind, M_bind, mret, M_ret. by rewrite of_rows_to.
Qed.

(** The reply with status zero and rows, or [null], as its data. *)
Lemma envelope_rows {S} (l : list T) (s : S) :
  named T → Forall wire_ok l →
  unmarshal_envelope KSlice [] (decode_rows (T:=T)) (reply_text (SendResponseData (slice_payload l))) s
    = (Ret (0, "", l), s).
Proof.
  intros Hn HF. unfold unmarshal_envelope, reply_text.
  assert (Hp : printable (payload_json (slice_payload l))).
  { rewrite payload_rows. destruct l; [done|by apply rows_printable]. }
  rewrite parse_json_print by (apply response_status; [done|apply int64_0|done]).
  rewrite payload_rows. destruct l as [|x l]; [done|].
  assert (Hd : decode_object (envelope KSlice) (Response 0 "" (Some (rows_json (x :: l)))) (zero_vals (envelope KSlice))
    = ([VInt 0; VStr ""; VOther], None)) by done.
  rewrite Hd.
  assert (Hm : data_member (Response 0 "" (Some (rows_json (x :: l)))) = Some (rows_json (x :: l))) by done.
  rewrite Hm, decode_rows_back by done. done.
Qed.
End rows.

Lemma envelope_error {S A} st msg (zero : list A) decode (s : S) :
  in_int64 st → utf8 msg = true →
  unmarshal_envelope KSlice zero decode (reply_text (SendResponse st msg)) s = (Ret (st, msg, zero), s).
Proof.
  intros Hst Hm. unfold unmarshal_envelope, reply_text.
  rewrite parse_json_print by by apply response_status.
  assert (Hd : decode_object (envelope KSlice) (Response st msg None) (zero_vals (envelope KSlice))
    = ([VInt st; VStr msg; VOther], None)).
  { assert (Hint : store KInt (JInt st) (VInt 0) = (VInt st, None)).
    { unfold store, JInt. change (ParseInt (itoa st) 10) with (Atoi (itoa st)).
      rewrite Atoi_itoa by done. cbn. by rewrite bool_decide_eq_true_2. }
    unfold Response. cbn [decode_object]. cbn [foldl]. unfold store_member at 2.
    change (find_field (envelope KSlice) (fst ("Status", JInt st))) with (Some 0%nat).
    cbn [lookup list_lookup envelope fst snd zero_vals fmap list_fmap compose f_kind zero_value].
    rewrite Hint. by destruct (decide (msg = "")) as [->|]. }
  rewrite Hd.
  assert (Hn : data_member (Response st msg None) = None).
  { unfold Response, data_member. rewrite app_nil_r. by destruct (decide (msg = "")). }
  by rewrite Hn.
Qed.

Section disagreements.
Context `{SqlEngine} `{BlockCipher} `{EmailPattern}.
#[local] Existing Instance net.

Lemma scan_rows_no_panic {T} `{Struct T} rows : is_panic (scan_rows (T:=T) rows) = false.
Proof.
  induction rows as [|row rows IH]; [done|]. simpl. destruct (scan_row row); [|done].
  by destruct (scan_rows rows).
Qed.

Lemma calm_lift {A} (o : outcome A) : is_panic o = false → calm (lift o).
Proof. by intros Ho w. Qed.

Lemma calm_scan_count q n : calm (scan_count q n).
Proof.
  intros w. unfold scan_count, try. pose proof (calm_query q [] w) as Hq.
  destruct (Query q [] w) as [[a|e|p] w1]; [done|done|done].
Qed.

Lemma calm_query_rows {T} `{Struct T} table where_ sort order offset count :
  calm (query (T:=T) table where_ sort order offset count).
Proof.
  unfold query. destruct (decide _); [done|]. apply calm_bind; [apply calm_connect|intros _].
  apply calm_bind; [apply calm_query|intros rows]. apply calm_bind; [apply calm_lift, scan_rows_no_panic|intros l].
  apply calm_bind; [apply calm_scan_count|intros; apply calm_ret].
Qed.

Lemma silent_query_rows {T} `{Struct T} table where_ sort order offset count :
  silent (query (T:=T) table where_ sort order offset count).
Proof.
  unfold query, silent. destruct (decide _); [apply extends_throw|].
  apply extends_bind; [apply extends_connect|intros _].
  apply extends_bind; [by apply extends_query|intros rows]. apply extends_bind; [apply extends_lift|intros l].
  apply extends_bind; [|intros; apply extends_ret]. unfold scan_count.
  apply extends_try; [by apply extends_query|intros; apply extends_ret|intros; apply extends_ret].
Qed.

Lemma silent_ResourceGet app ids : silent (ResourceGet app ids).
Proof. apply silent_bind; [apply silent_query_rows|intros p; apply extends_ret]. Qed.

Lemma calm_ResourceGet app ids : calm (ResourceGet app ids).
Proof. apply calm_bind; [apply calm_query_rows|intros p; apply calm_ret]. Qed.

(** Reading one resource through the client gives the first row the service
    finds, and the service's message when it fails; when there is no such
    resource the service answers with an empty list and the client's index
    panics. *)
Theorem GetResource_end_to_end c app resID w :
  plain_host c → token_app (c_token c) = Ret app → in_int64 resID →
  match ResourceGet app [resID] w with
  | (Ret [], w1) =>
      GetResource c resID w = (Panic out_of_range, (reply_with (SendResponseData PNull) w1).2)
  | (Ret (r :: rs), w1) =>
      Forall wire_ok (r :: rs) →
      GetResource c resID w = (Ret r, (reply_with (SendResponseData (slice_payload (r :: rs))) w1).2)
  | (Throw e, w1) =>
      utf8 (Error e) = true →
      GetResource c resID w = (Throw (Errorf (format_message (Error e))),
                               (reply_with (SendResponse StatusBadRequest (Error e)) w1).2)
  | (Panic _, _) => False
  end.
Proof.
  intros Hh Ht Hid. set (hs := [("Token", c_token c)]). set (l := [("id", itoa resID)]).
  set (r := mkRequest "GET" "/rbac/resource/" (query_of l) (headers hs) (Ret ∅) (Ret "")).
  set (url := url_of c ("/rbac/resource/?id=" +:+ itoa resID)).
  assert (Hs : rbac_serve (request_of "GET" url (headers hs) "") = Some (rbacResource_GET r)).
  { by_query "GET" c "rbac/resource/" l. }
  assert (Hw : rbacResource_GET r w = try (ResourceGet app [resID]) (fail StatusBadRequest)
      (λ rs, reply_with (SendResponseData (slice_payload rs))) w).
  { unfold rbacResource_GET. rewrite (handler_vars _ _ ∅ (pairs_get l)); [|done|done|].
    2:{ intros x. cbn [r_query r]. by rewrite merge_values_empty_l, query_of_get. }
    for_application c app. by rewrite (decoded_int resID). }
  pose proof (silent_ResourceGet app [resID] w) as Hq. pose proof (calm_ResourceGet app [resID] w) as Hc.
  unfold try in Hw. destruct (ResourceGet app [resID] w) as [[rs|e|p] w1]; [| |done].
  - assert (Hget : Forall wire_ok rs → GetResource c resID w =
      (match rs with x :: _ => Ret x | [] => Panic out_of_range end,
       (reply_with (SendResponseData (slice_payload rs)) w1).2)).
    { intros HF. unfold GetResource, get. fold hs. fold url. unfold mbind at 1, M_bind at 1.
      rewrite (loopback_reply "GET" url hs "" _ w w1 _ Hs Hw Hq) by done. unfold mbind, M_bind.
      rewrite envelope_rows by (done || apply Resource_named). by destruct rs. }
    destruct rs; [by apply Hget|done].
  - intros Hu. unfold GetResource, get. fold hs. fold url. unfold mbind at 1, M_bind at 1.
    rewrite (loopback_reply "GET" url hs "" _ w w1 (SendResponse StatusBadRequest (Error e)) Hs Hw Hq) by done.
    unfold mbind, M_bind. rewrite envelope_error by (done || (vm_compute; split; discriminate)). done.
Qed.

(** A role is not changed through the client: the body of the request is not
    declared as a form, so whatever role, name and comments are given, the
    service updates role 0 with an empty name and empty comments. *)
Theorem PutRole_ignores_arguments c app roleID name comments w :
  plain_host c → token_app (c_token c) = Ret app →
  exchanged (PutRole c roleID name comments) (RoleUpdate app 0 "" "") StatusBadRequest change_reply w.
Proof.
  intros Hh Ht. set (hs := [("Token", c_token c)]).
  set (body := form_of [("role_id", itoa roleID); ("name", name); ("comments", comments)]).
  apply (exchange "PUT" (url_of c "/rbac/role/") hs body
    (rbacRole_PUT (mkRequest "PUT" "/rbac/role/" ∅ (headers hs) (Ret ∅) (Ret body)))).
  - by_form "PUT" c "rbac/role/" (headers hs) body (∅ : gmap string (list string)).
  - unfold rbacRole_PUT. rewrite (handler_vars _ _ ∅ (pairs_get [])); [|done|done|].
    2:{ intros x. cbn [r_query]. by rewrite merge_values_empty_l. }
    by for_application c app.
  - apply silent_bind; [by apply extends_connect|intros x].
    apply silent_bind; [by apply extends_exec|intros y; apply extends_ret].
  - apply calm_bind; [apply calm_connect|intros x]. apply calm_bind; [apply calm_exec|intros y; apply calm_ret].
  - by intros [] ?.
  - intros e s Hu. apply responseError_error; [vm_compute; split; discriminate|done|done].
  - intros [] w1 s _. apply responseError_ok.
Qed.

(** What [rbacRole_DELETE] does when it is given no role id. *)
Definition delete_roles_by_name (app : Z) (name : string) : M World unit :=
  let sql := "delete from role_user where " +:+ rbacRole_DELETE_where app 0 name in
  _ ← exec sql; _ ← exec (rbacRole_DELETE_sql app 0 name sql); mret tt.

(** A role is never deleted by its id through the client, which sends it
    under a name the service does not read: the service goes by the name alone,
    and without a name runs a deletion with an empty condition. *)
Theorem DeleteRole_ignores_id c app id name w :
  plain_host c → token_app (c_token c) = Ret app → url_plain name = true →
  exchanged (DeleteRole c id name) (delete_roles_by_name app name) StatusInternalServerError change_reply w.
Proof.
  intros Hh Ht Hn. set (hs := [("Token", c_token c)]). set (l := [("id", itoa id); ("name", name)]).
  apply (exchange "DELETE" (url_of c ("/rbac/role/?id=" +:+ itoa id +:+ "&name=" +:+ name)) hs ""
    (rbacRole_DELETE (mkRequest "DELETE" "/rbac/role/" (query_of l) (headers hs) (Ret ∅) (Ret "")))).
  - by_query "DELETE" c "rbac/role/" l.
  - unfold rbacRole_DELETE. rewrite (handler_vars _ _ ∅ (pairs_get l)); [|done|done|].
    2:{ intros x. cbn [r_query]. by rewrite merge_values_empty_l, query_of_get. }
    for_application c app.
    change (nth_int (decoded (pairs_get l) <$> [var_int "role_id"; var_str "name"]) 0) with 0.
    change (nth_str (decoded (pairs_get l) <$> [var_int "role_id"; var_str "name"]) 1) with name.
    unfold delete_roles_by_name, try, mbind, M_bind.
    destruct (exec _ w) as [[a|e|p] w1]; [|done|done]. by destruct (exec _ w1) as [[a'|e|p] w2].
  - apply silent_bind; [apply silent_exec_sql|intros x]. apply silent_bind; [apply silent_exec_sql|intros y; apply extends_ret].
  - apply calm_bind; [apply calm_exec_sql|intros x]. apply calm_bind; [apply calm_exec_sql|intros y; apply calm_ret].
  - by intros [] ?.
  - intros e s Hu. apply responseError_error; [vm_compute; split; discriminate|done|done].
  - intros [] w1 s _. apply responseError_ok.
Qed.

(** Users cannot be deleted through the client: the service has no such
    route, so the call always fails and no statement is run. *)
Theorem DeleteUser_always_fails c userID w :
  plain_host c →
  DeleteUser c userID w =
    (Throw (Errorf "invalid request"), (reply_with (SendResponse StatusNotFound "invalid request") w).2).
Proof.
  intros Hh. set (hs := [("Token", c_token c)]). set (l := [("user_id", itoa userID)]).
  set (url := url_of c ("/rbac/user/?user_id=" +:+ itoa userID)).
  assert (Hn : rbac_serve (request_of "DELETE" url (headers hs) "") = None).
  { by_query "DELETE" c "rbac/user/" l. }
  assert (Hd : client_do "DELETE" url hs "" w = (Ret (reply_text (SendResponse StatusNotFound "invalid request")),
      (reply_with (SendResponse StatusNotFound "invalid request") w).2)).
  { unfold client_do, mbind, M_bind, round_trip, net, loopback, server_ServeHTTP. fold (headers hs).
    rewrite Hn. unfold recover, invalid_request, reply_with, emit. unfold new_replies. cbn [w_events fst snd].
    rewrite drop_app_length. done. }
  unfold DeleteUser, delete_. unfold mbind, M_bind. fold url. fold hs. rewrite Hd.
  rewrite responseError_error by (done || (vm_compute; split; discriminate)). done.
Qed.
End disagreements.

(** ** Concrete runs *)

Module ClientRuns.
#[local] Existing Instance Scripted.engine.
#[local] Existing Instance XorCipher.cipher.
#[local] Existing Instance net.
#[local] Instance emails : EmailPattern := λ _, true.

Definition token : string := match make_token 7 with Ret t => t | _ => "" end.
Definition client : Client := New "rbac.example:9000" token.
Definition start (rows : list (goerror + list (list gval))) (res : list (goerror + Z * Z)) : World :=
  Scripted.world rows res.

Lemma client_token : token_app (c_token client) = Ret 7.
Proof. vm_compute. reflexivity. Qed.

(** A form carries any text; the statement is the service's. *)
Definition adding : creation := CreateResource "a&b=c" "50% off?".

Example adding_runs :
  client_create client adding (start [] [inr (12, 1)]) =
    (Ret 12, mkWorld (Scripted.mkState [] [] [])
       [EvExec (add_sql "resource" (fields Resource)
                  (to_vals (mkResource 0 7 "a&b=c" "50% off?" "" ""))) [];
        EvReply (create_reply 12)]).
Proof. vm_compute. reflexivity. Qed.

Theorem creations_refine_witness :
  exchanged (client_create client adding) (service_create 7 adding) StatusInternalServerError
    create_reply (start [] [inr (12, 1)]).
Proof.
  apply (creations_refine client 7 adding); [reflexivity|exact client_token|exact I|].
  intros id w1 Hr. vm_compute in Hr. injection Hr as <- _. vm_compute. split; discriminate.
Defined.

(** A name with a plus sign, an ampersand or bytes beyond ASCII in it travels, but
    the user that is added has another name, or another address. *)
Example name_pasted_raw :
  creation_read (CreateUser "a+b" "x@y") = CreateUser "a b" "x@y" ∧
  creation_read (CreateUser "a&email=z@w" "x@y") = CreateUser "a" "z@w" ∧
  creation_read (CreateUser "张三" "x@y") = CreateUser "张三" "x@y" ∧
  creation_ok (CreateUser "a+b" "x@y") ∧ creation_ok (CreateUser "a&email=z@w" "x@y") ∧ creation_ok (CreateUser "张三" "x@y").
Proof. vm_compute. repeat split. Qed.

Theorem changes_refine_witness :
  exchanged (client_change client (UnlinkRoleResource 3 4)) (service_change 7 (UnlinkRoleResource 3 4))
    StatusBadRequest change_reply (start [] [inl (Errorf "lock wait timeout")]).
Proof.
  apply (changes_refine client 7 (UnlinkRoleResource 3 4)); [reflexivity|exact client_token|].
  vm_compute. repeat split; discriminate.
Defined.

(** A message that contains a directive is not what the caller reads. *)
Example message_is_a_format :
  (DeleteResource client 3 (start [] [inl (Errorf "100%done")])).1 = Throw (Errorf "100%!d(MISSING)one").
Proof. vm_compute. reflexivity. Qed.

Theorem GetResource_end_to_end_witness :
  GetResource client 5 (start [inr []; inr [[VInt 0]]] []) =
    (Panic out_of_range,
     (reply_with (SendResponseData PNull) (ResourceGet 7 [5] (start [inr []; inr [[VInt 0]]] [])).2).2).
Proof.
  assert (H5 : in_int64 5) by (vm_compute; split; discriminate).
  pose proof (GetResource_end_to_end client 7 5 (start [inr []; inr [[VInt 0]]] []) eq_refl client_token H5) as Hg.
  destruct (ResourceGet 7 [5] (start [inr []; inr [[VInt 0]]] [])) as [o w1] eqn:E.
  vm_compute in E. injection E as <- <-. exact Hg.
Defined.

Theorem PutRole_ignores_arguments_witness :
  exchanged (PutRole client 9 "operators" "may deploy") (RoleUpdate 7 0 "" "") StatusBadRequest
    change_reply (start [] [inr (0, 0)]).
Proof. apply PutRole_ignores_arguments; [reflexivity|exact client_token]. Defined.

Theorem DeleteRole_ignores_id_witness :
  exchanged (DeleteRole client 9 "") (delete_roles_by_name 7 "") StatusInternalServerError
    change_reply (start [] []).
Proof. apply DeleteRole_ignores_id; [reflexivity|exact client_token|reflexivity]. Defined.

(** Both statements have an empty condition. *)
Example empty_condition :
  omap executed (w_events (DeleteRole client 9 "" (start [] [])).2) =
    ["delete from role_user where "; "delete from role_user where "].
Proof. vm_compute. reflexivity. Qed.

Theorem DeleteUser_always_fails_witness :
  (DeleteUser client 9 (start [] [])).1 = Throw (Errorf "invalid request").
Proof. rewrite (DeleteUser_always_fails client 9 (start [] [])); reflexivity. Defined.
End ClientRuns.
