(* ===== verification/Registry.v ===== *)
(** * Registry: which service instances are alive

    A service instance announces itself in etcd under a key made of its project,
    host and port ([service/keepalive.go]); the repeater follows the key space
    under [/api] and keeps a table of the instances of every project
    ([repeater/backend.go]), from which it picks a backend. [meta/app.go] is the
    announced value. *)

From Stdlib Require Import ZArith Lia Ascii.
From stdpp Require Import base gmap strings list.
From S2P Require Import Prelude GoStrings Http Json Fmt.

(** ** [meta/app.go] *)

Record MicroAPP := mkMicroAPP {
  ServiceKey : string; Host : string; Port : Z; PID : Z;
  GitHash : string; GitTime : string; GitMessage : string
}.

#[export] Instance MicroAPP_eq_dec : EqDecision MicroAPP.
Proof. solve_decision. Defined.

Definition NewMicroAPP (host : string) (port : Z) (key : string) (pid : Z)
    (hash time message : string) : MicroAPP :=
  mkMicroAPP key host port pid hash time message.

Definition Version (m : MicroAPP) : Z := fst (ParseInt (GitTime m) 10).

#[export] Instance MicroAPP_struct : Struct MicroAPP := {
  fields := [mkField "ServiceKey" KString "" "" "" ""; mkField "Host" KString "" "" "" "";
             mkField "Port" KInt "" "" "" ""; mkField "PID" KInt "" "" "" "";
             mkField "GitHash" KString "" "" "" ""; mkField "GitTime" KString "" "" "" "";
             mkField "GitMessage" KString "" "" "" ""];
  to_vals a := [VStr (ServiceKey a); VStr (Host a); VInt (Port a); VInt (PID a);
                VStr (GitHash a); VStr (GitTime a); VStr (GitMessage a)];
  of_vals vs := match vs with
    | [VStr k; VStr h; VInt p; VInt i; VStr g; VStr t; VStr m] => Some (mkMicroAPP k h p i g t m)
    | _ => None end
}.

#[export] Instance MicroAPP_laws : StructLaws MicroAPP.
Proof. split; [by intros []|intros []; repeat constructor]. Qed.

(** [m.String()]. *)
Definition app_String (m : MicroAPP) : string := print (encode_object (fields MicroAPP) (to_vals m)).

Definition zero_app : MicroAPP := mkMicroAPP "" "" 0 0 "" "" "".

(** [app := meta.MicroAPP{}; json.Unmarshal(value, &app)], the error dropped:
    what could be stored stays. *)
Definition app_Unmarshal (value : string) : MicroAPP :=
  default zero_app (of_vals (fst (Unmarshal_struct (fields MicroAPP) (to_vals zero_app) value))).

(** An instance whose texts are UTF-8 and whose numbers are 64-bit integers. *)
Definition app_ok (m : MicroAPP) : Prop := Forall2 storable (to_vals m) (fields MicroAPP).

Lemma app_Unmarshal_String a : app_ok a → app_Unmarshal (app_String a) = a.
Proof.
  intros Ha. unfold app_Unmarshal, app_String.
  rewrite Unmarshal_Marshal; [by destruct a| | |done|done].
  - apply names_distinct. vm_compute. reflexivity.
  - repeat constructor.
Qed.

(** ** [service/keepalive.go] *)

Definition service_apigatePrefix : string := "/api/".

(** [debug.Project] is set when the service is built. *)
Definition apiKey (project local : string) (port : Z) : string :=
  service_apigatePrefix +:+ project +:+ "/" +:+ local +:+ "/" +:+ itoa port.

(** The port is what follows the last colon of the bind address. *)
Definition bindInfo (local bind : string) : outcome (string * Z) :=
  port ← slice_from bind (LastIndex bind ":" + 1);
  Ret (local, fst (Atoi port)).

(** ** [repeater/backend.go] *)

(** [bs.apps]. *)
Definition backends := gmap string (list MicroAPP).

Definition same_addr (host : string) (port : Z) (a : MicroAPP) : Prop :=
  Host a = host ∧ Port a = port.

#[export] Instance same_addr_dec host port a : Decision (same_addr host port a).
Proof. unfold same_addr. apply _. Defined.

(** The loop of [unregister]: the first instance at the address is dropped. *)
Fixpoint remove_first (host : string) (port : Z) (apps : list MicroAPP) : list MicroAPP :=
  match apps with
  | [] => []
  | a :: rest => if decide (same_addr host port a) then rest else a :: remove_first host port rest
  end.

Definition unregister (name host : string) (port : Z) (bs : gmap string (list MicroAPP))
    : gmap string (list MicroAPP) :=
  match bs !! name with
  | None => bs
  | Some apps =>
      if decide (Exists (same_addr host port) apps) then
        if decide (length apps = 1%nat) then delete name bs
        else <[name := remove_first host port apps]> bs
      else bs
  end.

Definition register (name : string) (app : MicroAPP) (bs : gmap string (list MicroAPP))
    : gmap string (list MicroAPP) :=
  match bs !! name with
  | None => <[name := [app]]> bs
  | Some apps =>
      if decide (Exists (same_addr (Host app) (Port app)) apps) then bs
      else <[name := (apps ++ [app])%list]> bs
  end.

Definition errNotFound : goerror := ErrVar "repeater" "errNotFound" "not found".

Definition getMicroAPPs (bs : gmap string (list MicroAPP)) (name : string) : outcome (list MicroAPP) :=
  match bs !! name with
  | None => Throw (Annotatef errNotFound (format_message name))
  | Some apps => Ret apps
  end.

(** The parts of a key: name, host and port text; [None] when there are fewer
    than four. *)
Definition parse_key (key : string) : option (string * string * string) :=
  let ss := Split "/" key in
  let n := length ss in
  if decide (n < 4)%nat then None
  else Some (Join "/" (take (n - 4) (drop 2 ss)), List.nth (n - 2) ss "", List.nth (n - 1) ss "").

Inductive etcd_event : Type :=
| EventPut (key value : string)
| EventDelete (key : string).

(** One turn of the loop in [start]. *)
Definition handle_event (e : etcd_event) (bs : gmap string (list MicroAPP))
    : gmap string (list MicroAPP) :=
  match e with
  | EventDelete key =>
      match parse_key key with
      | None => bs
      | Some (name, host, port) => unregister name host (fst (Atoi port)) bs
      end
  | EventPut key value =>
      match parse_key key with
      | None => bs
      | Some (name, _, _) => register name (app_Unmarshal value) bs
      end
  end.

Definition handle_events (es : list etcd_event) (bs : gmap string (list MicroAPP))
    : gmap string (list MicroAPP) := foldl (λ b e, handle_event e b) bs es.

(** [load] over the listed keys, in the order the map iteration takes. *)
Definition load (kvs : list (string * string)) (bs : gmap string (list MicroAPP))
    : gmap string (list MicroAPP) :=
  foldl (λ b kv, handle_event (EventPut (fst kv) (snd kv)) b) bs kvs.

(** The key space of etcd under the events. *)
Definition apply_event (e : etcd_event) (kv : gmap string string) : gmap string string :=
  match e with
  | EventPut key value => <[key := value]> kv
  | EventDelete key => delete key kv
  end.

(** The choice of a backend in [buildRequest]. *)
Definition pick_backend (nano : Z) (apps : list MicroAPP) : outcome MicroAPP :=
  let idx := Z.rem nano (Z.of_nat (length apps)) in
  if decide (length apps = 0%nat) then Panic "runtime error: integer divide by zero"
  else if decide (idx < 0) then Panic "runtime error: index out of range"
  else match apps !! Z.to_nat idx with
       | Some a => Ret a
       | None => Panic "runtime error: index out of range"
       end.

(** ** What the table promises *)

Definition registered (bs : gmap string (list MicroAPP)) (name host : string) (port : Z) : Prop :=
  ∃ apps a, bs !! name = Some apps ∧ a ∈ apps ∧ same_addr host port a.

(** No empty entry, and one instance per address. *)
Definition addr (a : MicroAPP) : string * Z := (Host a, Port a).
Definition well_formed (bs : gmap string (list MicroAPP)) : Prop :=
  map_Forall (λ _ apps, apps ≠ [] ∧ NoDup (addr <$> apps)) bs.

(** An event that an instance of the program can cause. *)
Inductive announced : etcd_event → Prop :=
| announced_put project a :
    app_ok a → byte_in "/" (Host a) = false → in_int64 (Port a) →
    announced (EventPut (apiKey project (Host a) (Port a)) (app_String a))
| announced_delete project host port :
    byte_in "/" host = false → in_int64 port →
    announced (EventDelete (apiKey project host port)).

(** ** Lemmas *)

Lemma addr_same a host port : addr a = (host, port) ↔ same_addr host port a.
Proof. unfold addr, same_addr. split; [by intros [= -> ->]|by intros [-> ->]]. Qed.

Lemma parse_apiKey project host port :
  byte_in "/" host = false → parse_key (apiKey project host port) = Some (project, host, itoa port).
Proof.
  intros Hh. unfold parse_key, apiKey, service_apigatePrefix.
  change ("/api/" +:+ project +:+ "/" +:+ host +:+ "/" +:+ itoa port) with
    ("" +:+ String "/" ("api" +:+ String "/" (project +:+ String "/" (host +:+ String "/" (itoa port))))).
  rewrite !Split_app, (Split_nosep _ host), (Split_nosep _ (itoa port)) by (done || apply itoa_no_slash).
  change (Split "/" "" ++ Split "/" "api" ++ Split "/" project ++ [host] ++ [itoa port])%list
    with ("" :: "api" :: (Split "/" project ++ [host; itoa port]))%list.
  destruct (Split_cons "/" project) as (h & t & Hs).
  pose proof (Join_Split "/" project) as Hj. revert Hj.
  rewrite Hs. generalize (h :: t) as l. intros l Hj.
  assert (length ("" :: "api" :: (l ++ [host; itoa port])) = 4 + length l)%nat as ->.
  { simpl. rewrite length_app. simpl. lia. }
  rewrite decide_False by lia.
  replace (4 + length l - 4)%nat with (length l) by lia.
  change (drop 2 ("" :: "api" :: (l ++ [host; itoa port])))%list with (l ++ [host; itoa port])%list.
  rewrite take_app_length, Hj.
  replace (4 + length l - 2)%nat with (S (S (length l))) by lia.
  replace (4 + length l - 1)%nat with (S (S (S (length l)))) by lia.
  simpl. rewrite !app_nth2 by lia. rewrite Nat.sub_diag.
  replace (S (length l) - length l)%nat with 1%nat by lia. done.
Qed.

Lemma remove_first_spec host port apps :
  NoDup (addr <$> apps) →
  ∀ a, a ∈ remove_first host port apps ↔ a ∈ apps ∧ ¬ same_addr host port a.
Proof.
  induction apps as [|b apps IH]; simpl; intros Hnd a; [set_solver|].
  apply list.NoDup_cons in Hnd as [Hb Hnd]. destruct (decide (same_addr host port b)) as [Hs|Hs].
  - rewrite elem_of_cons. split; [|by intros [[->|?] ?]]. intros Ha. split; [by right|].
    intros Hs'. apply Hb. apply addr_same in Hs, Hs'. rewrite Hs, <-Hs'. by apply list_elem_of_fmap_2.
  - rewrite !elem_of_cons, IH by done. naive_solver.
Qed.

Lemma remove_first_NoDup host port apps :
  NoDup (addr <$> apps) → NoDup (addr <$> remove_first host port apps).
Proof.
  intros Hnd. induction apps as [|b apps IH]; simpl; [done|].
  pose proof Hnd as Hnd'. apply list.NoDup_cons in Hnd' as [Hb Hnd']. destruct (decide _); [done|].
  simpl. apply list.NoDup_cons. split; [|by apply IH]. intros Hin. apply Hb.
  apply list_elem_of_fmap in Hin as (c & Hc & Hin). rewrite Hc.
  apply remove_first_spec in Hin as [Hin _]; [|done]. by apply list_elem_of_fmap_2.
Qed.

Lemma remove_first_length host port apps :
  Exists (same_addr host port) apps → S (length (remove_first host port apps)) = length apps.
Proof.
  induction apps as [|b apps IH]; [by inversion 1|]. simpl. intros He.
  destruct (decide _) as [Hs|Hs]; [done|]. apply Exists_cons in He as [?|He]; [done|].
  simpl. by rewrite IH.
Qed.

Lemma register_wf name app bs : well_formed bs → well_formed (register name app bs).
Proof.
  unfold register. intros Hwf. destruct (bs !! name) as [apps|] eqn:E.
  - destruct (decide _) as [He|He]; [done|]. apply map_Forall_insert_2; [|done].
    destruct (Hwf _ _ E) as [Hne Hnd]. split; [by destruct apps|].
    rewrite fmap_app. apply list.NoDup_app. split_and!; [done| |apply NoDup_singleton].
    intros x Hx Hx'. apply list_elem_of_singleton in Hx' as ->. apply He.
    apply list_elem_of_fmap in Hx as (b & Hb & Hin). apply list.Exists_exists. exists b.
    split; [done|]. by apply addr_same.
  - apply map_Forall_insert_2; [|done]. split; [done|]. apply NoDup_singleton.
Qed.

Lemma unregister_wf name host port bs : well_formed bs → well_formed (unregister name host port bs).
Proof.
  unfold unregister. intros Hwf. destruct (bs !! name) as [apps|] eqn:E; [|done].
  destruct (decide (Exists _ _)) as [He|He]; [|done].
  destruct (decide _) as [Hl|Hl]; [by apply map_Forall_delete|].
  apply map_Forall_insert_2; [|done]. destruct (Hwf _ _ E) as [Hne Hnd].
  split; [|by apply remove_first_NoDup]. intros Hr.
  pose proof (remove_first_length host port apps He) as Hlen. rewrite Hr in Hlen. simpl in Hlen. lia.
Qed.

Lemma registered_lookup bs name host port :
  registered bs name host port ↔ ∃ apps, bs !! name = Some apps ∧ Exists (same_addr host port) apps.
Proof.
  unfold registered. setoid_rewrite list.Exists_exists. naive_solver.
Qed.

Lemma register_registered name app bs n h q :
  registered (register name app bs) n h q ↔
  registered bs n h q ∨ (n = name ∧ same_addr h q app).
Proof.
  rewrite !registered_lookup. unfold register.
  destruct (bs !! name) as [apps|] eqn:E.
  - destruct (decide (Exists _ apps)) as [He|He].
    + split; [by left|]. intros [?|[-> [<- <-]]]; [done|]. eauto.
    + destruct (decide (n = name)) as [->|Hn].
      * rewrite lookup_insert_eq, E. split.
        -- intros (? & [= <-] & [?|Hx]%Exists_app); [by eauto|]. right.
           apply Exists_cons in Hx as [?|Hx]; [done|by inversion Hx].
        -- intros [(? & [= <-] & ?)|[_ ?]]; eexists; (split; [done|]); rewrite Exists_app; auto.
      * rewrite lookup_insert_ne by done. naive_solver.
  - destruct (decide (n = name)) as [->|Hn].
    + rewrite lookup_insert_eq, E. split.
      * intros (? & [= <-] & Hx). right. apply Exists_cons in Hx as [?|Hx]; [done|by inversion Hx].
      * intros [(? & ? & ?)|[_ ?]]; [done|]. eexists. split; [done|]. by left.
    + rewrite lookup_insert_ne by done. naive_solver.
Qed.

Lemma unregister_registered name host port bs n h q :
  well_formed bs →
  registered (unregister name host port bs) n h q ↔
  registered bs n h q ∧ ¬ (n = name ∧ h = host ∧ q = port).
Proof.
  intros Hwf. rewrite !registered_lookup. unfold unregister.
  destruct (bs !! name) as [apps|] eqn:E.
  2:{ split; [|by intros [? _]]. intros (apps & Ea & Hx). split; [by eauto|].
      intros (-> & _). congruence. }
  destruct (Hwf _ _ E) as [_ Hnd].
  destruct (decide (Exists _ apps)) as [He|He].
  2:{ split; [|by intros [? _]]. intros (apps' & Ea & Hx). split; [by eauto|].
      intros (-> & -> & ->). apply He. congruence. }
  destruct (decide (n = name)) as [->|Hn].
  2:{ assert (∀ bs' : gmap string (list MicroAPP), bs' !! n = bs !! n →
        (∃ apps0, bs' !! n = Some apps0 ∧ Exists (same_addr h q) apps0) ↔
        (∃ apps0, bs !! n = Some apps0 ∧ Exists (same_addr h q) apps0) ∧
          ¬ (n = name ∧ h = host ∧ q = port)) as Hgo by (intros bs' ->; naive_solver).
      destruct (decide _); apply Hgo; [by rewrite lookup_delete_ne|by rewrite lookup_insert_ne]. }
  assert ((∃ apps0, Some apps = Some apps0 ∧ Exists (same_addr h q) apps0) ∧
          ¬ (name = name ∧ h = host ∧ q = port) ↔
          Exists (same_addr h q) (remove_first host port apps)) as Hgo.
  { rewrite !list.Exists_exists. setoid_rewrite (remove_first_spec host port apps Hnd).
    unfold same_addr. split.
    - intros [(? & [= <-] & (a & Ha & Hs)%list.Exists_exists) Hne]. exists a. split; [|done]. split; [done|].
      intros [Hh Hq]. destruct Hs. subst. naive_solver.
    - intros (a & (Ha & Hs') & Hs). split.
      + exists apps. split; [done|]. apply list.Exists_exists. eauto.
      + intros (_ & -> & ->). done. }
  rewrite E, Hgo. pose proof (remove_first_length host port apps He) as Hlen.
  destruct (decide (length apps = 1%nat)) as [Hl|Hl].
  - rewrite lookup_delete_eq. destruct (remove_first host port apps); [|simpl in *; lia].
    split; [by intros (? & ? & ?)|by inversion 1].
  - rewrite lookup_insert_eq. naive_solver.
Qed.

Lemma apiKey_inj p h q p' h' q' :
  byte_in "/" h = false → byte_in "/" h' = false → in_int64 q → in_int64 q' →
  apiKey p h q = apiKey p' h' q' → p = p' ∧ h = h' ∧ q = q'.
Proof.
  intros Hh Hh' Hq Hq' E. pose proof (parse_apiKey p h q Hh) as H1.
  rewrite E, parse_apiKey in H1 by done. injection H1 as -> -> Hi.
  split_and!; [done..|]. by apply itoa_inj.
Qed.

Lemma handle_event_wf e bs : well_formed bs → well_formed (handle_event e bs).
Proof.
  intros Hwf. destruct e as [k v|k]; simpl; destruct (parse_key k) as [[[n h] q]|];
    auto using register_wf, unregister_wf.
Qed.

Lemma handle_events_wf es bs : well_formed bs → well_formed (handle_events es bs).
Proof.
  unfold handle_events. revert bs. induction es as [|e es IH]; intros bs Hwf; simpl; [done|].
  apply IH. by apply handle_event_wf.
Qed.

Lemma handle_put project a bs :
  app_ok a → byte_in "/" (Host a) = false →
  handle_event (EventPut (apiKey project (Host a) (Port a)) (app_String a)) bs = register project a bs.
Proof. intros Ha Hh. simpl. by rewrite parse_apiKey, app_Unmarshal_String. Qed.

Lemma handle_delete project host port bs :
  byte_in "/" host = false → in_int64 port →
  handle_event (EventDelete (apiKey project host port)) bs = unregister project host port bs.
Proof. intros Hh Hp. simpl. by rewrite parse_apiKey, Atoi_itoa. Qed.

(** The addresses instances can have. *)
Definition addressable (a : MicroAPP) : Prop := byte_in "/" (Host a) = false ∧ in_int64 (Port a).

(** The table and the key space agree on every address an instance can have. *)
Definition agree (bs : gmap string (list MicroAPP)) (kv : gmap string string) : Prop :=
  ∀ n h q, byte_in "/" h = false → in_int64 q →
    registered bs n h q ↔ is_Some (kv !! apiKey n h q).

Lemma agree_step e bs kv :
  announced e → well_formed bs → agree bs kv → agree (handle_event e bs) (apply_event e kv).
Proof.
  intros Ha Hwf Hag n h q Hh Hq. destruct Ha as [project a Hok Hha Hpa|project host port Hha Hpa].
  - rewrite handle_put by done. rewrite register_registered, (Hag n h q) by done. simpl.
    rewrite lookup_insert_is_Some. unfold same_addr. split.
    + intros [?|(-> & <- & <-)]; [|by left]. destruct (decide (apiKey project (Host a) (Port a) = apiKey n h q)); auto.
    + intros [Heq|[_ ?]]; [|by left]. right.
      apply apiKey_inj in Heq as (-> & -> & ->); done.
  - rewrite handle_delete by done. rewrite unregister_registered, (Hag n h q) by done. simpl.
    rewrite lookup_delete_is_Some. split.
    + intros [? Hne]. split; [|done]. intros Heq. apply Hne.
      apply apiKey_inj in Heq as (-> & -> & ->); done.
    + intros [Hne ?]. split; [done|]. intros (-> & -> & ->). done.
Qed.

Lemma agree_steps es bs kv :
  Forall announced es → well_formed bs → agree bs kv →
  agree (handle_events es bs) (foldl (λ k e, apply_event e k) kv es).
Proof.
  unfold handle_events. revert bs kv. induction es as [|e es IH]; intros bs kv Ha Hwf Hag; [done|].
  apply Forall_cons_iff in Ha as [He Hes]. simpl.
  apply IH; [done|by apply handle_event_wf|by apply agree_step].
Qed.

Lemma agree_empty : agree ∅ ∅.
Proof.
  intros n h q _ _. rewrite lookup_empty, registered_lookup. split.
  - intros (? & Hn & _). by rewrite lookup_empty in Hn.
  - by intros [? ?].
Qed.

Lemma load_registered kvs bs n h q :
  (∀ k v, (k, v) ∈ kvs → announced (EventPut k v)) →
  registered (load kvs bs) n h q ↔
  registered bs n h q ∨ ∃ a, app_ok a ∧ (apiKey n (Host a) (Port a), app_String a) ∈ kvs ∧ same_addr h q a.
Proof.
  unfold load. revert bs. induction kvs as [|[k v] kvs IH]; intros bs Ha.
  { simpl. split; [by left|]. intros [?|(a & _ & Ha' & _)]; [done|]. by apply elem_of_nil in Ha'. }
  cbn [foldl fst snd]. rewrite IH by (intros; apply Ha; by right).
  assert (Hk : announced (EventPut k v)) by (apply Ha; by left).
  inversion Hk as [project a Hok Hha Hpa Heq|]. subst k v. rewrite handle_put by done.
  rewrite register_registered. setoid_rewrite elem_of_cons. split.
  - intros [[?|[-> Hs]]|(b & Hob & Hb & Hs)]; [by left|right; exists a; by auto|right; exists b; by auto].
  - intros [?|(b & Hob & [Hpair|Hb] & Hs)]; [by left; left| |right; eauto].
    pose proof (f_equal fst Hpair) as Hkey. pose proof (f_equal snd Hpair) as Hval.
    cbn [fst snd] in Hkey, Hval.
    apply (f_equal app_Unmarshal) in Hval. rewrite !app_Unmarshal_String in Hval by done. subst b.
    left. right. split; [|done].
    pose proof (parse_apiKey n (Host a) (Port a) Hha) as Hp.
    rewrite Hkey, parse_apiKey in Hp by done. by injection Hp.
Qed.
(** Every table the events and the listing can lead to is well formed. *)
Lemma reachable_wf es kvs es' :
  well_formed (handle_events es' (load kvs (handle_events es ∅))).
Proof.
  assert (Hld : ∀ l bs, well_formed bs → well_formed (load l bs)).
  { unfold load. intros l. induction l as [|[k v] l IH]; intros bs Hwf; [done|].
    cbn [foldl fst snd]. apply IH. by apply handle_event_wf. }
  apply handle_events_wf, Hld, handle_events_wf, map_Forall_empty.
Qed.

(** What holds of the instances kept. *)
Definition table_Forall (P : MicroAPP → Prop) (bs : gmap string (list MicroAPP)) : Prop :=
  map_Forall (λ _ apps, Forall P apps) bs.

Lemma remove_first_subset host port apps : remove_first host port apps ⊆ apps.
Proof. induction apps as [|a apps IH]; simpl; [done|]. destruct (decide _); set_solver. Qed.

Lemma register_Forall P name app bs : P app → table_Forall P bs → table_Forall P (register name app bs).
Proof.
  intros Ha Ht. unfold register. destruct (bs !! name) as [apps|] eqn:E.
  - destruct (decide _); [done|]. apply map_Forall_insert_2; [|done]. apply Forall_app.
    split; [by apply (Ht name)|by constructor].
  - apply map_Forall_insert_2; [by constructor|done].
Qed.

Lemma unregister_Forall P name host port bs : table_Forall P bs → table_Forall P (unregister name host port bs).
Proof.
  intros Ht. unfold unregister. destruct (bs !! name) as [apps|] eqn:E; [|done]. destruct (decide _); [|done].
  destruct (decide _); [by apply map_Forall_delete|]. apply map_Forall_insert_2; [|done].
  specialize (Ht name apps E). rewrite list.Forall_forall in Ht |- *. intros a Ha. apply Ht.
  by apply (remove_first_subset host port).
Qed.

(** Announced instances are kept under the addresses of their keys. *)
Lemma announced_addressable es bs :
  Forall announced es → table_Forall addressable bs → table_Forall addressable (handle_events es bs).
Proof.
  unfold handle_events. revert bs. induction es as [|e es IH]; intros bs Ha Ht; [done|].
  apply Forall_cons_iff in Ha as [He Hes]. simpl. apply IH; [done|].
  destruct He as [project a Hok Hha Hpa|project host port Hha Hpa].
  - rewrite handle_put by done. by apply register_Forall.
  - rewrite handle_delete by done. by apply unregister_Forall.
Qed.

(** ** Properties *)

(** Announcing an instance loses nothing: what the repeater registers from
    the key and the value an instance writes is that very instance under its
    project, and what it removes for the same key is its address. *)
Theorem announcement_roundtrip project a bs :
  app_ok a → byte_in "/" (Host a) = false →
  handle_event (EventPut (apiKey project (Host a) (Port a)) (app_String a)) bs = register project a bs ∧
  handle_event (EventDelete (apiKey project (Host a) (Port a))) bs =
    unregister project (Host a) (Port a) bs.
Proof.
  intros Hok Hh. split; [by apply handle_put|]. apply handle_delete; [done|].
  unfold app_ok in Hok. inversion Hok as [|? ? ? ? _ H1]; subst. inversion H1 as [|? ? ? ? _ H2]; subst.
  inversion H2 as [|? ? ? ? Hp _]; subst. simpl in Hp. by eapply (int_fits_int64 KInt).
Qed.

(** Whatever events arrive, well formed or not, and in whatever order the
    initial listing and the watch feed the table, no project ever has an empty
    list of instances and no address is listed twice. *)
Theorem registry_invariant es kvs es' :
  well_formed (handle_events es' (load kvs (handle_events es ∅))).
Proof. apply reachable_wf. Qed.

(** C12: the repeater's table is the key space: after any sequence of puts and
    deletes caused by instances of the program, an instance is in the table
    under its project exactly when its key is in etcd. *)
Theorem registry_refines_etcd es project host port :
  Forall announced es → byte_in "/" host = false → in_int64 port →
  registered (handle_events es ∅) project host port ↔
  is_Some (foldl (λ kv e, apply_event e kv) ∅ es !! apiKey project host port).
Proof.
  intros Ha Hh Hp. by apply agree_steps; [done|apply map_Forall_empty|apply agree_empty|..].
Qed.

(** The order in which [load] walks the listing does not matter: any two
    orders register the same instances. *)
Theorem load_order_irrelevant kvs kvs' bs project host port :
  (∀ k v, (k, v) ∈ kvs → announced (EventPut k v)) → kvs ≡ₚ kvs' →
  registered (load kvs bs) project host port ↔ registered (load kvs' bs) project host port.
Proof.
  intros Ha Hperm. rewrite !load_registered; [|intros k v Hin; apply Ha; by rewrite Hperm|done].
  by setoid_rewrite Hperm.
Qed.

(** [Init] starts the watch before it lists. When an instance disappears
    after the listing was read and its deletion is handled before the listing
    is, the instance stays in the table although its key is gone. *)
Theorem load_race_leaves_stale_instance project a bs kv :
  app_ok a → byte_in "/" (Host a) = false → in_int64 (Port a) →
  let key := apiKey project (Host a) (Port a) in
  let listing := [(key, app_String a)] in
  apply_event (EventDelete key) kv !! key = None ∧
  registered (load listing (handle_event (EventDelete key) bs)) project (Host a) (Port a).
Proof.
  intros Hok Hh Hp key listing. split; [apply lookup_delete_eq|].
  rewrite load_registered.
  - right. exists a. split; [done|]. split; [by left|done].
  - intros k v Hin. apply list_elem_of_singleton in Hin as [= -> ->]. by constructor.
Qed.

(** The backend [buildRequest] picks is one of the project's live instances:
    in every table the events can lead to, the division and the index are in
    range at every clock reading. *)
Theorem pick_backend_live es kvs es' name apps nano :
  getMicroAPPs (handle_events es' (load kvs (handle_events es ∅))) name = Ret apps → 0 ≤ nano →
  ∃ a, pick_backend nano apps = Ret a ∧ a ∈ apps.
Proof.
  intros Hget Hn.
  pose proof (reachable_wf es kvs es') as Hwf.
  unfold getMicroAPPs in Hget.
  destruct (_ !! name) as [apps'|] eqn:E; [|done]. injection Hget as ->.
  destruct (Hwf _ _ E) as [Hne _].
  assert (0 < Z.of_nat (length apps)) as Hlen by (destruct apps; simpl; [done|lia]).
  pose proof (Z.rem_bound_pos nano (Z.of_nat (length apps)) Hn Hlen) as Hb.
  unfold pick_backend. rewrite decide_False by lia. rewrite decide_False by lia.
  destruct (lookup_lt_is_Some_2 apps (Z.to_nat (Z.rem nano (Z.of_nat (length apps))))) as [a Ha]; [lia|].
  rewrite Ha. exists a. split; [done|]. by eapply list_elem_of_lookup_2.
Qed.

(** ** Concrete runs *)

Module RegistryRuns.
Definition app1 : MicroAPP := NewMicroAPP "10.0.0.7" 8080 "k" 42 "h" "1" "m".
Definition up : etcd_event := EventPut (apiKey "git/dbs/faas" (Host app1) (Port app1)) (app_String app1).
Definition down : etcd_event := EventDelete (apiKey "git/dbs/faas" "10.0.0.7" 8080).

Lemma app1_ok : app_ok app1.
Proof. unfold app_ok. repeat constructor. Qed.

Lemma up_announced : announced up.
Proof.
  unfold up. apply announced_put.
  - apply app1_ok.
  - reflexivity.
  - change (Port app1) with 8080. unfold in_int64, min_int64, max_int64. lia.
Qed.

Lemma down_announced : announced down.
Proof. apply announced_delete; [reflexivity|unfold in_int64, min_int64, max_int64; lia]. Qed.

Theorem announcement_roundtrip_witness :
  handle_event up ∅ = {["git/dbs/faas" := [app1]]} ∧ handle_event down (handle_event up ∅) = ∅.
Proof.
  destruct (announcement_roundtrip "git/dbs/faas" app1 ∅ app1_ok eq_refl) as [Hp _].
  destruct (announcement_roundtrip "git/dbs/faas" app1 (register "git/dbs/faas" app1 ∅) app1_ok eq_refl)
    as [_ Hd].
  split; [exact Hp|]. unfold up at 1. rewrite Hp. exact Hd.
Defined.

Theorem registry_refines_etcd_witness :
  ¬ registered (handle_events [up; down] ∅) "git/dbs/faas" "10.0.0.7" 8080.
Proof.
  rewrite (registry_refines_etcd [up; down] "git/dbs/faas" "10.0.0.7" 8080).
  - intros [x Hx]. vm_compute in Hx. discriminate.
  - constructor; [apply up_announced|constructor; [apply down_announced|constructor]].
  - reflexivity.
  - unfold in_int64, min_int64, max_int64. lia.
Defined.

Theorem load_order_irrelevant_witness :
  let kv := (apiKey "git/dbs/faas" (Host app1) (Port app1), app_String app1) in
  registered (load [kv] ∅) "git/dbs/faas" "10.0.0.7" 8080 ↔
  registered (load [kv] ∅) "git/dbs/faas" "10.0.0.7" 8080.
Proof.
  apply load_order_irrelevant; [|reflexivity].
  intros k v Hin. apply list_elem_of_singleton in Hin.
  rewrite (f_equal fst Hin : k = _), (f_equal snd Hin : v = _). apply up_announced.
Defined.

Theorem load_race_leaves_stale_instance_witness :
  registered (load [(apiKey "git/dbs/faas" (Host app1) (Port app1), app_String app1)]
                (handle_event (EventDelete (apiKey "git/dbs/faas" (Host app1) (Port app1))) ∅))
    "git/dbs/faas" (Host app1) (Port app1).
Proof.
  apply (load_race_leaves_stale_instance "git/dbs/faas" app1 ∅ ∅);
    [apply app1_ok|reflexivity|unfold in_int64, min_int64, max_int64; simpl; lia].
Defined.

Theorem pick_backend_live_witness :
  ∃ a, pick_backend 1234567 [app1] = Ret a ∧ a ∈ [app1].
Proof.
  apply (pick_backend_live [] [] [up] "git/dbs/faas"); [|lia].
  change (handle_events [up] _) with (handle_event up ∅). unfold up.
  rewrite (handle_put "git/dbs/faas" app1); [reflexivity|apply app1_ok|reflexivity].
Defined.
End RegistryRuns.
