(* ===== verification/Lifecycle.v ===== *)
(** * Lifecycle: a service goes online and offline

    The etcd client of [util/etcd/etcd.go], the announcement of
    [service/keepalive.go] and [Service.Start] of [service/service.go]: an instance
    listens, announces itself under a lease that is kept alive, waits for a signal,
    withdraws and ends. *)

From Stdlib Require Import ZArith Lia Ascii.
From stdpp Require Import base gmap strings list.
From S2P Require Import Prelude GoStrings Http Json Fmt Registry.

(** ** What is done outside *)

(** Everything that reaches the network, in order. *)
Inductive action : Type :=
| AListen (host : string)
| ADial (addrs : list string)
| AGet (key : string)
| AList (key : string)
| ATxn (cmpKey : string) (cmpValue : option string) (key value : string)
| APut (key value : string) (lease : option Z)
| AGrant (ttl : Z)
| AKeepAlive (lease : Z)
| ALeaseClose
| AClientClose
| ASignal
| AListenerClose
| AWait (seconds : Z).

(** The listener, which knows the address it is bound to; [clientv3], each of whose
    calls fails or not; the address and the process of the instance; the build. *)
Class Outside := {
  net_listen : string → goerror + string;
  clientv3_New : list string → option goerror;
  clientv3_Get : string → goerror + list (string * string);
  clientv3_List : string → goerror + list (string * string);
  clientv3_Txn : string → option string → string → string → goerror + bool;
  clientv3_Put : string → string → option Z → option goerror;
  clientv3_Grant : Z → goerror + Z;
  clientv3_KeepAlive : Z → option goerror;
  host_addr : outcome string;
  os_Getpid : Z;
  debug_project : string; debug_ServiceKey : string;
  debug_GitHash : string; debug_GitTime : string; debug_GitMessage : string
}.

Definition Actions : Type := list action.

Definition act (a : action) : M Actions unit := modify (λ l, l ++ [a])%list.

Definition call {A} (a : action) (o : goerror + A) : M Actions A :=
  _ ← act a; match o with inl e => throw e | inr x => mret x end.

Definition call_err (a : action) (o : option goerror) : M Actions unit :=
  _ ← act a; match o with Some e => throw e | None => mret tt end.

Section etcd.
Context `{Outside}.

(** ** [util/etcd/etcd.go] *)

(** One second. *)
Definition etcdKeyTTL : Z := 1.

Definition etcdAddrs (addr : list string) : list string :=
  filter (λ s, s ≠ "") (TrimSpace <$> (a ← addr; Split "," a)).

Definition etcd_New (addr : list string) : M Actions unit :=
  let? _ := call_err (ADial (etcdAddrs addr)) (clientv3_New (etcdAddrs addr)) catch e =>
    throw (Annotatef e ("addrs:[" +:+ Join " " addr +:+ "]")) in
  mret tt.

(** [Get]: a key that is not there has the value [0]. *)
Definition etcd_Get (key : string) : M Actions string :=
  kvs ← call (AGet key) (clientv3_Get key);
  mret (match kvs with [] => "0" | (_, v) :: _ => v end).

Definition etcd_List (prefix : string) : M Actions (gmap string string) :=
  kvs ← call (AList prefix) (clientv3_List prefix);
  mret (foldl (λ m kv, <[fst kv := snd kv]> m) ∅ kvs).

Definition put_failed : goerror := Errorf "put key failed".

(** [CAS]: without a value to compare the key must not have been created. *)
Definition etcd_CAS (cmpKey cmpValue key value : string) : M Actions unit :=
  let cmp := if decide (cmpValue = "") then None else Some cmpValue in
  ok ← call (ATxn cmpKey cmp key value) (clientv3_Txn cmpKey cmp key value);
  if ok : bool then mret tt else throw put_failed.

Definition etcd_Put (key val : string) : M Actions unit :=
  call_err (APut key val None) (clientv3_Put key val None).

(** [Keepalive]: whatever fails, the lessor is closed. *)
Definition etcd_Keepalive (key val : string) : M Actions Z :=
  let? id := call (AGrant etcdKeyTTL) (clientv3_Grant etcdKeyTTL)
    catch e => (_ ← act ALeaseClose; throw e) in
  let? _ := call_err (APut key val (Some id)) (clientv3_Put key val (Some id))
    catch e => (_ ← act ALeaseClose; throw e) in
  let? _ := call_err (AKeepAlive id) (clientv3_KeepAlive id)
    catch e => (_ ← act ALeaseClose; throw e) in
  mret id.

Definition etcd_Close : M Actions unit := act AClientClose.

(** ** [service/keepalive.go] *)

(** What the instance announces itself with. *)
Definition own_app (local : string) (port : Z) : MicroAPP :=
  NewMicroAPP local port debug_ServiceKey os_Getpid debug_GitHash debug_GitTime debug_GitMessage.

Definition newKeepalive (etcdAddr bind : string) : M Actions Z :=
  let? _ := etcd_New [etcdAddr] catch e => throw (Annotatef e (format_message etcdAddr)) in
  local ← lift host_addr;
  lp ← lift (bindInfo local bind);
  let '(local, port) := lp in
  let? lease := etcd_Keepalive (apiKey debug_project local port) (app_String (own_app local port))
    catch e => (_ ← etcd_Close; throw e) in
  mret lease.

Definition keepalive_stop : M Actions unit := _ ← act ALeaseClose; etcd_Close.

(** ** [service/service.go] *)

(** [time.Hour * 24 * 7]. *)
Definition maxWaitTime : Z := 604800.

(** [Start] once the page of documents is registered. *)
Definition Start (host etcdAddr : string) : M Actions unit :=
  let? bound := call (AListen host) (net_listen host) catch e => gopanic (Error e) in
  let? _ := newKeepalive etcdAddr bound catch e => gopanic (Error e) in
  _ ← act ASignal;
  _ ← keepalive_stop;
  _ ← act AListenerClose;
  act (AWait maxWaitTime).
End etcd.

(** ** Lemmas *)

(** The actions of a life that ends as it should. *)
Definition whole_life `{Outside} (host etcdAddr local : string) (port id : Z) : list action :=
  [AListen host; ADial (etcdAddrs [etcdAddr]); AGrant etcdKeyTTL;
   APut (apiKey debug_project local port) (app_String (own_app local port)) (Some id); AKeepAlive id;
   ASignal; ALeaseClose; AClientClose; AListenerClose; AWait maxWaitTime].

Ltac run_actions :=
  unfold call, call_err, act, lift, modify, try, throw, gopanic, mbind, M_bind, mret, M_ret;
  cbn [app fst snd].

(** What a start that fails has done, and why it failed: nothing but listening;
    or a client, too, when it could not be made, or was made (and is left open)
    before the address of the instance was found to be unknown; or, once there is a
    lease to ask for, all that succeeded and the call that failed, after which the
    lessor and the client are closed. *)
Inductive fails `{Outside} (host etcdAddr : string) : list action → Prop :=
| fails_listen e : net_listen host = inl e → fails host etcdAddr [AListen host]
| fails_dial bound e :
    net_listen host = inr bound → clientv3_New (etcdAddrs [etcdAddr]) = Some e →
    fails host etcdAddr [AListen host; ADial (etcdAddrs [etcdAddr])]
| fails_address bound :
    net_listen host = inr bound → clientv3_New (etcdAddrs [etcdAddr]) = None →
    (∀ local, host_addr = Ret local → ∃ p, bindInfo local bound = Panic p) →
    fails host etcdAddr [AListen host; ADial (etcdAddrs [etcdAddr])]
| fails_grant e :
    clientv3_Grant etcdKeyTTL = inl e →
    fails host etcdAddr [AListen host; ADial (etcdAddrs [etcdAddr]); AGrant etcdKeyTTL; ALeaseClose; AClientClose]
| fails_put local port id e :
    let key := apiKey debug_project local port in let val := app_String (own_app local port) in
    clientv3_Grant etcdKeyTTL = inr id → clientv3_Put key val (Some id) = Some e →
    fails host etcdAddr [AListen host; ADial (etcdAddrs [etcdAddr]); AGrant etcdKeyTTL; APut key val (Some id);
                         ALeaseClose; AClientClose]
| fails_keepalive local port id e :
    let key := apiKey debug_project local port in let val := app_String (own_app local port) in
    clientv3_Grant etcdKeyTTL = inr id → clientv3_Put key val (Some id) = None → clientv3_KeepAlive id = Some e →
    fails host etcdAddr [AListen host; ADial (etcdAddrs [etcdAddr]); AGrant etcdKeyTTL; APut key val (Some id);
                         AKeepAlive id; ALeaseClose; AClientClose].

Lemma bindInfo_ret local bind l p : bindInfo local bind = Ret (l, p) → l = local.
Proof. unfold bindInfo. destruct (slice_from _ _); cbn [mbind outcome_bind]; [|done..]. by intros [= -> _]. Qed.

Lemma bindInfo_no_throw local bind e : bindInfo local bind ≠ Throw e.
Proof.
  unfold bindInfo. pose proof (slice_from_no_throw bind (LastIndex bind ":" + 1)) as Hs.
  destruct (slice_from _ _); cbn [mbind outcome_bind]; [done| |done]. intros [= ->]. by destruct (Hs e).
Qed.

(** How a life ends: as it should, or with a panic. *)
Lemma Start_run `{Outside} host etcdAddr :
  match Start host etcdAddr [] with
  | (Ret _, l) => ∃ bound local port id,
      net_listen host = inr bound ∧ host_addr = Ret local ∧ bindInfo local bound = Ret (local, port) ∧
      clientv3_Grant etcdKeyTTL = inr id ∧ l = whole_life host etcdAddr local port id
  | (Throw _, _) => False
  | (Panic _, l) => fails host etcdAddr l
  end.
Proof.
  unfold Start, newKeepalive, etcd_New, etcd_Keepalive, keepalive_stop, etcd_Close. run_actions.
  destruct (net_listen host) as [e|bound] eqn:El; [by eapply fails_listen|].
  destruct (clientv3_New _) as [e|] eqn:Ed; [by eapply fails_dial|].
  destruct host_addr as [local|e|p] eqn:Ea; [|by eapply fails_address; [..|rewrite Ea]..].
  pose proof (bindInfo_no_throw local bound) as Hn. pose proof (bindInfo_ret local bound) as Hb.
  destruct (bindInfo local bound) as [[l port]|e|p] eqn:Eb; [|by destruct (Hn e)|].
  2: { eapply fails_address; [done..|]. rewrite Ea. intros ? [= <-]. by exists p. }
  specialize (Hb _ _ eq_refl) as ->.
  destruct (clientv3_Grant etcdKeyTTL) as [e|id] eqn:Eg; [by eapply fails_grant|].
  destruct (clientv3_Put _ _ _) as [e|] eqn:Ep; [by eapply fails_put|].
  destruct (clientv3_KeepAlive id) as [e|] eqn:Ek; [by eapply fails_keepalive|].
  exists bound, local, port, id. by split_and!.
Qed.

(** ** Properties *)

(** C22: the life of an instance: it announces itself only once it listens, with
    the port it is bound to, under a lease it asked for before, and the repeater
    registers from that announcement exactly this instance. After the signal it
    stops keeping the lease alive and closes its client before it closes the
    listener; the announcement is not taken back but left to the lease, for which
    nothing waits in between. A start that fails panics without waiting for a
    signal: from the lease on, whatever fails, the lessor and the client are closed
    after it; before that a client that was made stays open when the address of the
    instance is unknown, and the listener is left to the end of the process. *)
Theorem service_lifecycle `{Outside} host etcdAddr bs :
  let '(o, l) := Start host etcdAddr [] in
  match o with
  | Ret _ => ∃ bound local port id,
      net_listen host = inr bound ∧ host_addr = Ret local ∧ bindInfo local bound = Ret (local, port) ∧
      clientv3_Grant etcdKeyTTL = inr id ∧ l = whole_life host etcdAddr local port id ∧
      (app_ok (own_app local port) → byte_in "/" local = false →
       handle_event (EventPut (apiKey debug_project local port) (app_String (own_app local port))) bs =
         register debug_project (own_app local port) bs)
  | Throw _ => False
  | Panic _ => fails host etcdAddr l
  end.
Proof.
  pose proof (Start_run host etcdAddr) as Hs. destruct (Start host etcdAddr []) as [[[]|e|p] l]; [|done|done].
  destruct Hs as (bound & local & port & id & Hl & Ha & Hb & Hg & ->). exists bound, local, port, id.
  split_and!; [done..|]. intros Hok Hn. by apply (handle_put debug_project (own_app local port)).
Qed.

(** A key that is not there and one that holds 0 are the same to [Get]. *)
Lemma missing_key_is_zero `{Outside} key l :
  clientv3_Get key = inr [] → (etcd_Get key l).1 = Ret "0".
Proof. intros Hk. unfold etcd_Get. run_actions. by rewrite Hk. Qed.

(** ** Runs *)

Module Online.

#[local] Instance outside : Outside := {|
  net_listen _ := inr "[::]:8080"; clientv3_New _ := None; clientv3_Get _ := inr []; clientv3_List _ := inr [];
  clientv3_Txn _ _ _ _ := inr true; clientv3_Put _ _ _ := None; clientv3_Grant _ := inr 7; clientv3_KeepAlive _ := None;
  host_addr := Ret "10.0.0.7"; os_Getpid := 42; debug_project := "git/dbs/faas"; debug_ServiceKey := "key";
  debug_GitHash := "hash"; debug_GitTime := "3"; debug_GitMessage := "message"
|}.

Theorem service_lifecycle_witness :
  ∃ l, Start ":8080" "10.0.0.1:2379, 10.0.0.2:2379" [] = (Ret tt, l) ∧
    take 2 l = [AListen ":8080"; ADial ["10.0.0.1:2379"; "10.0.0.2:2379"]] ∧
    handle_event (EventPut "/api/git/dbs/faas/10.0.0.7/8080" (app_String (own_app "10.0.0.7" 8080))) ∅ =
      {["git/dbs/faas" := [own_app "10.0.0.7" 8080]]}.
Proof.
  pose proof (service_lifecycle ":8080" "10.0.0.1:2379, 10.0.0.2:2379" ∅) as Hs.
  destruct (Start ":8080" "10.0.0.1:2379, 10.0.0.2:2379" []) as [o l] eqn:E.
  assert (Ho : o = Ret tt) by (vm_compute in E; congruence). subst o.
  destruct Hs as (bound & local & port & id & Hl & Ha & Hb & _ & Hw & Hr). exists l. split; [reflexivity|].
  injection Hl as <-. injection Ha as <-. vm_compute in Hb. injection Hb as <-. split; [rewrite Hw; reflexivity|].
  apply Hr; [|reflexivity]. repeat constructor.
Defined.
End Online.
