(* ===== verification/Backends.v ===== *)
(** * Backends: the backend lists in memory

    [repeater/backend.go] gives every request the slice it keeps in its own table:
    [getMicroAPPs] copies the header under the lock, and [buildRequest]
    ([repeater/repeater.go]) reads the cells after the lock is gone, while the
    watcher and the initial listing go on changing the table. Here the lists are
    slices of arrays in a store, [append] writes into spare room where there is some,
    and a request reads the store at two moments. [Registry] is what the table
    means. *)

From Stdlib Require Import ZArith Lia.
From stdpp Require Import base gmap strings list.
From S2P Require Import Prelude GoStrings Http Json Fmt Registry.

(** ** Slices *)

(** Arrays by number, each with all its cells; no array is ever freed or resized. *)
Notation store := (list (list MicroAPP)).

(** A slice that begins with its array, as all those kept in the table do. *)
Record slice := mkSlice { s_arr : nat; s_len : nat }.

Definition cells (h : store) (s : slice) : list MicroAPP := default [] (h !! s_arr s).
Definition slice_cap (h : store) (s : slice) : nat := length (cells h s).

(** What [range] sees. *)
Definition slice_read (h : store) (s : slice) : list MicroAPP := take (s_len s) (cells h s).

(** [apps[i]]. *)
Definition slice_index (h : store) (s : slice) (i : Z) : outcome MicroAPP :=
  if decide (0 ≤ i < Z.of_nat (s_len s)) then
    match cells h s !! Z.to_nat i with
    | Some a => Ret a
    | None => Panic "runtime error: index out of range"
    end
  else Panic "runtime error: index out of range".

(** A composite literal. *)
Definition slice_literal (xs : list MicroAPP) (h : store) : slice * store :=
  (mkSlice (length h) (length xs), (h ++ [xs])%list).

Section Append.
(** How much room the runtime adds to a new array of the given size. *)
Context (spare : nat → nat).

(** [append(s, xs...)]: in place when the array has room, otherwise in a new one. *)
Definition slice_append (s : slice) (xs : list MicroAPP) (h : store) : slice * store :=
  let n := (s_len s + length xs)%nat in
  if decide (n ≤ slice_cap h s)%nat then
    (mkSlice (s_arr s) n, alter (list_inserts (s_len s) xs) (s_arr s) h)
  else
    (mkSlice (length h) n, (h ++ [slice_read h s ++ xs ++ replicate (spare n) zero_app])%list).

(** ** The table *)

Record backendService := mkBackendService { bs_store : store; bs_apps : gmap string slice }.

Definition newBackendService : backendService := mkBackendService [] ∅.

Definition bs_register (name : string) (app : MicroAPP) (bs : backendService) : backendService :=
  let '(mkBackendService h t) := bs in
  match t !! name with
  | None => let '(s, h) := slice_literal [app] h in mkBackendService h (<[name := s]> t)
  | Some apps =>
      if decide (Exists (same_addr (Host app) (Port app)) (slice_read h apps)) then bs
      else let '(s, h) := slice_append apps [app] h in mkBackendService h (<[name := s]> t)
  end.

Definition bs_unregister (name host : string) (port : Z) (bs : backendService) : backendService :=
  let '(mkBackendService h t) := bs in
  match t !! name with
  | None => bs
  | Some apps =>
      match list_find (same_addr host port) (slice_read h apps) with
      | None => bs
      | Some (i, _) =>
          if decide (s_len apps = 1%nat) then mkBackendService h (delete name t)
          else
            let '(ns, h) := slice_literal [] h in
            let '(ns, h) := slice_append ns (take i (slice_read h apps)) h in
            let '(ns, h) := slice_append ns (drop (S i) (slice_read h apps)) h in
            mkBackendService h (<[name := ns]> t)
      end
  end.

(** A turn of the loop of [start], or of [load] for a listed key: a put. *)
Definition bs_handle (bs : backendService) (e : etcd_event) : backendService :=
  match e with
  | EventDelete key =>
      match parse_key key with
      | None => bs
      | Some (name, host, port) => bs_unregister name host (fst (Atoi port)) bs
      end
  | EventPut key value =>
      match parse_key key with
      | None => bs
      | Some (name, _, _) => bs_register name (app_Unmarshal value) bs
      end
  end.

Definition bs_run (es : list etcd_event) (bs : backendService) : backendService := foldl bs_handle bs es.

(** ** A request *)

(** [getMicroAPPs]: the header is copied, the cells are not. *)
Definition bs_getMicroAPPs (bs : backendService) (name : string) : outcome slice :=
  match bs_apps bs !! name with
  | None => Throw (Annotatef errNotFound (format_message name))
  | Some apps => Ret apps
  end.

(** The address [buildRequest] formats: the host and the port are read one after
    the other, from the stores of two moments. *)
Definition backend_address (nano : Z) (apps : slice) (h h' : store) : outcome (string * Z) :=
  if decide (s_len apps = 0%nat) then Panic "runtime error: integer divide by zero"
  else
    let idx := Z.rem nano (Z.of_nat (s_len apps)) in
    a ← slice_index h apps idx;
    a' ← slice_index h' apps idx;
    Ret (Host a, Port a').

(** ** Lemmas on slices *)

Definition valid (h : store) (s : slice) : Prop := (s_arr s < length h)%nat ∧ (s_len s ≤ slice_cap h s)%nat.

Lemma cells_snoc h xs s : (s_arr s < length h)%nat → cells (h ++ [xs])%list s = cells h s.
Proof. intros Hs. unfold cells. by rewrite lookup_app_l. Qed.

Lemma cells_new h xs n : cells (h ++ [xs])%list (mkSlice (length h) n) = xs.
Proof. unfold cells. simpl. by rewrite lookup_app_r, Nat.sub_diag by lia. Qed.

Lemma valid_length h s : valid h s → length (slice_read h s) = s_len s.
Proof. intros [_ Hc]. unfold slice_read. rewrite length_firstn. unfold slice_cap in Hc. lia. Qed.

(** A new array changes nothing that was there. *)
Lemma snoc_frame h xs s : valid h s → valid (h ++ [xs])%list s ∧ slice_read (h ++ [xs])%list s = slice_read h s.
Proof.
  intros [Ha Hc]. unfold valid, slice_cap, slice_read. rewrite cells_snoc by done.
  rewrite length_app. split; [split; [simpl; lia|done]|done].
Qed.

Lemma literal_spec xs h :
  let '(s, h') := slice_literal xs h in
  valid h' s ∧ slice_read h' s = xs ∧ s_arr s = length h.
Proof.
  unfold slice_literal, valid, slice_cap, slice_read. rewrite cells_new, length_app.
  simpl. split_and!; [lia|lia|apply firstn_all|done].
Qed.

Lemma cells_alter f h s s0 :
  (s_arr s < length h)%nat →
  cells (alter f (s_arr s) h) s0 = if decide (s_arr s0 = s_arr s) then f (cells h s0) else cells h s0.
Proof.
  intros Hs. unfold cells. destruct (decide (s_arr s0 = s_arr s)) as [->|Hne].
  - rewrite list_lookup_alter_eq. destruct (lookup_lt_is_Some_2 h _ Hs) as [l ->]. done.
  - by rewrite list_lookup_alter_ne.
Qed.

(** What [append] gives: the old contents and the new, in the old array or in a
    new one. *)
Lemma append_spec s xs h :
  valid h s →
  let '(s', h') := slice_append s xs h in
  valid h' s' ∧ slice_read h' s' = (slice_read h s ++ xs)%list ∧
  (s_arr s' = s_arr s ∧ (s_len s ≤ s_len s')%nat ∨ s_arr s' = length h).
Proof.
  intros Hv. pose proof (valid_length h s Hv) as Hl. pose proof Hv as [Ha Hc].
  unfold slice_append. destruct (decide _) as [Hfit|Hfit].
  - unfold valid, slice_cap, slice_read in *.
    rewrite length_alter, cells_alter by done. simpl. rewrite decide_True by done.
    unfold cells in *. simpl. rewrite length_inserts. split_and!; [done|done| |left; split; [done|lia]].
    apply list_eq. intros i. destruct (decide (i < s_len s + length xs)%nat) as [Hi|Hi].
    + rewrite lookup_take_lt by done. destruct (decide (i < s_len s)%nat).
      * rewrite list_lookup_inserts_lt, lookup_app_l, lookup_take_lt by lia. done.
      * rewrite list_lookup_inserts by lia. rewrite lookup_app_r by lia. f_equal. lia.
    + rewrite lookup_take_ge by lia. symmetry. apply lookup_ge_None_2. rewrite length_app. lia.
  - unfold valid, slice_cap, slice_read. rewrite cells_new, !length_app.
    rewrite length_replicate. fold (slice_read h s). rewrite Hl. simpl.
    split_and!; [lia|lia| |by right].
    rewrite app_assoc. rewrite take_app_length'; [done|]. rewrite length_app. lia.
Qed.

(** A slice that does not reach beyond the one appended to stays as it is. *)
Lemma append_frame s xs h s0 :
  valid h s → valid h s0 → (s_arr s0 = s_arr s → s_len s0 ≤ s_len s)%nat →
  valid (slice_append s xs h).2 s0 ∧ slice_read (slice_append s xs h).2 s0 = slice_read h s0.
Proof.
  intros [Ha _] Hv Hle. unfold slice_append. destruct (decide _) as [Hfit|Hfit]; [|by apply snoc_frame].
  destruct Hv as [Ha0 Hc0]. simpl. unfold valid, slice_cap, slice_read.
  rewrite length_alter, cells_alter by done. destruct (decide _) as [Heq|Hne]; [|done].
  rewrite length_inserts. split; [done|]. specialize (Hle Heq).
  apply list_eq. intros i. destruct (decide (i < s_len s0)%nat).
  - rewrite !lookup_take_lt by done. apply list_lookup_inserts_lt. lia.
  - by rewrite !lookup_take_ge by lia.
Qed.

(** The same for a slice whose array is younger than the ones looked at. *)
Lemma append_young k s xs h :
  valid h s → (k ≤ s_arr s)%nat →
  let '(s', h') := slice_append s xs h in
  valid h' s' ∧ slice_read h' s' = (slice_read h s ++ xs)%list ∧ (k ≤ s_arr s')%nat ∧
  ∀ s0, valid h s0 → (s_arr s0 < k)%nat → valid h' s0 ∧ slice_read h' s0 = slice_read h s0.
Proof.
  intros Hv Hk. pose proof (append_spec s xs h Hv) as Hs.
  pose proof (append_frame s xs h) as Hf. destruct (slice_append s xs h) as [s' h'].
  destruct Hs as (Hv' & Hr & Ha). split_and!; [done|done| |].
  - destruct Hv as [Hv _]. destruct Ha as [[-> _]| ->]; lia.
  - intros s0 Hv0 Hlt. apply Hf; [done|done|lia].
Qed.

(** The copy [unregister] makes. *)
Lemma copy_spec i apps h :
  valid h apps →
  let '(ns, h1) := slice_literal [] h in
  let '(ns, h2) := slice_append ns (take i (slice_read h1 apps)) h1 in
  let '(ns, h3) := slice_append ns (drop (S i) (slice_read h2 apps)) h2 in
  valid h3 ns ∧ slice_read h3 ns = (take i (slice_read h apps) ++ drop (S i) (slice_read h apps))%list ∧
  (length h ≤ s_arr ns)%nat ∧
  ∀ s0, valid h s0 → valid h3 s0 ∧ slice_read h3 s0 = slice_read h s0.
Proof.
  intros Hv. pose proof (literal_spec [] h) as H1. pose proof (snoc_frame h []) as F1.
  unfold slice_literal in *. destruct H1 as (V1 & R1 & A1).
  destruct (F1 apps Hv) as [Hv1 Hr1]. rewrite Hr1.
  pose proof (append_young (length h) _ (take i (slice_read h apps)) _ V1 ltac:(lia)) as H2.
  destruct (slice_append _ (take i _) _) as [s2 h2]. destruct H2 as (V2 & R2 & A2 & F2).
  destruct (F2 apps Hv1) as [_ Hr2]; [by destruct Hv|]. rewrite Hr2, Hr1.
  pose proof (append_young (length h) s2 (drop (S i) (slice_read h apps)) h2 V2 A2) as H3.
  destruct (slice_append s2 _ h2) as [s3 h3]. destruct H3 as (V3 & R3 & A3 & F3).
  split_and!; [done|by rewrite R3, R2, R1|done|]. intros s0 V0. pose proof V0 as [L0 _].
  destruct (F1 s0 V0) as [V01 R01]. destruct (F2 s0 V01 L0) as [V02 R02].
  destruct (F3 s0 V02 L0) as [V03 R03]. split; [done|congruence].
Qed.

(** ** What the table keeps *)

(** What the slices of the table read. *)
Definition table (bs : backendService) : gmap string (list MicroAPP) :=
  slice_read (bs_store bs) <$> bs_apps bs.

(** Every entry has an array of its own. *)
Definition owned (bs : backendService) : Prop :=
  (∀ name s, bs_apps bs !! name = Some s → valid (bs_store bs) s) ∧
  (∀ name name' s s', bs_apps bs !! name = Some s → bs_apps bs !! name' = Some s' →
     s_arr s = s_arr s' → name = name').

(** A slice that was handed out: the entry that shares its array, if there is one
    left, is at least as long. *)
Definition held (bs : backendService) (s : slice) : Prop :=
  valid (bs_store bs) s ∧
  ∀ name s', bs_apps bs !! name = Some s' → s_arr s' = s_arr s → (s_len s ≤ s_len s')%nat.

(** A change after which the invariant holds and nothing handed out reads differently. *)
Definition keeps (bs bs' : backendService) : Prop :=
  owned bs' ∧
  ∀ s, held bs s → held bs' s ∧ slice_read (bs_store bs') s = slice_read (bs_store bs) s.

Lemma owned_held bs name s : owned bs → bs_apps bs !! name = Some s → held bs s.
Proof.
  intros [Hv Ho] Hs. split; [by eapply Hv|]. intros name' s' Hs' Ha.
  assert (name' = name) as -> by (by eapply Ho). naive_solver.
Qed.

Lemma keeps_refl bs : owned bs → keeps bs bs.
Proof. by split. Qed.

Lemma keeps_delete bs name :
  owned bs → keeps bs (mkBackendService (bs_store bs) (delete name (bs_apps bs))).
Proof.
  intros [Hv Ho]. split; [split|]; simpl.
  - intros n s [_ Hs]%lookup_delete_Some. by eapply Hv.
  - intros n n' s s' [_ Hs]%lookup_delete_Some [_ Hs']%lookup_delete_Some. by apply Ho.
  - intros s [Hvs Hl]. split; [split; [done|]|done]. simpl.
    intros n s' [_ Hs']%lookup_delete_Some. by eapply Hl.
Qed.

(** An entry is replaced by a slice with a new array, or by a longer one of the
    array it had. *)
Lemma keeps_insert bs name s' h' l :
  owned bs → valid h' s' → slice_read h' s' = l →
  (∀ s, held bs s → valid h' s ∧ slice_read h' s = slice_read (bs_store bs) s) →
  ((length (bs_store bs) ≤ s_arr s')%nat ∨
   ∃ s, bs_apps bs !! name = Some s ∧ s_arr s' = s_arr s ∧ (s_len s ≤ s_len s')%nat) →
  let bs' := mkBackendService h' (<[name := s']> (bs_apps bs)) in
  keeps bs bs' ∧ table bs' = <[name := l]> (table bs).
Proof.
  intros Ho Hv' <- Hf Hs'. pose proof Ho as [Hv Hd].
  assert (Hother : ∀ n s, bs_apps bs !! n = Some s → s_arr s' = s_arr s → name = n).
  { intros n s Hs Ha. destruct (Hv n s Hs) as [Hlt _].
    destruct Hs' as [Hge|(s1 & Hs1 & Ha1 & _)]; [lia|]. apply (Hd name n s1 s); [done|done|congruence]. }
  split; [split; [split|]|]; simpl.
  - intros n s [[_ <-]|[_ Hs]]%lookup_insert_Some; [done|]. apply Hf. by eapply owned_held.
  - intros n n' s1 s2 [[<- <-]|[Hn H1]]%lookup_insert_Some [[<- <-]|[Hn' H2]]%lookup_insert_Some Ha;
      [done|by apply (Hother n' s2)|symmetry; by eapply (Hother n s1)|by eapply Hd].
  - intros s Hs. destruct (Hf s Hs) as [Hvs Hr]. destruct Hs as [[Hlt Hc] Hl].
    split; [split; [done|]|done]. simpl.
    intros n s2 [[_ <-]|[_ H2]]%lookup_insert_Some Ha; [|by eapply Hl].
    destruct Hs' as [Hge|(s1 & Hs1 & Ha1 & Hle)]; [lia|].
    specialize (Hl name s1 Hs1 ltac:(congruence)). lia.
  - unfold table. simpl. rewrite fmap_insert. f_equal. apply map_fmap_ext.
    intros n s Hs. apply Hf. by eapply owned_held.
Qed.

(** ** The operations *)

Lemma table_lookup bs name : table bs !! name = slice_read (bs_store bs) <$> bs_apps bs !! name.
Proof. apply lookup_fmap. Qed.

Lemma remove_first_find host port apps :
  match list_find (same_addr host port) apps with
  | None => ¬ Exists (same_addr host port) apps
  | Some (i, _) => Exists (same_addr host port) apps ∧
                   remove_first host port apps = (take i apps ++ drop (S i) apps)%list
  end.
Proof.
  induction apps as [|a apps IH]; simpl; [by intros ?%Exists_nil|].
  destruct (decide (same_addr host port a)) as [Hs|Hs].
  - split; [by constructor|done].
  - destruct (list_find _ apps) as [[i b]|]; simpl.
    + destruct IH as [He Hr]. split; [by constructor|]. by rewrite Hr.
    + rewrite Exists_cons. naive_solver.
Qed.

Lemma register_keeps name app bs :
  owned bs → keeps bs (bs_register name app bs) ∧ table (bs_register name app bs) = register name app (table bs).
Proof.
  intros Ho. unfold register. rewrite table_lookup. destruct bs as [h t]. simpl.
  destruct (t !! name) as [apps|] eqn:E; simpl.
  - destruct (decide _) as [Hex|Hex]; [by split; [apply keeps_refl|]|].
    pose proof (owned_held _ _ _ Ho E) as [Hv _]. simpl in Hv.
    pose proof (append_spec apps [app] h Hv) as Hs. pose proof (append_frame apps [app] h) as Hf.
    destruct (slice_append apps [app] h) as [s' h']. destruct Hs as (Hv' & Hr & Ha). simpl in *.
    apply keeps_insert; [done|done|done| |].
    + intros s [Hvs Hl]. apply Hf; [done|done|]. intros Has. by apply (Hl name).
    + destruct Ha as [[Ha Hle]|Ha]; [right; by exists apps|left; simpl; lia].
  - pose proof (literal_spec [app] h) as Hs. pose proof (snoc_frame h [app]) as Hf.
    unfold slice_literal in *. destruct Hs as (Hv' & Hr & Ha).
    apply keeps_insert; [done|done|done| |by left; simpl].
    intros s [Hvs _]. by apply Hf.
Qed.

Lemma unregister_keeps name host port bs :
  owned bs →
  keeps bs (bs_unregister name host port bs) ∧
  table (bs_unregister name host port bs) = unregister name host port (table bs).
Proof.
  intros Ho. unfold unregister. rewrite table_lookup. destruct bs as [h t].
  cbn [bs_store bs_apps bs_unregister].
  destruct (t !! name) as [apps|] eqn:E; cbn [fmap option_fmap option_map]; [|by split; [apply keeps_refl|]].
  pose proof (owned_held _ _ _ Ho E) as [Hv _]. simpl in Hv.
  pose proof (remove_first_find host port (slice_read h apps)) as Hfind.
  destruct (list_find _ _) as [[i a]|].
  - destruct Hfind as [Hex Hrm]. rewrite (decide_True _ _ Hex), (valid_length h apps Hv).
    destruct (decide (s_len apps = 1%nat)) as [Hone|Hone].
    + split; [by apply (keeps_delete (mkBackendService h t))|]. apply fmap_delete.
    + pose proof (copy_spec i apps h Hv) as Hc.
      destruct (slice_literal [] h) as [s1 h1]. destruct (slice_append s1 _ h1) as [s2 h2].
      destruct (slice_append s2 _ h2) as [s3 h3]. destruct Hc as (Hv3 & Hr & Ha & Hf).
      rewrite Hrm. apply keeps_insert; [done|done|done| |by left].
      intros s [Hvs _]. by apply Hf.
  - rewrite (decide_False _ _ Hfind). by split; [apply keeps_refl|].
Qed.

Lemma handle_keeps bs e :
  owned bs → keeps bs (bs_handle bs e) ∧ table (bs_handle bs e) = handle_event e (table bs).
Proof.
  intros Ho. destruct e as [key value|key]; simpl; destruct (parse_key key) as [[[name host] port]|];
    auto using keeps_refl, register_keeps, unregister_keeps.
Qed.

Lemma run_keeps es bs :
  owned bs → keeps bs (bs_run es bs) ∧ table (bs_run es bs) = handle_events es (table bs).
Proof.
  unfold bs_run, handle_events. revert bs. induction es as [|e es IH]; intros bs Ho; simpl.
  { by split; [apply keeps_refl|]. }
  destruct (handle_keeps bs e Ho) as [[Ho' Hk] <-]. destruct (IH _ Ho') as [[Ho'' Hk'] Ht].
  split; [|done]. split; [done|]. intros s Hs. destruct (Hk s Hs) as [Hs' <-]. by apply Hk'.
Qed.

Lemma new_owned : owned newBackendService.
Proof. by split; intros *; cbn [bs_apps newBackendService]; rewrite lookup_empty. Qed.

Lemma run_new es : owned (bs_run es newBackendService) ∧ table (bs_run es newBackendService) = handle_events es ∅.
Proof.
  destruct (run_keeps es newBackendService new_owned) as [[Ho _] Ht].
  split; [done|]. rewrite Ht. unfold table. simpl. by rewrite fmap_empty.
Qed.

Lemma bs_run_app es es' bs : bs_run (es ++ es') bs = bs_run es' (bs_run es bs).
Proof. apply foldl_app. Qed.

Lemma slice_index_read h s i a :
  slice_read h s !! Z.to_nat i = Some a → 0 ≤ i < Z.of_nat (s_len s) → slice_index h s i = Ret a.
Proof.
  intros Hl Hi. unfold slice_index. rewrite decide_True by done.
  unfold slice_read in Hl. rewrite lookup_take_lt in Hl by lia. by rewrite Hl.
Qed.

(** Whatever a slice that was handed out reads, now and later, one cell gives both
    parts of the address. *)
Lemma address_of_cell nano s h h' :
  0 ≤ nano → valid h s → slice_read h s ≠ [] → slice_read h' s = slice_read h s →
  ∃ a, a ∈ slice_read h s ∧ backend_address nano s h h' = Ret (Host a, Port a) ∧
       pick_backend nano (slice_read h s) = Ret a.
Proof.
  intros Hn Hv Hne Hr. pose proof (valid_length h s Hv) as Hlen.
  assert (0 < Z.of_nat (s_len s)) as Hpos.
  { destruct (slice_read h s); [done|simpl in Hlen; lia]. }
  pose proof (Z.rem_bound_pos nano (Z.of_nat (s_len s)) Hn Hpos) as Hb.
  destruct (lookup_lt_is_Some_2 (slice_read h s) (Z.to_nat (Z.rem nano (Z.of_nat (s_len s))))) as [a Ha]; [lia|].
  exists a. split; [by eapply list_elem_of_lookup_2|].
  unfold backend_address, pick_backend. rewrite Hlen, !decide_False by lia. rewrite Ha.
  by rewrite (slice_index_read h s _ a), (slice_index_read h' s _ a) by (done || rewrite ?Hr; done).
Qed.

(** C33: what a request takes of the table is not disturbed by what comes after: with
    any room [append] finds in the arrays, and with any events between taking the
    list, reading the host and reading the port, the index is in range and the
    address is that of one instance, which was in the table, and in etcd, when the
    request looked. *)
Theorem request_reads_one_instance es es' es'' name nano s :
  Forall announced es → 0 ≤ nano →
  let looked := bs_run es newBackendService in
  let host_read := bs_run es' looked in
  let port_read := bs_run es'' host_read in
  bs_getMicroAPPs looked name = Ret s →
  getMicroAPPs (handle_events es ∅) name = Ret (slice_read (bs_store port_read) s) ∧
  ∃ a, backend_address nano s (bs_store host_read) (bs_store port_read) = Ret (Host a, Port a) ∧
    pick_backend nano (slice_read (bs_store port_read) s) = Ret a ∧
    registered (handle_events es ∅) name (Host a) (Port a) ∧
    is_Some (foldl (λ kv e, apply_event e kv) ∅ es !! apiKey name (Host a) (Port a)).
Proof.
  intros Ha Hn looked host_read port_read Hget.
  destruct (run_new es) as [Ho Ht]. fold looked in Ho, Ht.
  unfold bs_getMicroAPPs in Hget. destruct (bs_apps looked !! name) as [s'|] eqn:E; [|done].
  injection Hget as ->. pose proof (owned_held _ _ _ Ho E) as Hs.
  destruct (run_keeps es' looked Ho) as [[Ho' Hk'] _]. destruct (Hk' s Hs) as [Hs' Hr'].
  destruct (run_keeps es'' host_read Ho') as [[_ Hk''] _]. destruct (Hk'' s Hs') as [_ Hr''].
  assert (Hl : handle_events es ∅ !! name = Some (slice_read (bs_store host_read) s)).
  { fold host_read in Hr'. by rewrite <-Ht, table_lookup, E, Hr'. }
  pose proof (reachable_wf [] [] es name _ Hl) as [Hne _].
  fold port_read in Hr''. rewrite Hr''. unfold getMicroAPPs. rewrite Hl. split; [done|].
  destruct (address_of_cell nano s _ _ Hn (proj1 Hs') Hne Hr'') as (a & Hin & Hadr & Hpick).
  exists a. split; [done|]. split; [done|].
  assert (Hreg : registered (handle_events es ∅) name (Host a) (Port a)) by (by eexists _, a).
  split; [done|].
  pose proof (announced_addressable es ∅ Ha (map_Forall_empty _) name _ Hl) as Hadd.
  rewrite list.Forall_forall in Hadd. destruct (Hadd a Hin) as [Hh Hp].
  by apply (agree_steps es ∅ ∅ Ha (map_Forall_empty _) agree_empty).
Qed.
End Append.

(** ** Concrete runs *)

Module BackendRuns.
Import RegistryRuns.

Definition app2 : MicroAPP := NewMicroAPP "10.0.0.8" 9090 "k" 43 "h" "2" "m".
Definition app3 : MicroAPP := NewMicroAPP "10.0.0.9" 7070 "k" 44 "h" "3" "m".
Definition put (a : MicroAPP) : etcd_event := EventPut (apiKey "git/dbs/faas" (Host a) (Port a)) (app_String a).

(** Arrays grow with one cell to spare: the third instance goes into the array the
    request holds, and the departure of the first leaves that array alone. *)
Example third_in_place :
  let looked := bs_run (λ _, 1%nat) [put app1; put app2] newBackendService in
  let later := bs_run (λ _, 1%nat) [put app3; down] looked in
  bs_apps looked !! "git/dbs/faas" = Some (mkSlice 1 2) ∧
  bs_store looked !! 1%nat = Some [app1; app2; zero_app] ∧
  bs_store later !! 1%nat = Some [app1; app2; app3] ∧
  table later !! "git/dbs/faas" = Some [app2; app3].
Proof. vm_compute. by split_and!. Qed.

Theorem request_reads_one_instance_witness :
  let looked := bs_run (λ _, 1%nat) [up] newBackendService in
  ∃ a, backend_address 1234567 (mkSlice 0 1) (bs_store (bs_run (λ _, 1%nat) [put app2] looked))
         (bs_store (bs_run (λ _, 1%nat) [down] (bs_run (λ _, 1%nat) [put app2] looked))) =
       Ret (Host a, Port a).
Proof.
  destruct (request_reads_one_instance (λ _, 1%nat) [up] [put app2] [down] "git/dbs/faas" 1234567 (mkSlice 0 1))
    as [_ (a & Ha & _)].
  - constructor; [apply up_announced|constructor].
  - lia.
  - vm_compute. reflexivity.
  - exists a. exact Ha.
Defined.
End BackendRuns.
