(* ===== verification/Stats.v ===== *)
(** * Stats: call statistics of the repeater

    [repeater/stats.go] counts successful calls per interface and application
    until a timer drains them, and keeps failed calls in a list. The mutex makes
    every operation atomic, so an execution is a sequence of operations. *)

From Stdlib Require Import ZArith Lia.
From stdpp Require Import base gmap strings list.
From S2P Require Import Prelude GoStrings.

Record errorEntry := mkErrorEntry {
  ee_Session : string; ee_App : Z; ee_Iface : Z; ee_Info : string; ee_Time : Z
}.

Record entry := mkEntry { e_App : Z; e_Iface : Z; e_Count : Z; e_Time : Z }.

(** [ies] maps an interface to its applications' entries; [Count] and [Time] are
    64-bit integers. *)
Record statsCache := mkStatsCache {
  ies : gmap Z (gmap Z entry);
  ees : list errorEntry
}.

Definition newStatsCache : statsCache := mkStatsCache ∅ [].

Definition eight_hours : Z := 8 * 3600.

Definition failed (id : string) (app iface : Z) (log : string) (now : Z) (s : statsCache) : statsCache :=
  mkStatsCache (ies s) (ees s ++ [mkErrorEntry id app iface log (now + eight_hours)]).

Definition success (app iface tm : Z) (s : statsCache) : statsCache :=
  let ie := default ∅ (ies s !! iface) in
  let e := default (mkEntry app iface 0 0) (ie !! app) in
  let e' := mkEntry (e_App e) (e_Iface e) (wrap64 (e_Count e + 1)) (wrap64 (e_Time e + tm)) in
  mkStatsCache (<[iface := <[app := e']> ie]> (ies s)) (ees s).

(** The entries in some iteration order of the two maps; both are emptied. *)
Definition entrys (s : statsCache) : list entry * statsCache :=
  (p ← map_to_list (ies s); snd <$> map_to_list (snd p), mkStatsCache ∅ (ees s)).

Definition errorEntrys (s : statsCache) : list errorEntry * statsCache :=
  (ees s, mkStatsCache (ies s) []).

(** ** Executions *)

(** What the request handlers and the timer do to the statistics. *)
Inductive stats_op : Type :=
| OpSuccess (app iface tm : Z)
| OpFailed (id : string) (app iface : Z) (log : string) (now : Z)
| OpDrain
| OpDrainErrors.

(** The statistics with everything drained so far. *)
Definition stats_step (st : statsCache * list entry * list errorEntry) (o : stats_op)
    : statsCache * list entry * list errorEntry :=
  let '(s, out, eout) := st in
  match o with
  | OpSuccess app iface tm => (success app iface tm s, out, eout)
  | OpFailed id app iface log now => (failed id app iface log now s, out, eout)
  | OpDrain => let '(es, s') := entrys s in (s', (out ++ es)%list, eout)
  | OpDrainErrors => let '(es, s') := errorEntrys s in (s', out, (eout ++ es)%list)
  end.

Definition stats_run (ops : list stats_op) : statsCache * list entry * list errorEntry :=
  foldl stats_step (newStatsCache, [], []) ops.

(** ** What is counted *)

Definition is_call (app iface : Z) (o : stats_op) : bool :=
  match o with
  | OpSuccess a i _ => bool_decide (a = app ∧ i = iface)
  | _ => false
  end.

(** The calls of an application on an interface in a sequence of operations, and
    in a list of entries. *)
Definition calls (app iface : Z) (ops : list stats_op) : Z :=
  Z.of_nat (length (List.filter (is_call app iface) ops)).

Definition sum (l : list Z) : Z := foldr Z.add 0 l.

Definition counted (app iface : Z) (es : list entry) : Z :=
  sum ((λ e, if decide (e_App e = app ∧ e_Iface e = iface) then e_Count e else 0) <$> es).

Definition pending (app iface : Z) (s : statsCache) : Z :=
  match ies s !! iface ≫= (.!! app) with Some e => e_Count e | None => 0 end.

(** Entries sit under the application and interface they carry. *)
Definition indexed (s : statsCache) : Prop :=
  ∀ i ie a e, ies s !! i = Some ie → ie !! a = Some e → e_App e = a ∧ e_Iface e = i.

(** ** Lemmas *)

Lemma sum_app a b : sum (a ++ b) = sum a + sum b.
Proof. induction a as [|x a IH]; simpl; [done|]. unfold sum in *. simpl. lia. Qed.

Lemma counted_app app iface a b : counted app iface (a ++ b) = counted app iface a + counted app iface b.
Proof. unfold counted. by rewrite fmap_app, sum_app. Qed.

Lemma counted_cons app iface e es :
  counted app iface (e :: es) =
    (if decide (e_App e = app ∧ e_Iface e = iface) then e_Count e else 0) + counted app iface es.
Proof. done. Qed.

Lemma counted_one (m : gmap Z entry) i app iface :
  (∀ a e, m !! a = Some e → e_App e = a ∧ e_Iface e = i) →
  counted app iface (snd <$> map_to_list m) =
    (if decide (i = iface) then match m !! app with Some e => e_Count e | None => 0 end else 0).
Proof.
  induction m as [|a e m Ha Hfold IH] using map_first_key_ind; intros Hm.
  - rewrite map_to_list_empty, lookup_empty. by destruct (decide _).
  - rewrite map_to_list_insert_first_key by done.
    change (snd <$> (a, e) :: map_to_list m) with (e :: (snd <$> map_to_list m)).
    rewrite counted_cons, IH.
    2:{ intros a' e' He'. apply Hm. rewrite lookup_insert_ne; [done|]. intros ->. congruence. }
    destruct (Hm a e) as [<- <-]; [by rewrite lookup_insert_eq|].
    destruct (decide (e_Iface e = iface)) as [->|Hi].
    + destruct (decide (e_App e = app)) as [<-|Hne].
      * rewrite lookup_insert_eq, Ha, decide_True by done. simpl. lia.
      * rewrite lookup_insert_ne by done. rewrite decide_False by naive_solver. simpl. lia.
    + rewrite decide_False by naive_solver. done.
Qed.

Lemma counted_entrys s app iface :
  indexed s → counted app iface (entrys s).1 = pending app iface s.
Proof.
  unfold entrys, pending, indexed. simpl. generalize (ies s) as m. intros m.
  induction m as [|i ie m Hi Hfold IH] using map_first_key_ind; intros Hm.
  - rewrite map_to_list_empty, lookup_empty. done.
  - rewrite map_to_list_insert_first_key by done.
    change (counted app iface ((snd <$> map_to_list ie) ++
      (p ← map_to_list m; snd <$> map_to_list (snd p))) =
      match <[i:=ie]> m !! iface ≫= (.!! app) with Some e => e_Count e | None => 0 end).
    rewrite counted_app, IH.
    2:{ intros i' ie' a e Hl. apply Hm. rewrite lookup_insert_ne; [done|]. intros ->. congruence. }
    rewrite (counted_one ie i).
    2:{ intros a e He. apply (Hm i ie); [by rewrite lookup_insert_eq|done]. }
    destruct (decide (i = iface)) as [->|Hne].
    + rewrite lookup_insert_eq, Hi. simpl. lia.
    + rewrite lookup_insert_ne by done. lia.
Qed.

Lemma indexed_success app iface tm s : indexed s → indexed (success app iface tm s).
Proof.
  intros Hs i ie a e. unfold success. simpl.
  destruct (decide (i = iface)) as [->|Hi].
  - rewrite lookup_insert_eq. intros [= <-]. destruct (decide (a = app)) as [->|Ha].
    + rewrite lookup_insert_eq. intros [= <-]. simpl.
      destruct (ies s !! iface) as [ie|] eqn:E; simpl.
      * destruct (ie !! app) as [e|] eqn:Ee; simpl; [by eapply Hs|done].
      * by rewrite lookup_empty.
    + rewrite lookup_insert_ne by done. destruct (ies s !! iface) as [ie|] eqn:E; simpl.
      * by apply Hs.
      * by rewrite lookup_empty.
  - rewrite lookup_insert_ne by done. apply Hs.
Qed.

Lemma pending_success a i tm s app iface :
  pending app iface (success a i tm s) =
    if decide (a = app ∧ i = iface) then wrap64 (pending app iface s + 1) else pending app iface s.
Proof.
  unfold pending, success. simpl. destruct (decide (i = iface)) as [->|Hi].
  - rewrite lookup_insert_eq. simpl. destruct (decide (a = app)) as [->|Ha].
    + rewrite lookup_insert_eq, decide_True by done. simpl.
      destruct (ies s !! iface) as [ie|]; simpl; [by destruct (ie !! app)|].
      by rewrite lookup_empty.
    + rewrite lookup_insert_ne, decide_False by naive_solver.
      destruct (ies s !! iface); simpl; [done|]. by rewrite lookup_empty.
  - rewrite lookup_insert_ne, decide_False by naive_solver. done.
Qed.

Lemma calls_app app iface a b : calls app iface (a ++ b) = calls app iface a + calls app iface b.
Proof. unfold calls. rewrite filter_app, length_app. lia. Qed.

Lemma calls_snoc app iface ops o :
  calls app iface (ops ++ [o]) = calls app iface ops + (if is_call app iface o then 1 else 0).
Proof. rewrite calls_app. unfold calls at 2. simpl. by destruct (is_call app iface o). Qed.

Lemma calls_bound app iface ops : 0 ≤ calls app iface ops ≤ Z.of_nat (length ops).
Proof.
  unfold calls. induction ops as [|o ops IH]; simpl; [lia|].
  destruct (is_call app iface o); simpl; lia.
Qed.

Lemma stats_run_snoc ops o : stats_run (ops ++ [o]) = stats_step (stats_run ops) o.
Proof. unfold stats_run. by rewrite foldl_app. Qed.

Lemma stats_invariant ops app iface :
  Z.of_nat (length ops) ≤ max_int64 →
  let '(s, out, eout) := stats_run ops in
  indexed s ∧ 0 ≤ counted app iface out ∧ 0 ≤ pending app iface s ∧
  counted app iface out + pending app iface s = calls app iface ops.
Proof.
  induction ops as [|o ops IH] using rev_ind; intros Hlen.
  { simpl. split_and!; [|done..]. intros i ie a e He. change (ies _) with (∅ : gmap Z (gmap Z entry)) in He; by rewrite lookup_empty in He. }
  rewrite length_app in Hlen. simpl in Hlen. specialize (IH ltac:(lia)).
  rewrite stats_run_snoc, calls_snoc. pose proof (calls_bound app iface ops) as Hb.
  destruct (stats_run ops) as [[s out] eout]. destruct IH as (Hi & H0 & H1 & H2).
  destruct o as [a i tm|id a i log now| |]; simpl.
  - split_and!; [by apply indexed_success|done|..]; rewrite pending_success;
      (destruct (decide (a = app ∧ i = iface)) as [Hd|Hd];
       [rewrite ?(bool_decide_eq_true_2 _ Hd)|rewrite ?(bool_decide_eq_false_2 _ Hd)]); try lia;
      (rewrite wrap64_id; [lia|unfold in_int64, min_int64, max_int64 in *; lia]).
  - unfold pending, indexed in *. simpl. split_and!; [done|done|done|lia].
  - pose proof (counted_entrys s app iface Hi) as Hc. unfold entrys in Hc. simpl in Hc.
    rewrite counted_app, Hc. split_and!.
    + intros i ie a e He. change (ies _) with (∅ : gmap Z (gmap Z entry)) in He; by rewrite lookup_empty in He.
    + lia.
    + done.
    + change (pending app iface (mkStatsCache ∅ (ees s))) with 0. lia.
  - unfold pending, indexed in *. simpl. split_and!; [done|done|done|lia].
Qed.

(** ** Properties *)

(** No call is lost or counted twice: at every point of every execution the
    calls of an application on an interface that the timer has drained, plus
    those still pending, are exactly the successful calls so far; a drain leaves
    nothing pending. *)
Theorem stats_conserved ops app iface :
  Z.of_nat (length ops) ≤ max_int64 →
  let '(s, out, _) := stats_run ops in
  counted app iface out + pending app iface s = calls app iface ops ∧
  pending app iface (entrys s).2 = 0.
Proof.
  intros Hlen. pose proof (stats_invariant ops app iface Hlen) as Hinv.
  destruct (stats_run ops) as [[s out] eout]. destruct Hinv as (_ & _ & _ & Hc).
  split; [done|]. unfold pending, entrys. simpl. by rewrite lookup_empty.
Qed.

Theorem stats_conserved_witness :
  let '(s, out, _) := stats_run [OpSuccess 1 2 10; OpSuccess 1 2 5; OpDrain; OpSuccess 1 2 7] in
  counted 1 2 out + pending 1 2 s = 3.
Proof.
  apply (stats_conserved [OpSuccess 1 2 10; OpSuccess 1 2 5; OpDrain; OpSuccess 1 2 7] 1 2).
  unfold max_int64. simpl. lia.
Defined.
