(* ===== verification/ManagerDb.v ===== *)
(** * ManagerDb: the tables of the manager and its SQL layer

    [meta/common.go] (the rows, of which the repeater reads parts), the result
    types of [manager/model.go] and [manager/db.go]: statements built by
    reflection or written out, and their execution. *)

From Stdlib Require Import ZArith Lia Ascii.
From stdpp Require Import base strings list.
From S2P Require Import Prelude GoStrings Http Json Fmt SqlDB Orm RbacDb.

(** ** Rows: [meta/common.go] *)

Definition fld (name : string) (k : kind) : structField := mkField name k "" "" "" "".
Definition fld_db (name : string) (k : kind) (db : string) : structField := mkField name k db "" "" "".
Definition fld_json (name : string) (k : kind) (json : string) : structField := mkField name k "" "" json "".
Definition fld_valid (name : string) (k : kind) (json valid : string) : structField :=
  mkField name k "" "" json valid.

Record Application := mkApplication {
  Application_ID : Z; Application_Name : string; Application_User : string; Application_Email : string;
  Application_Token : string; Application_Comment : string; Application_Ctime : string;
  Application_Mtime : string
}.

#[export] Instance Application_struct : Struct Application := {
  fields := [fld "ID" KInt64; fld "Name" KString; fld "User" KString; fld "Email" KString;
             fld "Token" KString; fld "Comment" KString; fld "Ctime" KString; fld "Mtime" KString];
  to_vals r := [VInt (Application_ID r); VStr (Application_Name r); VStr (Application_User r);
                VStr (Application_Email r); VStr (Application_Token r); VStr (Application_Comment r);
                VStr (Application_Ctime r); VStr (Application_Mtime r)];
  of_vals vs := match vs with
    | [VInt a; VStr b; VStr c; VStr d; VStr e; VStr f; VStr g; VStr h] =>
        Some (mkApplication a b c d e f g h)
    | _ => None end
}.

Record Relation := mkRelation {
  Relation_ID : Z; Relation_ApplicationID : Z; Relation_ApplicationName : string;
  Relation_ApplicationUser : string; Relation_ApplicationEmail : string; Relation_ServiceID : Z;
  Relation_ServiceName : string; Relation_ServiceUser : string; Relation_ServiceEmail : string;
  Relation_InterfaceID : Z; Relation_InterfaceName : string; Relation_Ctime : string;
  Relation_Mtime : string
}.

#[export] Instance Relation_struct : Struct Relation := {
  fields := [fld "ID" KInt64; fld_db "ApplicationID" KInt64 "application_id";
             fld_db "ApplicationName" KString "application.name";
             fld_db "ApplicationUser" KString "application.user";
             fld_db "ApplicationEmail" KString "application.email";
             fld_db "ServiceID" KInt64 "service.id"; fld_db "ServiceName" KString "service.name";
             fld_db "ServiceUser" KString "service.user"; fld_db "ServiceEmail" KString "service.email";
             fld_db "InterfaceID" KInt64 "interface.id";
             fld_db "InterfaceName" KString "interface.name"; fld "Ctime" KString; fld "Mtime" KString];
  to_vals r := [VInt (Relation_ID r); VInt (Relation_ApplicationID r);
                VStr (Relation_ApplicationName r); VStr (Relation_ApplicationUser r);
                VStr (Relation_ApplicationEmail r); VInt (Relation_ServiceID r);
                VStr (Relation_ServiceName r); VStr (Relation_ServiceUser r);
                VStr (Relation_ServiceEmail r); VInt (Relation_InterfaceID r);
                VStr (Relation_InterfaceName r); VStr (Relation_Ctime r); VStr (Relation_Mtime r)];
  of_vals vs := match vs with
    | [VInt a; VInt b; VStr c; VStr d; VStr e; VInt f; VStr g; VStr h; VStr i; VInt j; VStr k;
       VStr l; VStr m] => Some (mkRelation a b c d e f g h i j k l m)
    | _ => None end
}.

Record Service := mkService {
  Service_ID : Z; Service_RoleID : Z; Service_ResourceID : Z; Service_ClusterID : Z;
  Service_Name : string; Service_User : string; Service_Validate : bool; Service_Email : string;
  Service_Path : string; Service_Source : string; Service_Version : Z; Service_Comment : string;
  Service_CTime : string; Service_MTime : string
}.

#[export] Instance Service_struct : Struct Service := {
  fields := [mkField "ID" KInt64 "" "auto" "id" ""; fld_json "RoleID" KInt64 "role_id";
             fld_json "ResourceID" KInt64 "resource_id"; fld_json "ClusterID" KInt64 "cluster_id";
             fld_valid "Name" KString "name" "Required"; fld_json "User" KString "user";
             fld "Validate" KBool; fld_json "Email" KString "email";
             fld_valid "Path" KString "path" "AlphaNumeric"; fld_json "Source" KString "source";
             fld_json "Version" KInt "version"; fld_valid "Comment" KString "comment" "Required";
             mkField "CTime" KString "ctime" "now()" "ctime" "";
             mkField "MTime" KString "mtime" "now()" "mtime" ""];
  to_vals r := [VInt (Service_ID r); VInt (Service_RoleID r); VInt (Service_ResourceID r);
                VInt (Service_ClusterID r); VStr (Service_Name r); VStr (Service_User r);
                VBool (Service_Validate r); VStr (Service_Email r); VStr (Service_Path r);
                VStr (Service_Source r); VInt (Service_Version r); VStr (Service_Comment r);
                VStr (Service_CTime r); VStr (Service_MTime r)];
  of_vals vs := match vs with
    | [VInt a; VInt b; VInt c; VInt d; VStr e; VStr f; VBool g; VStr h; VStr i; VStr j; VInt k;
       VStr l; VStr m; VStr n] => Some (mkService a b c d e f g h i j k l m n)
    | _ => None end
}.

Record Variable_ := mkVariable {
  Variable_ID : Z; Variable_Postion : Z; Variable_Name : string; Variable_Type : string;
  Variable_Level : Z; Variable_Required : bool; Variable_Example : string;
  Variable_Comment : string; Variable_Ctime : string; Variable_Mtime : string
}.

#[export] Instance Variable_struct : Struct Variable_ := {
  fields := [fld "ID" KInt64; fld "Postion" KInt; fld "Name" KString; fld "Type" KString;
             fld "Level" KInt; fld "Required" KBool; fld "Example" KString; fld "Comment" KString;
             fld "Ctime" KString; fld "Mtime" KString];
  to_vals r := [VInt (Variable_ID r); VInt (Variable_Postion r); VStr (Variable_Name r);
                VStr (Variable_Type r); VInt (Variable_Level r); VBool (Variable_Required r);
                VStr (Variable_Example r); VStr (Variable_Comment r); VStr (Variable_Ctime r);
                VStr (Variable_Mtime r)];
  of_vals vs := match vs with
    | [VInt a; VInt b; VStr c; VStr d; VInt e; VBool f; VStr g; VStr h; VStr i; VStr j] =>
        Some (mkVariable a b c d e f g h i j)
    | _ => None end
}.

Record Interface := mkInterface {
  Interface_ID : Z; Interface_Name : string; Interface_User : string; Interface_Email : string;
  Interface_State : bool; Interface_Service : Service; Interface_Path : string;
  Interface_Method : Z; Interface_Backend : string; Interface_Comment : string;
  Interface_Level : Z; Interface_Ctime : string; Interface_Mtime : string
}.

Definition Interface_columns : list column :=
  [Scalar (fld "ID" KInt64); Scalar (fld "Name" KString); Scalar (fld "User" KString);
   Scalar (fld "Email" KString); Scalar (fld "State" KBool); One "Service" (fields Service);
   Scalar (fld "Path" KString); Scalar (fld "Method" KInt); Scalar (fld "Backend" KString);
   Scalar (fld "Comment" KString); Scalar (fld "Level" KInt8); Scalar (fld "Ctime" KString);
   Scalar (fld "Mtime" KString)].

Definition Interface_cells (i : Interface) : list cell :=
  [Cell (VInt (Interface_ID i)); Cell (VStr (Interface_Name i)); Cell (VStr (Interface_User i));
   Cell (VStr (Interface_Email i)); Cell (VBool (Interface_State i));
   Sub (to_vals (Interface_Service i)); Cell (VStr (Interface_Path i));
   Cell (VInt (Interface_Method i)); Cell (VStr (Interface_Backend i));
   Cell (VStr (Interface_Comment i)); Cell (VInt (Interface_Level i));
   Cell (VStr (Interface_Ctime i)); Cell (VStr (Interface_Mtime i))].

#[export] Instance Interface_table : Table Interface := {
  columns := Interface_columns;
  of_cells cells := match cells with
    | [Cell (VInt a); Cell (VStr b); Cell (VStr c); Cell (VStr d); Cell (VBool e); Sub f;
       Cell (VStr g); Cell (VInt h); Cell (VStr i); Cell (VStr j); Cell (VInt k); Cell (VStr l);
       Cell (VStr m)] => (λ s, mkInterface a b c d e s g h i j k l m) <$> of_vals f
    | _ => None end
}.

Definition zero_service : Service := mkService 0 0 0 0 "" "" false "" "" "" 0 "" "" "".
Definition zero_interface : Interface :=
  mkInterface 0 "" "" "" false zero_service "" 0 "" "" 0 "" "".

(** [json.Marshal] of a row with nested structs and slices. *)
Definition encode_column (c : column) (v : cell) : string * json :=
  match c, v with
  | Scalar f, Cell x => (json_name f, encode_gval x)
  | One name sub, Sub row => (name, encode_object sub row)
  | (More name sub | One2More name sub), Subs [] => (name, JNull)
  | (More name sub | One2More name sub), Subs rows => (name, JArr (encode_object sub <$> rows))
  | Scalar f, _ => (json_name f, JNull)
  | (One name _ | More name _ | One2More name _), _ => (name, JNull)
  end.

Definition encode_cells (cs : list column) (vs : list cell) : json := JObj (zip_with encode_column cs vs).

Definition encode_interface (i : Interface) : json := encode_cells Interface_columns (Interface_cells i).

(** A slice marshals to [null] while nothing was appended to it. *)
Definition slice_json {A} (enc : A → json) (l : list A) : json :=
  match l with [] => JNull | _ => JArr (enc <$> l) end.

Ltac solve_laws := split; [by intros [] | intros []; repeat constructor].
#[export] Instance Application_laws : StructLaws Application. Proof. solve_laws. Qed.
#[export] Instance Relation_laws : StructLaws Relation. Proof. solve_laws. Qed.
#[export] Instance Service_laws : StructLaws Service. Proof. solve_laws. Qed.
#[export] Instance Variable_laws : StructLaws Variable_. Proof. solve_laws. Qed.

Lemma Interface_of_cells i : of_cells (Interface_cells i) = Some i.
Proof. destruct i. cbn [of_cells Interface_table Interface_cells]. by rewrite (of_to_vals (T := Service)). Qed.

(** ** Statistics rows: [manager/model.go] *)

Record statsSum := mkStatsSum { ss_Date : string; ss_Sum : Z; ss_Avg : Z }.

#[export] Instance statsSum_struct : Struct statsSum := {
  fields := [fld "Date" KString; fld "Sum" KInt64; fld "Avg" KInt64];
  to_vals r := [VStr (ss_Date r); VInt (ss_Sum r); VInt (ss_Avg r)];
  of_vals vs := match vs with [VStr a; VInt b; VInt c] => Some (mkStatsSum a b c) | _ => None end
}.

Record statsTopApp := mkStatsTopApp {
  sta_AppID : Z; sta_AppName : string; sta_AppUser : string; sta_InterfaceID : Z;
  sta_InterfaceName : string; sta_InterfaceUser : string; sta_ServiceID : Z;
  sta_ServiceName : string; sta_Value : Z
}.

#[export] Instance statsTopApp_struct : Struct statsTopApp := {
  fields := [fld "AppID" KInt64; fld "AppName" KString; fld "AppUser" KString;
             fld "InterfaceID" KInt64; fld "InterfaceName" KString; fld "InterfaceUser" KString;
             fld "ServiceID" KInt64; fld "ServiceName" KString; fld "Value" KInt64];
  to_vals r := [VInt (sta_AppID r); VStr (sta_AppName r); VStr (sta_AppUser r);
                VInt (sta_InterfaceID r); VStr (sta_InterfaceName r); VStr (sta_InterfaceUser r);
                VInt (sta_ServiceID r); VStr (sta_ServiceName r); VInt (sta_Value r)];
  of_vals vs := match vs with
    | [VInt a; VStr b; VStr c; VInt d; VStr e; VStr f; VInt g; VStr h; VInt i] =>
        Some (mkStatsTopApp a b c d e f g h i)
    | _ => None end
}.

Record statsTopIface := mkStatsTopIface {
  sti_ID : Z; sti_ServiceName : string; sti_InterfaceName : string; sti_User : string; sti_Value : Z
}.

#[export] Instance statsTopIface_struct : Struct statsTopIface := {
  fields := [fld_json "ID" KInt64 "id"; fld_json "ServiceName" KString "service";
             fld_json "InterfaceName" KString "iface"; fld_json "User" KString "user";
             fld_json "Value" KInt64 "value"];
  to_vals r := [VInt (sti_ID r); VStr (sti_ServiceName r); VStr (sti_InterfaceName r);
                VStr (sti_User r); VInt (sti_Value r)];
  of_vals vs := match vs with
    | [VInt a; VStr b; VStr c; VStr d; VInt e] => Some (mkStatsTopIface a b c d e)
    | _ => None end
}.

Record statsError := mkStatsError {
  se_ID : Z; se_Session : string; se_AppID : Z; se_AppName : string; se_IfaceID : Z;
  se_IfaceName : string; se_ServiceName : string; se_Info : string; se_Ctime : string
}.

#[export] Instance statsError_struct : Struct statsError := {
  fields := [fld "ID" KInt64; fld "Session" KString; fld_db "AppID" KInt64 "app_id";
             fld_db "AppName" KString "application.name"; fld_db "IfaceID" KInt64 "iface_id";
             fld_db "IfaceName" KString "interface.name"; fld_db "ServiceName" KString "service.name";
             fld "Info" KString; fld "Ctime" KString];
  to_vals r := [VInt (se_ID r); VStr (se_Session r); VInt (se_AppID r); VStr (se_AppName r);
                VInt (se_IfaceID r); VStr (se_IfaceName r); VStr (se_ServiceName r);
                VStr (se_Info r); VStr (se_Ctime r)];
  of_vals vs := match vs with
    | [VInt a; VStr b; VInt c; VStr d; VInt e; VStr f; VStr g; VStr h; VStr i] =>
        Some (mkStatsError a b c d e f g h i)
    | _ => None end
}.

(** ** [manager/db.go] *)

Section db.
Context `{SqlEngine}.

(** [query] is the text of [rbac/db.go]'s. *)
Definition query {T} `{Struct T} (table where_ sort order : string) (offset count : Z)
    : M World (Z * list T) :=
  if decide (length (fields T) = 0%nat) then throw (Errorf "result not found field") else
  _ ← GetConnection;
  rows ← Query (query_sql (fields T) table where_ sort order offset count) [];
  result ← lift (scan_rows rows);
  total ← scan_count (count_sql table where_) count;
  mret (total, result).

(** A statement with placeholders on a new connection, its result dropped. *)
Definition exec_with (sql : string) (args : list gval) : M World unit :=
  _ ← GetConnection; _ ← Exec sql args; mret tt.

Definition updateService_sql : string :=
  "update service set name=?, user=?, email=?, path=?, comment=?, mtime=now(),source=?,version=? where id=?".
Definition updateService (id : Z) (name user email path comment source : string) (version : Z)
    : M World unit :=
  exec_with updateService_sql [VStr name; VStr user; VStr email; VStr path; VStr comment;
                               VStr source; VInt version; VInt id].

(** The first row of a query, scanned into destinations of the given kinds. *)
Definition first_row (sql : string) (args : list gval) (ks : list kind) (missing : goerror)
    : M World (list gval) :=
  _ ← GetConnection;
  rows ← Query sql args;
  match rows with
  | [] => throw missing
  | row :: _ => match scan_vals ks row with Some vs => mret vs | None => throw scan_error end
  end.

Definition queryInterfaceInfo (id : Z) : M World Interface :=
  vs ← first_row
    "select name, user, email, state, method, level, path, backend, comment, ctime, mtime from interface where id=?"
    [VInt id]
    [KString; KString; KString; KBool; KInt; KInt8; KString; KString; KString; KString; KString]
    (Errorf ("interface id:" +:+ itoa id +:+ " not found"));
  mret (mkInterface 0 (nth_str vs 0) (nth_str vs 1) (nth_str vs 2)
          (match vs !! 3%nat with Some (VBool b) => b | _ => false end) zero_service
          (nth_str vs 6) (nth_int vs 4) (nth_str vs 7) (nth_str vs 8) (nth_int vs 5)
          (nth_str vs 9) (nth_str vs 10)).

Definition deployInterface (id : Z) : M World unit :=
  exec_with "update interface set state=1 where id=?" [VInt id].

Definition updateInterface (id method level : Z) (name path backend comment user email : string)
    : M World unit :=
  exec_with
    "update interface set name=?, method=?,level=?, path=?, backend=?, comment=?, mtime=now(), user=?, email=? where id=?"
    [VStr name; VInt method; VInt level; VStr path; VStr backend; VStr comment; VStr user;
     VStr email; VInt id].

Definition updateVariable (id postion : Z) (name Type_ : string) (required : Z)
    (example comment : string) : M World unit :=
  exec_with
    "update variable set postion=?, name =?, type=?, required=?, example=?, comment=?, mtime=now() where id=?"
    [VInt postion; VStr name; VStr Type_; VInt required; VStr example; VStr comment; VInt id].

Definition getApp (id : Z) : M World Application :=
  vs ← first_row "select name, token, comment, ctime, mtime from application where id=?" [VInt id]
    [KString; KString; KString; KString; KString] (Errorf ("app " +:+ itoa id +:+ " not found"));
  mret (mkApplication id (nth_str vs 0) "" "" (nth_str vs 1) (nth_str vs 2) (nth_str vs 3) (nth_str vs 4)).

(** Every field is a column here, unlike in [rbac/db.go]. *)
Fixpoint insert_columns (fs : list structField) : string :=
  match fs with
  | [] => ""
  | f :: rest => (if decide (f_db f = "") then f_name f else f_db f) +:+ ", " +:+ insert_columns rest
  end.

Fixpoint insert_values (fs : list structField) (vs : list gval) : string :=
  match fs, vs with
  | f :: fs', v :: vs' => add_value f v +:+ insert_values fs' vs'
  | _, _ => ""
  end.

Definition insert_sql (table : string) (fs : list structField) (vs : list gval) : string :=
  truncate2 (truncate2 ("insert into " +:+ table +:+ " (" +:+ insert_columns fs)
             +:+ ") values (" +:+ insert_values fs vs) +:+ ")".

Definition add (table : string) (fs : list structField) (vs : list gval) : M World Z :=
  if decide (length fs = 0%nat) then throw (Errorf "data not found field") else
  _ ← GetConnection;
  r ← Exec (insert_sql table fs vs) [];
  mret (fst r).

Definition updateApp (where_ name user email comment : string) : M World unit :=
  exec_with ("update application set name=?, user=?, email=?, comment=?, mtime=now() where " +:+ where_)
    [VStr name; VStr user; VStr email; VStr comment].

Definition updateAppToken_sql : string := "update application set token=?, mtime=now() where id=?".
Definition updateAppToken (id : Z) (token : string) : M World unit :=
  exec_with updateAppToken_sql [VStr token; VInt id].

Definition del_sql (table : string) (id : Z) : string :=
  "delete from " +:+ table +:+ " where id=" +:+ itoa id.
Definition del (table : string) (id : Z) : M World unit := exec_with (del_sql table id) [].

Definition updateRelation (id iid aid : Z) : M World unit :=
  exec_with "update relation set interface_id=?, application_id=?, mtime=now() where id=?"
    [VInt iid; VInt aid; VInt id].

Definition state_query : string := "select state from interface where id=?".
Definition getInterfaceState (id : Z) : M World Z :=
  vs ← first_row state_query [VInt id] [KInt] (Errorf ("app " +:+ itoa id +:+ " not found"));
  mret (nth_int vs 0).

Definition resource_query (table : string) (id : Z) : string :=
  "select resource_id from " +:+ table +:+ " where id=" +:+ itoa id.
Definition getResourceID (table : string) (id : Z) : M World Z :=
  vs ← first_row (resource_query table id) [] [KInt64] (Errorf ("service " +:+ itoa id +:+ " not found"));
  mret (nth_int vs 0).

(** ** Statistics *)

Definition all_rows {T} `{Struct T} (sql : string) : M World (list T) :=
  _ ← GetConnection; rows ← Query sql []; lift (scan_rows rows).

Definition selectStats_sql (id : Z) : string :=
  "SELECT event_time , cnt, ROUND(cost / cnt) FROM stats " +:+
  (if decide (0 < id) then " where stats.iface_id = " +:+ itoa id +:+ " " else "") +:+
  "order by event_time desc limit 60;".

Definition selectStats (id : Z) : M World (list statsSum) :=
  let sql := selectStats_sql id in
  _ ← GetConnection;
  let? rows := Query sql [] catch e => throw (Annotatef e sql) in
  match scan_rows rows with
  | Throw e => throw (Annotatef e sql)
  | o => lift o
  end.

Definition selectTopIface_sql : string :=
  "SELECT i.id, p.name,i.name,i.user,sum(cnt) from stats as s,interface as i, service as p  where s.iface_id = i.id and  i.service_id = p.id and s.mtime > CURDATE()-interval 1 day GROUP BY iface_id ORDER BY sum(cnt) desc limit 10".
Definition selectTopIface : M World (list statsTopIface) := all_rows selectTopIface_sql.

Definition selectTopApp_sql (ifaceID : Z) : string :=
  "SELECT a.id, a.name,a.user, i.id, i.name,i.user,p.id, p.name, sum(cnt) from stats as s,interface as i, application as a, service as p where "
  +:+ (if decide (0 < ifaceID) then
    "s.iface_id=" +:+ itoa ifaceID
    +:+ " and app_id in (SELECT app_id from stats where iface_id = " +:+ itoa ifaceID
    +:+ " and mtime > CURDATE()-interval 1 day GROUP BY app_id ORDER BY sum(cnt) desc) and s.iface_id = i.id and  i.service_id = p.id and a.id = s.app_id and s.mtime > CURDATE()-interval 1 day group by app_id order  by sum(cnt)"
    else "").
Definition selectTopApp (ifaceID : Z) : M World (list statsTopApp) := all_rows (selectTopApp_sql ifaceID).
End db.
