(* ===== verification/Cache.v ===== *)
(** * Cache: the expiring cache

    [_vendor/github.com/dearcode/crab/cache], which the repeater keeps its
    queries in and the manager its sessions and users: a map whose entries are
    also in a list, newest first, from the back of which expired entries are
    removed. It refines a map with deadlines. *)

From Stdlib Require Import ZArith Lia.
From stdpp Require Import base gmap strings list sorting.
From S2P Require Import Prelude.

Record cacheEntry (V : Type) := mkCacheEntry { ce_key : string; ce_last : Z; ce_val : V }.
Arguments mkCacheEntry {V} _ _ _.
Arguments ce_key {V} _.
Arguments ce_last {V} _.
Arguments ce_val {V} _.

Section cache.
Context {V : Type}.

(** The list [ll], newest entry first; the map [vars] indexes the same entries. *)
Definition cache := list (cacheEntry V).

(** The loop of [evict] starts at the back and stops at the first entry that is
    still fresh. *)
Fixpoint drop_expired (last : Z) (back_first : list (cacheEntry V)) : list (cacheEntry V) :=
  match back_first with
  | [] => []
  | e :: r => if decide (last < ce_last e) then back_first else drop_expired last r
  end.

Definition evict (timeout now : Z) (c : list (cacheEntry V)) : list (cacheEntry V) :=
  rev (drop_expired (now - timeout) (rev c)).

Definition has_key (key : string) (e : cacheEntry V) : Prop := ce_key e = key.

#[export] Instance has_key_dec key e : Decision (has_key key e).
Proof. unfold has_key. apply _. Defined.

Fixpoint cache_lookup (key : string) (c : list (cacheEntry V)) : option (cacheEntry V) :=
  match c with
  | [] => None
  | e :: r => if decide (has_key key e) then Some e else cache_lookup key r
  end.

Definition cache_get (timeout now : Z) (key : string) (c : list (cacheEntry V))
    : option V * list (cacheEntry V) :=
  let c' := evict timeout now c in (ce_val <$> cache_lookup key c', c').

Fixpoint cache_set (key : string) (v : V) (c : list (cacheEntry V)) : list (cacheEntry V) :=
  match c with
  | [] => []
  | e :: r => if decide (has_key key e) then mkCacheEntry key (ce_last e) v :: r
              else e :: cache_set key v r
  end.

(** An existing entry gets the new value and keeps its time. *)
Definition cache_add (now : Z) (key : string) (v : V) (c : list (cacheEntry V)) : list (cacheEntry V) :=
  match cache_lookup key c with
  | Some _ => cache_set key v c
  | None => mkCacheEntry key now v :: c
  end.
End cache.

(** ** The cache as a map with deadlines *)

Section theory.
Context {V : Type} (timeout : Z).

(** The specification: a key maps to the time it was first added and its
    value. *)
Definition deadlines := gmap string (Z * V).

Inductive cache_op : Type := OpGet (key : string) | OpAdd (key : string) (v : V).

Definition fresh (now : Z) (p : string * (Z * V)) : Prop := now - timeout < fst (snd p).

Definition spec_step (now : Z) (o : cache_op) (m : gmap string (Z * V))
    : option V * gmap string (Z * V) :=
  match o with
  | OpGet key =>
      let m' := filter (λ p : string * (Z * V), now - timeout < fst (snd p)) m in
      (snd <$> m' !! key, m')
  | OpAdd key v =>
      (None, <[key := (match m !! key with Some (t, _) => t | None => now end, v)]> m)
  end.

Definition cache_step (now : Z) (o : cache_op) (c : list (cacheEntry V)) : option V * list (cacheEntry V) :=
  match o with
  | OpGet key => cache_get timeout now key c
  | OpAdd key v => (None, cache_add now key v c)
  end.

(** A run: operations with their times. *)
Fixpoint run {S} (step : Z → cache_op → S → option V * S) (ops : list (Z * cache_op)) (s : S)
    : list (option V) :=
  match ops with
  | [] => []
  | (now, o) :: r => let '(x, s') := step now o s in x :: run step r s'
  end.

Definition abstract (c : list (cacheEntry V)) (m : gmap string (Z * V)) : Prop :=
  ∀ k, (λ e, (ce_last e, ce_val e)) <$> cache_lookup k c = m !! k.

Definition newest_first : list (cacheEntry V) → Prop := StronglySorted (λ a b, ce_last b ≤ ce_last a).

(** A cache as the operations build it: entries in order of time, one per key,
    none from the future. *)
Definition ordered (now : Z) (c : list (cacheEntry V)) : Prop :=
  newest_first c ∧ NoDup (ce_key <$> c) ∧ Forall (λ e, ce_last e ≤ now) c.

Lemma drop_expired_app last (a b : list (cacheEntry V)) :
  drop_expired last (a ++ b) =
    match drop_expired last a with [] => drop_expired last b | r => (r ++ b)%list end.
Proof.
  induction a as [|e a IH]; simpl; [done|]. by destruct (decide _).
Qed.

Lemma evict_snoc now (c : list (cacheEntry V)) e :
  evict timeout now (c ++ [e]) =
    if decide (now - timeout < ce_last e) then (c ++ [e])%list else evict timeout now c.
Proof.
  unfold evict. rewrite rev_unit. simpl. destruct (decide _); [|done].
  simpl. by rewrite rev_involutive.
Qed.

Lemma newest_first_snoc c e :
  newest_first (c ++ [e]) → newest_first c ∧ Forall (λ a, ce_last e ≤ ce_last a) c.
Proof.
  unfold newest_first. induction c as [|a c IH]; simpl; intros Hs; [by repeat constructor|].
  inversion Hs as [|? ? Hs' Ha]; subst. apply Forall_app in Ha as [Ha1 Ha2].
  destruct (IH Hs') as [H1 H2]. split; [by constructor|]. constructor; [|done].
  by inversion Ha2.
Qed.

Lemma filter_all {A} (P : A → Prop) `{∀ x, Decision (P x)} (l : list A) : Forall P l → filter P l = l.
Proof. induction 1; [done|]. rewrite filter_cons_True by done. by f_equal. Qed.

(** On an ordered cache, [evict] removes exactly the expired entries. *)
Lemma evict_filter now (c : list (cacheEntry V)) :
  newest_first c → evict timeout now c = filter (λ e, now - timeout < ce_last e) c.
Proof.
  induction c as [|e c IH] using rev_ind; intros Hs; [done|].
  apply newest_first_snoc in Hs as [Hs Hall].
  rewrite evict_snoc, list.filter_app. destruct (decide _) as [Hf|Hf].
  - f_equal.
    + symmetry. apply filter_all. eapply list.Forall_impl; [exact Hall|]. simpl. lia.
    + by rewrite filter_cons_True.
  - rewrite IH by done. rewrite filter_cons_False by done. by rewrite app_nil_r.
Qed.

Lemma lookup_key k (c : list (cacheEntry V)) e : cache_lookup k c = Some e → ce_key e = k ∧ e ∈ c.
Proof.
  induction c as [|a c IH]; simpl; [done|]. destruct (decide _) as [Hk|Hk].
  - intros [= ->]. split; [done|by left].
  - intros He. destruct (IH He). split; [done|by right].
Qed.

Lemma lookup_none k (c : list (cacheEntry V)) : cache_lookup k c = None ↔ k ∉ ce_key <$> c.
Proof.
  induction c as [|a c IH]; [split; [intros _ Hin; by apply elem_of_nil in Hin|done]|].
  simpl. destruct (decide _) as [Hk|Hk].
  - split; [done|]. intros Hn. destruct Hn. rewrite Hk. by left.
  - rewrite IH, not_elem_of_cons. unfold has_key in Hk. naive_solver.
Qed.

Lemma filter_keys (P : (cacheEntry V) → Prop) `{∀ x, Decision (P x)} k (c : list (cacheEntry V)) :
  k ∉ ce_key <$> c → k ∉ ce_key <$> filter P c.
Proof.
  intros Hn Hin. apply Hn. apply list_elem_of_fmap in Hin as (e & -> & Hin).
  apply list_elem_of_filter in Hin as [_ Hin]. by apply list_elem_of_fmap_2.
Qed.

Lemma lookup_filter (P : (cacheEntry V) → Prop) `{∀ x, Decision (P x)} k (c : list (cacheEntry V)) :
  NoDup (ce_key <$> c) →
  cache_lookup k (filter P c) =
    match cache_lookup k c with Some e => if decide (P e) then Some e else None | None => None end.
Proof.
  induction c as [|a c IH]; simpl; intros Hnd; [done|]. apply list.NoDup_cons in Hnd as [Ha Hnd].
  destruct (decide (has_key k a)) as [Hk|Hk]; destruct (decide (P a)) as [HP|HP].
  - rewrite filter_cons_True by done. simpl. by rewrite decide_True.
  - rewrite filter_cons_False by done. apply lookup_none, filter_keys. by rewrite <-Hk.
  - rewrite filter_cons_True by done. simpl. rewrite decide_False by done. by apply IH.
  - rewrite filter_cons_False by done. by apply IH.
Qed.

Lemma ordered_filter (P : (cacheEntry V) → Prop) `{∀ x, Decision (P x)} now (c : list (cacheEntry V)) :
  ordered now c → ordered now (filter P c).
Proof.
  intros (Hs & Hnd & Hle). split_and!.
  - unfold newest_first in *. clear Hnd Hle. induction Hs as [|a c Hs IH Ha]; [constructor|].
    destruct (decide (P a)); [rewrite filter_cons_True by done|by rewrite filter_cons_False by done].
    constructor; [done|]. rewrite list.Forall_forall in *. intros x Hx.
    apply list_elem_of_filter in Hx as [_ Hx]. by apply Ha.
  - clear Hs Hle. induction c as [|a c IH]; [constructor|].
    apply list.NoDup_cons in Hnd as [Ha Hnd].
    destruct (decide (P a)); [rewrite filter_cons_True by done|rewrite filter_cons_False by done; auto].
    apply list.NoDup_cons. split; [by apply filter_keys|by apply IH].
  - rewrite list.Forall_forall in *. intros x Hx. apply list_elem_of_filter in Hx as [_ Hx]. by apply Hle.
Qed.

Lemma set_keys k v (c : list (cacheEntry V)) : ce_key <$> cache_set k v c = ce_key <$> c.
Proof.
  induction c as [|a c IH]; simpl; [done|]. destruct (decide (has_key k a)) as [Hk|Hk]; simpl.
  - by rewrite Hk.
  - f_equal. apply IH.
Qed.

Lemma set_lasts k v (c : list (cacheEntry V)) : ce_last <$> cache_set k v c = ce_last <$> c.
Proof. induction c as [|a c IH]; simpl; [done|]. destruct (decide _); simpl; [done|]. f_equal. apply IH. Qed.

Lemma lookup_set k v (c : list (cacheEntry V)) k' :
  cache_lookup k' (cache_set k v c) =
    if decide (k' = k) then (λ e, mkCacheEntry k (ce_last e) v) <$> cache_lookup k c
    else cache_lookup k' c.
Proof.
  induction c as [|a c IH]; simpl; [by destruct (decide _)|].
  destruct (decide (has_key k a)) as [Hk|Hk]; unfold has_key in *; simpl.
  - destruct (decide (k' = k)) as [->|Hne].
    + rewrite !decide_True by done. done.
    + rewrite !decide_False by (unfold has_key; simpl; congruence). done.
  - destruct (decide (k' = k)) as [->|Hne].
    + rewrite !decide_False by done. apply IH.
    + by rewrite IH.
Qed.

Lemma Forall_lasts (P : Z → Prop) (c : list (cacheEntry V)) : Forall (λ e, P (ce_last e)) c ↔ Forall P (ce_last <$> c).
Proof. by rewrite Forall_fmap. Qed.

Lemma newest_first_lasts (c : list (cacheEntry V)) : newest_first c ↔ StronglySorted (λ a b, b ≤ a) (ce_last <$> c).
Proof.
  unfold newest_first. induction c as [|a c IH]; simpl; [by split; constructor|].
  split; intros Hs; inversion Hs as [|? ? Hs' Ha]; subst; constructor.
  1,3: by apply IH.
  - by apply (Forall_lasts (λ b, b ≤ ce_last a)).
  - by apply (Forall_lasts (λ b, b ≤ ce_last a)) in Ha.
Qed.

Lemma ordered_add now k v (c : list (cacheEntry V)) : ordered now c → ordered now (cache_add now k v c).
Proof.
  intros (Hs & Hnd & Hle). unfold cache_add. destruct (cache_lookup k c) as [e|] eqn:E.
  - split_and!.
    + apply newest_first_lasts. rewrite set_lasts. by apply newest_first_lasts.
    + by rewrite set_keys.
    + apply (Forall_lasts (λ l, l ≤ now)). rewrite set_lasts. by apply Forall_lasts.
  - split_and!.
    + constructor; [done|]. done.
    + simpl. apply list.NoDup_cons. split; [by apply lookup_none|done].
    + constructor; [simpl; lia|done].
Qed.

Lemma ordered_later now now' c : now ≤ now' → ordered now c → ordered now' c.
Proof.
  intros Hn (Hs & Hnd & Hle). split_and!; [done..|]. eapply list.Forall_impl; [exact Hle|]. simpl. lia.
Qed.

(** One operation on related states gives the same answer and related states. *)
Lemma cache_simulation now o c m :
  ordered now c → abstract c m →
  let '(x, c') := cache_step now o c in
  let '(y, m') := spec_step now o m in
  x = y ∧ ordered now c' ∧ abstract c' m'.
Proof.
  intros Ho Habs. pose proof Ho as (Hs & Hnd & Hle). destruct o as [k|k v]; simpl.
  - rewrite evict_filter by done.
    assert (Hl : ∀ k', (λ e, (ce_last e, ce_val e)) <$>
        cache_lookup k' (filter (λ e, now - timeout < ce_last e) c) =
        filter (λ p : string * (Z * V), now - timeout < fst (snd p)) m !! k').
    { intros k'. rewrite lookup_filter by done. rewrite map_lookup_filter, <-Habs.
      destruct (cache_lookup k' c) as [e|]; simpl; [|done].
      destruct (decide _) as [Hf|Hf]; simpl.
      - by rewrite option_guard_True.
      - by rewrite option_guard_False. }
    split_and!; [|by apply ordered_filter|exact Hl].
    rewrite <-Hl. by destruct (cache_lookup k _).
  - split_and!; [done|by apply ordered_add|]. intros k'. unfold cache_add.
    pose proof (Habs k) as Hk. destruct (decide (k' = k)) as [->|Hne].
    + rewrite lookup_insert_eq, <-Hk. destruct (cache_lookup k c) as [e|] eqn:E; simpl.
      * rewrite lookup_set, decide_True by done. by rewrite E.
      * by rewrite decide_True.
    + rewrite lookup_insert_ne by done. rewrite <-Habs.
      destruct (cache_lookup k c) as [e|] eqn:E; simpl.
      * by rewrite lookup_set, decide_False.
      * by rewrite decide_False by (unfold has_key; simpl; congruence).
Qed.

Lemma run_refines ops c m t :
  StronglySorted (λ a b, fst a ≤ fst b) ops → Forall (λ p, t ≤ fst p) ops →
  ordered t c → abstract c m →
  run cache_step ops c = run spec_step ops m.
Proof.
  revert c m t. induction ops as [|[now o] ops IH]; intros c m t Hs Ht Ho Habs; [done|].
  inversion Hs as [|? ? Hs' Hnow]; subst. apply Forall_cons_iff in Ht as [Hn _]. simpl in *.
  pose proof (cache_simulation now o c m (ordered_later _ _ _ Hn Ho) Habs) as Hsim.
  destruct (cache_step now o c) as [x c'], (spec_step now o m) as [y m'].
  destruct Hsim as (-> & Ho' & Habs'). f_equal. by eapply IH.
Qed.
Lemma evict_idemp now (c : list (cacheEntry V)) : evict timeout now (evict timeout now c) = evict timeout now c.
Proof.
  unfold evict. rewrite rev_involutive. f_equal.
  induction (rev c) as [|e l IH]; simpl; [done|]. destruct (decide _) as [Hd|Hd]; [|done].
  simpl. by rewrite decide_True.
Qed.

Lemma evict_cons_fresh now e (c : list (cacheEntry V)) :
  now - timeout < ce_last e → evict timeout now (e :: c) = e :: evict timeout now c.
Proof.
  intros Hf. unfold evict. simpl. rewrite drop_expired_app. simpl. rewrite decide_True by done.
  destruct (drop_expired _ (rev c)) as [|x l] eqn:E; [done|].
  change (x :: l ++ [e])%list with ((x :: l) ++ [e])%list. by rewrite rev_app_distr.
Qed.

(** From the empty cache. *)
Lemma cache_refines_deadlines ops :
  StronglySorted (λ a b, fst a ≤ fst b) ops → run cache_step ops [] = run spec_step ops ∅.
Proof.
  intros Hs. destruct ops as [|[t o] ops]; [done|].
  apply (run_refines _ _ _ t); [done| | |].
  - inversion Hs as [|? ? _ Ht]; subst. constructor; [done|exact Ht].
  - split_and!; constructor.
  - intros k. by rewrite lookup_empty.
Qed.
End theory.

Theorem cache_refines_deadlines_witness :
  run (cache_step 10) [(0, OpAdd "a" "x"); (5, OpGet "a"); (10, OpGet "a")] []
    = [None; Some "x"; None].
Proof.
  rewrite (cache_refines_deadlines 10 [(0, OpAdd "a" "x"); (5, OpGet "a"); (10, OpGet "a")]).
  - vm_compute. reflexivity.
  - repeat constructor; simpl; lia.
Defined.
