(* ===== verification/CacheStore.v ===== *)
(** * CacheStore: the expiring cache in memory

    [_vendor/github.com/dearcode/crab/cache/cache.go] as it is laid out: entries
    are objects that are reached from the map [vars] and from the list [ll], and
    change in place. [Cache] is the list of their contents; here every operation
    is shown to do to the contents what it does there, and so to be a map with
    deadlines. The critical sections of the operations are definitions of their
    own, because [Get] takes the lock twice and reads the value without it. *)

From Stdlib Require Import ZArith Lia.
From stdpp Require Import base gmap strings list sorting.
From S2P Require Import Prelude Cache.

(** Pointers to entries are the order of their creation; nothing is ever freed. *)
Record memory (V : Type) := mkMemory {
  mem_entries : list (cacheEntry V);
  mem_vars : gmap string nat;
  mem_ll : list nat
}.
Arguments mkMemory {V} _ _ _.
Arguments mem_entries {V} _.
Arguments mem_vars {V} _.
Arguments mem_ll {V} _.

Section store.
Context {V : Type}.
Implicit Types m : memory V.

Definition NewCache : memory V := mkMemory [] ∅ [].

(** The map lookup of [Get], under the read lock. *)
Definition mem_find (key : string) (m : memory V) : option nat := mem_vars m !! key.

(** [v.val], after the lock is released. *)
Definition mem_val (p : nat) (m : memory V) : option V := ce_val <$> mem_entries m !! p.

Definition set_val (v : V) (e : cacheEntry V) : cacheEntry V := mkCacheEntry (ce_key e) (ce_last e) v.

(** [Add] under the lock; the clock is read there. *)
Definition mem_add (now : Z) (key : string) (v : V) (m : memory V) : memory V :=
  match mem_vars m !! key with
  | Some p => mkMemory (alter (set_val v) p (mem_entries m)) (mem_vars m) (mem_ll m)
  | None =>
      let p := length (mem_entries m) in
      mkMemory (mem_entries m ++ [mkCacheEntry key now v]) (<[key := p]> (mem_vars m)) (p :: mem_ll m)
  end.

(** [ll.Back()]. *)
Definition Back (l : list nat) : option nat := list.last l.

(** The loop of [evict]: the back of the list is removed until it is fresh. It
    runs at most once per element of the list. *)
Fixpoint evict_loop (n : nat) (last_ : Z) (m : memory V) : memory V :=
  match n with
  | O => m
  | S n =>
      match Back (mem_ll m) with
      | None => m
      | Some b =>
          match mem_entries m !! b with
          | None => m
          | Some e =>
              if decide (last_ < ce_last e) then m
              else evict_loop n last_
                     (mkMemory (mem_entries m) (delete (ce_key e) (mem_vars m)) (removelast (mem_ll m)))
          end
      end
  end.

(** [evict] under the lock, with the time it computed before. *)
Definition mem_evict (last_ : Z) (m : memory V) : memory V := evict_loop (length (mem_ll m)) last_ m.

(** [Get] when nothing comes between its parts. *)
Definition mem_get (timeout now : Z) (key : string) (m : memory V) : option V * memory V :=
  let m := mem_evict (now - timeout) m in (p ← mem_find key m; mem_val p m, m).

(** ** What the map and the list have in common *)

Definition contents (m : memory V) : list (cacheEntry V) := omap (λ p, mem_entries m !! p) (mem_ll m).

(** An entry is in the list once if it is in the map under its key, and otherwise
    in neither. *)
Record consistent (m : memory V) : Prop := {
  ll_once : NoDup (mem_ll m);
  ll_vars : ∀ p, p ∈ mem_ll m → ∃ e, mem_entries m !! p = Some e ∧ mem_vars m !! ce_key e = Some p;
  vars_ll : ∀ k p, mem_vars m !! k = Some p → p ∈ mem_ll m ∧ ∃ e, mem_entries m !! p = Some e ∧ ce_key e = k
}.

(** ** Lemmas *)

Lemma new_consistent : consistent NewCache.
Proof.
  split; simpl; [constructor|by intros p Hp%elem_of_nil|].
  intros k p. by rewrite lookup_empty.
Qed.

Lemma contents_snoc es vs l p e :
  es !! p = Some e → contents (mkMemory es vs (l ++ [p])) = (contents (mkMemory es vs l) ++ [e])%list.
Proof. intros He. unfold contents. simpl. rewrite omap_app. simpl. by rewrite He. Qed.

Lemma omap_list_cons {A B} (f : A → option B) x l :
  omap f (x :: l) = match f x with Some y => y :: omap f l | None => omap f l end.
Proof. done. Qed.

Lemma lookup_omap key m l :
  consistent m → l ⊆ mem_ll m →
  cache_lookup key (omap (λ p, mem_entries m !! p) l) =
    match mem_vars m !! key with Some p => if decide (p ∈ l) then mem_entries m !! p else None | None => None end.
Proof.
  intros [_ Hll Hvars]. induction l as [|q l IH]; intros Hsub.
  { destruct (mem_vars m !! key) as [p|]; [|done]. rewrite decide_False; [done|]. apply not_elem_of_nil. }
  destruct (Hll q) as (e & He & Hv); [apply Hsub; by left|]. rewrite omap_list_cons, He. cbn [cache_lookup].
  destruct (decide (has_key key e)) as [Hk|Hk]; unfold has_key in Hk.
  - rewrite <-Hk, Hv, decide_True by (by left). done.
  - rewrite IH by set_solver. destruct (mem_vars m !! key) as [p|] eqn:E; [|done].
    destruct (decide (p = q)) as [->|Hne].
    + destruct (Hvars _ _ E) as (_ & e' & He' & Hk'). naive_solver.
    + destruct (decide (p ∈ l)) as [Hin|Hin].
      * by rewrite decide_True by (by right).
      * by rewrite decide_False by (rewrite elem_of_cons; naive_solver).
Qed.

(** What [Get] finds is the value of the contents. *)
Lemma find_contents key m :
  consistent m → (p ← mem_find key m; mem_val p m) = ce_val <$> cache_lookup key (contents m).
Proof.
  intros Hm. unfold contents, mem_find, mem_val. rewrite (lookup_omap key m _ Hm) by done.
  destruct (mem_vars m !! key) as [p|] eqn:E; simpl; [|done].
  destruct Hm as [_ _ Hvars]. destruct (Hvars _ _ E) as [Hin _]. by rewrite decide_True.
Qed.

Lemma lookup_snoc_old {A} (l : list A) x i y : l !! i = Some y → (l ++ [x])%list !! i = Some y.
Proof. apply lookup_app_l_Some. Qed.

Lemma omap_grow (es : list (cacheEntry V)) e (l : list nat) :
  (∀ p, p ∈ l → is_Some (es !! p)) → omap (λ p, (es ++ [e])%list !! p) l = omap (λ p, es !! p) l.
Proof.
  induction l as [|p l IH]; intros Hl; [done|]. rewrite !omap_list_cons.
  destruct (Hl p ltac:(by left)) as [x Hx]. rewrite (lookup_snoc_old _ _ _ _ Hx), Hx.
  f_equal. apply IH. intros q Hq. apply Hl. by right.
Qed.

Lemma omap_other (es : list (cacheEntry V)) v p (l : list nat) :
  p ∉ l → omap (λ q, alter (set_val v) p es !! q) l = omap (λ q, es !! q) l.
Proof.
  induction l as [|q l IH]; intros Hp; [done|]. apply not_elem_of_cons in Hp as [Hne Hp].
  rewrite !omap_list_cons, list_lookup_alter_ne by congruence. by rewrite IH.
Qed.

Lemma omap_alter (es : list (cacheEntry V)) v p key (l : list nat) :
  (∀ q e, q ∈ l → es !! q = Some e → ce_key e = key ↔ q = p) → NoDup l →
  omap (λ q, alter (set_val v) p es !! q) l = cache_set key v (omap (λ q, es !! q) l).
Proof.
  induction l as [|q l IH]; intros Hk Hnd; [done|]. apply list.NoDup_cons in Hnd as [Hq Hnd].
  assert (Hrest : omap (λ q, alter (set_val v) p es !! q) l = cache_set key v (omap (λ q, es !! q) l)).
  { apply IH; [|done]. intros q' e' Hq'. apply Hk. by right. }
  rewrite !omap_list_cons. destruct (decide (q = p)) as [->|Hne].
  - rewrite list_lookup_alter_eq. destruct (es !! p) as [e|] eqn:He; cbn [fmap option_fmap option_map cache_set].
    2:{ by rewrite Hrest. }
    assert (ce_key e = key) as <- by (by apply (Hk p e); [left| |]).
    rewrite decide_True by done. by rewrite omap_other.
  - rewrite list_lookup_alter_ne by done. destruct (es !! q) as [e|] eqn:He; cbn [cache_set]; [|done].
    rewrite decide_False; [by rewrite Hrest|]. intros Hke. apply Hne. by apply (Hk q e); [left| |].
Qed.

(** [Add] keeps the map and the list together and does to the contents what it
    does to the list of entries. *)
Lemma add_refines now key v m :
  consistent m → consistent (mem_add now key v m) ∧ contents (mem_add now key v m) = cache_add now key v (contents m).
Proof.
  intros Hm. pose proof Hm as [Hnd Hll Hvars]. unfold cache_add, mem_add.
  unfold contents at 2. rewrite (lookup_omap key m _ Hm) by done.
  destruct (mem_vars m !! key) as [p|] eqn:E; simpl.
  - destruct (Hvars _ _ E) as (Hin & e & He & Hk). rewrite decide_True, He by done. split.
    + split; simpl; [done| |].
      * intros q Hq. destruct (Hll q Hq) as (eq & Heq & Hvq). destruct (decide (q = p)) as [->|Hne].
        -- exists (set_val v e). rewrite list_lookup_alter_eq, He. split; [done|]. simpl. congruence.
        -- exists eq. by rewrite list_lookup_alter_ne.
      * intros k q Hkq. destruct (Hvars k q Hkq) as (Hq & eq & Heq & Hke). split; [done|].
        destruct (decide (q = p)) as [->|Hne].
        -- exists (set_val v e). rewrite list_lookup_alter_eq, He. split; [done|]. simpl. congruence.
        -- exists eq. by rewrite list_lookup_alter_ne.
    + unfold contents. simpl. apply omap_alter; [|done]. intros q eq Hq Heq.
      destruct (Hll q Hq) as (e' & He' & Hv'). assert (e' = eq) as -> by congruence. split; congruence.
  - split; [split|]; simpl.
    + apply list.NoDup_cons. split; [|done]. intros Hin.
      destruct (Hll _ Hin) as (e & He & _). apply lookup_lt_Some in He. lia.
    + intros q [->|Hq]%elem_of_cons.
      * eexists. rewrite lookup_app_r, Nat.sub_diag by lia. split; [done|]. simpl. apply lookup_insert_eq.
      * destruct (Hll q Hq) as (e & He & Hv). exists e. split; [by apply lookup_snoc_old|].
        rewrite lookup_insert_ne; [done|]. intros ->. congruence.
    + intros k q [[<- <-]|[Hne Hkq]]%lookup_insert_Some.
      * split; [by left|]. eexists. rewrite lookup_app_r, Nat.sub_diag by lia. by split.
      * destruct (Hvars k q Hkq) as (Hq & e & He & Hke). split; [by right|]. exists e.
        split; [by apply lookup_snoc_old|done].
    + unfold contents. cbn [mem_ll mem_entries]. rewrite omap_list_cons, lookup_app_r, Nat.sub_diag by lia. cbn. f_equal.
      apply omap_grow. intros q Hq. destruct (Hll q Hq) as (e & He & _). by exists e.
Qed.

(** Removing the back of the list, and its key, keeps the two together. *)
Lemma drop_back_consistent es vs l b e :
  consistent (mkMemory es vs (l ++ [b])) → es !! b = Some e →
  consistent (mkMemory es (delete (ce_key e) vs) l).
Proof.
  intros [Hnd Hll Hvars] He. simpl in *. apply list.NoDup_app in Hnd as (Hnd & Hb & _).
  assert (Hkey : vs !! ce_key e = Some b).
  { destruct (Hll b) as (e' & He' & Hv); [set_solver|]. congruence. }
  split; simpl; [done| |].
  - intros p Hp. destruct (Hll p) as (e' & He' & Hv); [set_solver|]. exists e'. split; [done|].
    rewrite lookup_delete_ne; [done|]. intros Hk. apply (Hb p Hp). rewrite <-Hk, Hkey in Hv. set_solver.
  - intros k p [Hne Hk]%lookup_delete_Some. destruct (Hvars k p Hk) as (Hin & e' & He' & Hke).
    split; [|eauto]. apply elem_of_app in Hin as [Hin|Hin]; [done|].
    apply list_elem_of_singleton in Hin as ->. congruence.
Qed.

Lemma evict_loop_refines n last_ m :
  consistent m → (length (mem_ll m) ≤ n)%nat →
  consistent (evict_loop n last_ m) ∧
  contents (evict_loop n last_ m) = rev (drop_expired last_ (rev (contents m))).
Proof.
  revert m. induction n as [|n IH]; intros [es vs ll] Hm Hn; simpl in Hn.
  { destruct ll; [done|simpl in Hn; lia]. }
  cbn [evict_loop mem_ll mem_entries mem_vars]. unfold Back.
  destruct ll as [|b l _] using rev_ind; [done|]. rewrite last_snoc.
  destruct (ll_vars _ Hm b) as (e & He & Hv); [simpl; set_solver|]. cbn [mem_entries] in He. rewrite He.
  rewrite (contents_snoc es vs l b e He), rev_unit. cbn [drop_expired].
  destruct (decide (last_ < ce_last e)) as [Hf|Hf].
  - split; [done|]. rewrite (contents_snoc es vs l b e He). simpl. by rewrite rev_involutive.
  - rewrite removelast_last. rewrite length_app in Hn. simpl in Hn.
    apply (IH (mkMemory es (delete (ce_key e) vs) l)); [by eapply drop_back_consistent|simpl; lia].
Qed.

(** [evict] removes of the contents what it removes of the list of entries. *)
Lemma evict_refines last_ m :
  consistent m →
  consistent (mem_evict last_ m) ∧ contents (mem_evict last_ m) = rev (drop_expired last_ (rev (contents m))).
Proof. intros Hm. by apply evict_loop_refines. Qed.

Lemma get_refines timeout now key m :
  consistent m →
  let '(x, m') := mem_get timeout now key m in
  consistent m' ∧ (x, contents m') = cache_get timeout now key (contents m).
Proof.
  intros Hm. unfold mem_get, cache_get, evict. destruct (evict_refines (now - timeout) m Hm) as [Hm' Hc].
  split; [done|]. by rewrite (find_contents key _ Hm'), Hc.
Qed.

(** Entries keep their key and their time for ever. *)
Definition grown (m m' : memory V) : Prop := ∀ p e, mem_entries m !! p = Some e →
  ∃ v, mem_entries m' !! p = Some (mkCacheEntry (ce_key e) (ce_last e) v).

#[export] Instance grown_preorder : PreOrder grown.
Proof.
  split.
  - intros m p [k l v] He. by exists v.
  - intros m1 m2 m3 H12 H23 p e He. destruct (H12 p e He) as [v2 H2]. destruct (H23 p _ H2) as [v3 H3]. by exists v3.
Qed.

Lemma grown_evict last_ m : mem_entries (mem_evict last_ m) = mem_entries m.
Proof.
  unfold mem_evict. generalize (length (mem_ll m)) as n. intros n. revert m.
  induction n as [|n IH]; intros m; [done|]. cbn [evict_loop]. destruct (Back _) as [b|]; [|done].
  destruct (mem_entries m !! b) as [e|]; [|done]. destruct (decide _); [done|]. by rewrite IH.
Qed.

Lemma grown_add now key v m : grown m (mem_add now key v m).
Proof.
  intros p e He. unfold mem_add. destruct (mem_vars m !! key) as [q|]; simpl.
  - destruct (decide (p = q)) as [->|Hne].
    + exists v. by rewrite list_lookup_alter_eq, He.
    + exists (ce_val e). rewrite list_lookup_alter_ne, He by done. by destruct e.
  - exists (ce_val e). rewrite (lookup_snoc_old _ _ _ _ He). by destruct e.
Qed.

(** What [Add] leaves behind each pointer: what was there, or the value under its
    key with no later time. *)
Lemma add_entries now key v m p e :
  consistent m → mem_entries (mem_add now key v m) !! p = Some e →
  mem_entries m !! p = Some e ∨
  (ce_key e = key ∧ ce_val e = v ∧
   (ce_last e = now ∨ ∃ e', mem_entries m !! p = Some e' ∧ ce_last e' = ce_last e)).
Proof.
  intros [_ _ Hvars]. unfold mem_add. destruct (mem_vars m !! key) as [q|] eqn:E; simpl.
  - destruct (decide (p = q)) as [->|Hne]; [|rewrite list_lookup_alter_ne by done; by left].
    destruct (Hvars _ _ E) as (_ & e' & He' & Hk). rewrite list_lookup_alter_eq, He'. intros [= <-].
    right. split_and!; [done..|]. right. by exists e'.
  - intros [Hp|[Hlen Hp]]%lookup_app_Some; [by left|]. apply list_lookup_singleton_Some in Hp as [_ <-].
    right. split_and!; [done..|]. by left.
Qed.

(** What [Get] finds is in the list. *)
Lemma find_entry key m p :
  consistent m → mem_find key m = Some p →
  ∃ e, mem_entries m !! p = Some e ∧ ce_key e = key ∧ e ∈ contents m.
Proof.
  intros [_ _ Hvars] Hf. destruct (Hvars _ _ Hf) as (Hin & e & He & Hk). exists e. split; [done|].
  split; [done|]. unfold contents. apply list_elem_of_omap. by exists p.
Qed.

Definition mem_step (timeout now : Z) (o : cache_op (V:=V)) (m : memory V) : option V * memory V :=
  match o with
  | OpGet key => mem_get timeout now key m
  | OpAdd key v => (None, mem_add now key v m)
  end.

Lemma mem_run timeout ops m :
  consistent m → run (mem_step timeout) ops m = run (cache_step timeout) ops (contents m).
Proof.
  revert m. induction ops as [|[now o] ops IH]; intros m Hm; [done|]. cbn [run].
  destruct o as [key|key v]; cbn [mem_step cache_step].
  - pose proof (get_refines timeout now key m Hm) as Hg. destruct (mem_get timeout now key m) as [x m'].
    destruct Hg as [Hm' <-]. by rewrite IH.
  - destruct (add_refines now key v m Hm) as [Hm' <-]. by rewrite IH.
Qed.
End store.

Lemma memory_runs_spec {V} timeout (ops : list (Z * cache_op (V:=V))) :
  StronglySorted (λ a b, fst a ≤ fst b) ops →
  run (mem_step timeout) ops NewCache = run (spec_step timeout) ops ∅.
Proof. intros Hs. rewrite mem_run by apply new_consistent. by apply cache_refines_deadlines. Qed.

(** C30: over operations in order of time, the map and the list of shared entries,
    with their eviction from the back and values replaced in place, answer exactly
    as a map with deadlines: [Get] removes what is past its deadline and finds what
    is left; [Add] gives a new key its deadline and a key that is there, expired or
    not, only the new value. So expired values are never returned, and a value is
    lost before its time only when it was added under an expired key that no [Get]
    had removed yet ([readded_value_lost]). *)
Theorem memory_refines_deadlines {V} timeout (ops : list (Z * cache_op (V:=V))) :
  StronglySorted (λ a b, fst a ≤ fst b) ops →
  run (mem_step timeout) ops NewCache = run (spec_step timeout) ops ∅.
Proof. apply memory_runs_spec. Qed.

(** [Add] does not remove expired keys, as its comment has it: a value added under
    an expired one is gone at the next [Get], at once even. *)
Theorem readded_value_lost {V} timeout t0 t1 t2 key (v v' : V) :
  t0 ≤ t1 ≤ t2 → timeout ≤ t2 - t0 →
  run (mem_step timeout) [(t0, OpAdd key v); (t1, OpAdd key v'); (t2, OpGet key)] NewCache = [None; None; None].
Proof.
  intros Ht Hd. rewrite memory_runs_spec by (repeat constructor; simpl; lia). cbn [run spec_step].
  rewrite lookup_empty, lookup_insert_eq, insert_insert_eq. do 3 f_equal.
  rewrite map_lookup_filter, lookup_insert_eq. simpl. rewrite option_guard_False by lia. done.
Qed.

Theorem memory_refines_deadlines_witness :
  run (mem_step 10) [(0, OpAdd "a" "x"); (5, OpAdd "a" "y"); (6, OpGet "a"); (10, OpGet "a")] NewCache
    = [None; None; Some "y"; None].
Proof.
  rewrite (memory_refines_deadlines 10 [(0, OpAdd "a" "x"); (5, OpAdd "a" "y"); (6, OpGet "a"); (10, OpGet "a")]).
  - vm_compute. reflexivity.
  - repeat constructor; simpl; lia.
Defined.
