(* ===== verification/Manager.v ===== *)
(** * Manager: users, sessions and the state of the manager

    [manager/session.go], [manager/admin.go] and the types of
    [manager/model.go] they use: a request is identified by the ticket in its
    cookie, which the single sign-on service verifies once; the rights of the
    user come from the rbac service and the [admin] table through caches.
    Handlers run one at a time. *)

From Stdlib Require Import ZArith Lia Ascii.
From stdpp Require Import base gmap strings list.
From S2P Require Import Prelude GoStrings Crypto Http Json Fmt NetUrl SqlDB Cache Orm RbacDb.
From S2P Require Import Wire RbacClient ManagerDb Registry.

(** ** [r.Cookie] ([net/http]) *)

Definition token_char (a : ascii) : bool :=
  alnum a || bool_decide (a ∈ ["!"; "#"; "$"; "%"; "&"; "'"; "*"; "+"; "-"; "."; "^"; "_"; "`"; "|"; "~"]%char).

Fixpoint all_bytes (P : ascii → bool) (s : string) : bool :=
  match s with EmptyString => true | String a r => P a && all_bytes P r end.

Definition isCookieNameValid (name : string) : bool :=
  bool_decide (name ≠ "") && all_bytes token_char name.

Definition validCookieValueByte (a : ascii) : bool :=
  bool_decide (32 ≤ N_of_ascii a < 127)%N && bool_decide (a ≠ dquote ∧ a ≠ ";"%char ∧ a ≠ backslash).

(** A pair of quotes around the value is dropped. *)
Definition unquoted (s : string) : string :=
  match s with
  | String a r =>
      if decide (a = dquote ∧ 1 < String.length s ∧ HasSuffix s (String dquote "") = true)%nat
      then take_bytes (String.length r - 1) r else s
  | _ => s
  end.

Definition cookie_part (filter part : string) : option string :=
  let part := TrimSpace part in
  if decide (part = "") then None else
  let '(name, value) := cut "=" part in
  let val := unquoted (default "" value) in
  if isCookieNameValid name && bool_decide (filter = "" ∨ name = filter)
     && all_bytes validCookieValueByte val
  then Some val else None.

Definition ErrNoCookie : goerror := ErrVar "net/http" "ErrNoCookie" "http: named cookie not present".

Definition Cookie (r : Request) (name : string) : outcome string :=
  match omap (cookie_part name) (mjoin (Split ";" <$> (default [] (r_header r !! "Cookie")))) with
  | v :: _ => Ret v
  | [] => Throw ErrNoCookie
  end.

(** ** [userinfo] and [ssoResp]: [manager/model.go] *)

Record userinfo := mkUserinfo {
  u_Status : Z; u_IsAdmin : bool; u_Res : list Z; u_ResKey : string; u_Roles : list Z;
  u_RolesKey : string; u_Email : string; u_Mobile : string; u_HrmDeptID : string;
  u_PersonID : string; u_OrgID : string; u_OrgName : string; u_User : string; u_UserID : Z;
  u_Username : string
}.

Definition zero_userinfo : userinfo := mkUserinfo 0 false [] "" [] "" "" "" "" "" "" "" "" 0 "".

Definition set_IsAdmin (b : bool) (u : userinfo) : userinfo :=
  mkUserinfo (u_Status u) b (u_Res u) (u_ResKey u) (u_Roles u) (u_RolesKey u) (u_Email u) (u_Mobile u)
    (u_HrmDeptID u) (u_PersonID u) (u_OrgID u) (u_OrgName u) (u_User u) (u_UserID u) (u_Username u).
Definition set_Res (l : list Z) (k : string) (u : userinfo) : userinfo :=
  mkUserinfo (u_Status u) (u_IsAdmin u) l k (u_Roles u) (u_RolesKey u) (u_Email u) (u_Mobile u)
    (u_HrmDeptID u) (u_PersonID u) (u_OrgID u) (u_OrgName u) (u_User u) (u_UserID u) (u_Username u).
Definition set_Roles (l : list Z) (k : string) (u : userinfo) : userinfo :=
  mkUserinfo (u_Status u) (u_IsAdmin u) (u_Res u) (u_ResKey u) l k (u_Email u) (u_Mobile u)
    (u_HrmDeptID u) (u_PersonID u) (u_OrgID u) (u_OrgName u) (u_User u) (u_UserID u) (u_Username u).
Definition set_UserID (id : Z) (u : userinfo) : userinfo :=
  mkUserinfo (u_Status u) (u_IsAdmin u) (u_Res u) (u_ResKey u) (u_Roles u) (u_RolesKey u) (u_Email u)
    (u_Mobile u) (u_HrmDeptID u) (u_PersonID u) (u_OrgID u) (u_OrgName u) (u_User u) id (u_Username u).

(** The fields in order with their keys; [Res] and [Roles] are slices. *)
Definition userinfo_fields : list structField :=
  [fld "Status" KInt; fld "IsAdmin" KBool; fld "Res" KSlice; fld "ResKey" KString;
   fld "Roles" KSlice; fld "RolesKey" KString; fld_json "Email" KString "email";
   fld_json "Mobile" KString "mobile"; fld_json "HrmDeptID" KString "hrmDeptId";
   fld_json "PersonID" KString "personId"; fld_json "OrgID" KString "orgId";
   fld_json "OrgName" KString "orgName"; fld_json "User" KString "fullname";
   fld_json "UserID" KInt64 "userId"; fld_json "Username" KString "username"].

Definition userinfo_vals (u : userinfo) : list gval :=
  [VInt (u_Status u); VBool (u_IsAdmin u); VOther; VStr (u_ResKey u); VOther; VStr (u_RolesKey u);
   VStr (u_Email u); VStr (u_Mobile u); VStr (u_HrmDeptID u); VStr (u_PersonID u); VStr (u_OrgID u);
   VStr (u_OrgName u); VStr (u_User u); VInt (u_UserID u); VStr (u_Username u)].

Definition userinfo_of (vs : list gval) (res roles : list Z) : userinfo :=
  mkUserinfo (nth_int vs 0) (match vs !! 1%nat with Some (VBool b) => b | _ => false end) res
    (nth_str vs 3) roles (nth_str vs 5) (nth_str vs 6) (nth_str vs 7) (nth_str vs 8) (nth_str vs 9)
    (nth_str vs 10) (nth_str vs 11) (nth_str vs 12) (nth_int vs 13) (nth_str vs 14).

(** [json.Unmarshal] into a slice of integers. *)
Definition decode_ints (v : json) (old : list Z) : list Z * option goerror :=
  match v with
  | JNull => ([], None)
  | JArr l =>
      let rs := (λ x, store KInt64 x (VInt 0)) <$> l in
      ((λ r, match fst r with VInt z => z | _ => 0 end) <$> rs,
       foldl (λ e r, first_error e (snd r)) None rs)
  | _ => (old, Some type_error)
  end.

Definition userinfo_member (acc : userinfo * option goerror) (kv : string * json)
    : userinfo * option goerror :=
  let u := fst acc in
  match find_field userinfo_fields (fst kv) with
  | Some 2%nat =>
      let '(l, e) := decode_ints (snd kv) (u_Res u) in
      (set_Res l (u_ResKey u) u, first_error (snd acc) e)
  | Some 4%nat =>
      let '(l, e) := decode_ints (snd kv) (u_Roles u) in
      (set_Roles l (u_RolesKey u) u, first_error (snd acc) e)
  | _ =>
      let '(vs, e) := store_member userinfo_fields (userinfo_vals u, snd acc) kv in
      (userinfo_of vs (u_Res u) (u_Roles u), e)
  end.

Definition decode_userinfo (v : json) (u : userinfo) : userinfo * option goerror :=
  match v with
  | JObj ms => foldl userinfo_member (u, None) ms
  | JNull => (u, None)
  | _ => (u, Some type_error)
  end.

Record ssoResp := mkSsoResp { sso_Code : Z; sso_Data : userinfo; sso_Flag : bool; sso_Msg : string }.

Definition ssoResp_fields : list structField :=
  [fld_json "Code" KInt "REQ_CODE"; fld_json "Data" KStruct "REQ_DATA";
   fld_json "Flag" KBool "REQ_FLAG"; fld_json "Msg" KString "REQ_MSG"].

Definition ssoResp_member (acc : ssoResp * option goerror) (kv : string * json)
    : ssoResp * option goerror :=
  let s := fst acc in
  match find_field ssoResp_fields (fst kv) with
  | Some 1%nat =>
      let '(u, e) := decode_userinfo (snd kv) (sso_Data s) in
      (mkSsoResp (sso_Code s) u (sso_Flag s) (sso_Msg s), first_error (snd acc) e)
  | _ =>
      let '(vs, e) := store_member ssoResp_fields
        ([VInt (sso_Code s); VOther; VBool (sso_Flag s); VStr (sso_Msg s)], snd acc) kv in
      (mkSsoResp (nth_int vs 0) (sso_Data s)
         (match vs !! 2%nat with Some (VBool b) => b | _ => false end) (nth_str vs 3), e)
  end.

Definition Unmarshal_sso (text : string) : outcome ssoResp :=
  match parse_json text with
  | inl e => Throw e
  | inr (JObj ms) =>
      match foldl ssoResp_member (mkSsoResp 0 zero_userinfo false "", None) ms with
      | (_, Some e) => Throw e
      | (s, None) => Ret s
      end
  | inr JNull => Ret (mkSsoResp 0 zero_userinfo false "")
  | inr _ => Throw type_error
  end.

Definition encode_userinfo (u : userinfo) : json :=
  JObj (zip_with (λ f v, (json_name f, v)) userinfo_fields
    [JInt (u_Status u); JBool (u_IsAdmin u); slice_json JInt (u_Res u); JStr (u_ResKey u);
     slice_json JInt (u_Roles u); JStr (u_RolesKey u); JStr (u_Email u); JStr (u_Mobile u);
     JStr (u_HrmDeptID u); JStr (u_PersonID u); JStr (u_OrgID u); JStr (u_OrgName u);
     JStr (u_User u); JInt (u_UserID u); JStr (u_Username u)]).

(** ** [setResource], [setRoles], [assert]: [manager/admin.go] *)

(** The identifiers, each followed by a comma, less the last comma. *)
Definition ids_key (ids : list Z) : string :=
  let buf := foldr (λ id acc, itoa id +:+ "," +:+ acc) "" ids in
  take_bytes (String.length buf - 1) buf.

(** Without resources the key is left as it was. *)
Definition setResource (res : list Z) (u : userinfo) : userinfo :=
  match res with [] => set_Res [] (u_ResKey u) u | _ => set_Res res (ids_key res) u end.

Definition setRoles (roles : list Z) (u : userinfo) : userinfo :=
  match roles with [] => set_Roles [] (u_RolesKey u) u | _ => set_Roles roles (ids_key roles) u end.

Definition permission_error : goerror := Errorf "you don't have permission to access".

Definition assert_ (u : userinfo) (resID : Z) : outcome unit :=
  if u_IsAdmin u then Ret tt
  else if decide (resID ∈ u_Res u) then Ret tt else Throw permission_error.

(** ** State and environment *)

(** [userDB]: four caches by e-mail address. *)
Record userDB := mkUserDB {
  ud_admins : list (cacheEntry bool);
  ud_res : list (cacheEntry (list Z));
  ud_uid : list (cacheEntry Z);
  ud_roles : list (cacheEntry (list Z))
}.

(** The process: its database with the trace of statements and replies, the
    network, the sessions by ticket, the user caches, the values of the handler
    objects by type name, and the clock in seconds. A handler object is created
    once in [ServerInit] and shared by every request to its path; an object
    that was not decoded into yet has zero values. The cache of sessions holds
    pointers, each reachable from its entry only. *)
Record Mgr `{SqlEngine} {N : Type} := mkMgr {
  m_world : World;
  m_net : N;
  m_session : list (cacheEntry userinfo);
  m_users : userDB;
  m_recv : gmap string (list gval);
  m_now : Z
}.
Arguments Mgr {_} N.
Arguments mkMgr {_ N} _ _ _ _ _ _.

#[export] Instance Mgr_traced `{SqlEngine} {N} : Traced (Mgr N) := λ s, w_events (m_world s).

(** What the manager needs of other processes: [http.Get] with the body read,
    the values under a key prefix of etcd in the order a map of them is ranged
    over, the resolution of a backend address ([URL.Parse] on a nil receiver,
    which panics on addresses without a scheme), and a call with the dump of its
    answer. *)
Class ManagerNet (N : Type) := {
  http_get : string → M N string;
  etcd_list : string → M N (list string);
  parse_backend : string → outcome unit;
  run_call : string → string → gmap string (list string) → string → M N string
}.

(** The configuration, and what the model's request does not keep: the text of
    its URL and the address of the peer. [show_sso] prints a reply of the single
    sign-on service in an error message. *)
Class ManagerEnv := {
  sso_key : string;
  sso_domain : string;
  server_domain : string;
  rbac_host : string;
  rbac_token : string;
  url_string : Request → string;
  remote_addr : Request → string;
  show_sso : ssoResp → string
}.

Definition sessionTimeout : Z := 1800.

(** [userdb] is a package variable: [newUserDB] runs before [ServerInit] loads
    the configuration and reads the zero value of [Cache.Timeout]. *)
Definition userdb_timeout : Z := 0.

Section session.
Context `{SqlEngine} {N : Type} `{Transport N} `{ManagerNet N} `{ManagerEnv}.

Definition on_db {A} (m : M World A) : M (Mgr N) A := λ s,
  let '(o, w) := m (m_world s) in
  (o, mkMgr w (m_net s) (m_session s) (m_users s) (m_recv s) (m_now s)).

Definition on_net {A} (m : M N A) : M (Mgr N) A := λ s,
  let '(o, n) := m (m_net s) in
  (o, mkMgr (m_world s) n (m_session s) (m_users s) (m_recv s) (m_now s)).

Definition respond (r : reply) : M (Mgr N) unit := on_db (reply_with r).

Definition with_session (c : list (cacheEntry userinfo)) (s : Mgr N) : Mgr N :=
  mkMgr (m_world s) (m_net s) c (m_users s) (m_recv s) (m_now s).
Definition with_users (f : userDB → userDB) (s : Mgr N) : Mgr N :=
  mkMgr (m_world s) (m_net s) (m_session s) (f (m_users s)) (m_recv s) (m_now s).
Definition with_recv (name : string) (vs : list gval) (s : Mgr N) : Mgr N :=
  mkMgr (m_world s) (m_net s) (m_session s) (m_users s) (<[name := vs]> (m_recv s)) (m_now s).

Definition rbacClient : Client := New rbac_host rbac_token.

(** ** [userDB]

    Each operation looks into its cache twice, before and after taking the
    lock for writing. *)

Definition put_admins c (d : userDB) := mkUserDB c (ud_res d) (ud_uid d) (ud_roles d).
Definition put_res c (d : userDB) := mkUserDB (ud_admins d) c (ud_uid d) (ud_roles d).
Definition put_uid c (d : userDB) := mkUserDB (ud_admins d) (ud_res d) c (ud_roles d).
Definition put_roles c (d : userDB) := mkUserDB (ud_admins d) (ud_res d) (ud_uid d) c.

Definition users_get {V} (get : userDB → list (cacheEntry V))
    (put : list (cacheEntry V) → userDB → userDB) (email : string) : M (Mgr N) (option V) := λ s,
  let '(v, c) := cache_get userdb_timeout (m_now s) email (get (m_users s)) in
  (Ret v, with_users (put c) s).

Definition users_add {V} (get : userDB → list (cacheEntry V))
    (put : list (cacheEntry V) → userDB → userDB) (email : string) (v : V) : M (Mgr N) unit :=
  modify (λ s, with_users (put (cache_add (m_now s) email v (get (m_users s)))) s).

(** The value of a cache, or else of [load], which is run after a second look. *)
Definition cached {V} (get : userDB → list (cacheEntry V))
    (put : list (cacheEntry V) → userDB → userDB) (email : string) (load : M (Mgr N) V)
    : M (Mgr N) V :=
  v ← users_get get put email;
  match v with
  | Some x => mret x
  | None =>
      v ← users_get get put email;
      match v with Some x => mret x | None => load end
  end.

Record admin := mkAdmin { admin_User : string; admin_Email : string }.
#[export] Instance admin_struct : Struct admin := {
  fields := [fld_db "User" KString "user"; fld_db "Email" KString "email"];
  to_vals a := [VStr (admin_User a); VStr (admin_Email a)];
  of_vals vs := match vs with [VStr a; VStr b] => Some (mkAdmin a b) | _ => None end
}.

Definition admin_stmt (email : string) : Stmt := Where ("email='" +:+ email +:+ "'") (NewStmt "admin").

(** Errors are logged and make no administrator; only the answers of the table
    are cached. *)
Definition isAdmin (email : string) : M (Mgr N) bool :=
  cached ud_admins put_admins email (
    let? _ := on_db GetConnection catch _ => mret false in
    let? _ := on_db (Stmt_QueryOne (T:=admin) (admin_stmt email)) catch e =>
      (if decide (Cause e = ErrNotFound) then
         _ ← users_add ud_admins put_admins email false; mret false
       else mret false) in
    _ ← users_add ud_admins put_admins email true; mret true).

Definition loadResource (email : string) : M (Mgr N) (list Z) :=
  cached ud_res put_res email (
    res ← on_net (GetUserResourceIDs rbacClient email);
    _ ← users_add ud_res put_res email res; mret res).

Definition loadUserID (email : string) : M (Mgr N) Z :=
  cached ud_uid put_uid email (
    info ← on_net (GetUser rbacClient email);
    _ ← users_add ud_uid put_uid email (User_ID info); mret (User_ID info)).

Definition loadRoles (email : string) : M (Mgr N) (list Z) :=
  cached ud_roles put_roles email (
    rs ← on_net (GetUserRoles rbacClient email);
    let ids := RoleUser_RoleID <$> rs in
    _ ← users_add ud_roles put_roles email ids; mret ids).

(** ** Sessions *)

Definition getTicket (r : Request) : outcome string := Cookie r sso_key.

Definition verify_url (r : Request) (ticket : string) : string :=
  let ip := List.hd "" (Split ":" (remote_addr r)) in
  "http://" +:+ sso_domain +:+ "/sso/ticket/verifyTicket?ticket=" +:+ ticket
    +:+ "&url=" +:+ url_string r +:+ "&ip=" +:+ ip.

Definition verifyTicket (r : Request) (ticket : string) : M (Mgr N) ssoResp :=
  buf ← on_net (http_get (verify_url r ticket)); lift (Unmarshal_sso buf).

(** [loadInfo] works on the user in place: what was set before an error stays,
    so the user is returned with the error. *)
Definition loadInfo (u : userinfo) : M (Mgr N) (userinfo * option goerror) :=
  let? res := loadResource (u_Email u) catch e => mret (u, Some e) in
  let u1 := setResource res u in
  let? roles := loadRoles (u_Email u) catch e => mret (u1, Some e) in
  let u2 := setRoles roles u1 in
  admin ← isAdmin (u_Email u); mret (set_IsAdmin admin u2, None).

Definition session_get (ticket : string) : M (Mgr N) (option userinfo) := λ s,
  let '(v, c) := cache_get sessionTimeout (m_now s) ticket (m_session s) in (Ret v, with_session c s).

Definition session_add (ticket : string) (u : userinfo) : M (Mgr N) unit :=
  modify (λ s, with_session (cache_add (m_now s) ticket u (m_session s)) s).

(** The object behind the pointer in a session's entry changes. *)
Definition session_update (ticket : string) (u : userinfo) : M (Mgr N) unit :=
  modify (λ s, with_session (cache_set ticket u (m_session s)) s).

Definition session_User (r : Request) : M (Mgr N) userinfo :=
  ticket ← lift (getTicket r);
  val ← session_get ticket;
  match val with
  | Some i =>
      '(u, err) ← loadInfo i;
      _ ← session_update ticket u;
      match err with Some e => throw e | None => mret u end
  | None =>
      resp ← verifyTicket r ticket;
      if sso_Flag resp then
        '(u, err) ← loadInfo (sso_Data resp);
        match err with
        | Some e => throw e
        | None =>
            id ← loadUserID (u_Email u);
            let u := set_UserID id u in
            _ ← session_add ticket u; mret u
        end
      else throw (Errorf ("invalid Flag, ticket:" +:+ show_sso resp))
  end.
End session.
