(* ===== verification/Document.v ===== *)
(** * Document: what a service says about its interfaces

    [meta/document/document.go]: the modules and methods of a service with their
    fields, as a service publishes them, the distributor forwards them and the
    manager stores them, and their JSON. A Go map is the list of its entries in
    the order in which it is ranged over; each is ranged over at most once. *)

From Stdlib Require Import ZArith Lia Ascii.
From stdpp Require Import base strings list sorting.
From S2P Require Import Prelude GoStrings Http Json.

(** A nil map is [None]. *)
Inductive Field : Type :=
| mkDocField (name type : string) (required : bool) (comment : string)
    (child : option (list (string * Field))).

Definition Field_Name (f : Field) : string := let '(mkDocField n _ _ _ _) := f in n.
Definition Field_Type (f : Field) : string := let '(mkDocField _ t _ _ _) := f in t.
Definition Field_Required (f : Field) : bool := let '(mkDocField _ _ r _ _) := f in r.
Definition Field_Comment (f : Field) : string := let '(mkDocField _ _ _ c _) := f in c.
Definition Field_Child (f : Field) : option (list (string * Field)) :=
  let '(mkDocField _ _ _ _ c) := f in c.

Record Method := mkMethod {
  m_Comment : string;
  m_Request : option (list (string * Field));
  m_Response : option (list (string * Field))
}.

Record Module_ := mkModule { mod_URL : string; mod_Methods : list (string * Method) }.

(** The order in which the entries of a map come up. *)
Class MapRange := map_range : ∀ {A : Type}, list (string * A) → list (string * A).
Class MapRangeLaws `{MapRange} := map_range_perm : ∀ {A : Type} (l : list (string * A)), map_range l ≡ₚ l.

(** ** Encoding: a map's keys are sorted *)

Definition member_le (a b : string * json) : Prop := String.leb (fst a) (fst b) = true.
#[export] Instance member_le_dec : RelDecision member_le.
Proof. intros a b. unfold member_le. apply _. Defined.

Definition encode_members (l : list (string * json)) : json := JObj (merge_sort member_le l).

Fixpoint encode_field (f : Field) : json :=
  let '(mkDocField n t r c child) := f in
  JObj [("Name", JStr n); ("Type", JStr t); ("Required", JBool r); ("Comment", JStr c);
        ("Child", match child with
                  | None => JNull
                  | Some l => encode_members (map (λ kv, (fst kv, encode_field (snd kv))) l)
                  end)].

Definition encode_fields (m : option (list (string * Field))) : json :=
  match m with
  | None => JNull
  | Some l => encode_members ((λ kv, (fst kv, encode_field (snd kv))) <$> l)
  end.

Definition encode_method (m : Method) : json :=
  JObj [("Comment", JStr (m_Comment m)); ("Request", encode_fields (m_Request m));
        ("Response", encode_fields (m_Response m))].

(** ** Decoding *)

Fixpoint insert_entry {A} (k : string) (v : A) (l : list (string * A)) : list (string * A) :=
  match l with
  | [] => [(k, v)]
  | (k', v') :: r => if decide (k' = k) then (k, v) :: r else (k', v') :: insert_entry k v r
  end.

Definition Field_fields : list structField :=
  [mkField "Name" KString "" "" "" ""; mkField "Type" KString "" "" "" "";
   mkField "Required" KBool "" "" "" ""; mkField "Comment" KString "" "" "" "";
   mkField "Child" KStruct "" "" "" ""].

Definition Field_vals (f : Field) : list gval :=
  [VStr (Field_Name f); VStr (Field_Type f); VBool (Field_Required f); VStr (Field_Comment f); VOther].

Definition Field_of (vs : list gval) (child : option (list (string * Field))) : Field :=
  mkDocField (nth_str vs 0) (nth_str vs 1)
    (match vs !! 2%nat with Some (VBool b) => b | _ => false end) (nth_str vs 3) child.

Definition zero_field : Field := mkDocField "" "" false "" None.

Section decode.
Context `{MapRange}.

(** A member other than [Child]. *)
Definition field_member (acc : Field * option goerror) (kv : string * json)
    : Field * option goerror :=
  let '(vs, e) := store_member Field_fields (Field_vals (fst acc), snd acc) kv in
  (Field_of vs (Field_Child (fst acc)), e).

(** [json.Unmarshal] of a map's value starts from a zero field, and of a map from
    the entries it has; [null] makes a map nil. *)
Fixpoint decode_field (v : json) : Field * option goerror :=
  match v with
  | JObj ms =>
      (fix members (ms : list (string * json)) (acc : Field * option goerror) :=
        match ms with
        | [] => acc
        | kv :: rest =>
            members rest
              match find_field Field_fields (fst kv) with
              | Some 4%nat =>
                  let child := Field_Child (fst acc) in
                  let '(c, e) :=
                    match snd kv with
                    | JObj es =>
                        let '(l, e) :=
                          (fix entries (es : list (string * json)) (l : list (string * Field))
                               (e : option goerror) :=
                            match es with
                            | [] => (l, e)
                            | kx :: es' =>
                                let '(f, e') := decode_field (snd kx) in
                                entries es' (insert_entry (fst kx) f l) (first_error e e')
                            end) es (from_option id [] child) None in
                        (Some (map_range l), e)
                    | JNull => (None, None)
                    | _ => (child, Some type_error)
                    end in
                  (Field_of (Field_vals (fst acc)) c, first_error (snd acc) e)
              | _ => field_member acc kv
              end
        end) ms (zero_field, None)
  | JNull => (zero_field, None)
  | _ => (zero_field, Some type_error)
  end.

Definition decode_entry (acc : list (string * Field) * option goerror) (kx : string * json)
    : list (string * Field) * option goerror :=
  let '(f, e) := decode_field (snd kx) in (insert_entry (fst kx) f (fst acc), first_error (snd acc) e).

Definition decode_fields (v : json) (old : option (list (string * Field)))
    : option (list (string * Field)) * option goerror :=
  match v with
  | JObj es =>
      let '(l, e) := foldl decode_entry (from_option id [] old, None) es in (Some (map_range l), e)
  | JNull => (None, None)
  | _ => (old, Some type_error)
  end.

Definition Method_fields : list structField :=
  [mkField "Comment" KString "" "" "" ""; mkField "Request" KStruct "" "" "" "";
   mkField "Response" KStruct "" "" "" ""].

Definition method_member (acc : Method * option goerror) (kv : string * json)
    : Method * option goerror :=
  let m := fst acc in
  match find_field Method_fields (fst kv) with
  | Some 1%nat =>
      let '(r, e) := decode_fields (snd kv) (m_Request m) in
      (mkMethod (m_Comment m) r (m_Response m), first_error (snd acc) e)
  | Some 2%nat =>
      let '(r, e) := decode_fields (snd kv) (m_Response m) in
      (mkMethod (m_Comment m) (m_Request m) r, first_error (snd acc) e)
  | _ =>
      let '(vs, e) := store_member Method_fields ([VStr (m_Comment m); VOther; VOther], snd acc) kv in
      (mkMethod (nth_str vs 0) (m_Request m) (m_Response m), e)
  end.

Definition decode_method (v : json) (m : Method) : Method * option goerror :=
  match v with
  | JObj ms => foldl method_member (m, None) ms
  | JNull => (m, None)
  | _ => (m, Some type_error)
  end.
End decode.
