(* ===== verification/DocumentTheory.v ===== *)
(** * DocumentTheory: documents survive the network

    A service's document is printed and parsed twice on its way to the manager.
    Its maps come back with the same entries, in an order of their own: the
    meaning of a document is the document over finite maps. *)

From Stdlib Require Import ZArith Lia Ascii.
From stdpp Require Import base gmap strings list sorting.
From S2P Require Import Prelude GoStrings Http Json Document.

(** ** Documents over finite maps *)

Inductive field_map : Type :=
| FieldMap (name type : string) (required : bool) (comment : string)
    (child : option (gmap string field_map)).

Fixpoint map_of_field (f : Field) : field_map :=
  let '(mkDocField n t r c child) := f in
  FieldMap n t r c
    match child with
    | None => None
    | Some l => Some (list_to_map (map (λ kv, (fst kv, map_of_field (snd kv))) l))
    end.

Definition map_of_fields (m : option (list (string * Field))) : option (gmap string field_map) :=
  (λ l, list_to_map ((λ kv, (fst kv, map_of_field (snd kv))) <$> l)) <$> m.

Record method_map := mkMethodMap {
  mm_Comment : string;
  mm_Request : option (gmap string field_map);
  mm_Response : option (gmap string field_map)
}.

Definition map_of_method (m : Method) : method_map :=
  mkMethodMap (m_Comment m) (map_of_fields (m_Request m)) (map_of_fields (m_Response m)).

(** A map has one entry per key. *)
Definition unique_keys {A} (l : list (string * A)) : Prop := NoDup (fst <$> l).

Inductive field_ok : Field → Prop :=
| field_ok_leaf n t r c : field_ok (mkDocField n t r c None)
| field_ok_node n t r c l :
    unique_keys l → Forall (λ kv, field_ok (snd kv)) l → field_ok (mkDocField n t r c (Some l)).

Definition fields_ok (m : option (list (string * Field))) : Prop :=
  from_option (λ l, unique_keys l ∧ Forall (λ kv, field_ok (snd kv)) l) True m.

Section induction.
Variable P : Field → Prop.
Hypothesis leaf : ∀ n t r c, P (mkDocField n t r c None).
Hypothesis node : ∀ n t r c l, Forall (λ kv, P (snd kv)) l → P (mkDocField n t r c (Some l)).

Fixpoint Field_nested_ind (f : Field) : P f :=
  match f with
  | mkDocField n t r c None => leaf n t r c
  | mkDocField n t r c (Some l) =>
      node n t r c l
        ((fix go (l : list (string * Field)) : Forall (λ kv, P (snd kv)) l :=
          match l with
          | [] => @Forall_nil _ _
          | kv :: l' => @Forall_cons _ _ kv l' (Field_nested_ind (snd kv)) (go l')
          end) l)
  end.
End induction.

(** ** Entries *)

Lemma insert_entry_fresh {A} k (v : A) l : k ∉ fst <$> l → insert_entry k v l = (l ++ [(k, v)])%list.
Proof.
  induction l as [|[k' v'] l IH]; intros Hk; [done|]. simpl in *. apply not_elem_of_cons in Hk as [Hne Hk].
  rewrite decide_False by done. by rewrite IH.
Qed.

Section inserting.
Context {A : Type}.
Implicit Type l : list (string * A).

Lemma insert_entry_keys k (v : A) l :
  fst <$> insert_entry k v l = if decide (k ∈ fst <$> l) then fst <$> l else ((fst <$> l) ++ [k])%list.
Proof.
  induction l as [|[k' v'] l IH].
  { cbn. by rewrite decide_False by apply not_elem_of_nil. }
  cbn [insert_entry]. destruct (decide (k' = k)) as [->|Hn]; rewrite !fmap_cons; cbn [fst].
  - rewrite decide_True by by left. done.
  - rewrite IH. destruct (decide (k ∈ l.*1)) as [Hi|Hi].
    + by rewrite decide_True by by right.
    + by rewrite decide_False by (rewrite not_elem_of_cons; naive_solver).
Qed.

Lemma insert_entry_unique k (v : A) l : unique_keys l → unique_keys (insert_entry k v l).
Proof.
  unfold unique_keys. intros Hl. rewrite insert_entry_keys. destruct (decide _) as [|Hn]; [done|].
  apply list.NoDup_app. split_and!; [done| |apply NoDup_singleton].
  intros x Hx ->%list_elem_of_singleton. done.
Qed.

Lemma insert_entry_Forall (P : A → Prop) k v l :
  P v → Forall (λ kv, P (snd kv)) l → Forall (λ kv, P (snd kv)) (insert_entry k v l).
Proof. intros Hv. induction 1 as [|[k' v'] l Hv' Hl IH]; simpl; [by constructor|]. destruct (decide _); by constructor. Qed.

End inserting.

Lemma list_to_map_perm {A} (l l' : list (string * A)) :
  unique_keys l → l ≡ₚ l' → list_to_map (M := gmap string A) l = list_to_map l'.
Proof. intros Hnd Hp. by apply list_to_map_proper. Qed.

Section roundtrip.
Context `{MapRangeLaws}.

Lemma decode_entries es l :
  unique_keys es → (∀ k, k ∈ fst <$> es → k ∉ fst <$> l) → Forall (λ kx, (decode_field (snd kx)).2 = None) es →
  foldl decode_entry (l, None) es = ((l ++ ((λ kx, (fst kx, (decode_field (snd kx)).1)) <$> es))%list, None).
Proof.
  intros Hnd Hl HF. revert l Hl. induction HF as [|[k x] es Hx HF IH]; intros l Hl; [by rewrite app_nil_r|].
  apply list.NoDup_cons in Hnd as [Hk Hnd]. simpl in *. unfold decode_entry at 2. simpl.
  destruct (decode_field x) as [f e]. simpl in Hx. subst e. simpl.
  rewrite insert_entry_fresh by (apply Hl; by left). rewrite IH; [by rewrite <-app_assoc|done|].
  intros k' Hk'. rewrite fmap_app, not_elem_of_app. split; [apply Hl; by right|].
  simpl. rewrite list_elem_of_singleton. by intros ->.
Qed.

(** The loop over the entries of a child map is the one over a map of fields. *)
Definition child_loop :=
  fix entries (es : list (string * json)) (l : list (string * Field)) (e : option goerror) :=
    match es with
    | [] => (l, e)
    | kx :: es' =>
        let '(f, e') := decode_field (snd kx) in
        entries es' (insert_entry (fst kx) f l) (first_error e e')
    end.

Lemma child_loop_foldl es l e : child_loop es l e = foldl decode_entry (l, e) es.
Proof.
  revert l e. induction es as [|[k x] es IH]; intros l e; [done|].
  simpl. unfold decode_entry at 2. simpl. destruct (decode_field x) as [f e']. apply IH.
Qed.

Lemma decode_node n t r c es :
  decode_field (JObj [("Name", JStr n); ("Type", JStr t); ("Required", JBool r); ("Comment", JStr c);
                      ("Child", JObj es)]) =
    let '(l, e) := foldl decode_entry ([], None) es in (mkDocField n t r c (Some (map_range l)), e).
Proof.
  rewrite <-child_loop_foldl.
  transitivity (let '(ch, e) := (let '(l, e) := child_loop es [] None in (Some (map_range l), e)) in
                (mkDocField n t r c ch, first_error None e)); [reflexivity|].
  by destruct (child_loop es [] None).
Qed.

Definition map_entry (kv : string * Field) : string * field_map := (fst kv, map_of_field (snd kv)).

(** A map whose values are encoded as fields and survive survives. *)
Lemma entries_survive {B} (enc : B → json) (mean : B → field_map) (l : list (string * B)) :
  unique_keys l →
  Forall (λ kv, ∃ f, decode_field (enc (snd kv)) = (f, None) ∧ map_of_field f = mean (snd kv)) l →
  ∃ l', foldl decode_entry ([], None) (merge_sort member_le ((λ kv, (fst kv, enc (snd kv))) <$> l)) = (l', None) ∧
    list_to_map (M := gmap string field_map) (map_entry <$> map_range l') =
      list_to_map ((λ kv, (fst kv, mean (snd kv))) <$> l).
Proof.
  intros Hnd HF. set (encode_entry := λ kv : string * B, (fst kv, enc (snd kv))).
  set (mean_entry := λ kv : string * B, (fst kv, mean (snd kv))).
  assert (Hp : merge_sort member_le (encode_entry <$> l) ≡ₚ encode_entry <$> l) by apply merge_sort_Permutation.
  assert (Hkeys : fst <$> (encode_entry <$> l) = fst <$> l) by by rewrite <-list_fmap_compose.
  assert (Hu : unique_keys (merge_sort member_le (encode_entry <$> l))).
  { unfold unique_keys. rewrite Hp, Hkeys. exact Hnd. }
  assert (He : Forall (λ kx, (decode_field (snd kx)).2 = None) (merge_sort member_le (encode_entry <$> l))).
  { rewrite Hp, Forall_fmap. eapply list.Forall_impl; [exact HF|]. simpl. intros kv (f & -> & _). done. }
  eexists. split; [by apply decode_entries; [|intros; apply not_elem_of_nil|]|]. rewrite app_nil_l.
  set (dec := λ kx : string * json, (fst kx, (decode_field (snd kx)).1)).
  assert (Hl : map_entry <$> (dec <$> (encode_entry <$> l)) = mean_entry <$> l).
  { rewrite <-!list_fmap_compose. apply list_fmap_ext. intros i kv Hi. simpl.
    apply (Forall_lookup_1 _ _ _ _ HF) in Hi as (f & Hf & Hm). unfold map_entry, mean_entry, dec. simpl.
    rewrite Hf. simpl. by rewrite Hm. }
  assert (Hq : map_entry <$> map_range (dec <$> merge_sort member_le (encode_entry <$> l)) ≡ₚ mean_entry <$> l).
  { rewrite <-Hl. by rewrite map_range_perm, Hp. }
  apply list_to_map_perm; [|exact Hq]. unfold unique_keys. rewrite Hq, <-list_fmap_compose. exact Hnd.
Qed.

Lemma field_survives f :
  field_ok f → ∃ f', decode_field (encode_field f) = (f', None) ∧ map_of_field f' = map_of_field f.
Proof.
  induction f as [n t r c|n t r c l IH] using Field_nested_ind; intros Hok.
  - exists (mkDocField n t r c None). done.
  - inversion Hok as [|? ? ? ? ? Hnd Hall]; subst.
    destruct (entries_survive encode_field map_of_field l Hnd) as (l' & Hl & Hm).
    { apply list.Forall_forall. intros kv Hkv. rewrite list.Forall_forall in IH, Hall. auto. }
    exists (mkDocField n t r c (Some (map_range l'))). split; [|exact (f_equal (λ m, FieldMap n t r c (Some m)) Hm)].
    transitivity (decode_field (JObj [("Name", JStr n); ("Type", JStr t); ("Required", JBool r);
      ("Comment", JStr c); ("Child", JObj (merge_sort member_le ((λ kv, (fst kv, encode_field (snd kv))) <$> l)))])); [reflexivity|].
    rewrite decode_node, Hl. done.
Qed.

Lemma fields_survive m :
  fields_ok m → ∃ m', decode_fields (encode_fields m) None = (m', None) ∧ map_of_fields m' = map_of_fields m.
Proof.
  destruct m as [l|]; intros Hok; [|by exists None]. destruct Hok as [Hnd Hall].
  destruct (entries_survive encode_field map_of_field l Hnd) as (l' & Hl & Hm).
  { eapply list.Forall_impl; [exact Hall|]. intros kv. apply field_survives. }
  exists (Some (map_range l')). split; [|unfold map_of_fields; simpl; by f_equal].
  unfold encode_fields, decode_fields, encode_members. simpl. by rewrite Hl.
Qed.

Lemma method_member_request m e v :
  method_member (m, e) ("Request", v) =
    let '(r, e') := decode_fields v (m_Request m) in (mkMethod (m_Comment m) r (m_Response m), first_error e e').
Proof. reflexivity. Qed.

Lemma method_member_response m e v :
  method_member (m, e) ("Response", v) =
    let '(r, e') := decode_fields v (m_Response m) in (mkMethod (m_Comment m) (m_Request m) r, first_error e e').
Proof. reflexivity. Qed.

(** Whatever is decoded has one entry per key at every depth. *)
Lemma entries_ok es l e :
  Forall (λ kx, field_ok (decode_field (snd kx)).1) es → fields_ok (Some l) →
  fields_ok (Some (foldl decode_entry (l, e) es).1).
Proof.
  intros HF. revert l e. induction HF as [|[k x] es Hx HF IH]; intros l e Hl; [done|].
  cbn [foldl]. unfold decode_entry at 2. cbn [snd fst]. destruct (decode_field x) as [f e'] eqn:E. simpl in Hx. rewrite E in Hx.
  apply IH. destruct Hl as [Hu Hl]. split; [by apply insert_entry_unique|by apply insert_entry_Forall].
Qed.

Lemma map_range_fields_ok l : fields_ok (Some l) → fields_ok (Some (map_range l)).
Proof. intros [Hu Hl]. split; [unfold unique_keys; by rewrite map_range_perm|by rewrite map_range_perm]. Qed.

Lemma field_ok_child f : field_ok f ↔ fields_ok (Field_Child f).
Proof. destruct f as [n t r c [l|]]; simpl; split; [by inversion 1|intros []; by constructor|done|constructor]. Qed.

Definition entries_decode_ok (v : json) : Prop :=
  match v with JObj es => Forall (λ kx, field_ok (decode_field (snd kx)).1) es | _ => True end.

(** One member of an object. *)
Lemma decode_member_ok (acc : Field * option goerror) kv :
  field_ok (fst acc) → entries_decode_ok (snd kv) →
  field_ok (match find_field Field_fields (fst kv) with
    | Some 4%nat =>
        let child := Field_Child (fst acc) in
        let '(c, e) := match snd kv with
          | JObj es => let '(l, e) := child_loop es (from_option id [] child) None in (Some (map_range l), e)
          | JNull => (None, None)
          | _ => (child, Some type_error)
          end in
        (Field_of (Field_vals (fst acc)) c, first_error (snd acc) e)
    | _ => field_member acc kv
    end).1.
Proof.
  intros Ha Hes. apply field_ok_child in Ha.
  assert (Hm : field_ok (field_member acc kv).1).
  { unfold field_member. destruct (store_member _ _ _) as [vs e]. simpl. by apply field_ok_child. }
  destruct (find_field Field_fields (fst kv)) as [[|[|[|[|[|i]]]]]|]; try exact Hm. cbv zeta.
  destruct (snd kv) as [| | | | |es]; try (by apply field_ok_child). simpl in Hes.
  assert (Hc : fields_ok (Some (child_loop es (from_option id [] (Field_Child (fst acc))) None).1)).
  { rewrite child_loop_foldl. apply entries_ok; [done|]. destruct (Field_Child (fst acc)); [done|]. split; constructor. }
  destruct (child_loop es _ None) as [l e]. simpl in Hc |- *. by apply field_ok_child, map_range_fields_ok.
Qed.
Lemma decode_field_entries v : field_ok (decode_field v).1 ∧ entries_decode_ok v.
Proof.
  induction v as [| | | |l _|ms IH] using json_nested_ind; try (split; [constructor|done]).
  assert (Hes : entries_decode_ok (JObj ms)) by (eapply list.Forall_impl; [exact IH|]; by intros kv []).
  split; [|exact Hes]. cbn [decode_field].
  assert (Hz : field_ok (fst (zero_field, @None goerror))) by constructor. revert Hz.
  generalize (zero_field, @None goerror). clear Hes.
  induction IH as [|kv ms [_ Hkv] _ IHms]; intros acc Ha; [exact Ha|]. apply IHms. by apply (decode_member_ok acc kv).
Qed.

Lemma decode_field_ok v : field_ok (decode_field v).1.
Proof. apply decode_field_entries. Qed.

Lemma decode_fields_ok v old : fields_ok old → fields_ok (decode_fields v old).1.
Proof.
  intros Ho. destruct v as [| | | | |es]; try done. unfold decode_fields.
  assert (Hl : fields_ok (Some (foldl decode_entry (from_option id [] old, None) es).1)).
  { apply entries_ok; [|by destruct old; [|split; constructor]]. apply list.Forall_forall. intros kx _. apply decode_field_ok. }
  destruct (foldl decode_entry _ es) as [l e]. by apply map_range_fields_ok.
Qed.

Definition method_ok (m : Method) : Prop := fields_ok (m_Request m) ∧ fields_ok (m_Response m).

Lemma decode_method_ok v m : method_ok m → method_ok (decode_method v m).1.
Proof.
  intros Hm. destruct v as [| | | | |ms]; try done. unfold decode_method.
  change m with (fst (m, @None goerror)) in Hm. revert Hm. generalize (m, @None goerror).
  induction ms as [|[k x] ms IH]; intros acc [Hq Hs]; [done|]. cbn [foldl]. apply IH. unfold method_member. cbn [fst snd].
  destruct (find_field Method_fields k) as [[|[|[|i]]]|];
    try (destruct (store_member _ _ _) as [vs e]; by split).
  - pose proof (decode_fields_ok x _ Hq) as Hd. by destruct (decode_fields x _) as [r e].
  - pose proof (decode_fields_ok x _ Hs) as Hd. by destruct (decode_fields x _) as [r e].
Qed.

(** A method's documentation survives being published: what is decoded from
    the JSON of a method has its comment and, at every depth, the same fields
    under the same names, in whatever order the maps are ranged over. *)
Lemma method_documentation_survives m :
  fields_ok (m_Request m) → fields_ok (m_Response m) →
  ∃ m', decode_method (encode_method m) (mkMethod "" None None) = (m', None) ∧
        map_of_method m' = map_of_method m.
Proof.
  intros Hq Hs. destruct (fields_survive _ Hq) as (q & Eq & Mq), (fields_survive _ Hs) as (p & Es & Ms).
  exists (mkMethod (m_Comment m) q p). split; [|unfold map_of_method; simpl; by rewrite Mq, Ms].
  unfold decode_method, encode_method. cbn [foldl].
  change (method_member _ ("Comment", _)) with (mkMethod (m_Comment m) None None, @None goerror).
  rewrite method_member_request. cbn [m_Request]. rewrite Eq. cbn [first_error m_Comment m_Response].
  rewrite method_member_response. cbn [m_Response]. by rewrite Es.
Qed.
End roundtrip.

(** Ranged over backwards. *)
#[local] Instance backwards : MapRange := λ A l, rev l.
#[local] Instance backwards_laws : MapRangeLaws.
Proof. intros A l. symmetry. apply Permutation_rev. Qed.

Definition login : Method :=
  mkMethod "log in"
    (Some [("User", mkDocField "user" "string" true "who" None);
           ("Device", mkDocField "device" "Device" false "" (Some
             [("Name", mkDocField "name" "string" true "" None);
              ("Id", mkDocField "id" "int" false "" None)]))])
    None.

Theorem method_documentation_survives_witness :
  ∃ m, decode_method (encode_method login) (mkMethod "" None None) = (m, None) ∧
    map_of_method m = map_of_method login ∧
    (fst <$> default [] (m_Request m)) = ["User"; "Device"].
Proof.
  destruct (method_documentation_survives login) as (m & Hd & Hm).
  - split; [by apply (bool_decide_eq_true_1 (NoDup _))|].
    constructor; [constructor|]. constructor; [|constructor]. simpl.
    constructor; [by apply (bool_decide_eq_true_1 (NoDup _))|]. by repeat constructor.
  - done.
  - exists m. split_and!; [done|done|]. vm_compute in Hd. injection Hd as <-. reflexivity.
Defined.
