(* ===== verification/Framework.v ===== *)
(** * Framework: what a service is built with

    [src/service]: a service registers its types; their methods [Get], [Post],
    [Put] and [Delete] become routes ([router.go], [service.go]), requests are
    turned into calls ([proxy.go]), and the types of their arguments into the
    document that tells the platform about them ([document.go]). *)

From Stdlib Require Import ZArith Lia Ascii.
From stdpp Require Import base gmap strings list.
From S2P Require Import Prelude GoStrings Http Json Document.

(** ** Types, as [reflect] shows them

    A struct type is named by its [String()]; its fields are looked up, since a
    struct may contain itself behind a pointer or a slice. [TBasic] is every type
    the code does not look into. *)
Inductive rtype : Type :=
| TBasic (name : string)
| TStruct (name : string)
| TPtr (t : rtype)
| TSlice (t : rtype).

Fixpoint type_string (t : rtype) : string :=
  match t with
  | TBasic n | TStruct n => n
  | TPtr t => "*" +:+ type_string t
  | TSlice t => "[]" +:+ type_string t
  end.

(** [reflect.StructField], with the three tags that are read. *)
Record StructField := mkStructField {
  sf_Name : string; sf_Type : rtype; sf_comment : string; sf_required : string; sf_json : string;
  sf_Anonymous : bool
}.

(** The struct types of a program. *)
Class Types := struct_fields : string → list StructField.

(** A method: its name and the types of its parameters, the receiver first. *)
Record rmethod := mkRMethod { rm_Name : string; rm_In : list rtype }.

(** ** [field]: [document.go] *)

Inductive field : Type :=
| mkField (name type : string) (required : bool) (child : option (list (string * field)))
    (comment : string) (anonymous : bool).

Definition f_child (f : field) : option (list (string * field)) := let '(mkField _ _ _ c _ _) := f in c.
Definition f_anonymous (f : field) : bool := let '(mkField _ _ _ _ _ a) := f in a.
Definition with_child (c : option (list (string * field))) (f : field) : field :=
  let '(mkField n t r _ m a) := f in mkField n t r c m a.

Definition strip_ptr (t : rtype) : rtype := match t with TPtr t => t | _ => t end.
Definition strip_slice (t : rtype) : rtype := match t with TSlice t => t | _ => t end.

(** The struct whose fields become children, if there is one. *)
Definition child_struct (t : rtype) : option string :=
  match strip_slice (strip_ptr t) with TStruct s => Some s | _ => None end.

Definition field_name (sf : StructField) : string :=
  let n := List.hd "" (Split "," (sf_json sf)) in if decide (n = "") then sf_Name sf else n.

Definition make_field (sf : StructField) (child : option (list (string * field))) : field :=
  mkField (field_name sf) (type_string (sf_Type sf)) (bool_decide (sf_required sf = "true")) child
    (sf_comment sf) (sf_Anonymous sf).

Section document.
Context `{Types}.

(** The map of children exists once there is one. *)
Definition children (l : list (string * field)) : option (list (string * field)) :=
  match l with [] => None | _ => Some l end.

(** [newField] calls itself for every field of the struct: [None] when it is
    deeper than the fuel. *)
Fixpoint newField (fuel : nat) (sf : StructField) : option field :=
  match fuel with
  | O => None
  | S n =>
      match child_struct (sf_Type sf) with
      | None => Some (make_field sf None)
      | Some s =>
          l ← (fix loop (sfs : list StructField) (acc : list (string * field)) :=
                match sfs with
                | [] => Some acc
                | c :: rest =>
                    match newField n c with
                    | None => None
                    | Some f => loop rest (insert_entry (sf_Name c) f acc)
                    end
                end) (struct_fields s) [];
          Some (make_field sf (children l))
      end
  end.

(** [method.parse]: into the map the method has. A parameter that is no struct
    has no fields to count. *)
Fixpoint parse_fields (fuel : nat) (sfs : list StructField) (fm : list (string * field))
    : option (list (string * field)) :=
  match sfs with
  | [] => Some fm
  | sf :: rest =>
      if decide (type_string (sf_Type sf) = "service.RequestHeader") then parse_fields fuel rest fm
      else match newField fuel sf with
           | None => None
           | Some f => parse_fields fuel rest (insert_entry (sf_Name sf) f fm)
           end
  end.

Definition no_struct : string := "reflect: NumField of non-struct type".

Definition parse (fuel : nat) (arg : rtype) (fm : list (string * field))
    : option (outcome (list (string * field))) :=
  match strip_ptr arg with
  | TStruct s => Ret <$> parse_fields fuel (struct_fields s) fm
  | _ => Some (Panic no_struct)
  end.
End document.

(** The keys a range over a map comes to while its body takes entries out and puts
    others in: those the map had, unless they are gone by then, and of the new ones
    any, at any time, as the language allows. A key that is gone is passed over by
    the loop, so it does no harm to list it. *)
Class MapVisits := map_visits : list (string * field) → list string.
Class MapVisitsLaws `{MapVisits} := map_visits_all : ∀ l k, k ∈ fst <$> l → k ∈ map_visits l.

Section merge.
Context `{MapRange} `{MapVisits}.

Fixpoint find_entry {A} (k : string) (l : list (string * A)) : option A :=
  match l with
  | [] => None
  | (k', v) :: r => if decide (k' = k) then Some v else find_entry k r
  end.

Definition delete_entry {A} (k : string) (l : list (string * A)) : list (string * A) :=
  filter (λ kv, fst kv ≠ k) l.

Definition insert_entries {A} (es l : list (string * A)) : list (string * A) :=
  foldl (λ acc kv, insert_entry (fst kv) (snd kv) acc) l es.

(** One turn of the loop that takes the anonymous structs of a level apart. *)
Definition merge_entry (acc : list (string * field) * bool) (k : string) : list (string * field) * bool :=
  match find_entry k (fst acc) with
  | Some v =>
      if f_anonymous v then
        (insert_entries (map_range (default [] (f_child v))) (delete_entry k (fst acc)), true)
      else acc
  | None => acc
  end.

(** The loop over the map while it changes. *)
Definition merge_level (fm : list (string * field)) : list (string * field) * bool :=
  foldl merge_entry (fm, false) (map_visits fm).

(** [method.merge]. *)
Fixpoint merge (fuel : nat) (fm : list (string * field)) : option (list (string * field)) :=
  match fuel with
  | O => None
  | S n =>
      let '(fm1, ok) := merge_level fm in
      fm2 ← mapM (M := option) (λ kv,
        match f_child (snd kv) with
        | None => Some kv
        | Some c => c' ← merge n c; Some (fst kv, with_child (Some c') (snd kv))
        end) (map_range fm1);
      if ok then merge n fm2 else Some fm2
  end.
End merge.

(** ** [document] *)

Record method := mkMethodDoc {
  md_Comment : string; md_Request : list (string * field); md_Response : list (string * field)
}.

Record module_ := mkModuleDoc { mo_URL : string; mo_Methods : list (string * method) }.

(** The comments a build exports, and the name of the project. *)
Class Build := { docExport : gmap string string; debug_Project : string }.

Section add.
Context `{Types} `{MapRange} `{MapVisits} `{Build}.

Definition export_key (name url mname : string) : string :=
  debug_Project +:+ take_bytes (String.length url - String.length name - 2) url +:+ "." +:+ name +:+ "." +:+ mname.

Definition getExportComment (name url mname : string) : string :=
  default "" (docExport !! export_key name url mname).

Definition nth_in (rm : rmethod) (i : nat) : rtype := default (TBasic "") (rm_In rm !! i).

(** [document.add]. A module that is known keeps its URL, a method its fields. *)
Definition doc_add (fuel : nat) (name url : string) (rm : rmethod) (d : list (string * module_))
    : option (outcome (list (string * module_))) :=
  let md := default (mkModuleDoc url []) (find_entry name d) in
  let m := default (mkMethodDoc (getExportComment name url (rm_Name rm)) [] [])
             (find_entry (rm_Name rm) (mo_Methods md)) in
  let put m := insert_entry name
    (mkModuleDoc (mo_URL md) (insert_entry (rm_Name rm) m (mo_Methods md))) d in
  q ← parse fuel (nth_in rm 1) (md_Request m);
  match q with
  | Throw e => Some (Throw e)
  | Panic p => Some (Panic p)
  | Ret q =>
      p ← parse fuel (nth_in rm 2) (md_Response m);
      match p with
      | Throw e => Some (Throw e)
      | Panic p => Some (Panic p)
      | Ret p =>
          q' ← merge fuel q; p' ← merge fuel p;
          Some (Ret (put (mkMethodDoc (md_Comment m) q' p')))
      end
  end.
End add.

(** ** [Service], [router] and [proxy] *)

(** A registered type: the type's name and package without its pointer, and the
    methods of the value that was passed. *)
Record gotype := mkGoType { gt_Name : string; gt_PkgPath : string; gt_methods : list rmethod }.

(** The document, the router by method and path, and the paths the HTTP server
    knows. *)
Record svc := mkService {
  sv_doc : list (string * module_); sv_router : gmap string rmethod; sv_paths : list string
}.

Definition New : svc := mkService [] ∅ [].

Definition method_by_name (k : string) (t : gotype) : option rmethod :=
  snd <$> list_find (λ m, rm_Name m = k) (gt_methods t).

Section service.
Context `{Types} `{MapRange} `{MapVisits} `{Build}.

Definition service_url (t : gotype) : string :=
  let pkg := TrimPrefix (gt_PkgPath t) debug_Project in
  let pkg := if decide (pkg = "main") then "/main" else pkg in
  pkg +:+ "/" +:+ gt_Name t +:+ "/".

Definition exist_url (k url : string) : goerror := Errorf ("exist url:" +:+ k +:+ " " +:+ url).

Definition router_add (k url : string) (m : rmethod) (r : gmap string rmethod) : gmap string rmethod :=
  <[k +:+ url := m]> r.

(** One turn of the loop of [Register]; [None] when the document does not come
    to an end. *)
Definition register_method (fuel : nat) (t : gotype) (k : string) (s : svc) : option (outcome unit * svc) :=
  let url := service_url t in
  match method_by_name k t with
  | None => Some (Ret tt, s)
  | Some m =>
      if decide (length (rm_In m) = 3%nat) then
        if decide (ToUpper k +:+ url ∈ sv_paths s) then Some (Throw (exist_url (ToUpper k) url), s) else
        let s1 := mkService (sv_doc s) (router_add (ToUpper k) url m (sv_router s))
                    (sv_paths s ++ [ToUpper k +:+ url]) in
        d ← doc_add fuel (gt_Name t) url m (sv_doc s1);
        match d with
        | Ret d => Some (Ret tt, mkService d (sv_router s1) (sv_paths s1))
        | Throw e => Some (Throw e, s1)
        | Panic p => Some (Panic p, s1)
        end
      else Some (Ret tt, s)
  end.

Definition method_names : list string := ["Get"; "Post"; "Put"; "Delete"].

Fixpoint register_methods (fuel : nat) (t : gotype) (ks : list string) (s : svc) : option (outcome unit * svc) :=
  match ks with
  | [] => Some (Ret tt, s)
  | k :: rest =>
      r ← register_method fuel t k s;
      match r with
      | (Ret _, s') => register_methods fuel t rest s'
      | (o, s') => Some (o, s')
      end
  end.

Definition Register (fuel : nat) (t : gotype) (s : svc) : option (outcome unit * svc) :=
  register_methods fuel t method_names s.
End service.

(** What the program of the service brings: the values of its types, the decoding
    of a request's body into one, with its header, and its methods. *)
Class UserCode := {
  value : Type;
  parse_vars : rtype → Request → outcome value;
  invoke : rmethod → value → outcome json
}.

Definition not_a_pointer : string := "reflect: Elem of invalid type".
Definition field_of_non_struct : string := "reflect: call of reflect.Value.FieldByName on non-struct Value".

Section proxy.
Context `{UserCode}.

(** What [reflect.New] of the element type makes is a pointer: a method whose
    response is a slice is called with the wrong type. *)
Definition call_mismatch : string := "reflect: Call using pointer as slice".

(** The response type is what the second parameter points to; the request type
    has to be a struct. *)
Definition proxy (r : Request) (m : rmethod) : outcome reply :=
  match nth_in m 2 with
  | TPtr _ | TSlice _ =>
      match nth_in m 1 with
      | TStruct _ =>
          match parse_vars (nth_in m 1) r with
          | Ret v =>
              match nth_in m 2 with
              | TPtr _ => resp ← invoke m v; Ret (SendData (PJson resp))
              | _ => Panic call_mismatch
              end
          | Throw e => Ret (SendResponse StatusBadRequest (Error e))
          | Panic p => Panic p
          end
      | _ => Panic field_of_non_struct
      end
  | _ => Panic not_a_pointer
  end.

Definition service_handler (s : svc) (r : Request) : outcome reply :=
  match sv_router s !! (r_method r +:+ r_path r) with
  | None => Ret (WriteHeader StatusNotFound)
  | Some m => proxy r m
  end.
End proxy.

(** ** What is published *)

(** [GET] of the document; an empty map of children is left out. *)
Fixpoint encode_sfield (f : field) : json :=
  let '(mkField n t r child c _) := f in
  JObj ([("Name", JStr n); ("Type", JStr t); ("Required", JBool r)] ++
        match child with
        | None | Some [] => []
        | Some l => [("Child", encode_members (map (λ kv, (fst kv, encode_sfield (snd kv))) l))]
        end ++ [("Comment", JStr c)]).

Definition encode_sfields (l : list (string * field)) : json :=
  encode_members ((λ kv, (fst kv, encode_sfield (snd kv))) <$> l).

Definition encode_smethod (m : method) : json :=
  JObj [("Comment", JStr (md_Comment m)); ("Request", encode_sfields (md_Request m));
        ("Response", encode_sfields (md_Response m))].

Definition encode_smodule (m : module_) : json :=
  JObj [("URL", JStr (mo_URL m));
        ("Methods", encode_members ((λ kv, (fst kv, encode_smethod (snd kv))) <$> mo_Methods m))].

Definition document_GET (s : svc) : reply :=
  SendData (PJson (encode_members ((λ kv, (fst kv, encode_smodule (snd kv))) <$> sv_doc s))).

(** ** The page for people *)

Record docViewField := mkViewField { vf_Name : string; vf_Type : string; vf_Required : bool; vf_Comment : string }.

Record docViewMethod := mkViewMethod {
  vm_Name : string; vm_URL : string; vm_Method : string; vm_Comment : string;
  vm_Request : list docViewField; vm_Response : list docViewField
}.

Definition indent : string := "&nbsp;&nbsp;&sdot;&nbsp;&nbsp;".

Section view.
Context `{MapRange}.

(** [field.views]. A field's children are ranged over in the order of its list. *)
Fixpoint views (f : field) (level : nat) : list docViewField :=
  let '(mkField n t r child c _) := f in
  mkViewField (Repeat indent level +:+ n) t r c ::
  match child with
  | None => []
  | Some l => (fix loop (l : list (string * field)) :=
      match l with [] => [] | kv :: rest => (views (snd kv) (S level) ++ loop rest)%list end) l
  end.

(** The loop over a map of fields in [view]. *)
Fixpoint view_fields (l : list (string * field)) : list docViewField :=
  match l with
  | [] => []
  | kv :: rest =>
      let '(mkField n t r child c _) := snd kv in
      mkViewField n t r c :: (x ← default [] child; views (snd x) 1) ++ view_fields rest
  end.

Definition view_method (name url : string) (km : string * method) : docViewMethod :=
  mkViewMethod name url (fst km) (md_Comment (snd km))
    (view_fields (map_range (md_Request (snd km)))) (view_fields (map_range (md_Response (snd km)))).

Definition view (s : svc) : list docViewMethod :=
  kv ← map_range (sv_doc s); view_method (fst kv) (mo_URL (snd kv)) <$> map_range (mo_Methods (snd kv)).
End view.
