(* ===== verification/FrameworkTheory.v ===== *)
(** * FrameworkTheory: routes and documents of a service

    When the documentation of a type comes to an end, what [merge] leaves, which
    requests reach which methods, and what of a document arrives. *)

From Stdlib Require Import ZArith Lia Ascii.
From stdpp Require Import base gmap strings list sorting.
From S2P Require Import Prelude GoStrings Http Json Document DocumentTheory Framework.

(** ** Fields come to an end unless a type contains itself *)

Section newField.
Context `{Types}.

(** The struct [s'] is the type of a field of [s], behind at most a pointer and
    a slice. *)
Definition part_of (s' s : string) : Prop :=
  ∃ c, c ∈ struct_fields s ∧ child_struct (sf_Type c) = Some s'.

Definition field_loop (n : nat) :=
  fix loop (sfs : list StructField) (acc : list (string * field)) :=
    match sfs with
    | [] => Some acc
    | c :: rest =>
        match newField n c with
        | None => None
        | Some f => loop rest (insert_entry (sf_Name c) f acc)
        end
    end.

Lemma newField_S n sf :
  newField (S n) sf =
    match child_struct (sf_Type sf) with
    | None => Some (make_field sf None)
    | Some s => l ← field_loop n (struct_fields s) []; Some (make_field sf (children l))
    end.
Proof. reflexivity. Qed.

Lemma field_loop_some n sfs acc :
  is_Some (field_loop n sfs acc) ↔ Forall (λ c, is_Some (newField n c)) sfs.
Proof.
  revert acc. induction sfs as [|c sfs IH]; intros acc; simpl; [split; [constructor|by eexists]|].
  rewrite Forall_cons_iff. destruct (newField n c) as [f|]; [rewrite IH; naive_solver|].
  split; [by intros [? ?]|by intros [[? ?] _]].
Qed.

Lemma field_loop_mono n m sfs acc l :
  (∀ c f, newField n c = Some f → newField m c = Some f) →
  field_loop n sfs acc = Some l → field_loop m sfs acc = Some l.
Proof.
  intros Hm. revert acc. induction sfs as [|c sfs IH]; intros acc; simpl; [done|].
  destruct (newField n c) as [f|] eqn:E; [|done]. rewrite (Hm _ _ E). apply IH.
Qed.

(** More fuel gives the same field. *)
Lemma newField_mono n m sf f : (n ≤ m)%nat → newField n sf = Some f → newField m sf = Some f.
Proof.
  revert m sf f. induction n as [|n IH]; intros [|m] sf f Hle Hn; [done|done|lia|].
  rewrite newField_S in Hn |- *. destruct (child_struct _) as [s|]; [|done].
  destruct (field_loop n _ []) as [l|] eqn:E; [|done].
  rewrite (field_loop_mono n m _ _ _ (λ c f, IH m c f ltac:(lia)) E). exact Hn.
Qed.

Lemma common_fuel (sfs : list StructField) :
  Forall (λ c, ∃ n, is_Some (newField n c)) sfs → ∃ n, Forall (λ c, is_Some (newField n c)) sfs.
Proof.
  induction 1 as [|c sfs [n [f Hf]] HF [m IH]]; [by exists 0%nat|].
  exists (max n m). constructor; [exists f; eapply newField_mono; [|done]; lia|].
  eapply list.Forall_impl; [exact IH|]. intros c' [f' Hf']. exists f'. eapply newField_mono; [|done]. lia.
Qed.

(** Types from each of which a field leads to another of them. *)
Lemma endless (P : string → Prop) s : (∀ s, P s → ∃ s', part_of s' s ∧ P s') → P s → ¬ Acc part_of s.
Proof. intros HP Hs Ha. induction Ha as [s _ IH]. destruct (HP s Hs) as (s' & Hp & Hs'). by apply (IH s'). Qed.

Lemma newField_acc fuel sf s : child_struct (sf_Type sf) = Some s → is_Some (newField fuel sf) → Acc part_of s.
Proof.
  revert sf s. induction fuel as [|n IH]; intros sf s Hs Hf; [by destruct Hf|].
  rewrite newField_S, Hs in Hf.
  assert (Hl : is_Some (field_loop n (struct_fields s) [])).
  { destruct (field_loop n _ []); [by eexists|by destruct Hf]. }
  apply field_loop_some in Hl. constructor. intros s' (c & Hc & Hs'). rewrite list.Forall_forall in Hl.
  eapply IH; [exact Hs'|by apply Hl].
Qed.

Lemma acc_newField sf s : child_struct (sf_Type sf) = Some s → Acc part_of s → ∃ fuel, is_Some (newField fuel sf).
Proof.
  intros Hs Ha. revert sf Hs. induction Ha as [s _ IH]; intros sf Hs.
  assert (Hc : Forall (λ c, ∃ n, is_Some (newField n c)) (struct_fields s)).
  { apply list.Forall_forall. intros c Hc. destruct (child_struct (sf_Type c)) as [s'|] eqn:E.
    - eapply IH; [by exists c|done].
    - exists 1%nat. rewrite newField_S, E. by eexists. }
  apply common_fuel in Hc as [n Hn]. apply (field_loop_some n _ []) in Hn as [l Hl].
  exists (S n). rewrite newField_S, Hs, Hl. by eexists.
Qed.

(** C39: documenting a field comes to an end exactly when its type does not
    contain itself: for a struct from which a chain of fields leads back to it,
    or on for ever, [newField] calls itself without end; otherwise there is a
    depth it does not exceed, and going deeper changes nothing. *)
Theorem newField_terminates sf s :
  child_struct (sf_Type sf) = Some s →
  ((∃ fuel, is_Some (newField fuel sf)) ↔ Acc part_of s) ∧
  (Acc part_of s → ∃ fuel f, ∀ m, (fuel ≤ m)%nat → newField m sf = Some f).
Proof.
  intros Hs. split; [split|].
  - intros [fuel Hf]. by eapply newField_acc.
  - by apply acc_newField.
  - intros Ha. destruct (acc_newField sf s Hs Ha) as (fuel & f & Hf). exists fuel, f.
    intros m Hm. by eapply newField_mono.
Qed.
End newField.

(** ** Taking embedded structs apart *)

(** The number of fields, at all depths. *)
Fixpoint fsize (f : field) : nat :=
  let '(mkField _ _ _ child _ _) := f in
  S match child with None => 0 | Some l => list_sum (map (λ kv, fsize (snd kv)) l) end.

Fixpoint lsize (l : list (string * field)) : nat :=
  match l with [] => 0 | kv :: r => fsize (snd kv) + lsize r end.

Lemma fsize_child f : fsize f = S (lsize (default [] (f_child f))).
Proof.
  destruct f as [n t r [l|] c a]; [|done]. simpl. f_equal.
  induction l as [|kv l IH]; [done|]. simpl. by rewrite <-IH.
Qed.

Lemma lsize_app a b : lsize (a ++ b) = (lsize a + lsize b)%nat.
Proof. induction a as [|kv a IH]; simpl; lia. Qed.

Lemma lsize_perm a b : a ≡ₚ b → lsize a = lsize b.
Proof.
  induction 1 as [|x l l' _ IH|x y l|l l' l'' _ IH1 _ IH2]; simpl; lia.
Qed.

(** Keys are unique at all depths. *)
Inductive keys_ok : field → Prop :=
| keys_ok_leaf n t r c a : keys_ok (mkField n t r None c a)
| keys_ok_node n t r l c a :
    unique_keys l → Forall (λ kv, keys_ok (snd kv)) l → keys_ok (mkField n t r (Some l) c a).

Definition map_ok (l : list (string * field)) : Prop := unique_keys l ∧ Forall (λ kv, keys_ok (snd kv)) l.

Lemma keys_ok_child f : keys_ok f → map_ok (default [] (f_child f)).
Proof. destruct 1; simpl; [split; constructor|by split]. Qed.

(** No embedded struct is left at any depth. *)
Inductive taken_apart : field → Prop :=
| apart_leaf n t r c : taken_apart (mkField n t r None c false)
| apart_node n t r l c : Forall (λ kv, taken_apart (snd kv)) l → taken_apart (mkField n t r (Some l) c false).

(** Entries of a map. *)
Section entries.
Context {A : Type}.
Implicit Type l : list (string * A).

Lemma insert_entries_unique es l : unique_keys l → unique_keys (insert_entries es l).
Proof. revert l. induction es as [|[k v] es IH]; intros l Hl; [done|]. by apply IH, insert_entry_unique. Qed.

Lemma insert_entries_Forall (P : A → Prop) es l :
  Forall (λ kv, P (snd kv)) es → Forall (λ kv, P (snd kv)) l → Forall (λ kv, P (snd kv)) (insert_entries es l).
Proof.
  intros Hes. revert l. induction Hes as [|[k v] es Hv _ IH]; intros l Hl; [done|]. by apply IH, insert_entry_Forall.
Qed.

Lemma delete_entry_unique k l : unique_keys l → unique_keys (delete_entry k l).
Proof.
  unfold unique_keys, delete_entry. induction l as [|[k' v'] l IH]; [done|].
  intros [Hk Hl]%list.NoDup_cons. rewrite filter_cons. destruct (decide _); [|by apply IH].
  apply list.NoDup_cons. split; [|by apply IH]. intros Hin. apply Hk.
  apply list_elem_of_fmap in Hin as (x & -> & Hin). apply list_elem_of_filter in Hin as [_ Hin].
  by apply list_elem_of_fmap_2.
Qed.

Lemma delete_entry_Forall (P : A → Prop) k l :
  Forall (λ kv, P (snd kv)) l → Forall (λ kv, P (snd kv)) (delete_entry k l).
Proof.
  rewrite !list.Forall_forall. intros Hl kv Hkv. apply Hl. by apply list_elem_of_filter in Hkv as [_ ?].
Qed.

Lemma find_entry_elem k l v : find_entry k l = Some v → (k, v) ∈ l.
Proof.
  induction l as [|[k' v'] l IH]; [done|]. simpl. destruct (decide _) as [->|].
  - intros [= ->]. left.
  - intros Hv. right. by apply IH.
Qed.

Lemma find_entry_unique k l v : unique_keys l → (k, v) ∈ l → find_entry k l = Some v.
Proof.
  unfold unique_keys. induction l as [|[k' v'] l IH]; [by intros _ Hn%not_elem_of_nil|].
  intros [Hk Hl]%list.NoDup_cons [[= <- <-]|Hin]%elem_of_cons; simpl; [by rewrite decide_True|].
  rewrite decide_False; [by apply IH|]. intros ->. apply Hk. by apply (list_elem_of_fmap_2' _ _ (k, v)).
Qed.
End entries.

Lemma insert_entry_size k v l : (lsize (insert_entry k v l) ≤ lsize l + fsize v)%nat.
Proof.
  induction l as [|[k' v'] l IH]; simpl in *; [lia|]. destruct (decide _); simpl; lia.
Qed.

Lemma insert_entries_size es l : (lsize (insert_entries es l) ≤ lsize l + lsize es)%nat.
Proof.
  revert l. induction es as [|[k v] es IH]; intros l; [simpl; lia|]. simpl.
  specialize (IH (insert_entry k v l)). pose proof (insert_entry_size k v l).
  unfold insert_entries in *. simpl. lia.
Qed.

Lemma delete_entry_size k l v : find_entry k l = Some v → (lsize (delete_entry k l) + fsize v ≤ lsize l)%nat.
Proof.
  assert (Hle : ∀ l, (lsize (delete_entry k l) ≤ lsize l)%nat).
  { intros l'. unfold delete_entry. induction l' as [|[k' v'] l' IH]; [done|]. rewrite filter_cons.
    destruct (decide _); simpl in *; lia. }
  induction l as [|[k' v'] l IH]; [done|]. simpl. unfold delete_entry in *. rewrite filter_cons.
  destruct (decide (k' = k)) as [->|Hn]; simpl.
  - intros [= ->]. rewrite decide_False by by intros []. specialize (Hle l). lia.
  - intros Hv. specialize (IH Hv). rewrite decide_True by done. simpl. lia.
Qed.

Section merge.
Context `{MapRangeLaws} `{MapVisitsLaws}.

Definition b2n (b : bool) : nat := if b then 1 else 0.

(** A turn either leaves the map alone or makes it smaller. *)
Lemma merge_entry_step acc k :
  map_ok (fst acc) →
  map_ok (fst (merge_entry acc k)) ∧
  (lsize (fst (merge_entry acc k)) + b2n (snd (merge_entry acc k)) ≤ lsize (fst acc) + b2n (snd acc))%nat ∧
  (snd (merge_entry acc k) = false → merge_entry acc k = acc ∧
     ∀ v, find_entry k (fst acc) = Some v → f_anonymous v = false).
Proof.
  intros Hok. unfold merge_entry. destruct (find_entry k (fst acc)) as [v|] eqn:E; [|naive_solver].
  destruct (f_anonymous v) eqn:Ea; [|naive_solver]. destruct Hok as [Hu Hf].
  assert (Hv : keys_ok v).
  { rewrite list.Forall_forall in Hf. by apply (Hf (k, v)), find_entry_elem. }
  apply keys_ok_child in Hv as [Hcu Hcf]. split_and!; [|simpl|done].
  - split; [by apply insert_entries_unique, delete_entry_unique|].
    apply insert_entries_Forall; [by rewrite map_range_perm|by apply delete_entry_Forall].
  - pose proof (delete_entry_size k (fst acc) v E) as Hd.
    pose proof (insert_entries_size (map_range (default [] (f_child v))) (delete_entry k (fst acc))) as Hi.
    rewrite (lsize_perm _ _ (map_range_perm (default [] (f_child v)))) in Hi. rewrite fsize_child in Hd.
    destruct (snd acc); simpl; lia.
Qed.

Lemma merge_keys_step ks acc :
  map_ok (fst acc) →
  map_ok (fst (foldl merge_entry acc ks)) ∧
  (lsize (fst (foldl merge_entry acc ks)) + b2n (snd (foldl merge_entry acc ks))
     ≤ lsize (fst acc) + b2n (snd acc))%nat ∧
  (snd (foldl merge_entry acc ks) = false → foldl merge_entry acc ks = acc ∧
     ∀ k v, k ∈ ks → find_entry k (fst acc) = Some v → f_anonymous v = false).
Proof.
  revert acc. induction ks as [|k ks IH]; intros acc Hok.
  { simpl. split_and!; [done|lia|]. intros _. split; [done|]. by intros k v Hk%not_elem_of_nil. }
  simpl. destruct (merge_entry_step acc k Hok) as (Hok1 & Hs1 & Hf1).
  destruct (IH _ Hok1) as (Hok2 & Hs2 & Hf2). split_and!; [done|lia|]. intros Hno.
  destruct (Hf2 Hno) as [E2 Ha2].
  assert (Hno1 : snd (merge_entry acc k) = false) by (by rewrite <-E2).
  destruct (Hf1 Hno1) as [E1 Ha1]. rewrite E1 in *. split; [done|].
  intros k' v Hk Hv. apply elem_of_cons in Hk as [->|Hk]; [by apply Ha1|by eapply Ha2].
Qed.

Lemma merge_level_step fm :
  map_ok fm →
  let '(fm1, ok) := merge_level fm in
  map_ok fm1 ∧ (lsize fm1 + b2n ok ≤ lsize fm)%nat ∧
  (ok = false → fm1 = fm ∧ Forall (λ kv, f_anonymous (snd kv) = false) fm).
Proof.
  intros Hok. pose proof (merge_keys_step (map_visits fm) (fm, false) Hok) as (Hm1 & Hm2 & Hm3).
  unfold merge_level. destruct (foldl _ _ _) as [fm1 ok]. simpl in *. split_and!; [done|lia|].
  intros Hno. destruct (Hm3 Hno) as [E Ha]. injection E as -> ->. split; [done|].
  apply list.Forall_forall. intros [k v] Hkv. apply (Ha k); [|by apply find_entry_unique; [apply Hok|]].
  apply map_visits_all. by apply (list_elem_of_fmap_2' _ _ (k, v)).
Qed.

(** What a merged map is. *)
Definition merged (fm fm' : list (string * field)) : Prop :=
  map_ok fm' ∧ (lsize fm' ≤ lsize fm)%nat ∧ Forall (λ kv, taken_apart (snd kv)) fm'.

Notation merge_child n := (λ kv : string * field,
  match f_child (snd kv) with
  | None => Some kv
  | Some c => c' ← merge n c; Some (fst kv, with_child (Some c') (snd kv))
  end).

(** The children of a level, given that smaller maps can be merged. *)
Lemma merge_children n l :
  (∀ fm, map_ok fm → (lsize fm < n)%nat → ∃ fm', merge n fm = Some fm' ∧ merged fm fm') →
  map_ok l → (lsize l ≤ n)%nat →
  ∃ l', mapM (M := option) (merge_child n) l = Some l' ∧ map_ok l' ∧ (lsize l' ≤ lsize l)%nat ∧
    fst <$> l' = fst <$> l ∧
    (Forall (λ kv, f_anonymous (snd kv) = false) l → Forall (λ kv, taken_apart (snd kv)) l').
Proof.
  intros Hn [Hu Hf]. induction l as [|[k v] l IH]; intros Hl.
  { exists []. split_and!; [done|split; constructor|done|done|by constructor]. }
  apply Forall_cons_iff in Hf as [Hv Hf]. unfold unique_keys in Hu. apply list.NoDup_cons in Hu as [Hk Hu].
  simpl in Hl, Hv. destruct (IH Hu Hf) as (l' & E & [Hu' Hf'] & Hs & Hkeys & Ha); [lia|].
  assert (Hhead : ∃ v', (match f_child v with
      | None => Some (k, v)
      | Some c => c' ← merge n c; Some (k, with_child (Some c') v) end) = Some (k, v') ∧
      keys_ok v' ∧ (fsize v' ≤ fsize v)%nat ∧ (f_anonymous v = false → taken_apart v')).
  { destruct v as [nm t r [c|] cm a]; cbn [f_child f_anonymous with_child].
    - apply keys_ok_child in Hv. cbn [f_child from_option Datatypes.id] in Hv. rewrite fsize_child in Hl. cbn [f_child from_option Datatypes.id] in Hl.
      destruct (Hn c Hv) as (c' & Ec & [Hcu Hcf] & Hcs & Hca); [lia|].
      exists (mkField nm t r (Some c') cm a). rewrite Ec. split_and!; [done|by constructor| |].
      + rewrite !fsize_child. cbn [f_child from_option Datatypes.id]. lia.
      + intros ->. by constructor.
    - exists (mkField nm t r None cm a). split_and!; [done|done|done|]. intros ->. constructor. }
  destruct Hhead as (v' & Ev & Hv' & Hsv & Hav). exists ((k, v') :: l').
  cbn [mapM]. cbn [fst snd]. rewrite Ev. cbn [mbind option_bind]. rewrite E. split_and!.
  - done.
  - split; [|by constructor]. unfold unique_keys. rewrite fmap_cons, Hkeys. apply list.NoDup_cons. by split.
  - simpl. lia.
  - rewrite !fmap_cons, Hkeys. done.
  - intros [Hva Hla]%Forall_cons_iff. constructor; [by apply Hav|by apply Ha].
Qed.

Lemma merge_ends fuel fm :
  map_ok fm → (lsize fm < fuel)%nat → ∃ fm', merge fuel fm = Some fm' ∧ merged fm fm'.
Proof.
  revert fm. induction fuel as [|n IH]; intros fm Hok Hl; [lia|]. cbn [merge].
  pose proof (merge_level_step fm Hok) as Hstep. destruct (merge_level fm) as [fm1 ok].
  destruct Hstep as (Hok1 & Hs1 & Hno).
  assert (Hokr : map_ok (map_range fm1)).
  { destruct Hok1 as [Hu Hf]. split; [|by rewrite map_range_perm]. unfold unique_keys. by rewrite map_range_perm. }
  pose proof (lsize_perm _ _ (map_range_perm fm1)) as Hr.
  destruct (merge_children n (map_range fm1) IH Hokr) as (fm2 & E & Hok2 & Hs2 & _ & Ha); [lia|].
  rewrite E. cbn [mbind option_bind]. destruct ok.
  - simpl in Hs1. destruct (IH fm2 Hok2) as (fm' & E' & Hok' & Hs' & Ha'); [lia|]. exists fm'.
    split; [done|]. split_and!; [done|lia|done].
  - exists fm2. split; [done|]. destruct (Hno eq_refl) as [-> Hall]. split_and!; [done|lia|].
    apply Ha. by rewrite map_range_perm.
Qed.

(** More fuel gives the same map. *)
Lemma merge_mono n m fm fm' : (n ≤ m)%nat → merge n fm = Some fm' → merge m fm = Some fm'.
Proof.
  revert m fm fm'. induction n as [|n IH]; intros [|m] fm fm' Hle Hm; [done|done|lia|].
  cbn [merge] in Hm |- *. destruct (merge_level fm) as [fm1 ok].
  destruct (mapM (merge_child n) (map_range fm1)) as [fm2|] eqn:E; cbn [mbind option_bind] in Hm; [|done].
  assert (mapM (merge_child m) (map_range fm1) = Some fm2) as ->.
  { clear Hm. revert fm2 E. generalize (map_range fm1). intros l. induction l as [|kv l IHl]; intros fm2 E; [done|].
    cbn [mapM] in E |- *. destruct (f_child (snd kv)) as [c|].
    - destruct (merge n c) as [c'|] eqn:Ec; cbn [mbind option_bind] in E; [|done].
      rewrite (IH m c c' ltac:(lia) Ec). cbn [mbind option_bind].
      destruct (mapM _ l) as [l'|] eqn:El; cbn [mbind option_bind] in E; [|done].
      injection E as <-. by rewrite (IHl l' eq_refl).
    - cbn [mbind option_bind] in E |- *. destruct (mapM _ l) as [l'|] eqn:El; cbn [mbind option_bind] in E; [|done].
      injection E as <-. by rewrite (IHl l' eq_refl). }
  cbn [mbind option_bind]. destruct ok; [|done]. apply (IH m); [lia|done].
Qed.

Lemma merge_returns fm :
  map_ok fm → ∃ n fm', map_ok fm' ∧ ∀ m, (n ≤ m)%nat → merge m fm = Some fm'.
Proof.
  intros Hok. destruct (merge_ends (S (lsize fm)) fm Hok) as (fm' & Hm & Hok' & _); [lia|].
  exists (S (lsize fm)), fm'. split; [done|]. intros m Hle. by eapply merge_mono.
Qed.

(** C38: merging comes to an end: with one more turn than there are fields, the
    loop over a map and its children stops, and what it leaves has no embedded
    struct at any depth, one field per name and no more fields than before,
    whatever the order of the maps, whichever of the entries put in meanwhile a
    loop comes to, and however the names clash. *)
Theorem merge_terminates fuel fm :
  map_ok fm → (lsize fm < fuel)%nat → ∃ fm', merge fuel fm = Some fm' ∧ merged fm fm'.
Proof. apply merge_ends. Qed.
End merge.

(** ** The published document *)

(** What the platform makes of a field: no children and an empty map of them are
    the same. *)
Fixpoint to_document (f : field) : Field :=
  let '(mkField n t r child c _) := f in
  mkDocField n t r c
    match child with
    | None | Some [] => None
    | Some l => Some (map (λ kv, (fst kv, to_document (snd kv))) l)
    end.

Definition to_documents (l : list (string * field)) : list (string * Field) :=
  (λ kv, (fst kv, to_document (snd kv))) <$> l.

Definition to_method (m : method) : Method :=
  mkMethod (md_Comment m) (Some (to_documents (md_Request m))) (Some (to_documents (md_Response m))).

Section field_induction.
Variable P : field → Prop.
Hypothesis leaf : ∀ n t r c a, P (mkField n t r None c a).
Hypothesis node : ∀ n t r l c a, Forall (λ kv, P (snd kv)) l → P (mkField n t r (Some l) c a).

Fixpoint field_nested_ind (f : field) : P f :=
  match f with
  | mkField n t r None c a => leaf n t r c a
  | mkField n t r (Some l) c a =>
      node n t r l c a
        ((fix go (l : list (string * field)) : Forall (λ kv, P (snd kv)) l :=
          match l with
          | [] => @Forall_nil _ _
          | kv :: l' => @Forall_cons _ _ kv l' (field_nested_ind (snd kv)) (go l')
          end) l)
  end.
End field_induction.

Section published.
Context `{MapRangeLaws}.

Lemma decode_published n t r c es :
  decode_field (JObj [("Name", JStr n); ("Type", JStr t); ("Required", JBool r); ("Child", JObj es);
                      ("Comment", JStr c)]) =
    let '(l, e) := foldl decode_entry ([], None) es in (mkDocField n t r c (Some (map_range l)), e).
Proof.
  rewrite <-child_loop_foldl.
  transitivity (field_member
    (let '(ch, e) := (let '(l, e) := child_loop es [] None in (Some (map_range l), e)) in
     (mkDocField n t r "" ch, first_error None e)) ("Comment", JStr c)); [reflexivity|].
  destruct (child_loop es [] None) as [l [e|]]; reflexivity.
Qed.

Lemma field_published f :
  keys_ok f → ∃ f', decode_field (encode_sfield f) = (f', None) ∧ map_of_field f' = map_of_field (to_document f).
Proof.
  induction f as [n t r c a|n t r l c a IH] using field_nested_ind; intros Hok.
  - by exists (mkDocField n t r c None).
  - inversion Hok as [|? ? ? ? ? ? Hu Hall]; subst. destruct l as [|kv0 l0]; [by exists (mkDocField n t r c None)|].
    set (l := kv0 :: l0) in *.
    destruct (entries_survive encode_sfield (map_of_field ∘ to_document) l Hu) as (l' & Hl & Hm).
    { apply list.Forall_forall. intros kv Hkv. rewrite list.Forall_forall in IH, Hall. auto. }
    exists (mkDocField n t r c (Some (map_range l'))). split.
    + transitivity (decode_field (JObj [("Name", JStr n); ("Type", JStr t); ("Required", JBool r);
        ("Child", JObj (merge_sort member_le ((λ kv, (fst kv, encode_sfield (snd kv))) <$> l)));
        ("Comment", JStr c)])); [reflexivity|].
      by rewrite decode_published, Hl.
    + etransitivity; [exact (f_equal (λ m, FieldMap n t r c (Some m)) Hm)|].
      cbn [to_document map_of_field]. do 2 f_equal. unfold l. cbn [map]. simpl. by rewrite map_map.
Qed.

Lemma fields_published l :
  map_ok l → ∃ m, decode_fields (encode_sfields l) None = (m, None) ∧
    map_of_fields m = map_of_fields (Some (to_documents l)).
Proof.
  intros [Hu Hf].
  destruct (entries_survive encode_sfield (map_of_field ∘ to_document) l Hu) as (l' & Hl & Hm).
  { eapply list.Forall_impl; [exact Hf|]. intros kv. apply field_published. }
  exists (Some (map_range l')). split.
  - unfold encode_sfields, decode_fields, encode_members. simpl. by rewrite Hl.
  - unfold map_of_fields. simpl. f_equal. etransitivity; [exact Hm|]. unfold to_documents.
    by rewrite <-list_fmap_compose.
Qed.

Lemma method_arrives m :
  map_ok (md_Request m) → map_ok (md_Response m) →
  ∃ m', decode_method (encode_smethod m) (mkMethod "" None None) = (m', None) ∧
        map_of_method m' = map_of_method (to_method m).
Proof.
  intros Hq Hs. destruct (fields_published _ Hq) as (q & Eq & Mq), (fields_published _ Hs) as (p & Es & Ms).
  exists (mkMethod (md_Comment m) q p). split; [|unfold map_of_method, to_method; simpl; by rewrite Mq, Ms].
  unfold decode_method, encode_smethod. cbn [foldl].
  change (method_member _ ("Comment", _)) with (mkMethod (md_Comment m) None None, @None goerror).
  rewrite method_member_request. cbn [m_Request]. rewrite Eq. cbn [first_error m_Comment m_Response].
  rewrite method_member_response. cbn [m_Response]. by rewrite Es.
Qed.


(** What the platform reads of a published method is what the service says:
    the comment and, at every depth, the fields with their types, whether they
    are required and their comments, in whatever order the maps are ranged
    over. *)
Theorem published_method_arrives m :
  map_ok (md_Request m) → map_ok (md_Response m) →
  ∃ m', decode_method (encode_smethod m) (mkMethod "" None None) = (m', None) ∧
        map_of_method m' = map_of_method (to_method m).
Proof. apply method_arrives. Qed.
End published.

(** ** Routes *)

Section routes.
Context `{Types} `{MapRangeLaws} `{MapVisitsLaws} `{Build}.

(** The method a type answers a key with: a method and a path, written one after
    the other. *)
Definition route_for (t : gotype) (ks : list string) (key : string) : option rmethod :=
  k ← snd <$> list_find (λ k, ToUpper k +:+ service_url t = key) ks;
  m ← method_by_name k t;
  if decide (length (rm_In m) = 3%nat) then Some m else None.

Lemma register_method_run fuel t k s s' :
  register_method fuel t k s = Some (Ret tt, s') →
  ∀ key, sv_router s' !! key =
    match route_for t [k] key with Some m => Some m | None => sv_router s !! key end.
Proof.
  intros Hr key. revert Hr. unfold register_method, route_for. cbn [list_find].
  destruct (decide (ToUpper k +:+ service_url t = key)) as [Hk|Hk];
    cbn [fmap option_fmap option_map snd mbind option_bind];
    (destruct (method_by_name k t) as [m|]; cbn [mbind option_bind]; [|by intros [= <-]]);
    (destruct (decide (length (rm_In m) = 3%nat)) as [Hl|Hl]; [|by intros [= <-]]);
    (destruct (decide (_ ∈ sv_paths s)); [done|]);
    (destruct (doc_add _ _ _ _ _) as [[d|e|p]|]; cbn [mbind option_bind]; [|done..]);
    intros [= <-]; simpl; unfold router_add.
  - rewrite Hk. by rewrite lookup_insert_eq.
  - by rewrite lookup_insert_ne.
Qed.

(** Different names make different keys. *)
Lemma keys_differ t k k' :
  k ∈ method_names → k' ∈ method_names → ToUpper k +:+ service_url t = ToUpper k' +:+ service_url t → k = k'.
Proof.
  unfold method_names. intros Hk Hk' He.
  repeat (apply elem_of_cons in Hk as [->|Hk]; [|]); [..|by apply elem_of_nil in Hk];
    (repeat (apply elem_of_cons in Hk' as [->|Hk']; [|]); [..|by apply elem_of_nil in Hk']);
    first [reflexivity|discriminate He].
Qed.

Lemma register_methods_run fuel t ks s s' :
  NoDup ks → Forall (λ k, k ∈ method_names) ks →
  register_methods fuel t ks s = Some (Ret tt, s') →
  ∀ key, sv_router s' !! key =
    match route_for t ks key with Some m => Some m | None => sv_router s !! key end.
Proof.
  intros Hnd HF. revert s. induction ks as [|k ks IH]; intros s Hr key; [by injection Hr as <-|].
  apply list.NoDup_cons in Hnd as [Hk Hnd]. apply Forall_cons_iff in HF as [Hm HF].
  cbn [register_methods] in Hr. destruct (register_method fuel t k s) as [[[[]|e|p] s1]|] eqn:E1;
    cbn [mbind option_bind] in Hr; [|done..].
  rewrite (IH Hnd HF s1 Hr key), (register_method_run _ _ _ _ _ E1 key). unfold route_for.
  cbn [list_find]. destruct (decide (ToUpper k +:+ service_url t = key)) as [Hkey|Hkey];
    cbn [fmap option_fmap option_map snd mbind option_bind].
  - destruct (list_find _ ks) as [[i k']|] eqn:El; cbn [fmap option_fmap option_map snd mbind option_bind]; [|done].
    apply list_find_Some in El as (Hi & Hk' & _). exfalso. apply Hk.
    rewrite (keys_differ t k k' Hm); [by eapply list_elem_of_lookup_2| |congruence].
    rewrite list.Forall_forall in HF. by apply HF, (list_elem_of_lookup_2 _ i).
  - destruct (list_find _ ks) as [[i k']|]; done.
Qed.

(** A parameter that can be documented: a struct or a pointer to one, none of whose
    fields but the request header leads to a type that contains itself. *)
Definition documentable (arg : rtype) : Prop :=
  ∃ s, strip_ptr arg = TStruct s ∧
    ∀ sf s', sf ∈ struct_fields s → type_string (sf_Type sf) ≠ "service.RequestHeader" →
      child_struct (sf_Type sf) = Some s' → Acc part_of s'.

(** The methods of a type that become routes. *)
Definition routed (t : gotype) (k : string) (m : rmethod) : Prop :=
  k ∈ method_names ∧ method_by_name k t = Some m ∧ length (rm_In m) = 3%nat.

Definition documented_ok (km : string * method) : Prop := map_ok (md_Request (snd km)) ∧ map_ok (md_Response (snd km)).

(** Every map of fields of the document has one field per name. *)
Definition doc_ok (d : list (string * module_)) : Prop :=
  Forall (λ md, Forall documented_ok (mo_Methods (snd md))) d.

Lemma newField_keys n sf f : newField n sf = Some f → keys_ok f.
Proof.
  revert sf f. induction n as [|n IH]; intros sf f; [done|]. rewrite newField_S.
  destruct (child_struct (sf_Type sf)) as [s|]; [|intros [= <-]; constructor].
  assert (Hl : ∀ sfs acc l, map_ok acc → field_loop n sfs acc = Some l → map_ok l).
  { induction sfs as [|c sfs IHs]; intros acc l Hok; simpl; [by intros [= <-]|].
    destruct (newField n c) as [g|] eqn:E; [|done]. apply IHs. destruct Hok as [Hu Hf].
    split; [by apply insert_entry_unique|]. apply insert_entry_Forall; [by eapply IH|done]. }
  destruct (field_loop n (struct_fields s) []) as [l|] eqn:E; cbn [mbind option_bind]; [|done]. intros [= <-].
  destruct (Hl (struct_fields s) [] l) as [Hu Hf]; [split; constructor|done|]. destruct l; simpl; [constructor|by constructor].
Qed.

Lemma newField_returns sf :
  (∀ s', child_struct (sf_Type sf) = Some s' → Acc part_of s') →
  ∃ n f, keys_ok f ∧ ∀ m, (n ≤ m)%nat → newField m sf = Some f.
Proof.
  intros Hacc. destruct (child_struct (sf_Type sf)) as [s'|] eqn:E.
  - destruct (acc_newField sf s' E (Hacc s' eq_refl)) as (n & f & Hf). exists n, f.
    split; [by eapply newField_keys|]. intros m Hm. by eapply newField_mono.
  - exists 1%nat, (make_field sf None). split; [constructor|]. intros [|m] Hm; [lia|]. by rewrite newField_S, E.
Qed.

Lemma parse_returns arg fm :
  documentable arg → map_ok fm → ∃ n fm', map_ok fm' ∧ ∀ m, (n ≤ m)%nat → parse m arg fm = Some (Ret fm').
Proof.
  intros (s & Hs & Hacc) Hok. unfold parse. rewrite Hs. clear Hs.
  revert fm Hok. induction (struct_fields s) as [|c sfs IH]; intros fm Hok; [by exists 0%nat, fm|].
  cbn [parse_fields]. destruct (decide _) as [|Hh].
  { apply IH; [|done]. intros sf s' Hin. apply Hacc. by right. }
  destruct (newField_returns c) as (n & f & Hkf & Hf); [intros s'; by apply Hacc; [left|]|].
  destruct (IH ltac:(intros sf s' Hin; apply Hacc; by right) (insert_entry (sf_Name c) f fm)) as (n' & fm' & Hok' & Hp).
  { destruct Hok as [Hu HF]. split; [by apply insert_entry_unique|by apply insert_entry_Forall]. }
  exists (max n n'), fm'. split; [done|]. intros m Hm. rewrite Hf by lia. apply Hp. lia.
Qed.

Lemma doc_add_returns name url rm d :
  documentable (nth_in rm 1) → documentable (nth_in rm 2) → doc_ok d →
  ∃ n d', doc_ok d' ∧ ∀ m, (n ≤ m)%nat → doc_add m name url rm d = Some (Ret d').
Proof.
  intros Hq Hp Hd. unfold doc_add.
  set (md := default _ (find_entry name d)). set (me := default _ (find_entry (rm_Name rm) _)).
  assert (Hmd : Forall documented_ok (mo_Methods md)).
  { unfold md. destruct (find_entry name d) as [x|] eqn:E; [|constructor].
    unfold doc_ok in Hd. rewrite list.Forall_forall in Hd. by apply (Hd (name, x)), find_entry_elem. }
  assert (Hme : documented_ok (rm_Name rm, me)).
  { unfold me. destruct (find_entry (rm_Name rm) _) as [x|] eqn:E; [|split; split; constructor].
    rewrite list.Forall_forall in Hmd. by apply (Hmd (rm_Name rm, x)), find_entry_elem. }
  destruct Hme as [Hrq Hrp].
  destruct (parse_returns _ _ Hq Hrq) as (n1 & q & Hok1 & E1).
  destruct (parse_returns _ _ Hp Hrp) as (n2 & p & Hok2 & E2).
  destruct (merge_returns q Hok1) as (n3 & q' & Hok3 & E3).
  destruct (merge_returns p Hok2) as (n4 & p' & Hok4 & E4).
  eexists (max (max n1 n2) (max n3 n4)), _. split; cycle 1.
  - intros m Hm. rewrite E1 by lia. cbn [mbind option_bind]. rewrite E2 by lia. cbn [mbind option_bind].
    rewrite E3 by lia. cbn [mbind option_bind]. rewrite E4 by lia. cbn [mbind option_bind]. reflexivity.
  - apply (insert_entry_Forall (λ md, Forall documented_ok (mo_Methods md))); [|done]. simpl.
    apply (insert_entry_Forall (λ m, map_ok (md_Request m) ∧ map_ok (md_Response m))); [by split|done].
Qed.

Lemma register_methods_returns t ks s :
  NoDup ks → Forall (λ k, k ∈ method_names) ks → doc_ok (sv_doc s) →
  (∀ k m, routed t k m → documentable (nth_in m 1) ∧ documentable (nth_in m 2)) →
  (∀ k m, k ∈ ks → routed t k m → ToUpper k +:+ service_url t ∉ sv_paths s) →
  ∃ n s', doc_ok (sv_doc s') ∧ ∀ m, (n ≤ m)%nat → register_methods m t ks s = Some (Ret tt, s').
Proof.
  intros Hnd HF Hd Hdoc. revert s Hd. induction ks as [|k ks IH]; intros s Hd Hfree; [by exists 0%nat, s|].
  apply list.NoDup_cons in Hnd as [Hk Hnd]. apply Forall_cons_iff in HF as [Hm HF].
  cbn [register_methods]. unfold register_method. specialize (IH Hnd HF).
  assert (Hskip : ∀ s1, doc_ok (sv_doc s1) → sv_paths s1 = sv_paths s →
    ∃ n s', doc_ok (sv_doc s') ∧ ∀ m, (n ≤ m)%nat → register_methods m t ks s1 = Some (Ret tt, s')).
  { intros s1 Hd1 Hs1. apply IH; [done|]. intros k' m' Hk' Hr'. rewrite Hs1. apply (Hfree k' m'); [by right|done]. }
  destruct (method_by_name k t) as [rm|] eqn:Em; cbn [mbind option_bind]; [|by apply Hskip].
  destruct (decide (length (rm_In rm) = 3%nat)) as [Hl|Hl]; cbn [mbind option_bind]; [|by apply Hskip].
  assert (Hrm : routed t k rm) by done.
  destruct (decide (_ ∈ sv_paths s)) as [Hin|_]; [by destruct (Hfree k rm ltac:(by left) Hrm)|].
  destruct (Hdoc k rm Hrm) as [Hq Hp].
  destruct (doc_add_returns (gt_Name t) (service_url t) rm (sv_doc s) Hq Hp Hd) as (n1 & d & Hd1 & E1).
  set (s1 := mkService d (router_add (ToUpper k) (service_url t) rm (sv_router s))
               (sv_paths s ++ [ToUpper k +:+ service_url t])).
  destruct (IH s1 Hd1) as (n2 & s' & Hd' & E2).
  { intros k' m' Hk' Hr' [Hin|Hin%list_elem_of_singleton]%elem_of_app.
    - apply (Hfree k' m'); [by right|done|done].
    - destruct Hr' as (Hm' & _). apply Hk. by rewrite (keys_differ t k k' Hm Hm'). }
  exists (max n1 n2), s'. split; [done|]. intros m Hle. cbn [sv_doc sv_router sv_paths]. rewrite E1 by lia.
  cbn [mbind option_bind]. apply E2. lia.
Qed.

(** C37: a type whose parameters can be documented, and whose paths are not taken,
    is registered: with enough fuel [Register] returns, without an error, and from
    then on a request reaches the method [Get], [Post], [Put] or [Delete] exactly
    when it is sent with that HTTP method to the URL of the type, its last slash
    included, and the method takes a request and a response; requests to other
    types go where they went before, and all others are not found. *)
Theorem registered_routes t s `{UserCode} :
  doc_ok (sv_doc s) →
  (∀ k m, routed t k m → documentable (nth_in m 1) ∧ documentable (nth_in m 2) ∧
     ToUpper k +:+ service_url t ∉ sv_paths s) →
  ∃ fuel s', (∀ n, (fuel ≤ n)%nat → Register n t s = Some (Ret tt, s')) ∧ doc_ok (sv_doc s') ∧
    ∀ r, service_handler s' r =
      match route_for t method_names (r_method r +:+ r_path r) with
      | Some m => proxy r m
      | None => service_handler s r
      end.
Proof.
  intros Hd Ht.
  destruct (register_methods_returns t method_names s) as (fuel & s' & Hd' & Hr);
    [by apply (bool_decide_eq_true_1 (NoDup _))|by apply list.Forall_forall|done|naive_solver|naive_solver|].
  exists fuel, s'. split; [exact Hr|]. split; [done|]. intros r. unfold service_handler.
  rewrite (register_methods_run fuel t method_names s s'); [|by apply (bool_decide_eq_true_1 (NoDup _))| |by apply Hr].
  - by destruct (route_for t method_names _).
  - by apply list.Forall_forall.
Qed.

(** ** Modules of one name *)

Lemma find_insert_entry {A} k (v : A) l : find_entry k (insert_entry k v l) = Some v.
Proof.
  induction l as [|[k' v'] l IH]; simpl; [by rewrite decide_True|].
  destruct (decide (k' = k)) as [->|Hn]; simpl; [by rewrite decide_True|by rewrite decide_False].
Qed.

(** Types of one name in different packages share a module: the methods of
    the second are documented under the URL of the first, so the platform learns
    an address on which they do not answer. *)
Theorem modules_share_their_url fuel name url rm md d d' :
  find_entry name d = Some md → doc_add fuel name url rm d = Some (Ret d') →
  ∃ md', find_entry name d' = Some md' ∧ mo_URL md' = mo_URL md ∧ is_Some (find_entry (rm_Name rm) (mo_Methods md')).
Proof.
  intros Hd Ha. unfold doc_add in Ha. rewrite Hd in Ha. cbn [default from_option] in Ha.
  destruct (parse fuel (nth_in rm 1) _) as [[q|e|p]|]; cbn [mbind option_bind] in Ha; [|done..].
  destruct (parse fuel (nth_in rm 2) _) as [[p|e|p]|]; cbn [mbind option_bind] in Ha; [|done..].
  destruct (merge fuel q) as [q'|]; cbn [mbind option_bind] in Ha; [|done].
  destruct (merge fuel p) as [p'|]; cbn [mbind option_bind] in Ha; [|done].
  injection Ha as <-. eexists. split; [apply find_insert_entry|]. split; [done|].
  simpl. rewrite find_insert_entry. by eexists.
Qed.

(** A request type that is a pointer is registered and documented, and every call
    panics. *)
Lemma pointer_request_panics `{UserCode} t r m :
  nth_in m 1 = TPtr t → is_panic (proxy r m) = true.
Proof. intros Hm. unfold proxy. rewrite Hm. by destruct (nth_in m 2). Qed.

(** A method whose request holds a type that contains itself is never
    registered: [Register] does not return. *)
Lemma parse_never_returns fuel s sf s' fm :
  sf ∈ struct_fields s → type_string (sf_Type sf) ≠ "service.RequestHeader" →
  child_struct (sf_Type sf) = Some s' → ¬ Acc part_of s' → parse fuel (TStruct s) fm = None.
Proof.
  intros Hin Hh Hc Hacc. unfold parse. cbn [strip_ptr].
  assert (Hn : newField fuel sf = None).
  { destruct (newField fuel sf) as [f|] eqn:E; [|done]. destruct Hacc.
    apply (newField_acc fuel sf s' Hc). rewrite E. by eexists. }
  assert (Hp : parse_fields fuel (struct_fields s) fm = None); [|by rewrite Hp].
  revert fm. induction (struct_fields s) as [|c l IH]; intros fm; [by apply not_elem_of_nil in Hin|].
  simpl. apply elem_of_cons in Hin as [<-|Hin].
  - rewrite decide_False by done. by rewrite Hn.
  - specialize (IH Hin). destruct (decide _); [apply IH|]. destruct (newField fuel c); [apply IH|done].
Qed.
End routes.

(** ** Runs

    The service of [service_test.go], a header that leads back to itself, and two
    types of one name. *)

Module Hello.
Definition plain (name type : string) : StructField := mkStructField name (TBasic type) "" "" "" false.

Definition base_field : StructField := mkStructField "Base" (TStruct "user.Base") "" "" "" true.
Definition header_field : StructField :=
  mkStructField "RequestHeader" (TPtr (TStruct "service.RequestHeader")) "" "" "" true.
Definition info_field : StructField := mkStructField "User" (TStruct "user.UserInfo") "" "" "" false.

#[local] Instance types : Types := λ s,
  if decide (s = "user.UserInfo") then
    [mkStructField "Name" (TBasic "string") "the name" "true" "name" false;
     mkStructField "Email" (TBasic "string") "the address" "" "email,omitempty" false]
  else if decide (s = "user.UserRequest") then
    [mkStructField "RequestHeader" (TStruct "service.RequestHeader") "" "" "" true;
     plain "ID" "int"; info_field]
  else if decide (s = "user.UserResponse") then [base_field; plain "Message" "string"]
  else if decide (s = "user.Base") then [plain "Code" "int"]
  else if decide (s = "service.RequestHeader") then
    [plain "Session" "string"; mkStructField "Request" (TStruct "http.Request") "" "" "" false]
  else if decide (s = "http.Request") then
    [plain "Method" "string"; mkStructField "Response" (TPtr (TStruct "http.Response")) "" "" "" false]
  else if decide (s = "http.Response") then
    [plain "Status" "string"; mkStructField "Request" (TPtr (TStruct "http.Request")) "" "" "" false]
  else [].

#[local] Instance in_order : MapRange := λ A l, l.
#[local] Instance in_order_laws : MapRangeLaws := λ A l, reflexivity l.
#[local] Instance as_found : MapVisits := fmap fst.
#[local] Instance as_found_laws : MapVisitsLaws := λ l k Hk, Hk.
#[local] Instance build : Build := {|
  docExport := {[ "git/shop/user.User.Post" := "adds a user" ]}; debug_Project := "git/shop"
|}.
#[local] Instance code : UserCode := {|
  value := unit; parse_vars _ _ := Ret tt; invoke m _ := Ret (JStr (rm_Name m))
|}.

Definition handler_method (name : string) : rmethod :=
  mkRMethod name [TStruct "user.User"; TStruct "user.UserRequest"; TPtr (TStruct "user.UserResponse")].

Definition User : gotype := mkGoType "User" "git/shop/user" [handler_method "Get"; handler_method "Post"].

Definition registered : svc := from_option snd New (Register 9 User New).

(** The header a request type holds by a pointer is not recognised, and the
    request in it leads to a response and back. *)
Theorem newField_terminates_witness :
  (∃ fuel, is_Some (newField fuel info_field)) ∧ ¬ ∃ fuel, is_Some (newField fuel header_field).
Proof.
  split.
  - apply (proj1 (newField_terminates info_field "user.UserInfo" eq_refl)).
    constructor. intros s' (c & Hc & Hs'). vm_compute in Hc.
    apply elem_of_cons in Hc as [->|Hc]; [discriminate Hs'|].
    apply list_elem_of_singleton in Hc as ->. discriminate Hs'.
  - intros Hn. apply (proj1 (newField_terminates header_field "service.RequestHeader" eq_refl)) in Hn. revert Hn.
    apply (endless (λ s, s = "service.RequestHeader" ∨ s = "http.Request" ∨ s = "http.Response")); [|by left].
    intros s [-> |[-> | ->]].
    + exists "http.Request". split; [|tauto]. eexists. split; [apply list_elem_of_further, list_elem_of_here|reflexivity].
    + exists "http.Response". split; [|tauto]. eexists. split; [apply list_elem_of_further, list_elem_of_here|reflexivity].
    + exists "http.Request". split; [|tauto]. eexists. split; [apply list_elem_of_further, list_elem_of_here|reflexivity].
Defined.

(** The embedded [Base], whose [Message] replaces the outer one. *)
Definition embedding : list (string * field) :=
  [("Base", mkField "Base" "user.Base" false
      (Some [("Code", mkField "Code" "int" false None "" false);
             ("Message", mkField "Message" "[]byte" false None "" false)]) "" true);
   ("Message", mkField "Message" "string" false None "" false)].

Theorem merge_terminates_witness :
  ∃ fm, merge 5 embedding = Some fm ∧ Forall (λ kv, taken_apart (snd kv)) fm ∧
    find_entry "Message" fm = Some (mkField "Message" "[]byte" false None "" false).
Proof.
  destruct (merge_terminates 5 embedding) as (fm & Hm & _ & _ & Ha).
  - split; [by apply (bool_decide_eq_true_1 (NoDup _))|].
    constructor; [|repeat constructor]. constructor; [by apply (bool_decide_eq_true_1 (NoDup _))|repeat constructor].
  - vm_compute. repeat constructor.
  - exists fm. split; [exact Hm|]. split; [exact Ha|]. vm_compute in Hm. injection Hm as <-. reflexivity.
Defined.

Definition asked (m path : string) : Request := mkRequest m path ∅ ∅ (Ret ∅) (Ret "{}").

Lemma user_documentable m :
  m = handler_method "Get" ∨ m = handler_method "Post" → documentable (nth_in m 1) ∧ documentable (nth_in m 2).
Proof.
  intros Hm.
  assert (Hs : ∀ s, s = "user.UserInfo" ∨ s = "user.Base" → Acc part_of s).
  { intros s Hs. constructor. intros s' (c & Hc & Hs').
    destruct Hs as [-> | ->]; vm_compute in Hc;
      repeat (apply elem_of_cons in Hc as [->|Hc]; [discriminate Hs'|]); by apply not_elem_of_nil in Hc. }
  assert (Hq : documentable (TStruct "user.UserRequest")).
  { exists "user.UserRequest". split; [done|]. intros sf s' Hin Hh Hc. vm_compute in Hin.
    repeat (apply elem_of_cons in Hin as [->|Hin]; [first [discriminate Hc | destruct Hh; reflexivity | apply Hs; injection Hc as <-; by (left + right)]|]).
    by apply not_elem_of_nil in Hin. }
  assert (Hp : documentable (TPtr (TStruct "user.UserResponse"))).
  { exists "user.UserResponse". split; [done|]. intros sf s' Hin Hh Hc. vm_compute in Hin.
    repeat (apply elem_of_cons in Hin as [->|Hin]; [first [discriminate Hc | destruct Hh; reflexivity | apply Hs; injection Hc as <-; by (left + right)]|]).
    by apply not_elem_of_nil in Hin. }
  by destruct Hm as [-> | ->].
Qed.

Lemma user_methods k m : method_by_name k User = Some m → m = handler_method "Get" ∨ m = handler_method "Post".
Proof.
  unfold method_by_name. destruct (list_find _ _) as [[i x]|] eqn:E; [|done]. intros [= <-].
  apply list_find_Some in E as (Hi & _). apply list_elem_of_lookup_2 in Hi.
  apply elem_of_cons in Hi as [->|Hi]; [by left|]. apply list_elem_of_singleton in Hi as ->. by right.
Qed.

(** The last request is the one of the service's own test. *)
Theorem registered_routes_witness :
  ∃ s', (∃ fuel, ∀ n, (fuel ≤ n)%nat → Register n User New = Some (Ret tt, s')) ∧
    service_handler s' (asked "POST" "/user/User/") = proxy (asked "POST" "/user/User/") (handler_method "Post") ∧
    service_handler s' (asked "DELETE" "/user/User/") = Ret (WriteHeader StatusNotFound) ∧
    service_handler s' (asked "GET" "/goapi/service/User") = Ret (WriteHeader StatusNotFound).
Proof.
  destruct (registered_routes User New) as (fuel & s' & Hr & _ & Hroutes).
  - constructor.
  - intros k m (_ & Hm & _). apply user_methods, user_documentable in Hm as [Hq Hp].
    split; [exact Hq|]. split; [exact Hp|apply not_elem_of_nil].
  - exists s'. split; [by exists fuel|]. rewrite !Hroutes. split_and!; vm_compute; reflexivity.
Defined.

(** Another [User], of another package. *)
Definition registered_module : module_ := mkModuleDoc "/user/User/" [].

Theorem modules_share_their_url_witness :
  ∃ d, doc_add 9 "User" "/admin/User/" (handler_method "Put") [("User", registered_module)] = Some (Ret d) ∧
    (mo_URL <$> find_entry "User" d) = Some "/user/User/".
Proof.
  destruct (doc_add 9 "User" "/admin/User/" (handler_method "Put") [("User", registered_module)])
    as [[d|e|p]|] eqn:E; [|vm_compute in E; discriminate E..].
  exists d. split; [reflexivity|].
  destruct (modules_share_their_url 9 "User" "/admin/User/" (handler_method "Put") registered_module [("User", registered_module)] d eq_refl E)
    as (md & Hf & Hu & _).
  rewrite Hf. simpl. rewrite Hu. reflexivity.
Defined.

Definition documented : method :=
  default (mkMethodDoc "" [] []) (md ← find_entry "User" (sv_doc registered); find_entry "Post" (mo_Methods md)).

Example documented_post :
  documented = mkMethodDoc "adds a user"
    [("ID", mkField "ID" "int" false None "" false);
     ("User", mkField "User" "user.UserInfo" false
        (Some [("Name", mkField "name" "string" true None "the name" false);
               ("Email", mkField "email" "string" false None "the address" false)]) "" false)]
    [("Message", mkField "Message" "string" false None "" false); ("Code", mkField "Code" "int" false None "" false)].
Proof. vm_compute. reflexivity. Qed.

Theorem published_method_arrives_witness :
  ∃ m, decode_method (encode_smethod documented) (mkMethod "" None None) = (m, None) ∧
    map_of_method m = map_of_method (to_method documented) ∧ m_Comment m = "adds a user".
Proof.
  destruct (published_method_arrives documented) as (m & Hd & Hm).
  - rewrite documented_post. split; [by apply (bool_decide_eq_true_1 (NoDup _))|].
    constructor; [constructor|]. constructor; [|constructor]. simpl.
    constructor; [by apply (bool_decide_eq_true_1 (NoDup _))|repeat constructor].
  - rewrite documented_post. split; [by apply (bool_decide_eq_true_1 (NoDup _))|repeat constructor].
  - exists m. split_and!; [exact Hd|exact Hm|]. apply (f_equal mm_Comment) in Hm. exact Hm.
Defined.
End Hello.
