(* ===== verification/ManagerInterfaces.v ===== *)
(** * ManagerInterfaces: interfaces and their variables

    The handlers of [manager/interface.go] and [manager/variable.go]. Handlers
    that decode into their own object work on the values an earlier request left
    in it. *)

From Stdlib Require Import ZArith Lia Ascii.
From stdpp Require Import base gmap strings list.
From S2P Require Import Prelude GoStrings Crypto Http Json Fmt NetUrl SqlDB Cache Orm RbacDb.
From S2P Require Import Wire RbacClient ManagerDb Registry Manager Document.

Section common.
Context `{SqlEngine} {N : Type} `{Transport N} `{ManagerNet N} `{ManagerEnv} `{EmailPattern}.

(** [fmt.Fprintf(w, err.Error())]: the error text is a format. *)
Definition fprintf_error (e : goerror) : M (Mgr N) unit :=
  respond (WriteText (format_message (Error e))).

Definition fail (status : Z) (e : goerror) : M (Mgr N) unit := respond (SendResponse status (Error e)).

(** [util.DecodeRequestValue(r, &vars)] on a fresh [vars]. *)
Definition decode (fs : list structField) (r : Request) : M (Mgr N) (list gval) :=
  lift (DecodeRequestValue true fs (zero_vals fs) r).

(** The values of the handler object of a type. *)
Definition receiver (name : string) (fs : list structField) (s : Mgr N) : list gval :=
  from_option id (zero_vals fs) (m_recv s !! name).

(** [util.DecodeRequestValue(r, i)] on the handler object. Its fields have no
    [valid] tags, so an error leaves it as it was. *)
Definition decode_receiver (name : string) (fs : list structField) (r : Request)
    : M (Mgr N) (list gval) := λ s,
  match DecodeRequestValue true fs (receiver name fs s) r with
  | Ret vs => (Ret vs, with_recv name vs s)
  | Throw e => (Throw e, s)
  | Panic p => (Panic p, s)
  end.

(** [{"total":0,"rows":[]}] and [{"id":n}]. *)
Definition no_rows_text : string := print (JObj [("total", JInt 0); ("rows", JArr [])]).
Definition id_text (id : Z) : string := print (JObj [("id", JInt id)]).

(** [util.SendResponseJSON(w, nil)]. *)
Definition SendResponseJSON_nil : M (Mgr N) unit := respond SendResponseOK.

Definition paging : list structField :=
  [var_str "sort"; var_str "order"; var_int "offset"; var_int "limit"].

Definition id_required : list structField := [fld_valid "ID" KInt64 "id" "Required"].

Definition getServiceResourceID (serviceID : Z) : M (Mgr N) Z :=
  on_db (getResourceID "service" serviceID).

(** [session.User], answering an error with status 400. *)
Definition with_user (r : Request) (k : userinfo → M (Mgr N) unit) : M (Mgr N) unit :=
  let? u := session_User r catch e => fail StatusBadRequest e in k u.

(** ** [interfaceRun], [interfaceInfo] *)

Definition row_bool (vs : list gval) (i : nat) : bool :=
  match vs !! i with Some (VBool b) => b | _ => false end.

(** The request of a trial call: backend address, headers, body. *)
Record trial := mkTrial { t_backend : string; t_header : gmap string (list string); t_body : string }.

Definition header_add (h : gmap string (list string)) (k v : string) : gmap string (list string) :=
  <[CanonicalKey k := (from_option id [] (h !! CanonicalKey k) ++ [v])%list]> h.

Definition missing_text (name : string) : string := "字段:" +:+ name +:+ "不能为空".

(** One turn of the loop over the variables; a missing required one ends it. *)
Definition add_trial_variable (form : gmap string (list string)) (v : Variable_) (t : trial)
    : string + trial :=
  let val := values_get form (Variable_Name v) in
  if decide (val = "" ∧ Variable_Required v = true) then inl (missing_text (Variable_Name v)) else
  if decide (Variable_Postion v = 0) then
    inr (mkTrial (t_backend t +:+ "&" +:+ Variable_Name v +:+ "=" +:+ val) (t_header t) (t_body t))
  else if decide (Variable_Postion v = 1) then
    inr (mkTrial (t_backend t) (header_add (t_header t) (Variable_Name v) val) (t_body t))
  else if decide (Variable_Postion v = 3) then
    inr (mkTrial (t_backend t) (t_header t)
      (t_body t +:+ (if decide (t_body t = "") then "" else "&") +:+ Variable_Name v +:+ "="
        +:+ QueryEscape val))
  else inr t.

Fixpoint build_trial (form : gmap string (list string)) (vs : list Variable_) (t : trial)
    : string + trial :=
  match vs with
  | [] => inr t
  | v :: rest =>
      match add_trial_variable form v t with
      | inl msg => inl msg
      | inr t' => build_trial form rest t'
      end
  end.

Definition interfaceRun_PUT (r : Request) : M (Mgr N) unit :=
  let? v := decode id_required r catch e => fprintf_error e in
  let? iface := on_db (queryInterfaceInfo (nth_int v 0)) catch e => fprintf_error e in
  let? vs := on_db (query (T:=Variable_) "variable" ("interface_id=" +:+ itoa (nth_int v 0)) "id" "asc" 0 0)
    catch e => fprintf_error e in
  now ← (s ← get_state; mret (m_now s));
  let backend := Interface_Backend iface +:+
    (if Contains (Interface_Backend iface) "?" then "" else "?t=" +:+ itoa now) in
  form ← lift (parsed_form r);
  match build_trial form (snd vs) (mkTrial backend ∅ "") with
  | inl msg => respond (WriteText (format_message msg))
  | inr t =>
      let? _ := lift (parse_backend (t_backend t)) catch e => fprintf_error e in
      let method := if decide (Interface_Method iface = 0) then "GET" else "POST" in
      let header := header_add (t_header t) "Content-Type" form_type in
      _ ← on_db (emit (EvBackend method (t_backend t) header));
      let? dump := on_net (run_call method (t_backend t) header (t_body t)) catch e => fprintf_error e in
      respond (WriteText dump)
  end.

Definition interfaceInfo_GET (r : Request) : M (Mgr N) unit :=
  let? v := decode id_required r catch e => fprintf_error e in
  let? i := on_db (queryInterfaceInfo (nth_int v 0)) catch e => fprintf_error e in
  respond (SendData (PJson (encode_interface
    (mkInterface (nth_int v 0) (Interface_Name i) (Interface_User i) (Interface_Email i)
       (Interface_State i) (Interface_Service i) (Interface_Path i) (Interface_Method i)
       (Interface_Backend i) (Interface_Comment i) (Interface_Level i) (Interface_Ctime i)
       (Interface_Mtime i))))).

(** ** [interfaceAction] *)

Definition interfaceAction : list structField :=
  [fld_json "ID" KInt64 "id"; fld_json "State" KInt "state"; fld_json "ServiceID" KInt64 "pid";
   fld_json "Sort" KString "sort"; fld_json "Order" KString "order"; fld_json "Page" KInt "offset";
   fld_json "Size" KInt "limit"; fld_json "Search" KString "search"].

Definition search_where (x : string) : string :=
  let like := " like '%" +:+ x +:+ "%'" in
  "(interface.name" +:+ like +:+ " or interface.user" +:+ like +:+ " or interface.comment" +:+ like
    +:+ " or interface.path" +:+ like +:+ " or interface.backend" +:+ like +:+ ")".

(** Each call of [Where] replaces the condition. *)
Definition interface_stmt (service state : Z) (search : string) : Stmt :=
  let stmt := Where ("service_id=" +:+ itoa service) (NewStmt "interface") in
  let stmt := if decide (state = 1) then Where "state=1" stmt else stmt in
  if decide (search = "") then stmt else Where (search_where search) stmt.

Definition interfaceAction_GET (r : Request) : M (Mgr N) unit :=
  with_user r (λ u,
  let? i := decode_receiver "interfaceAction" interfaceAction r catch e => fprintf_error e in
  let? resID := getServiceResourceID (nth_int i 2) catch e => fprintf_error e in
  let? _ := lift (assert_ u resID) catch e => fprintf_error e in
  let? _ := on_db GetConnection catch e => fprintf_error e in
  let stmt := interface_stmt (nth_int i 2) (nth_int i 1) (nth_str i 7) in
  let? total := on_db (Stmt_Count stmt) catch e => fprintf_error e in
  let stmt := if decide (nth_str i 3 = "") then stmt else Order ("interface." +:+ nth_str i 3) stmt in
  let? is_ := on_db (Stmt_QueryAll (T:=Interface) (Limit (nth_int i 6) (Offset (nth_int i 5) stmt)))
    catch _ => respond (SendRows 0 PNull) in
  respond (SendRows total (PJson (slice_json encode_interface is_)))).

Definition interfaceAction_DELETE (r : Request) : M (Mgr N) unit :=
  let? i := decode_receiver "interfaceAction" interfaceAction r catch e => fail StatusInternalServerError e in
  let? _ := on_db (del "interface" (nth_int i 0)) catch e => fail StatusInternalServerError e in
  respond (SendResponse 0 "").

(** [iface] of [manager/model.go]. *)
Definition iface : list structField :=
  [mkField "ID" KInt64 "" "auto" "" ""; fld_valid "ServiceID" KInt64 "pid" "Required";
   fld_valid "Name" KString "name" "Required"; fld_json "Method" KInt "method";
   fld_json "User" KString "user"; fld_json "Email" KString "email"; fld "State" KInt;
   fld_valid "Path" KString "path" "AlphaNumeric"; fld_valid "Backend" KString "backend" "Required";
   fld_valid "Comment" KString "comment" "Required"; fld_json "Level" KInt "level";
   mkField "CTime" KString "" "now()" "" ""; mkField "Mtime" KString "" "now()" "" ""].

Definition duplicate_interface : string :=
  "接口路径已存在, 接口路径在整个项目中是唯一的，不可重复".

(** The insert's error, told apart by the number of a duplicate key. *)
Definition insert_failed (duplicate : string) (e : goerror) : M (Mgr N) unit :=
  if Contains (Error e) "1062" then respond (SendResponse StatusInternalServerError duplicate)
  else fail StatusInternalServerError e.

Definition interfaceAction_POST (r : Request) : M (Mgr N) unit :=
  with_user r (λ u,
  let? v := decode iface r catch e => fail StatusBadRequest e in
  let? resID := getServiceResourceID (nth_int v 1) catch e => fail StatusBadRequest e in
  let? _ := lift (assert_ u resID) catch e => fprintf_error e in
  let v := <[6%nat := VInt 0]> (<[4%nat := VStr (u_User u)]> (<[5%nat := VStr (u_Email u)]> v)) in
  let? _ := on_db GetConnection catch e => fail StatusInternalServerError e in
  let? id := on_db (Insert_vals iface v (NewStmt "interface")) catch e => insert_failed duplicate_interface e in
  respond (SendResponseData (PVal (VInt id)))).

Definition interface_changes : list structField :=
  [fld_valid "ID" KInt64 "id" "Required"; fld_valid "Name" KString "name" "Required";
   fld_json "User" KString "user"; fld_json "Email" KString "email"; fld_json "Method" KInt "method";
   fld_valid "Path" KString "path" "AlphaNumeric"; fld_valid "Backend" KString "backend" "Required";
   fld_valid "Comment" KString "comment" "Required"; fld_json "Level" KInt "level"].

Definition interfaceAction_PUT (r : Request) : M (Mgr N) unit :=
  let? v := decode interface_changes r catch e => fail StatusInternalServerError e in
  let? _ := on_db (updateInterface (nth_int v 0) (nth_int v 4) (nth_int v 8) (nth_str v 1) (nth_str v 5)
                     (nth_str v 6) (nth_str v 7) (nth_str v 2) (nth_str v 3))
    catch e => fail StatusInternalServerError e in
  respond (SendResponse 0 "").

Definition interfaceDeploy_PUT (r : Request) : M (Mgr N) unit :=
  let? v := decode id_required r catch e => fail StatusInternalServerError e in
  let? _ := on_db (deployInterface (nth_int v 0)) catch e => fail StatusInternalServerError e in
  respond (SendResponse 0 "").
End common.

(** ** [interfaceRegister] *)

Section registration.
Context `{SqlEngine} {N : Type} `{Transport N} `{ManagerNet N} `{ManagerEnv} `{EmailPattern} `{MapRange}.

Definition jsonVariable : list structField :=
  [fld "InterfaceID" KInt64; fld "Postion" KInt; fld "Name" KString; fld "Level" KInt;
   fld "Parent" KString; fld "Type" KString; fld "Required" KBool; fld "Example" KString;
   fld "Comment" KString].

(** The row inserted for a field. *)
Definition variable_vals (interfaceID postion level : Z) (parent : string) (f : Field) : list gval :=
  [VInt interfaceID; VInt postion; VStr (Field_Name f); VInt level; VStr parent;
   VStr (Field_Type f); VBool (Field_Required f); VStr ""; VStr (Field_Comment f)].

Definition insert_variable (interfaceID postion level : Z) (parent : string) (f : Field) : M World Z :=
  Insert_vals jsonVariable (variable_vals interfaceID postion level parent f) (NewStmt "variable").

(** One turn of the loop of [addVariable]: the field, then its children, whose
    parent is named by the field's type. *)
Fixpoint add_field (interfaceID postion : Z) (f : Field) (level : Z) (parent : string) : M World unit :=
  _ ← insert_variable interfaceID postion level parent f;
  match f with
  | mkDocField _ type _ _ (Some child) =>
      (fix loop (l : list (string * Field)) : M World unit :=
        match l with
        | [] => mret tt
        | kv :: rest => _ ← add_field interfaceID postion (snd kv) (wrap64 (level + 1)) type; loop rest
        end) child
  | mkDocField _ _ _ _ None => mret tt
  end.

Fixpoint addVariable (level : Z) (parent : string) (interfaceID postion : Z)
    (fields_ : list (string * Field)) : M World unit :=
  match fields_ with
  | [] => mret tt
  | kv :: rest =>
      _ ← add_field interfaceID postion (snd kv) level parent;
      addVariable level parent interfaceID postion rest
  end.

(** Ranging over a nil map is ranging over an empty one. *)
Definition entries (m : option (list (string * Field))) : list (string * Field) := from_option id [] m.

Definition postionRequestJSON : Z := 4.
Definition postionResponseJSON : Z := 14.

(** [vars] without [Attr], and [Attr]. *)
Definition registration_fields : list structField :=
  [fld "ServiceID" KInt64; fld "User" KString; fld "State" KInt; fld "Email" KString;
   fld "Name" KString; fld "Version" KInt64; fld "Path" KString; fld "Method" KInt;
   fld "Backend" KString; fld "Comment" KString; mkField "Attr" KStruct "" "auto" "" ""].

Definition registration_zero : list gval :=
  [VInt 0; VStr ""; VInt 1; VStr ""; VStr ""; VInt 0; VStr ""; VInt 0; VStr ""; VStr ""; VOther].

Definition registration_member (acc : list gval * Method * option goerror) (kv : string * json)
    : list gval * Method * option goerror :=
  let '(vs, attr, e) := acc in
  match find_field registration_fields (fst kv) with
  | Some 10%nat =>
      let '(m, e') := decode_method (snd kv) attr in (vs, m, first_error e e')
  | _ => let '(vs', e') := store_member registration_fields (vs, e) kv in (vs', attr, e')
  end.

(** [server.ParseJSONVars(r, &vars)]. *)
Definition decode_registration (r : Request) : outcome (list gval * Method) :=
  text ← r_body r;
  match parse_json text with
  | inl e => Throw e
  | inr (JObj ms) =>
      match foldl registration_member (registration_zero, mkMethod "" None None, None) ms with
      | (_, Some e) => Throw e
      | (v, None) => Ret v
      end
  | inr JNull => Ret (registration_zero, mkMethod "" None None)
  | inr _ => Throw type_error
  end.

(** The interface as it is stored when the insert reports a duplicate: the row
    is found by service, path and method, overwritten, and loses its variables. *)
Definition replace_interface (v : list gval) : M World Z :=
  i ← Stmt_QueryOne (T:=Interface)
    (Where ("service_id=" +:+ itoa (nth_int v 0) +:+ " and interface.path='" +:+ nth_str v 6
            +:+ "' and method=" +:+ itoa (nth_int v 7)) (NewStmt "interface"));
  let id := Interface_ID i in
  _ ← Update_vals registration_fields v (Where ("id=" +:+ itoa id) (NewStmt "interface"));
  _ ← Stmt_Exec "delete from variable where interface_id=?" [VInt id];
  mret id.

Definition duplicate_key : string := "Error 1062: Duplicate entry".

Definition store_interface (v : list gval) : M World Z :=
  let? id := Insert_vals registration_fields v (NewStmt "interface") catch e =>
    (if Contains (Error e) duplicate_key then replace_interface v else throw e) in
  mret id.

(** Without an address the interface belongs to the owner of its service. *)
Definition owned_by (p : Service) (v : list gval) : list gval :=
  if decide (nth_str v 3 = "") then
    <[1%nat := VStr (Service_User p)]> (<[3%nat := VStr (Service_Email p)]> v)
  else v.

(** The rest of the handler once the service was found. *)
Definition store_registration (p : Service) (v : list gval) (attr : Method) : M (Mgr N) unit :=
  let v := owned_by p v in
  let? id := on_db (store_interface v) catch e => fail StatusInternalServerError e in
  let? _ := on_db (addVariable 0 "" id postionRequestJSON (entries (m_Request attr)))
    catch e => fail StatusInternalServerError e in
  let? _ := on_db (addVariable 0 "" id postionResponseJSON (entries (m_Response attr)))
    catch e => fail StatusInternalServerError e in
  respond (SendResponseData (PVal (VInt id))).

Definition interfaceRegister_POST (r : Request) : M (Mgr N) unit :=
  let? va := lift (decode_registration r) catch e => fail StatusBadRequest e in
  let '(v, attr) := va in
  let? _ := on_db GetConnection catch e => fail StatusInternalServerError e in
  let? p := on_db (Stmt_QueryOne (T:=Service) (Where ("id=" +:+ itoa (nth_int v 0)) (NewStmt "service")))
    catch e => fail StatusInternalServerError e in
  store_registration p v attr.
End registration.

(** ** [manager/variable.go] *)

Section variables.
Context `{SqlEngine} {N : Type} `{Transport N} `{ManagerNet N} `{ManagerEnv} `{EmailPattern}.

(** The rows of [query], or none after an error, which is only logged. *)
Definition logged_query (where_ sort order : string) (offset count : Z) : M (Mgr N) (Z * list Variable_) :=
  let? p := on_db (query (T:=Variable_) "variable" where_ sort order offset count)
    catch _ => mret (0, []) in mret p.

Definition send_rows (total : Z) (rows : list Variable_) : M (Mgr N) unit :=
  match rows with
  | [] => respond (WriteText no_rows_text)
  | _ => respond (SendRows total (slice_payload rows))
  end.

Definition variableInfo_GET (r : Request) : M (Mgr N) unit :=
  let? v := decode [fld_valid "InterfaceID" KInt64 "interfaceID" "Required"] r
    catch e => fprintf_error e in
  p ← logged_query ("interface_id =" +:+ itoa (nth_int v 0)) "" "" 0 0;
  send_rows (fst p) (snd p).

Definition variable_query : list structField :=
  [fld_valid "InterfaceID" KInt64 "interfaceID" "Required";
   fld_valid "ServiceID" KInt64 "serviceID" "Required"] ++ paging.

Definition variable_GET (r : Request) : M (Mgr N) unit :=
  with_user r (λ u,
  let? v := decode variable_query r catch e => fprintf_error e in
  let? resID := getServiceResourceID (nth_int v 1) catch e => fprintf_error e in
  let? _ := lift (assert_ u resID) catch e => fprintf_error e in
  p ← logged_query ("interface_id =" +:+ itoa (nth_int v 0)) (nth_str v 2) (nth_str v 3)
        (nth_int v 4) (nth_int v 5);
  send_rows (fst p) (snd p)).

Definition variable_DELETE (r : Request) : M (Mgr N) unit :=
  with_user r (λ _,
  let? v := decode [var_int "id"] r catch e => fail StatusInternalServerError e in
  let? _ := on_db (del "variable" (nth_int v 0)) catch e => fail StatusInternalServerError e in
  respond (SendResponse 0 "")).

Definition new_variable : list structField :=
  [mkField "InterfaceID" KInt64 "interface_id" "" "interfaceID" "Required";
   fld_json "Postion" KInt "postion"; fld_valid "Name" KString "name" "Required";
   fld_valid "Type" KString "type" "Required"; mkField "Required" KInt "required" "" "required" "";
   fld_valid "Example" KString "example" "Required"; fld_valid "Comment" KString "comment" "Required";
   mkField "CTime" KString "" "now()" "" ""; mkField "Mtime" KString "" "now()" "" ""].

(** The arguments of [util.SendResponse] are formatted as one slice. *)
Definition variable_POST (r : Request) : M (Mgr N) unit :=
  let? v := decode new_variable r catch e => fail StatusInternalServerError e in
  let? id := on_db (add "variable" new_variable v) catch e => fail StatusInternalServerError e in
  respond (SendResponse 0 (print (JObj [("id", JArr [JInt id])]))).

Definition variable_changes : list structField :=
  [fld_valid "ID" KInt64 "id" "Required"; fld_json "Postion" KInt "postion";
   fld_valid "Name" KString "name" "Required"; fld_valid "Type" KString "type" "Required";
   fld_json "Required" KInt "required"; fld_valid "Example" KString "example" "Required";
   fld_valid "Comment" KString "comment" "Required"].

Definition variable_PUT (r : Request) : M (Mgr N) unit :=
  let? v := decode variable_changes r catch e => fail StatusInternalServerError e in
  let? _ := on_db (updateVariable (nth_int v 0) (nth_int v 1) (nth_str v 2) (nth_str v 3) (nth_int v 4)
                     (nth_str v 5) (nth_str v 6)) catch e => fail StatusInternalServerError e in
  respond (SendResponse 0 "").
End variables.
