(* ===== verification/ManagerHandlers.v ===== *)
(** * ManagerHandlers: services, applications, relations, roles, clusters

    The other handlers of the manager: [manager/service.go], [app.go],
    [relation.go], [role.go], [resource.go], [cluster.go], [node.go],
    [stats.go], [docs.go] and [manager.go], and the routes of [ServerInit]. *)

From Stdlib Require Import ZArith Lia Ascii.
From stdpp Require Import base gmap strings list.
From S2P Require Import Prelude GoStrings Crypto Http Json Fmt NetUrl SqlDB Cache Orm RbacDb RbacService.
From S2P Require Import Wire RbacClient ManagerDb Registry Manager Document ManagerInterfaces.

Section handlers.
Context `{SqlEngine} {N : Type} `{Transport N} `{ManagerNet N} `{ManagerEnv} `{EmailPattern}.
Context `{BlockCipher} `{MapRange}.

Definition no_connection : string := "连接数据库出错".

(** [mdb.GetConnection], its error answered with a fixed text. *)
Definition with_connection (k : M (Mgr N) unit) : M (Mgr N) unit :=
  let? _ := on_db GetConnection catch _ =>
    respond (SendResponse StatusInternalServerError no_connection) in k.

Definition answer (msg : string) : M (Mgr N) unit :=
  respond (SendResponse StatusInternalServerError msg).

(** ** [manager/manager.go] *)

Definition account_GET (r : Request) : M (Mgr N) unit :=
  let? u := session_User r catch e => fail StatusInternalServerError e in
  respond (SendData (PJson (encode_userinfo u))).

Definition domain_GET (r : Request) : M (Mgr N) unit := respond (WriteText server_domain).

(** ** [manager/service.go] *)

Definition serviceInfo_GET (r : Request) : M (Mgr N) unit :=
  let? i := decode_receiver "serviceInfo" [fld_json "ID" KInt64 "id"] r catch e => fprintf_error e in
  with_connection (
  let? p := on_db (Stmt_QueryOne (T:=Service) (Where ("id=" +:+ itoa (nth_int i 0)) (NewStmt "service")))
    catch e => fprintf_error e in
  respond (SendData (PRow (fields Service) (to_vals p)))).

(** The services a user may see. *)
Definition service_where (u : userinfo) : string :=
  if u_IsAdmin u then "" else " service.resource_id in (" +:+ u_ResKey u +:+ ")".

Definition service_GET (r : Request) : M (Mgr N) unit :=
  with_user r (λ u,
  let? v := decode paging r catch e => fprintf_error e in
  with_connection (
  let stmt := Where (service_where u) (NewStmt "service") in
  let? total := on_db (Stmt_Count stmt) catch _ => answer "查询数据库出错" in
  if decide (total = 0) then respond (SendRows 0 PNull) else
  let? ps := on_db (Stmt_QueryAll (T:=Service)
      (Sort (nth_str v 0) (Limit (nth_int v 3) (Offset (nth_int v 2) (Order (nth_str v 1) stmt)))))
    catch e => fprintf_error e in
  respond (SendRows total (slice_payload ps)))).

Definition service_DELETE (r : Request) : M (Mgr N) unit :=
  let? v := decode [var_int "id"] r catch e => fail StatusInternalServerError e in
  let? _ := on_db (del "service" (nth_int v 0)) catch e => fail StatusInternalServerError e in
  respond (SendResponse 0 "").

Definition default_role_comments : string := "默认添加的管理组".
Definition duplicate_service : string :=
  "项目路径已存在, 项目路径在接口平台中是唯一的，不能重用".

(** The owner of what a user adds: the user, unless an administrator says. *)
Definition owner_vals (user email : nat) (u : userinfo) (v : list gval) : list gval :=
  if u_IsAdmin u then v else <[email := VStr (u_Email u)]> (<[user := VStr (u_User u)]> v).

(** A resource, a role and their link at the rbac service, then the row. *)
Definition service_POST (r : Request) : M (Mgr N) unit :=
  with_user r (λ u,
  let? v := decode (fields Service) r catch e => fail StatusInternalServerError e in
  let v := owner_vals 5 7 u v in
  let? resID := on_net (PostResource rbacClient (nth_str v 4) (nth_str v 11)) catch _ => answer "添加资源出错" in
  let? roleID := on_net (PostRole rbacClient (nth_str v 4) default_role_comments (nth_str v 5) (nth_str v 7))
    catch _ => answer "添加角色出错" in
  let? _ := on_net (PostRoleResource rbacClient roleID resID) catch _ => answer "为项目授权角色出错" in
  let v := <[1%nat := VInt roleID]> (<[2%nat := VInt resID]> v) in
  with_connection (
  let? id := on_db (Insert_vals (fields Service) v (NewStmt "service"))
    catch e => insert_failed duplicate_service e in
  respond (SendResponse 0 (id_text id)))).

Definition service_changes : list structField :=
  [fld_valid "ID" KInt64 "id" "Required"; fld_valid "Name" KString "name" "Required";
   fld_valid "User" KString "user" "Required"; fld_valid "Email" KString "email" "Email";
   fld_valid "Path" KString "path" "AlphaNumeric"; fld_json "Source" KString "source";
   fld_json "Version" KInt "version"; fld_valid "Comment" KString "comment" "Required"].

Definition service_PUT (r : Request) : M (Mgr N) unit :=
  with_user r (λ u,
  let? v := decode service_changes r catch e => fail StatusInternalServerError e in
  let v := owner_vals 2 3 u v in
  let? _ := on_db (updateService (nth_int v 0) (nth_str v 1) (nth_str v 2) (nth_str v 3) (nth_str v 4)
                     (nth_str v 7) (nth_str v 5) (nth_int v 6))
    catch e => fail StatusInternalServerError e in
  respond (SendResponse 0 "")).

(** ** [manager/app.go] *)

Record application := mkApp { a_ID : Z; a_Name : string; a_User : string; a_Email : string }.

#[export] Instance application_struct : Struct application := {
  fields := [fld "ID" KInt64; fld "Name" KString; fld "User" KString; fld "Email" KString];
  to_vals a := [VInt (a_ID a); VStr (a_Name a); VStr (a_User a); VStr (a_Email a)];
  of_vals vs := match vs with [VInt a; VStr b; VStr c; VStr d] => Some (mkApp a b c d) | _ => None end
}.

(** A condition added to another one. *)
Definition and_where (where_ cond : string) : string :=
  (if decide (where_ = "") then "" else where_ +:+ " and ") +:+ cond.

Definition like_where (column val : string) : string := column +:+ " like '%" +:+ val +:+ "%'".

Definition appInfos : list structField :=
  [fld_json "ID" KInt64 "interfaceID"; fld_json "Name" KString "name"; fld_json "Email" KString "email";
   fld_json "Sort" KString "sort"; fld_json "Order" KString "order"; fld_json "Page" KInt "offset";
   fld_json "Size" KInt "limit"].

Definition appInfos_where (id : Z) (name email : string) : string :=
  let where_ := if decide (email = "") then "" else and_where "" (like_where "application.email" email) in
  let where_ := if decide (name = "") then where_ else and_where where_ (like_where "application.name" name) in
  and_where where_ ("application.id not in (select application_id from relation where relation.interface_id = "
                    +:+ itoa id +:+ ")").

Definition appInfos_GET (r : Request) : M (Mgr N) unit :=
  let? i := decode_receiver "appInfos" appInfos r catch e => fprintf_error e in
  let? p := on_db (query (T:=application) "application" (appInfos_where (nth_int i 0) (nth_str i 1) (nth_str i 2))
                     (nth_str i 3) (nth_str i 4) (nth_int i 5) (nth_int i 6))
    catch e => fprintf_error e in
  match snd p with
  | [] => respond (WriteText no_rows_text)
  | apps => respond (WriteText ("{" +:+ quote "total" +:+ ":" +:+ itoa (fst p) +:+ ", " +:+ quote "rows"
                       +:+ ":" +:+ print (JArr (encode_object (fields application) ∘ to_vals <$> apps)) +:+ "}"))
  end.

Definition appInfo_GET (r : Request) : M (Mgr N) unit :=
  let? i := decode_receiver "appInfo" [fld_json "ID" KInt64 "id"] r catch e => fprintf_error e in
  let? p := on_db (getApp (nth_int i 0)) catch e => fprintf_error e in
  respond (SendData (PRow (fields Application) (to_vals p))).

Definition app_where (u : userinfo) (name email : string) : string :=
  let where_ := if u_IsAdmin u then "" else "application.email='" +:+ u_Email u +:+ "'" in
  let where_ := if decide (name = "") then where_ else and_where where_ (like_where " application.name" name) in
  if decide (email = "") then where_ else and_where where_ (like_where " application.email" email).

(** The loop that blanks the tokens works on copies of the rows. *)
Definition app_GET (r : Request) : M (Mgr N) unit :=
  with_user r (λ u,
  let? v := decode ([var_str "name"; var_str "email"] ++ paging) r catch e => fprintf_error e in
  let? p := on_db (query (T:=Application) "application" (app_where u (nth_str v 0) (nth_str v 1))
                     (nth_str v 2) (nth_str v 3) (nth_int v 4) (nth_int v 5))
    catch e => fprintf_error e in
  match snd p with
  | [] => respond (WriteText no_rows_text)
  | apps => respond (SendRows (fst p) (slice_payload apps))
  end).

(** [DecodeRequestValue(r, vars)]: a struct passed by value cannot be set. *)
Definition decode_copy (fs : list structField) (r : Request) : M (Mgr N) (list gval) :=
  lift (DecodeRequestValue false fs (zero_vals fs) r).

Definition app_DELETE (r : Request) : M (Mgr N) unit :=
  let? v := decode_copy [var_int "id"] r catch e => fail StatusInternalServerError e in
  let? _ := on_db (del "application" (nth_int v 0)) catch e => fail StatusInternalServerError e in
  respond (SendResponse 0 "").

Definition app : list structField :=
  [fld_json "Name" KString "name"; fld_json "Email" KString "email"; fld_json "User" KString "user";
   fld_json "Comment" KString "comment"; mkField "CTime" KString "" "now()" "" "";
   mkField "Mtime" KString "" "now()" "" ""].

Definition duplicate_app : string := "已存在同名应用".

Definition app_POST (r : Request) : M (Mgr N) unit :=
  with_user r (λ u,
  let? a := decode_receiver "app" app r catch e => fail StatusInternalServerError e in
  let a := owner_vals 2 1 u a in
  _ ← modify (with_recv "app" a);
  let? id := on_db (add "application" app a) catch e => insert_failed duplicate_app e in
  let? token := lift (make_token id) catch e => fail StatusInternalServerError e in
  let? _ := on_db (updateAppToken id token) catch e => fail StatusInternalServerError e in
  respond (SendResponse 0 (id_text id))).

Definition app_changes : list structField :=
  [fld_valid "ID" KInt64 "id" "Required"; fld_valid "Name" KString "name" "Required";
   fld_valid "User" KString "user" "Required"; fld_valid "Email" KString "email" "Email";
   fld_valid "Comment" KString "comment" "Required"].

Definition app_PUT (r : Request) : M (Mgr N) unit :=
  with_user r (λ u,
  let? v := decode_copy app_changes r catch e => fail StatusInternalServerError e in
  if decide (u_IsAdmin u = false ∧ nth_str v 3 ≠ u_Email u) then answer "不能修改别人添加的应用" else
  let? _ := on_db (updateApp ("id=" +:+ itoa (nth_int v 0)) (nth_str v 1) (nth_str v 2) (nth_str v 3) (nth_str v 4))
    catch e => fail StatusInternalServerError e in
  respond (SendResponse 0 "")).

(** ** [manager/relation.go] *)

Definition sort_column (sort : string) : string :=
  if decide (sort = "InterfaceName") then "interface.name"
  else if decide (sort = "ServiceName") then "service.name" else sort.

Definition relation_where (app iface : Z) : string :=
  let where_ := if decide (app = 0) then "" else "relation.application_id=" +:+ itoa app in
  let where_ := if decide (iface = 0) then where_
                else and_where where_ ("relation.interface_id=" +:+ itoa iface) in
  and_where where_
    " relation.interface_id=interface.id and relation.application_id = application.id and  interface.service_id = service.id".

Definition relation_GET (r : Request) : M (Mgr N) unit :=
  let? v := decode ([var_int "applicationID"; var_int "interfaceID"] ++ paging) r catch e => fprintf_error e in
  let? p := on_db (query (T:=Relation) "relation, application, interface, service"
                     (relation_where (nth_int v 0) (nth_int v 1)) (sort_column (nth_str v 2)) (nth_str v 3)
                     (nth_int v 4) (nth_int v 5)) catch e => fprintf_error e in
  match snd p with
  | [] => respond (WriteText no_rows_text)
  | rs => respond (SendRows (fst p) (slice_payload rs))
  end.

Definition relation_PUT (r : Request) : M (Mgr N) unit :=
  let? v := decode [var_int "id"; var_int "appID"; var_int "interfaceID"] r
    catch e => fail StatusInternalServerError e in
  let? _ := on_db (updateRelation (nth_int v 0) (nth_int v 2) (nth_int v 1))
    catch e => fail StatusInternalServerError e in
  respond (SendResponse 0 "").

Definition relation_DELETE (r : Request) : M (Mgr N) unit :=
  let? v := decode [var_int "id"] r catch e => fail StatusInternalServerError e in
  let? _ := on_db (del "relation" (nth_int v 0)) catch e => fail StatusInternalServerError e in
  respond (SendResponse 0 "").

Definition new_relation : list structField :=
  [mkField "AppID" KInt64 "application_id" "" "appID" "";
   mkField "InterfaceID" KInt64 "interface_id" "" "interfaceID" "";
   mkField "CTime" KString "" "now()" "" ""; mkField "Mtime" KString "" "now()" "" ""].

Definition not_published : string := "接口未发布，不可以授权应用".

Definition relation_POST (r : Request) : M (Mgr N) unit :=
  let? v := decode new_relation r catch e => fail StatusInternalServerError e in
  let? state := on_db (getInterfaceState (nth_int v 1)) catch e => fail StatusInternalServerError e in
  if decide (state ≠ 1) then answer not_published else
  let? id := on_db (add "relation" new_relation v) catch e => fail StatusInternalServerError e in
  respond (SendResponse 0 (id_text id)).
End handlers.

Section rbac_handlers.
Context `{SqlEngine} {N : Type} `{Transport N} `{ManagerNet N} `{ManagerEnv} `{EmailPattern}.

(** ** [manager/role.go] *)

Definition roleInfo_GET (r : Request) : M (Mgr N) unit :=
  with_user r (λ _,
  let? v := decode [var_int "role_id"] r catch e => fail StatusBadRequest e in
  let? ro := on_net (GetRole rbacClient (nth_int v 0)) catch e => fail StatusInternalServerError e in
  respond (SendResponseData (PRow (fields Role) (to_vals ro)))).

Definition role : list structField :=
  [fld_json "RoleID" KInt64 "role_id"; fld_json "Name" KString "name"; fld_json "User" KString "user";
   fld_json "Email" KString "email"; fld_json "Comment" KString "comment"].

Definition role_GET (r : Request) : M (Mgr N) unit :=
  with_user r (λ u,
  let? v := decode [var_int "resource_id"; var_str "email"] r catch e => fail StatusBadRequest e in
  let email := if u_IsAdmin u then nth_str v 1 else u_Email u in
  let? rs := on_net (GetResourceRolesUnrelated rbacClient (nth_int v 0) email)
    catch e => fail StatusInternalServerError e in
  respond (SendData (nil_slice_payload rs))).

(** The role object with the owner filled in, as [POST] and [PUT] leave it. *)
Definition decode_role (r : Request) (u : userinfo) (k : list gval → M (Mgr N) unit) : M (Mgr N) unit :=
  let? v := decode_receiver "role" role r catch e => fail StatusInternalServerError e in
  let v := owner_vals 2 3 u v in
  _ ← modify (with_recv "role" v); k v.

Definition role_POST (r : Request) : M (Mgr N) unit :=
  with_user r (λ u, decode_role r u (λ v,
  let? id := on_net (PostRole rbacClient (nth_str v 1) (nth_str v 4) (nth_str v 2) (nth_str v 3))
    catch e => fail StatusInternalServerError e in
  respond (SendResponseData (PVal (VInt id))))).

Definition role_PUT (r : Request) : M (Mgr N) unit :=
  with_user r (λ u, decode_role r u (λ v,
  let? _ := on_net (PutRole rbacClient (nth_int v 0) (nth_str v 1) (nth_str v 4))
    catch e => fail StatusInternalServerError e in
  SendResponseJSON_nil)).

Definition role_DELETE (r : Request) : M (Mgr N) unit :=
  let? v := decode_receiver "role" role r catch e => fail StatusInternalServerError e in
  let? _ := on_net (DeleteRole rbacClient (nth_int v 0) "") catch e => fail StatusInternalServerError e in
  SendResponseJSON_nil.

Definition roleUser : list structField :=
  [fld_json "UserID" KInt64 "user_id"; fld_json "Name" KString "name"; fld_json "Email" KString "email";
   fld_json "RoleID" KInt64 "role_id"; fld_json "Sort" KString "sort"; fld_json "Order" KString "order";
   fld_json "Offset" KInt "offset"; fld_json "Limit" KInt "limit"].

Definition roleUser_PUT (r : Request) : M (Mgr N) unit :=
  let? v := decode_receiver "roleUser" roleUser r catch e => fail StatusInternalServerError e in
  let? _ := on_net (PutUser rbacClient (nth_int v 0) (nth_str v 1) (nth_str v 2))
    catch e => fail StatusInternalServerError e in
  SendResponseJSON_nil.

Definition roleUser_POST (r : Request) : M (Mgr N) unit :=
  let? v := decode_receiver "roleUser" roleUser r catch e => fail StatusInternalServerError e in
  let? id := on_net (PostRoleUser rbacClient (nth_int v 3) (nth_str v 1) (nth_str v 2))
    catch e => fail StatusInternalServerError e in
  respond (SendResponseData (PVal (VInt id))).

(** The [sort] variable is stored back under its column's name. *)
Definition role_sort (sort : string) : string :=
  if decide (sort = "RoleName") then "role.name"
  else if decide (sort = "RoleComment") then "role.comment"
  else if decide (sort = "Mtime") then "role_user.mtime" else sort.

Definition role_not_found : M (Mgr N) unit := respond (SendResponse StatusNotFound "not found").

Definition roleUser_GET (r : Request) : M (Mgr N) unit :=
  let? v := decode_receiver "roleUser" roleUser r catch e => fail StatusBadRequest e in
  _ ← modify (with_recv "roleUser" (<[4%nat := VStr (role_sort (nth_str v 4))]> v));
  let? rs := on_net (GetRoleUsers rbacClient (nth_int v 3)) catch e => fail StatusInternalServerError e in
  match rs with
  | [] => role_not_found
  | _ => respond (SendResponseData (slice_payload rs))
  end.

Definition roleUser_DELETE (r : Request) : M (Mgr N) unit :=
  with_user r (λ _,
  let? v := decode_receiver "roleUser" roleUser r catch e => fail StatusInternalServerError e in
  let? _ := on_net (DeleteRoleUser rbacClient (nth_int v 3) (nth_str v 2))
    catch e => fail StatusInternalServerError e in
  SendResponseJSON_nil).

Definition userRole : list structField :=
  [fld_json "Sort" KString "sort"; fld_json "Order" KString "order"; fld_json "Offset" KInt "offset";
   fld_json "Limit" KInt "limit"].

Definition userRole_GET (r : Request) : M (Mgr N) unit :=
  with_user r (λ u,
  let? v := decode_receiver "userRole" userRole r catch e => fail StatusBadRequest e in
  _ ← modify (with_recv "userRole" (<[0%nat := VStr (role_sort (nth_str v 0))]> v));
  let? rs := on_net (GetUserRoles rbacClient (u_Email u)) catch e => fail StatusInternalServerError e in
  match rs with
  | [] => role_not_found
  | _ => respond (SendData (slice_payload rs))
  end).

(** ** [manager/resource.go] *)

Definition resource : list structField :=
  [fld_json "ResourceID" KInt64 "resourceID"; fld_json "RoleID" KInt64 "roleID"].

Definition resource_GET (r : Request) : M (Mgr N) unit :=
  with_user r (λ u,
  let? v := decode_receiver "resource" resource r catch e => fail StatusBadRequest e in
  if decide (u_IsAdmin u = false ∧ nth_int v 0 = 0) then
    respond (SendResponse StatusBadRequest "resourceID is 0")
  else
  let? rs := on_net (GetResourceRoles rbacClient (nth_int v 0)) catch e => fail StatusInternalServerError e in
  respond (SendData (nil_slice_payload rs))).

Definition resource_POST (r : Request) : M (Mgr N) unit :=
  let? v := decode_receiver "resource" resource r catch e => fail StatusInternalServerError e in
  let? id := on_net (PostRoleResource rbacClient (nth_int v 1) (nth_int v 0))
    catch e => fail StatusInternalServerError e in
  respond (SendResponseData (PVal (VInt id))).

Definition resourceInfo : list structField :=
  [fld_json "ResourceID" KInt64 "resource_id"; fld_json "Sort" KString "sort";
   fld_json "Order" KString "order"; fld_json "Offset" KInt "offset"; fld_json "Limit" KInt "limit"].

Definition resourceInfo_GET (r : Request) : M (Mgr N) unit :=
  let? v := decode_receiver "resourceInfo" resourceInfo r catch e => fail StatusBadRequest e in
  let? rs := on_net (GetResource rbacClient (nth_int v 0)) catch e => fail StatusInternalServerError e in
  respond (SendResponseData (PRow (fields Resource) (to_vals rs))).

Definition resourceRole : list structField :=
  [fld_json "ID" KInt64 "id"; fld_json "ResourceID" KInt64 "resourceID"; fld_json "RoleID" KInt64 "roleID"].

Definition resourceRole_DELETE (r : Request) : M (Mgr N) unit :=
  let? v := decode_receiver "resourceRole" resourceRole r catch e => fail StatusInternalServerError e in
  let? _ := on_net (DeleteResourceRole rbacClient (nth_int v 1) (nth_int v 2))
    catch e => fail StatusInternalServerError e in
  SendResponseJSON_nil.
End rbac_handlers.

(** ** [manager/cluster.go] *)

Definition node_fields : list structField :=
  [fld "ID" KInt64; fld "Server" KString; fld "Comment" KString;
   mkField "Ctime" KString "" "now()" "" ""; mkField "Mtime" KString "" "now()" "" ""].

Record node := mkNode {
  node_ID : Z; node_Server : string; node_Comment : string; node_Ctime : string; node_Mtime : string
}.

#[export] Instance node_struct : Struct node := {
  fields := node_fields;
  to_vals n := [VInt (node_ID n); VStr (node_Server n); VStr (node_Comment n); VStr (node_Ctime n);
                VStr (node_Mtime n)];
  of_vals vs := match vs with
    | [VInt a; VStr b; VStr c; VStr d; VStr e] => Some (mkNode a b c d e)
    | _ => None end
}.

Record cluster := mkCluster {
  cl_ID : Z; cl_Name : string; cl_RoleID : Z; cl_User : string; cl_Email : string;
  cl_Comment : string; cl_Node : list node; cl_Ctime : string; cl_Mtime : string
}.

Definition cluster_columns : list column :=
  [Scalar (fld "ID" KInt64); Scalar (fld "Name" KString); Scalar (fld "RoleID" KInt64);
   Scalar (fld "User" KString); Scalar (fld "Email" KString); Scalar (fld "Comment" KString);
   One2More "Node" node_fields;
   Scalar (mkField "Ctime" KString "" "auto" "" ""); Scalar (mkField "Mtime" KString "" "auto" "" "")].

Definition cluster_cells (c : cluster) : list cell :=
  [Cell (VInt (cl_ID c)); Cell (VStr (cl_Name c)); Cell (VInt (cl_RoleID c)); Cell (VStr (cl_User c));
   Cell (VStr (cl_Email c)); Cell (VStr (cl_Comment c)); Subs (to_vals <$> cl_Node c);
   Cell (VStr (cl_Ctime c)); Cell (VStr (cl_Mtime c))].

#[export] Instance cluster_table : Table cluster := {
  columns := cluster_columns;
  of_cells cells := match cells with
    | [Cell (VInt a); Cell (VStr b); Cell (VInt c); Cell (VStr d); Cell (VStr e); Cell (VStr f); Subs g;
       Cell (VStr h); Cell (VStr i)] =>
        (λ ns, mkCluster a b c d e f ns h i) <$> mapM (M := option) of_vals g
    | _ => None end
}.

Definition encode_cluster (c : cluster) : json := encode_cells cluster_columns (cluster_cells c).

Section cluster_handlers.
Context `{SqlEngine} {N : Type} `{Transport N} `{ManagerNet N} `{ManagerEnv} `{EmailPattern}.

Definition query_error : M (Mgr N) unit := respond (SendResponse StatusInternalServerError "query db error").

Definition roles_in (u : userinfo) : string := "role_id in (" +:+ u_RolesKey u +:+ ")".

Definition cluster_GET (r : Request) : M (Mgr N) unit :=
  with_user r (λ u, with_connection (
  let? cs := on_db (Stmt_QueryAll (T:=cluster) (Where (roles_in u) (NewStmt "cluster")))
    catch _ => query_error in
  respond (SendData (PJson (slice_json encode_cluster cs))))).

Definition new_cluster : list structField :=
  [fld_json "Name" KString "name"; fld_json "User" KString "user"; fld_json "RoleID" KInt64 "role";
   fld_json "Email" KString "email"; fld_json "Comment" KString "comment"].

Definition cluster_POST (r : Request) : M (Mgr N) unit :=
  with_user r (λ u,
  let? v := decode new_cluster r catch e => fail StatusBadRequest e in
  let v := owner_vals 1 3 u v in
  with_connection (
  let? id := on_db (Insert_vals new_cluster v (NewStmt "cluster")) catch _ => query_error in
  respond (SendResponseData (PVal (VInt id))))).

Definition delete_cluster_sql (id : Z) (u : userinfo) : string :=
  "delete from cluster where id = " +:+ itoa id +:+ " and " +:+ roles_in u.

Definition cluster_DELETE (r : Request) : M (Mgr N) unit :=
  with_user r (λ u,
  let? v := decode [var_int "id"] r catch e => fail StatusBadRequest e in
  with_connection (
  let? n := on_db (Stmt_Exec (delete_cluster_sql (nth_int v 0) u) []) catch _ => query_error in
  respond (SendData (PVal (VInt n))))).

Definition clusterInfo_GET (r : Request) : M (Mgr N) unit :=
  with_user r (λ _,
  let? v := decode [var_int "id"] r catch e => fail StatusBadRequest e in
  with_connection (
  let? c := on_db (Stmt_QueryOne (T:=cluster) (Where ("id = " +:+ itoa (nth_int v 0)) (NewStmt "cluster")))
    catch _ => query_error in
  respond (SendResponseData (PJson (encode_cluster c))))).

Definition clusterNode_GET (r : Request) : M (Mgr N) unit :=
  with_user r (λ _,
  let? v := decode [var_int "cluster_id"] r catch e => fail StatusBadRequest e in
  with_connection (
  let? ns := on_db (Stmt_QueryAll (T:=node) (Where ("cluster_id = " +:+ itoa (nth_int v 0)) (NewStmt "node")))
    catch _ => query_error in
  respond (SendData (slice_payload ns)))).

Definition delete_node_sql (id : Z) (u : userinfo) : string :=
  "delete from node where id=" +:+ itoa id +:+ " and cluster_id in (select id from cluster where "
    +:+ roles_in u +:+ " )".

Definition clusterNode_DELETE (r : Request) : M (Mgr N) unit :=
  with_user r (λ u,
  let? v := decode [var_int "id"] r catch e => fail StatusBadRequest e in
  with_connection (
  let? _ := on_db (Stmt_Exec (delete_node_sql (nth_int v 0) u) []) catch _ => query_error in
  respond SendResponseOK)).

Definition new_node : list structField :=
  [fld_json "ClusterID" KInt64 "cluster_id"; fld_json "Server" KString "server";
   fld_json "Comment" KString "comment"].

Definition clusterNode_POST (r : Request) : M (Mgr N) unit :=
  with_user r (λ _,
  let? v := decode new_node r catch e => fail StatusBadRequest e in
  with_connection (
  let? id := on_db (Insert_vals new_node v (NewStmt "node")) catch _ => query_error in
  respond (SendResponseData (PVal (VInt id))))).

(** ** [manager/node.go] *)

Definition etcdAPIPrefix : string := "/api".

(** The key of a service's nodes: the source address without its scheme. *)
Definition nodes_key (p : Service) : outcome string :=
  rest ← slice_from (Service_Source p) 6; Ret (etcdAPIPrefix +:+ rest).

Definition nodes_GET (r : Request) : M (Mgr N) unit :=
  let? v := lift (ParseURLVars [fld_valid "ServiceID" KInt64 "serviceID" "Required"] r)
    catch e => fprintf_error e in
  let? _ := on_db GetConnection catch e => fail StatusInternalServerError e in
  let? p := on_db (Stmt_QueryOne (T:=Service) (Where ("id=" +:+ itoa (nth_int v 0)) (NewStmt "service")))
    catch e => fail StatusInternalServerError e in
  key ← lift (nodes_key p);
  let? values := on_net (etcd_list key) catch e => fail StatusInternalServerError e in
  respond (SendData (slice_payload (app_Unmarshal <$> values))).

(** ** [manager/stats.go] *)

Definition stats_not_found : M (Mgr N) unit := respond (SendResponse StatusNotFound "not found").

(** A slice that was made before rows were appended is never [null]. *)
Definition made_slice {T} `{Struct T} (l : list T) : payload := PRows (fields T) (to_vals <$> l).

Definition interface_id : list structField := [fld_json "ID" KInt64 "interfaceID"].

Definition statsSumAction_GET (r : Request) : M (Mgr N) unit :=
  let? v := decode_receiver "statsSumAction" interface_id r catch e => fail StatusBadRequest e in
  let? ss := on_db (selectStats (nth_int v 0)) catch _ => stats_not_found in
  respond (SendData (made_slice ss)).

Definition statsTopInterface_GET (r : Request) : M (Mgr N) unit :=
  let? tis := on_db selectTopIface catch _ => stats_not_found in
  respond (SendRows (Z.of_nat (length tis)) (made_slice tis)).

Definition statsTopApplication_GET (r : Request) : M (Mgr N) unit :=
  let? v := decode_receiver "statsTopApplication" interface_id r catch e => fail StatusBadRequest e in
  let? as_ := on_db (selectTopApp (nth_int v 0)) catch _ => stats_not_found in
  respond (SendRows (Z.of_nat (length as_)) (made_slice as_)).

Definition statsErrors : list structField :=
  [fld_json "ID" KInt64 "interfaceID"; fld_json "Sort" KString "sort"; fld_json "Order" KString "order";
   fld_json "Page" KInt "offset"; fld_json "Size" KInt "limit"].

Definition statsErrors_where (id : Z) : string :=
  let where_ := "stats_error.app_id = application.id and stats_error.iface_id = interface.id and interface.service_id = service.id" in
  if decide (id = 0) then where_ else " stats_error.iface_id = " +:+ itoa id +:+ " and " +:+ where_.

Definition statsErrors_GET (r : Request) : M (Mgr N) unit :=
  let? v := decode_receiver "statsErrors" statsErrors r catch e => fail StatusBadRequest e in
  let? p := on_db (query (T:=statsError) "stats_error,application,interface,service"
                     (statsErrors_where (nth_int v 0)) (nth_str v 1) (nth_str v 2) (nth_int v 3) (nth_int v 4))
    catch e => fail StatusBadRequest e in
  respond (SendRows (fst p) (slice_payload (snd p))).

(** ** [manager/docs.go] *)

Definition docs_where (service iface : string) : string :=
  let where_ := "interface.state = 1" in
  let where_ := if decide (service = "") then where_ else and_where where_ (like_where "service.name" service) in
  if decide (iface = "") then where_ else and_where where_ (like_where "interface.name" iface).

Definition docs_GET (r : Request) : M (Mgr N) unit :=
  let? v := decode ([var_str "serviceName"; var_str "interfaceName"] ++ paging) r catch e => fprintf_error e in
  with_connection (
  let stmt := Where (docs_where (nth_str v 0) (nth_str v 1)) (NewStmt "interface") in
  let? total := on_db (Stmt_Count stmt) catch e => fprintf_error e in
  if decide (total = 0) then respond (SendRows 0 PNull) else
  let? is_ := on_db (Stmt_QueryAll (T:=Interface)
      (Limit (nth_int v 5) (Offset (nth_int v 4) (Sort (sort_column (nth_str v 2)) (Order (nth_str v 3) stmt)))))
    catch e => fprintf_error e in
  respond (SendRows total (PJson (slice_json encode_interface is_)))).
End cluster_handlers.

(** ** Routes: [manager/init.go]

    The routes registered by path; [Routes] has the prefixes [/debug/pprof/],
    [/static/] and [/], which serve profiles and files, and the dispatch. *)
Section routes.
Context `{SqlEngine} {N : Type} `{Transport N} `{ManagerNet N} `{ManagerEnv} `{EmailPattern}.
Context `{BlockCipher} `{MapRange}.

Definition mgr_route : Type := (string * string) * (Request → M (Mgr N) unit).

(** Routes that look at the session first: every handler that calls
    [session.User]. *)
Definition session_routes : list mgr_route :=
  [(("GET", "/account"), account_GET);
   (("GET", "/resource/"), resource_GET); (("GET", "/cluster/"), cluster_GET);
   (("POST", "/cluster/"), cluster_POST); (("DELETE", "/cluster/"), cluster_DELETE);
   (("GET", "/cluster/info/"), clusterInfo_GET); (("GET", "/cluster/node/"), clusterNode_GET);
   (("POST", "/cluster/node/"), clusterNode_POST); (("DELETE", "/cluster/node/"), clusterNode_DELETE);
   (("GET", "/role/"), role_GET); (("POST", "/role/"), role_POST); (("PUT", "/role/"), role_PUT);
   (("DELETE", "/role/user/"), roleUser_DELETE); (("GET", "/role/info/"), roleInfo_GET);
   (("GET", "/user/role/"), userRole_GET); (("GET", "/service/"), service_GET);
   (("POST", "/service/"), service_POST); (("PUT", "/service/"), service_PUT);
   (("GET", "/interface/"), interfaceAction_GET); (("POST", "/interface/"), interfaceAction_POST);
   (("GET", "/variable/"), variable_GET); (("DELETE", "/variable/"), variable_DELETE);
   (("GET", "/application/"), app_GET); (("POST", "/application/"), app_POST);
   (("PUT", "/application/"), app_PUT)].

(** Routes that change something for whoever asks. *)
Definition open_write_routes : list mgr_route :=
  [(("POST", "/resource/"), resource_POST); (("DELETE", "/resource/role/"), resourceRole_DELETE);
   (("DELETE", "/role/"), role_DELETE); (("PUT", "/role/user/"), roleUser_PUT);
   (("POST", "/role/user/"), roleUser_POST); (("DELETE", "/service/"), service_DELETE);
   (("PUT", "/interface/"), interfaceAction_PUT); (("DELETE", "/interface/"), interfaceAction_DELETE);
   (("POST", "/interface/register/"), interfaceRegister_POST);
   (("PUT", "/interface/deploy"), interfaceDeploy_PUT); (("POST", "/variable/"), variable_POST);
   (("PUT", "/variable/"), variable_PUT); (("DELETE", "/application/"), app_DELETE);
   (("POST", "/relation/"), relation_POST); (("PUT", "/relation/"), relation_PUT);
   (("DELETE", "/relation/"), relation_DELETE)].

Definition open_read_routes : list mgr_route :=
  [(("GET", "/domain"), domain_GET); (("GET", "/resource/info"), resourceInfo_GET);
   (("GET", "/role/user/"), roleUser_GET); (("GET", "/service/info/"), serviceInfo_GET);
   (("GET", "/nodes/"), nodes_GET); (("PUT", "/interface/run"), interfaceRun_PUT);
   (("GET", "/interface/info"), interfaceInfo_GET); (("GET", "/variable/infos"), variableInfo_GET);
   (("GET", "/application/info"), appInfo_GET); (("GET", "/application/infos"), appInfos_GET);
   (("GET", "/relation/"), relation_GET); (("GET", "/docs/"), docs_GET);
   (("GET", "/stats/sum/"), statsSumAction_GET); (("GET", "/stats/top/app/"), statsTopApplication_GET);
   (("GET", "/stats/top/iface/"), statsTopInterface_GET); (("GET", "/stats/error/"), statsErrors_GET)].

Definition manager_routes : list mgr_route :=
  session_routes ++ open_write_routes ++ open_read_routes.

Definition manager_handler (r : Request) : option (M (Mgr N) unit) :=
  (λ p, (snd (snd p)) r) <$> list_find (λ x : mgr_route, fst x = (r_method r, r_path r)) manager_routes.

(** [httpServer.ServeHTTP] around the handler of a route. *)
Definition manager_serve (h : Request → M (Mgr N) unit) (r : Request) : M (Mgr N) unit :=
  recover (h r) (λ p, _ ← respond (WriteHeader StatusInternalServerError); respond (WriteText p)).

(** The process between requests: a request is served, or time passes and
    others change the database and the network. Requests are served one after
    the other, each at one reading of the clock, which does not go back. *)
Definition start (w : World) (n : N) (now : Z) : Mgr N := mkMgr w n [] (mkUserDB [] [] [] []) ∅ now.

Inductive mgr_step : Mgr N → Mgr N → Prop :=
| step_request rt r s : rt ∈ manager_routes → mgr_step s (manager_serve (snd rt) r s).2
| step_outside s w n now :
    m_now s ≤ now → mgr_step s (mkMgr w n (m_session s) (m_users s) (m_recv s) now).

Inductive reachable : Mgr N → Prop :=
| reach_start w n now : reachable (start w n now)
| reach_step s s' : reachable s → mgr_step s s' → reachable s'.
End routes.
