(* ===== verification/ManagerSandbox.v ===== *)
(** * ManagerSandbox: a manager to run

    Concrete processes around the manager, for runs on concrete requests: a
    scripted database, a network whose answers are listed beforehand, and a
    configuration. *)

From Stdlib Require Import ZArith Lia Ascii.
From stdpp Require Import base gmap strings list.
From S2P Require Import Prelude GoStrings Crypto Http Json SqlDB Cache RbacDb Wire RbacClient Registry Manager Document.

Module Sandbox.
(** The next answers to calls of other services, and the next pages. *)
Record net := mkNet { answers : list (goerror + Z * string); pages : list (goerror + string) }.

Definition refused : goerror := Errorf "connection refused".

#[export] Instance transport : Transport net := λ _ _ _ _ n,
  match answers n with
  | [] => (Throw refused, n)
  | inl e :: r => (Throw e, mkNet r (pages n))
  | inr p :: r => (Ret p, mkNet r (pages n))
  end.

#[export] Instance manager_net : ManagerNet net := {
  http_get _ n := match pages n with
    | [] => (Throw refused, n)
    | inl e :: r => (Throw e, mkNet (answers n) r)
    | inr p :: r => (Ret p, mkNet (answers n) r)
    end;
  etcd_list _ n := (Ret [], n);
  parse_backend _ := Ret tt;
  run_call _ _ _ _ n := (Ret "HTTP/1.1 200 OK", n)
}.

#[export] Instance env : ManagerEnv := {
  sso_key := "ticket"; sso_domain := "sso.local"; server_domain := "doodle.local";
  rbac_host := "http://rbac.local"; rbac_token := "token";
  url_string r := r_path r; remote_addr _ := "10.0.0.1:4000"; show_sso _ := "sso"
}.

#[export] Instance emails : EmailPattern := λ _, true.
#[export] Instance in_order : MapRange := λ A l, l.
#[export] Instance in_order_laws : MapRangeLaws := λ A l, reflexivity l.

(** A request of the caller with a ticket. *)
Definition ticket_header (t : string) : gmap string (list string) := {[ "Cookie" := ["ticket=" +:+ t] ]}.

Definition request (method path : string) (query : list (string * string)) (t : string) : Request :=
  mkRequest method path (list_to_map ((λ kv, (fst kv, [snd kv])) <$> query)) (ticket_header t) (Ret ∅) (Ret "").

(** The session of a user without rights who logged in before. *)
Definition alice : userinfo :=
  mkUserinfo 0 false [7] "7" [3] "3" "alice@local" "" "" "" "" "" "alice" 11 "alice".

Definition session_of (u : userinfo) : list (cacheEntry userinfo) := [mkCacheEntry "t1" 90 u].

Definition envelope (data : json) : Z * string :=
  (200, print (JObj [("Status", JInt 0); ("Message", JStr ""); ("Data", data)])).

Definition resources (ids : list Z) : goerror + Z * string :=
  inr (200, print (JArr ((λ i, JObj [("ID", JInt i)]) <$> ids))).

Definition roles (ids : list Z) : goerror + Z * string :=
  inr (200, print (JArr ((λ i, JObj [("RoleID", JInt i)]) <$> ids))).

Definition state (rows : list (goerror + list (list gval))) (results : list (goerror + Z * Z))
    (replies : list (goerror + Z * string)) : Mgr net :=
  mkMgr (Scripted.world rows results) (mkNet replies []) (session_of alice) (mkUserDB [] [] [] []) ∅ 100.
End Sandbox.
