(* ===== verification/ManagerTheory.v ===== *)
(** * ManagerTheory: sessions, permissions and what the manager writes

    What the handlers of the manager guarantee about the requests they accept,
    and where they do not: which routes ask who is calling, what a permission
    check covers, what an earlier request leaves behind, what every request
    gets as an answer. *)

From Stdlib Require Import ZArith Lia Ascii.
From stdpp Require Import base gmap strings list.
From S2P Require Import Prelude GoStrings Crypto Http Json Fmt NetUrl SqlDB Cache Orm RbacDb RbacService.
From S2P Require Import RbacTheory Wire RbacClient ManagerDb Registry Manager Document ManagerInterfaces.
From S2P Require Import ManagerHandlers ManagerSandbox.

(** ** Traces of the manager *)

(** Statements that read. *)
Definition reads (e : event) : Prop := match e with EvQuery _ _ => True | _ => False end.

Section traces.
Context `{SqlEngine} {N : Type} `{Transport N} `{ManagerNet N} `{ManagerEnv}.

Lemma extends_on_db {A} P (m : M World A) : extends P m → extends P (on_db (N := N) m).
Proof.
  intros Hm s. destruct (Hm (m_world s)) as (evs & He & HF). exists evs. split; [|done].
  unfold on_db. destruct (m (m_world s)) as [o w] eqn:E. simpl in *. unfold trace_of, Mgr_traced. simpl.
  exact He.
Qed.

Lemma extends_on_net {A} P (m : M N A) : extends P (on_net m).
Proof. apply extends_same. intros s. unfold on_net. by destruct (m (m_net s)). Qed.

Lemma extends_users_get {V} P (get : userDB → list (cacheEntry V)) put email :
  extends P (users_get (N := N) get put email).
Proof. apply extends_same. intros s. done. Qed.

Lemma extends_users_add {V} P (get : userDB → list (cacheEntry V)) put email v :
  extends P (users_add (N := N) get put email v).
Proof. by apply extends_same. Qed.

Lemma extends_cached {V} P (get : userDB → list (cacheEntry V)) put email (load : M (Mgr N) V) :
  extends P load → extends P (cached get put email load).
Proof.
  intros Hl. unfold cached. apply extends_bind; [apply extends_users_get|intros [x|]; [apply extends_ret|]].
  apply extends_bind; [apply extends_users_get|intros [x|]; [apply extends_ret|done]].
Qed.

Lemma extends_session_get P ticket : extends P (session_get (N := N) ticket).
Proof. by apply extends_same. Qed.
Lemma extends_session_add P ticket u : extends P (session_add (N := N) ticket u).
Proof. by apply extends_same. Qed.
Lemma extends_session_update P ticket u : extends P (session_update (N := N) ticket u).
Proof. by apply extends_same. Qed.

Lemma extends_decode_receiver `{EmailPattern} P name fs r : extends P (decode_receiver (N := N) name fs r).
Proof. apply extends_same. intros s. unfold decode_receiver. by destruct (DecodeRequestValue _ _ _ _). Qed.

Lemma extends_with_recv P name vs : extends P (modify (with_recv (N := N) name vs)).
Proof. by apply extends_same. Qed.
End traces.

#[export] Hint Resolve extends_on_db extends_on_net extends_users_add extends_session_get
  extends_session_add extends_session_update extends_cached extends_decode_receiver
  extends_with_recv : trace.

(** ** The query builder only queries *)

Section builder.
Context `{SqlEngine}.

Lemma reads_Stmt_rows cs s : extends reads (Stmt_rows cs s).
Proof. unfold Stmt_rows. apply extends_try; intros; [by apply extends_query|apply extends_throw|apply extends_ret]. Qed.

Lemma reads_Stmt_subs sub s : extends reads (Stmt_subs sub s).
Proof.
  unfold Stmt_subs. apply extends_try; [apply reads_Stmt_rows| |].
  - intros e. destruct (decide _); [apply extends_ret|apply extends_throw].
  - intros rows. destruct (mapM _ rows); [apply extends_ret|apply extends_throw].
Qed.

Lemma reads_fill_slices cs first id cells : extends reads (fill_slices cs first id cells).
Proof.
  revert cells. induction cs as [|c cs IH]; intros [|x cells]; [apply extends_ret..| |].
  { destruct c; apply extends_ret. }
  destruct c; simpl.
  all: repeat (apply extends_bind; [first [apply IH|apply reads_Stmt_subs]|intros]); apply extends_ret.
Qed.

Lemma reads_scan_object {T} `{Table T} s row : extends reads (scan_object (T := T) s row).
Proof.
  unfold scan_object. destruct (scan_vals _ row); [|apply extends_throw].
  apply extends_bind; [apply reads_fill_slices|intros cells].
  destruct (of_cells cells); [apply extends_ret|apply extends_throw].
Qed.

Lemma reads_scan_objects {T} `{Table T} s rows : extends reads (scan_objects (T := T) s rows).
Proof.
  induction rows as [|row rows IH]; simpl; [apply extends_ret|].
  apply extends_bind; [apply reads_scan_object|intros]. apply extends_bind; [apply IH|intros; apply extends_ret].
Qed.

Lemma reads_QueryOne {T} `{Table T} s : extends reads (Stmt_QueryOne (T := T) s).
Proof.
  unfold Stmt_QueryOne. apply extends_bind; [apply reads_Stmt_rows|intros [|row rows]];
    [apply extends_throw|apply reads_scan_object].
Qed.

Lemma reads_QueryAll {T} `{Table T} s : extends reads (Stmt_QueryAll (T := T) s).
Proof.
  unfold Stmt_QueryAll. apply extends_bind; [apply reads_Stmt_rows|intros rows].
  apply extends_bind; [apply reads_scan_objects|intros [|x l]]; [apply extends_throw|apply extends_ret].
Qed.

Lemma reads_Count s : extends reads (Stmt_Count s).
Proof.
  unfold Stmt_Count. apply extends_bind; [by apply extends_query|intros [|row rows]]; [apply extends_throw|].
  destruct (scan_vals _ row) as [[|[] []]|]; first [apply extends_ret|apply extends_throw].
Qed.

Lemma reads_query {T} `{Struct T} table w sort order o c :
  extends reads (query (T := T) table w sort order o c).
Proof.
  unfold query. destruct (decide _); [apply extends_throw|].
  apply extends_bind; [apply extends_connect|intros]. apply extends_bind; [by apply extends_query|intros].
  apply extends_bind; [apply extends_lift|intros]. apply extends_bind; [|intros; apply extends_ret].
  unfold scan_count. apply extends_try; intros; [by apply extends_query|apply extends_ret..].
Qed.

Lemma reads_first_row sql args ks e : extends reads (first_row sql args ks e).
Proof.
  unfold first_row. apply extends_bind; [apply extends_connect|intros].
  apply extends_bind; [by apply extends_query|intros [|row rows]]; [apply extends_throw|].
  destruct (scan_vals ks row); [apply extends_ret|apply extends_throw].
Qed.

Lemma reads_all_rows {T} `{Struct T} sql : extends reads (all_rows (T := T) sql).
Proof.
  unfold all_rows. apply extends_bind; [apply extends_connect|intros].
  apply extends_bind; [by apply extends_query|intros; apply extends_lift].
Qed.
End builder.

#[export] Hint Resolve reads_QueryOne reads_QueryAll reads_Count reads_query reads_first_row reads_all_rows : trace.

(** ** Sessions *)

Section session.
Context `{SqlEngine} {N : Type} `{Transport N} `{ManagerNet N} `{ManagerEnv}.

Lemma reads_isAdmin email : extends reads (isAdmin (N := N) email).
Proof.
  unfold isAdmin. apply extends_cached. apply extends_try; intros; [auto with trace|apply extends_ret|].
  apply extends_try; intros; [auto with trace| |].
  - destruct (decide _); [|apply extends_ret]. apply extends_bind; [apply extends_users_add|intros; apply extends_ret].
  - apply extends_bind; [apply extends_users_add|intros; apply extends_ret].
Qed.

(** A cached load from the network touches no database. *)
Lemma extends_net_load {A V} P (get : userDB → list (cacheEntry V)) put email (m : M N A) (f : A → V) :
  extends P (cached get put email (x ← on_net m; _ ← users_add get put email (f x); mret (f x))).
Proof.
  apply extends_cached. apply extends_bind; [apply extends_on_net|intros].
  apply extends_bind; [apply extends_users_add|intros; apply extends_ret].
Qed.

Lemma reads_loadInfo u : extends reads (loadInfo (N := N) u).
Proof.
  unfold loadInfo. apply extends_try; intros; [apply (extends_net_load _ _ _ _ _ (λ x, x))|apply extends_ret|].
  apply extends_try; intros; [apply (extends_net_load _ _ _ _ _ (λ rs, RoleUser_RoleID <$> rs))|apply extends_ret|].
  apply extends_bind; [apply reads_isAdmin|intros; apply extends_ret].
Qed.

(** Finding out who is calling only reads. *)
Lemma reads_session_User r : extends reads (session_User (N := N) r).
Proof.
  unfold session_User. apply extends_bind; [apply extends_lift|intros ticket].
  apply extends_bind; [apply extends_session_get|intros [i|]].
  - apply extends_bind; [apply reads_loadInfo|intros [u err]].
    apply extends_bind; [apply extends_session_update|intros]. destruct err; [apply extends_throw|apply extends_ret].
  - apply extends_bind; [|intros resp].
    { unfold verifyTicket. apply extends_bind; [apply extends_on_net|intros; apply extends_lift]. }
    destruct (sso_Flag resp); [|apply extends_throw].
    apply extends_bind; [apply reads_loadInfo|intros [u [e|]]]; [apply extends_throw|].
    apply extends_bind; [apply (extends_net_load _ _ _ _ _ User_ID)|intros].
    apply extends_bind; [apply extends_session_add|intros; apply extends_ret].
Qed.
End session.
#[export] Hint Resolve reads_session_User : trace.

(** ** Who is asked, and who is not *)

Section access.
Context `{SqlEngine} {N : Type} `{Transport N} `{ManagerNet N} `{ManagerEnv} `{EmailPattern}.
Context `{BlockCipher} `{MapRange}.

(** The status a route answers an unknown caller with. *)
Definition unknown_status (rt : mgr_route (N := N)) : Z :=
  if decide (fst rt = ("GET", "/account")) then StatusInternalServerError else StatusBadRequest.

(** C8: on every route that looks at the session, a request whose caller cannot
    be established gets the error of the session as its only answer, with status
    500 on [/account] and 400 on the others: the handler runs no further code, and
    nothing was written to the database on the way. When finding out who calls
    panics, the handler ends there, without a write either. *)
Theorem manager_session_required (rt : mgr_route) r (s : Mgr N) :
  rt ∈ session_routes →
  match session_User r s with
  | (Ret _, _) => True
  | (Throw e, s') =>
      snd rt r s = respond (SendResponse (unknown_status rt) (Error e)) s' ∧
      ∃ evs, trace_of (snd rt r s).2 =
               (trace_of s ++ evs ++ [EvReply (SendResponse (unknown_status rt) (Error e))])%list ∧
             Forall reads evs
  | (Panic p, s') =>
      snd rt r s = (Panic p, s') ∧ ∃ evs, trace_of (snd rt r s).2 = (trace_of s ++ evs)%list ∧ Forall reads evs
  end.
Proof.
  intros Hin. destruct (reads_session_User r s) as (evs & Hevs & HF).
  destruct (session_User r s) as [[u|e|p] s'] eqn:E; [done| |].
  - assert (Hr : snd rt r s = respond (SendResponse (unknown_status rt) (Error e)) s').
    { unfold session_routes in Hin.
      repeat (apply elem_of_cons in Hin as [->|Hin]; [exact (try_throw _ _ _ _ _ _ E)|]). by apply elem_of_nil in Hin. }
    split; [done|]. rewrite Hr. exists evs. split; [|done].
    unfold trace_of, Mgr_traced in *. simpl in *. rewrite Hevs. by rewrite app_assoc.
  - assert (Hr : snd rt r s = (Panic p, s')).
    { unfold session_routes in Hin.
      repeat (apply elem_of_cons in Hin as [->|Hin]; [exact (try_panic _ _ _ _ _ _ E)|]). by apply elem_of_nil in Hin. }
    split; [done|]. rewrite Hr. by exists evs.
Qed.

Definition with_header (h : gmap string (list string)) (r : Request) : Request :=
  mkRequest (r_method r) (r_path r) (r_query r) h (r_post r) (r_body r).

(** The routes that add, change or delete interfaces, variables, relations,
    services, roles and users below do not look at the request's headers, in
    which a caller's ticket travels: whatever they hold, the same is done. *)
Theorem open_routes_ignore_caller (rt : mgr_route) r h (s : Mgr N) :
  rt ∈ open_write_routes → snd rt (with_header h r) s = snd rt r s.
Proof.
  intros Hin. unfold open_write_routes in Hin.
  repeat (apply elem_of_cons in Hin as [->|Hin]; [reflexivity|]). by apply elem_of_nil in Hin.
Qed.

(** ** Permissions *)

(** What a run adds to the trace is written only under a condition. *)
Definition writes_under (P : event → Prop) (s s' : Mgr N) : Prop :=
  ∃ evs, trace_of s' = (trace_of s ++ evs)%list ∧ Forall (λ e, executed e ≠ None → P e) evs.

Lemma writes_under_reads P e : reads e → executed e ≠ None → P e.
Proof. by destruct e. Qed.

Lemma writes_under_step {A} P (m : M (Mgr N) A) s s1 s2 :
  extends reads m → (m s).2 = s1 → writes_under P s1 s2 → writes_under P s s2.
Proof.
  intros Hm <- (evs & He & HF). destruct (Hm s) as (evs' & He' & HF').
  exists (evs' ++ evs)%list. rewrite He, He', app_assoc. split; [done|]. apply Forall_app. split; [|done].
  eapply list.Forall_impl; [exact HF'|]. intros ev Hev. by apply writes_under_reads.
Qed.

Lemma writes_under_extends {A} P (m : M (Mgr N) A) s :
  extends (λ e, executed e ≠ None → P e) m → writes_under P s (m s).2.
Proof. intros Hm. apply Hm. Qed.

Lemma writes_respond P r s : writes_under P s (respond (N := N) r s).2.
Proof. exists [EvReply r]. split; [done|]. by repeat constructor. Qed.

(** One step of a handler that only reads: its error is answered. *)
Lemma writes_under_try {A} P (m : M (Mgr N) A) (h : goerror → M (Mgr N) unit) k s :
  extends reads m →
  (∀ e s', writes_under P s' (h e s').2) →
  (∀ a s', m s = (Ret a, s') → writes_under P s' (k a s').2) →
  writes_under P s (try m h k s).2.
Proof.
  intros Hm Hh Hk. unfold try. destruct (m s) as [[a|e|p] s1] eqn:E.
  - eapply writes_under_step; [exact Hm|by rewrite E|by apply Hk].
  - eapply writes_under_step; [exact Hm|by rewrite E|by apply Hh].
  - eapply writes_under_step; [exact Hm|by rewrite E|]. exists []. by rewrite app_nil_r.
Qed.

Lemma reads_getResourceID table id : extends reads (getResourceID table id).
Proof. unfold getResourceID. apply extends_bind; [apply reads_first_row|intros; apply extends_ret]. Qed.

Lemma reads_getInterfaceState id : extends reads (getInterfaceState id).
Proof. unfold getInterfaceState. apply extends_bind; [apply reads_first_row|intros; apply extends_ret]. Qed.

Lemma writes_error P (h : goerror → reply) e s : writes_under P s (respond (N := N) (h e) s).2.
Proof. apply writes_respond. Qed.

(** What a statement that succeeded left in the trace. *)
Lemma add_sent table fs vs w id w' :
  add table fs vs w = (Ret id, w') → w_events w' = (w_events w ++ [EvExec (insert_sql table fs vs) []])%list.
Proof.
  unfold add. destruct (decide _); [done|]. unfold mbind, M_bind, GetConnection, Exec.
  destruct (db_connect (w_db w)) as [[e|] d]; [done|]. simpl. destruct (db_exec _ _ d) as [[e|x] d']; [done|].
  by intros [= _ <-].
Qed.

Lemma exec_with_sent sql args w w' :
  exec_with sql args w = (Ret tt, w') → w_events w' = (w_events w ++ [EvExec sql args])%list.
Proof.
  unfold exec_with, mbind, M_bind, GetConnection, Exec.
  destruct (db_connect (w_db w)) as [[e|] d]; [done|]. simpl. destruct (db_exec _ _ d) as [[e|x] d']; [done|].
  by intros [= <-].
Qed.

Lemma exec_with_no_panic sql args w p w' : exec_with sql args w ≠ (Panic p, w').
Proof.
  unfold exec_with, mbind, M_bind, GetConnection, Exec.
  destruct (db_connect (w_db w)) as [[e|] d]; [done|]. simpl. by destruct (db_exec _ _ d) as [[e|x] d'].
Qed.

Lemma on_db_run {A} (m : M World A) (s : Mgr N) o w :
  m (m_world s) = (o, w) →
  on_db m s = (o, mkMgr w (m_net s) (m_session s) (m_users s) (m_recv s) (m_now s)).
Proof. intros Hm. unfold on_db. by rewrite Hm. Qed.

Lemma decode_run fs r (s : Mgr N) v :
  DecodeRequestValue true fs (zero_vals fs) r = Ret v → decode fs r s = (Ret v, s).
Proof. intros Hv. unfold decode, lift. by rewrite Hv. Qed.

(** The row that is inserted: unpublished and under the caller's name. *)
Definition own_row (u : userinfo) (v : list gval) : list gval :=
  <[6%nat := VInt 0]> (<[4%nat := VStr (u_User u)]> (<[5%nat := VStr (u_Email u)]> v)).

Definition may_insert (r : Request) (s : Mgr N) (ev : event) : Prop :=
  ∃ u s1 v resID s2,
    session_User r s = (Ret u, s1) ∧
    DecodeRequestValue true iface (zero_vals iface) r = Ret v ∧
    getServiceResourceID (nth_int v 1) s1 = (Ret resID, s2) ∧
    (u_IsAdmin u = true ∨ resID ∈ u_Res u) ∧
    let stmt := SQLInsert iface (own_row u v) (NewStmt "interface") in ev = EvExec stmt.1 stmt.2.

Lemma interface_POST_writes r (s : Mgr N) : writes_under (may_insert r s) s (interfaceAction_POST r s).2.
Proof.
  unfold interfaceAction_POST, with_user.
  apply writes_under_try; [apply reads_session_User|intros; apply writes_respond|]. intros u s1 Hu.
  apply writes_under_try; [apply extends_lift|intros; apply writes_respond|]. intros v s1' Hv.
  unfold decode, lift in Hv. injection Hv as Hv <-.
  apply writes_under_try; [apply extends_on_db, reads_getResourceID|intros; apply writes_respond|].
  intros resID s2 Hres.
  apply writes_under_try; [apply extends_lift|intros; apply writes_respond|]. intros [] s2' Ha.
  unfold lift in Ha. injection Ha as Ha <-.
  apply writes_under_try; [auto with trace|intros; apply writes_respond|]. intros [] s3 _.
  apply writes_under_extends. apply extends_try.
  - unfold Insert_vals. destruct (SQLInsert _ _ _) as [sql refs] eqn:E. apply extends_on_db.
    apply extends_bind; [|intros; apply extends_ret]. apply extends_exec. intros _.
    exists u, s1, v, resID, s2. unfold own_row. split_and!; [done..| |by rewrite E].
    unfold assert_ in Ha. destruct (u_IsAdmin u); [by left|]. right. by destruct (decide _).
  - intros e. unfold insert_failed. destruct (Contains _ _); by apply extends_on_db, extends_reply.
  - intros id. by apply extends_on_db, extends_reply.
Qed.


Lemma connect_events w w' : GetConnection w = (Ret tt, w') → w_events w' = w_events w.
Proof. unfold GetConnection. destruct (db_connect (w_db w)) as [[e|] d]; [done|]. by intros [= <-]. Qed.

Lemma insert_sent fs vs st w id w' :
  Insert_vals fs vs st w = (Ret id, w') →
  w_events w' = (w_events w ++ [EvExec (SQLInsert fs vs st).1 (SQLInsert fs vs st).2])%list.
Proof.
  unfold Insert_vals. destruct (SQLInsert fs vs st) as [sql refs]. unfold mbind, M_bind, Exec.
  destruct (db_exec _ _ (w_db w)) as [[e|x] d']; [done|]. by intros [= _ <-].
Qed.

(** C7: through [POST /interface/], where users add interfaces, an interface is
    inserted only for a caller who was identified and may use the service it is
    added to: an administrator, or one whose resources include the one the
    [service] table names for that service. What is inserted is the request's
    interface, unpublished and under the caller's name. A caller who may not is
    told so and nothing follows; for one who may, an insert that succeeds and the
    reply with its identifier are all that follows. (Services register their
    interfaces through [POST /interface/register/], which asks nobody:
    [open_routes_ignore_caller].) *)
Theorem interface_add_authorised r (s : Mgr N) :
  writes_under (may_insert r s) s (interfaceAction_POST r s).2 ∧
  ∀ u s1 v resID s2,
    session_User r s = (Ret u, s1) → DecodeRequestValue true iface (zero_vals iface) r = Ret v →
    getServiceResourceID (nth_int v 1) s1 = (Ret resID, s2) →
    if u_IsAdmin u || bool_decide (resID ∈ u_Res u) then
      let stmt := SQLInsert iface (own_row u v) (NewStmt "interface") in
      ∀ w id w', GetConnection (m_world s2) = (Ret tt, w) →
        Insert_vals iface (own_row u v) (NewStmt "interface") w = (Ret id, w') →
        trace_of (interfaceAction_POST r s).2 =
          (trace_of s2 ++ [EvExec stmt.1 stmt.2; EvReply (SendResponseData (PVal (VInt id)))])%list
    else
      trace_of (interfaceAction_POST r s).2 =
        (trace_of s2 ++ [EvReply (WriteText (format_message (Error permission_error)))])%list.
Proof.
  split; [apply interface_POST_writes|]. intros u s1 v resID s2 Hu Hv Hres.
  set (rest := λ _ : unit,
    let? _ := on_db GetConnection catch e => fail StatusInternalServerError e in
    let? id := on_db (Insert_vals iface (own_row u v) (NewStmt "interface")) catch e => insert_failed duplicate_interface e in
    respond (N := N) (SendResponseData (PVal (VInt id)))).
  assert (Hrun : interfaceAction_POST r s =
    try (lift (assert_ u resID)) fprintf_error rest s2).
  { unfold interfaceAction_POST, with_user. rewrite (try_ret _ _ _ _ _ _ Hu).
    rewrite (try_ret _ _ _ _ _ _ (decode_run _ _ _ _ Hv)). by rewrite (try_ret _ _ _ _ _ _ Hres). }
  rewrite Hrun. clear Hrun. unfold try, lift, assert_.
  destruct (u_IsAdmin u); [|destruct (decide (resID ∈ u_Res u)) as [Hin|Hin]; cbn [orb];
    [rewrite bool_decide_true by done|by rewrite bool_decide_false]].
  all: cbn [orb]; intros w id w' Hc Hi; unfold rest; rewrite (try_ret _ _ _ _ _ _ (on_db_run _ s2 _ _ Hc)).
  all: set (s3 := mkMgr w _ _ _ _ _); rewrite (try_ret _ _ _ _ _ _ (on_db_run _ s3 _ _ Hi)).
  all: unfold trace_of, Mgr_traced; simpl; by rewrite (insert_sent _ _ _ _ _ _ Hi), (connect_events _ _ Hc), <-app_assoc.
Qed.

(** A relation is added only after the state of its interface was read as 1. *)
Lemma relation_POST_writes r (s : Mgr N) :
  writes_under (λ ev, ∃ v, DecodeRequestValue true new_relation (zero_vals new_relation) r = Ret v ∧
      (getInterfaceState (nth_int v 1) (m_world s)).1 = Ret 1 ∧
      ev = EvExec (insert_sql "relation" new_relation v) [])
    s (relation_POST r s).2.
Proof.
  unfold relation_POST.
  apply writes_under_try; [apply extends_lift|intros; apply writes_respond|]. intros v s1 Hv.
  unfold decode, lift in Hv. injection Hv as Hv <-.
  apply writes_under_try; [apply extends_on_db, reads_getInterfaceState|intros; apply writes_respond|].
  intros st s2 Hst. destruct (decide _) as [Hd|Hd]; [apply writes_respond|].
  assert (st = 1) as -> by (destruct (decide (st = 1)); [done|by destruct Hd]).
  assert (Hone : (getInterfaceState (nth_int v 1) (m_world s)).1 = Ret 1).
  { unfold on_db in Hst. destruct (getInterfaceState _ _) as [o w]. by injection Hst as -> _. }
  apply writes_under_extends. apply extends_try; [|intros; by apply extends_on_db, extends_reply..].
  apply extends_on_db. unfold add. destruct (decide _); [apply extends_throw|].
  apply extends_bind; [apply extends_connect|intros]. apply extends_bind; [|intros; apply extends_ret].
  apply extends_exec. eauto.
Qed.

(** C14: a relation is added only while its interface is published: the insert,
    the one statement [relation.POST] can send, is reached only after the state of
    the interface was read as 1; any other state is answered without a write; and
    when it was 1 and the insert succeeded, that insert and the reply with the new
    identifier are all that follows. ([relation.PUT] reads no state:
    [relation_changed_unchecked].) *)
Theorem relation_requires_published r (s : Mgr N) :
  writes_under (λ ev, ∃ v, DecodeRequestValue true new_relation (zero_vals new_relation) r = Ret v ∧
      (getInterfaceState (nth_int v 1) (m_world s)).1 = Ret 1 ∧
      ev = EvExec (insert_sql "relation" new_relation v) [])
    s (relation_POST r s).2 ∧
  ∀ v st w,
    DecodeRequestValue true new_relation (zero_vals new_relation) r = Ret v →
    getInterfaceState (nth_int v 1) (m_world s) = (Ret st, w) →
    if decide (st = 1) then
      ∀ id w', add "relation" new_relation v w = (Ret id, w') →
        trace_of (relation_POST r s).2 =
          (w_events w ++ [EvExec (insert_sql "relation" new_relation v) []; EvReply (SendResponse 0 (id_text id))])%list
    else trace_of (relation_POST r s).2 =
           (w_events w ++ [EvReply (SendResponse StatusInternalServerError not_published)])%list.
Proof.
  split; [apply relation_POST_writes|]. intros v st w Hv Hst.
  assert (Hrun : relation_POST r s =
    (if decide (st ≠ 1) then answer not_published else
     let? id := on_db (add "relation" new_relation v) catch e => fail StatusInternalServerError e in
     respond (SendResponse 0 (id_text id))) (mkMgr w (m_net s) (m_session s) (m_users s) (m_recv s) (m_now s))).
  { unfold relation_POST. rewrite (try_ret _ _ _ _ _ _ (decode_run _ _ _ _ Hv)).
    by rewrite (try_ret _ _ _ _ _ _ (on_db_run _ _ _ _ Hst)). }
  rewrite Hrun. clear Hrun. destruct (decide (st = 1)) as [->|Hne].
  - intros id w' Hadd. rewrite decide_False by naive_solver.
    set (s2 := mkMgr w _ _ _ _ _). rewrite (try_ret _ _ _ _ _ _ (on_db_run _ s2 _ _ Hadd)).
    unfold trace_of, Mgr_traced. simpl. by rewrite (add_sent _ _ _ _ _ _ Hadd), <-app_assoc.
  - by rewrite decide_True.
Qed.

(** What [relation.PUT] writes is checked against nothing: whatever the state of
    the interface, an application that has a relation is allowed on it. *)
Theorem relation_changed_unchecked r (s : Mgr N) v w :
  DecodeRequestValue true [var_int "id"; var_int "appID"; var_int "interfaceID"]
    (zero_vals [var_int "id"; var_int "appID"; var_int "interfaceID"]) r = Ret v →
  updateRelation (nth_int v 0) (nth_int v 2) (nth_int v 1) (m_world s) = (Ret tt, w) →
  trace_of (relation_PUT r s).2 =
    (trace_of s ++ [EvExec "update relation set interface_id=?, application_id=?, mtime=now() where id=?"
                      [VInt (nth_int v 2); VInt (nth_int v 1); VInt (nth_int v 0)];
                    EvReply (SendResponse 0 "")])%list.
Proof.
  intros Hv Hu. unfold relation_PUT. rewrite (try_ret _ _ _ _ _ _ (decode_run _ _ _ _ Hv)).
  rewrite (try_ret _ _ _ _ _ _ (on_db_run _ _ _ _ Hu)). unfold trace_of, Mgr_traced. simpl.
  by rewrite (exec_with_sent _ _ _ _ Hu), <-app_assoc.
Qed.
End access.

(** ** What the conditions miss *)

Section gaps.
Context `{SqlEngine} {N : Type} `{Transport N} `{ManagerNet N} `{ManagerEnv} `{EmailPattern}.
Context `{BlockCipher} `{MapRange}.

(** The statements a run adds to the trace. *)
Definition sent (s s' : Mgr N) (stmts : list (string * list gval)) : Prop :=
  ∃ evs, trace_of s' = (trace_of s ++ evs)%list ∧ omap statement evs = stmts.

(** Once the caller may use the service asked for, a listing that is limited
    to published interfaces is not limited to that service: the condition on the
    state replaces the one on the service, so the rows counted and listed are
    those of every service. *)
Theorem published_listing_not_confined r (s s1 s2 s3 s4 : Mgr N) u i resID total :
  session_User r s = (Ret u, s1) →
  decode_receiver "interfaceAction" interfaceAction r s1 = (Ret i, s2) →
  getServiceResourceID (nth_int i 2) s2 = (Ret resID, s3) → assert_ u resID = Ret tt →
  nth_int i 1 = 1 → nth_str i 7 = "" →
  on_db (_ ← GetConnection; Stmt_Count (Where "state=1" (NewStmt "interface"))) s3 = (Ret total, s4) →
  interfaceAction_GET r s =
    (let stmt := Where "state=1" (NewStmt "interface") in
     let stmt := if decide (nth_str i 3 = "") then stmt else Order ("interface." +:+ nth_str i 3) stmt in
     let? is_ := on_db (Stmt_QueryAll (T:=Interface) (Limit (nth_int i 6) (Offset (nth_int i 5) stmt)))
       catch _ => respond (SendRows 0 PNull) in
     respond (SendRows total (PJson (slice_json encode_interface is_)))) s4.
Proof.
  intros Hu Hi Hres Ha Hst Hse Htot. unfold interfaceAction_GET, with_user.
  rewrite (try_ret _ _ _ _ _ _ Hu), (try_ret _ _ _ _ _ _ Hi), (try_ret _ _ _ _ _ _ Hres).
  unfold try at 1. unfold lift at 1. rewrite Ha. unfold interface_stmt. rewrite Hst, Hse. simpl.
  unfold on_db in Htot. unfold mbind at 1, M_bind at 1 in Htot.
  destruct (GetConnection (m_world s3)) as [[[]|e|p] w] eqn:Ec; [|done..].
  unfold try at 1. unfold on_db at 1. rewrite Ec. simpl.
  unfold try at 1. unfold on_db at 1. simpl.
  destruct (Stmt_Count _ w) as [o w'] eqn:En. injection Htot as -> <-. done.
Qed.

(** ** Values left behind *)

Lemma parsed_receiver name fs r (s : Mgr N) form vs :
  parsed_form r = Ret form → Http.decode_fields true form fs (receiver name fs s) = Ret vs →
  Forall (λ f, f_valid f = "") fs →
  decode_receiver name fs r s = (Ret vs, with_recv name vs s).
Proof.
  intros Hf Hd Hv. unfold decode_receiver, DecodeRequestValue. rewrite Hf. cbn [mbind outcome_bind].
  rewrite Hd. cbn [mbind outcome_bind].
  assert (Valid fs vs = Ret tt) as ->; [|done].
  clear Hd. revert vs. induction Hv as [|f fs Hf' Hv IH]; intros [|v vs]; try done.
  simpl. unfold valid_field. rewrite decide_True by done. apply IH.
Qed.

(** An integer that is not sent keeps its value. *)
Lemma decode_int_kept form name k json old :
  (k = KInt ∨ k = KInt64) → is_Some (ParseInt (values_get form json) 10).2 → json ≠ "" →
  Http.decode_field true form (mkField name k "" "" json "") old = Ret old.
Proof.
  intros Hk [e He] Hj. unfold Http.decode_field. cbn [f_json f_kind f_valid].
  rewrite decide_False by done. destruct (ParseInt _ _) as [z [e'|]]; [|done].
  by destruct Hk as [-> | ->].
Qed.

Lemma decode_int_total form name k json old :
  (k = KInt ∨ k = KInt64) → json ≠ "" →
  ∃ v, Http.decode_field true form (mkField name k "" "" json "") (VInt old) = Ret (VInt v).
Proof.
  intros Hk Hj. unfold Http.decode_field. cbn [f_json f_kind f_valid].
  rewrite decide_False by done. destruct (ParseInt _ _) as [z [e'|]]; destruct Hk as [-> | ->]; eauto.
Qed.

(** Decoding into the interface object always succeeds once the form is parsed,
    and sets its id to the one sent, if it is a number. *)
Lemma decode_interfaceAction r form (s : Mgr N) a b c x y d e z :
  parsed_form r = Ret form →
  receiver "interfaceAction" interfaceAction s = [VInt a; VInt b; VInt c; VStr x; VStr y; VInt d; VInt e; VStr z] →
  ∃ b' c' x' y' d' e' z',
    let id := match ParseInt (values_get form "id") 10 with (v, None) => v | _ => a end in
    let vs := [VInt id; VInt b'; VInt c'; VStr x'; VStr y'; VInt d'; VInt e'; VStr z'] in
    decode_receiver "interfaceAction" interfaceAction r s = (Ret vs, with_recv "interfaceAction" vs s).
Proof.
  intros Hf Hr.
  destruct (decode_int_total form "State" KInt "state" b) as [b' Hb]; [by left|done|].
  destruct (decode_int_total form "ServiceID" KInt64 "pid" c) as [c' Hc]; [by right|done|].
  destruct (decode_int_total form "Page" KInt "offset" d) as [d' Hd]; [by left|done|].
  destruct (decode_int_total form "Size" KInt "limit" e) as [e' He]; [by left|done|].
  exists b', c', (values_get form "sort"), (values_get form "order"), d', e', (values_get form "search").
  cbn zeta. apply (parsed_receiver _ _ _ _ form); [done| |by repeat constructor].
  rewrite Hr. unfold interfaceAction, fld_json. cbn [Http.decode_fields].
  unfold Http.decode_field at 1. cbn [f_json f_kind f_valid f_name].
  rewrite Hb, Hc, Hd, He. unfold Http.decode_field. cbn [f_json f_kind f_valid f_name].
  rewrite !(decide_False (P := _ = "")) by done. rewrite (decide_True (P := "" = "")) by done.
  by destruct (ParseInt (values_get form "id") 10) as [v [er|]].
Qed.

(** A deletion that names no interface deletes the one a previous request
    named: after a deletion of [k], the next request without a number under
    [id], from whoever, sends the deletion of [k] again. *)
Theorem delete_repeats_previous r1 r2 form1 form2 k (s : Mgr N) :
  parsed_form r1 = Ret form1 → parsed_form r2 = Ret form2 →
  ParseInt (values_get form1 "id") 10 = (k, None) → is_Some (ParseInt (values_get form2 "id") 10).2 →
  m_recv s !! "interfaceAction" = None →
  let s1 := (interfaceAction_DELETE r1 s).2 in
  ∃ vs, interfaceAction_DELETE r2 s1 =
    (let? _ := on_db (del "interface" k) catch e => fail StatusInternalServerError e in
     respond (SendResponse 0 "")) (with_recv "interfaceAction" vs s1).
Proof.
  intros Hf1 Hf2 Hk [e He] Hn. cbn zeta.
  destruct (decode_interfaceAction r1 form1 s 0 0 0 "" "" 0 0 "") as (b&c&x&y&d&z&q&E1); [done| |].
  { unfold receiver. by rewrite Hn. }
  rewrite Hk in E1. cbn zeta in E1.
  set (vs := [VInt k; VInt b; VInt c; VStr x; VStr y; VInt d; VInt z; VStr q]) in E1.
  assert (Hs1 : m_recv (interfaceAction_DELETE r1 s).2 !! "interfaceAction" = Some vs).
  { unfold interfaceAction_DELETE. rewrite (try_ret _ _ _ _ _ _ E1). unfold try, fail, respond, on_db.
    destruct (del _ _ _) as [[a|e'|p] w]; simpl; by rewrite lookup_insert_eq. }
  set (s1 := (interfaceAction_DELETE r1 s).2) in *.
  destruct (decode_interfaceAction r2 form2 s1 k b c x y d z q) as (b'&c'&x'&y'&d'&z'&q'&E2); [done| |].
  { unfold receiver. by rewrite Hs1. }
  destruct (ParseInt (values_get form2 "id") 10) as [v o]. simpl in He. subst o. cbn zeta iota beta in E2.
  eexists. unfold interfaceAction_DELETE at 1. rewrite (try_ret _ _ _ _ _ _ E2). reflexivity.
Qed.

(** The rights of a user are read again for every request, but a user who
    has lost the last resource keeps the list of services those resources gave:
    the permission check refuses everything, the listing is unchanged. *)
Theorem lost_resources_still_listed r ticket u u' err (s s1 s2 : Mgr N) :
  getTicket r = Ret ticket → session_get ticket s = (Ret (Some u), s1) →
  loadResource (u_Email u) s1 = (Ret [], s2) → (loadInfo u s1).1 = Ret (u', err) → u_IsAdmin u = false →
  u_IsAdmin u' = false →
  (∀ resID, assert_ u' resID = Throw permission_error) ∧ service_where u' = service_where u ∧
  (session_User r s).1 = match err with Some e => Throw e | None => Ret u' end.
Proof.
  intros Ht Hg Hl Hi Ha Ha'.
  assert (Hu : u_Res u' = [] ∧ u_ResKey u' = u_ResKey u).
  { unfold loadInfo in Hi. rewrite (try_ret _ _ _ _ _ _ Hl) in Hi. unfold try in Hi. simpl in Hi.
    destruct (loadRoles _ s2) as [[roles|e|p] s3]; [| |done].
    - unfold mbind, M_bind in Hi. destruct (isAdmin _ s3) as [[a|e|p] s4]; [|done..].
      injection Hi as <- _. by destruct roles.
    - injection Hi as <- _. done. }
  destruct Hu as [Hr Hk]. split_and!.
  - intros resID. unfold assert_. rewrite Ha', Hr. by rewrite decide_False by apply not_elem_of_nil.
  - unfold service_where. by rewrite Ha, Ha', Hk.
  - unfold session_User, mbind, M_bind, lift. rewrite Ht, Hg.
    destruct (loadInfo u s1) as [[[v e]|e|p] s3]; simpl in Hi; [|done..]. injection Hi as -> ->.
    simpl. by destruct err.
Qed.

(** ** Applications *)

Lemma decode_copy_int name json valid r (s : Mgr N) fs :
  is_panic (r_post r) = false → json ≠ "" →
  match decode_copy (mkField name KInt64 "" "" json valid :: fs) r s with
  | (Ret (v :: _), s') => v = VInt 0 ∧ valid = "" ∧ s' = s
  | (Ret [], _) => False
  | (_, s') => s' = s
  end.
Proof.
  intros Hp Hj. unfold decode_copy, lift, DecodeRequestValue, parsed_form.
  destruct (r_post r) as [post|e|p]; [|done..]. cbn [mbind outcome_bind].
  cbn [Http.decode_fields zero_vals fmap list_fmap]. unfold Http.decode_field at 1.
  cbn [f_json f_kind f_valid f_name]. rewrite decide_False by done.
  destruct (ParseInt _ _) as [z [e|]]; [|done].
  destruct (decide (valid = "")) as [->|Hv]; [|done]. cbn [mbind outcome_bind].
  destruct (Http.decode_fields _ _ _ _) as [vs|e'|p']; cbn [mbind outcome_bind]; [|done..].
  destruct (Valid _ _); done.
Qed.

(** No request changes an application, and none deletes the one it names:
    the variables of these handlers are decoded through a copy, which panics or
    leaves the id 0. *)
Theorem applications_never_changed r (s : Mgr N) :
  is_panic (r_post r) = false →
  writes_under (λ _, False) s (app_PUT r s).2 ∧
  writes_under (λ e, executed e = Some (del_sql "application" 0)) s (app_DELETE r s).2.
Proof.
  intros Hp. split.
  - unfold app_PUT, with_user. apply writes_under_try; [apply reads_session_User|intros; apply writes_respond|].
    intros u s1 _. apply writes_under_try; [apply extends_lift|intros; apply writes_respond|]. intros v s2 Hv.
    pose proof (decode_copy_int "ID" "id" "Required" r s1
      [fld_valid "Name" KString "name" "Required"; fld_valid "User" KString "user" "Required";
       fld_valid "Email" KString "email" "Email"; fld_valid "Comment" KString "comment" "Required"] Hp ltac:(done)) as Hc.
    unfold app_changes in Hv. unfold fld_valid at 1 in Hv. rewrite Hv in Hc. destruct v; [done|]. by destruct Hc as (_ & ? & _).
  - unfold app_DELETE. apply writes_under_try; [apply extends_lift|intros; apply writes_respond|]. intros v s2 Hv.
    pose proof (decode_copy_int "" "id" "" r s [] Hp ltac:(done)) as Hc.
    assert (nth_int v 0 = 0) as ->.
    { unfold var_int in Hv. rewrite Hv in Hc. destruct v as [|x v]; [done|]. by destruct Hc as [-> _]. }
    apply writes_under_extends. apply extends_try; [|intros; by apply extends_on_db, extends_reply..].
    apply extends_on_db. unfold del, exec_with. apply extends_bind; [apply extends_connect|intros].
    apply extends_bind; [by apply extends_exec|intros; apply extends_ret].
Qed.
End gaps.

(** ** Runs *)

Module Runs.
Import Scripted XorCipher Sandbox.

Definition nobody : Mgr net := Sandbox.state [] [] [].

Theorem manager_session_required_witness :
  let r := request "POST" "/cluster/" [("name", "c1")] "t2" in
  cluster_POST r nobody = respond (SendResponse StatusBadRequest (Error refused)) (session_User r nobody).2 ∧
  (w_events (m_world (cluster_POST r nobody).2) = [EvReply (SendResponse StatusBadRequest (Error refused))]).
Proof.
  set (r := request "POST" "/cluster/" [("name", "c1")] "t2"). cbv zeta.
  assert (Hu : session_User r nobody = (Throw refused, (session_User r nobody).2)) by (vm_compute; reflexivity).
  assert (Hs := manager_session_required (("POST", "/cluster/"), cluster_POST) r nobody).
  rewrite Hu in Hs. destruct Hs as [Hr _].
  - unfold session_routes. do 3 apply list_elem_of_further. apply list_elem_of_here.
  - split; [exact Hr|]. cbn [snd] in Hr. rewrite Hr. vm_compute. reflexivity.
Defined.

(** An interface of the service 5, whose resource 7 the caller has. *)
Definition adding : Request := request "POST" "/interface/"
  [("pid", "5"); ("name", "pay"); ("path", "pay"); ("backend", "http://b/"); ("comment", "c")] "t1".
Definition adding0 : Mgr net := Sandbox.state [inr []; inr [[VInt 7]]] [inr (9, 1)] [resources [7]; roles [3]].
Definition adding1 : Mgr net := (session_User adding adding0).2.
Definition adding2 : Mgr net := (getServiceResourceID 5 adding1).2.
Definition added : list gval := match DecodeRequestValue true iface (zero_vals iface) adding with Ret v => v | _ => [] end.

Theorem interface_add_authorised_witness :
  let stmt := SQLInsert iface (own_row alice added) (NewStmt "interface") in
  trace_of (interfaceAction_POST adding adding0).2 =
    (trace_of adding2 ++ [EvExec stmt.1 stmt.2; EvReply (SendResponseData (PVal (VInt 9)))])%list.
Proof.
  destruct (interface_add_authorised adding adding0) as [_ Hadd].
  apply (Hadd alice adding1 added 7 adding2 ltac:(vm_compute; reflexivity) ltac:(vm_compute; reflexivity)
    ltac:(vm_compute; reflexivity) (GetConnection (m_world adding2)).2 9
    (Insert_vals iface (own_row alice added) (NewStmt "interface") (GetConnection (m_world adding2)).2).2);
    vm_compute; reflexivity.
Defined.

(** A relation to an interface that is published. *)
Definition relating : Request := request "POST" "/relation/" [("appID", "1"); ("interfaceID", "2")] "t1".
Definition relating0 : Mgr net := Sandbox.state [inr [[VInt 1]]] [inr (4, 1)] [].
Definition related : list gval :=
  match DecodeRequestValue true new_relation (zero_vals new_relation) relating with Ret v => v | _ => [] end.

Theorem relation_requires_published_witness :
  trace_of (relation_POST relating relating0).2 =
    [EvQuery state_query [VInt 2]; EvExec (insert_sql "relation" new_relation related) [];
     EvReply (SendResponse 0 (id_text 4))].
Proof.
  destruct (relation_requires_published relating relating0) as [_ Hadd].
  apply (Hadd related 1 (getInterfaceState 2 (m_world relating0)).2 ltac:(vm_compute; reflexivity) ltac:(vm_compute; reflexivity)
    4 (add "relation" new_relation related (getInterfaceState 2 (m_world relating0)).2).2); vm_compute; reflexivity.
Defined.

Theorem open_routes_ignore_caller_witness :
  let r := request "DELETE" "/service/" [("id", "4")] "t1" in
  service_DELETE (with_header ∅ r) nobody = service_DELETE r nobody.
Proof.
  apply (open_routes_ignore_caller (("DELETE", "/service/"), service_DELETE)).
  unfold open_write_routes. do 5 apply list_elem_of_further. apply list_elem_of_here.
Defined.

(** A listing of the published interfaces of the service 5, whose resource is 7. *)
Definition listing : Request := request "GET" "/interface/" [("pid", "5"); ("state", "1")] "t1".
Definition listed : Mgr net :=
  Sandbox.state [inr []; inr [[VInt 7]]; inr [[VInt 2]]] [] [resources [7]; roles [3]].
Definition listed1 : Mgr net := (session_User listing listed).2.
Definition listed2 : Mgr net := (decode_receiver "interfaceAction" interfaceAction listing listed1).2.
Definition listed3 : Mgr net := (getServiceResourceID 5 listed2).2.
Definition listed4 : Mgr net :=
  (on_db (_ ← GetConnection; Stmt_Count (Where "state=1" (NewStmt "interface"))) listed3).2.

Theorem published_listing_not_confined_witness :
  interfaceAction_GET listing listed =
    (let? is_ := on_db (Stmt_QueryAll (T:=Interface) (Limit 0 (Offset 0 (Where "state=1" (NewStmt "interface")))))
       catch _ => respond (SendRows 0 PNull) in
     respond (SendRows 2 (PJson (slice_json encode_interface is_)))) listed4.
Proof.
  rewrite (published_listing_not_confined listing listed listed1 listed2 listed3 listed4 alice
    [VInt 0; VInt 1; VInt 5; VStr ""; VStr ""; VInt 0; VInt 0; VStr ""] 7 2); try (vm_compute; reflexivity).
Defined.

Theorem delete_repeats_previous_witness :
  let first := request "DELETE" "/interface/" [("id", "9")] "t1" in
  let s1 := (interfaceAction_DELETE first nobody).2 in
  w_events (m_world (interfaceAction_DELETE (request "DELETE" "/interface/" [] "t2") s1).2) =
    [EvExec (del_sql "interface" 9) []; EvReply (SendResponse 0 "");
     EvExec (del_sql "interface" 9) []; EvReply (SendResponse 0 "")].
Proof.
  cbv zeta.
  destruct (delete_repeats_previous (request "DELETE" "/interface/" [("id", "9")] "t1")
    (request "DELETE" "/interface/" [] "t2") {[ "id" := ["9"] ]} ∅ 9 nobody) as [vs ->];
    try (vm_compute; reflexivity).
  by eexists.
Defined.

(** Alice, whose last resource was taken away. *)
Definition asking : Request := request "GET" "/service/" [] "t1".
Definition dismissed : Mgr net := Sandbox.state [] [] [resources []; roles [3]].
Definition dismissed1 : Mgr net := (session_get "t1" dismissed).2.
Definition dismissed2 : Mgr net := (loadResource "alice@local" dismissed1).2.

Theorem lost_resources_still_listed_witness :
  let u := set_Res [] "7" alice in
  assert_ u 7 = Throw permission_error ∧ service_where u = " service.resource_id in (7)" ∧
  (session_User asking dismissed).1 = Ret u.
Proof.
  cbv zeta.
  destruct (lost_resources_still_listed asking "t1" alice (set_Res [] "7" alice) None dismissed dismissed1 dismissed2)
    as (Ha & Hw & Hu); try (vm_compute; reflexivity).
  split_and!; [apply Ha|rewrite Hw; reflexivity|exact Hu].
Defined.

Theorem applications_never_changed_witness :
  let r := request "DELETE" "/application/" [("id", "4")] "t1" in
  writes_under (λ e, executed e = Some (del_sql "application" 0)) nobody (app_DELETE r nobody).2 ∧
  ("4" ∈ default [] (r_query r !! "id")).
Proof.
  split; [|vm_compute; left].
  apply (applications_never_changed (request "DELETE" "/application/" [("id", "4")] "t1") nobody). reflexivity.
Defined.
End Runs.
