(* ===== verification/ManagerRuns.v ===== *)
(** * ManagerRuns: every request to the manager

    Properties of all routes of the manager and of the states any sequence of
    requests leads to: every handler answers, the caches of users never hold
    anything when they are read. *)

From Stdlib Require Import ZArith Lia Ascii.
From stdpp Require Import base gmap strings list.
From S2P Require Import Prelude GoStrings Crypto Http Json Fmt NetUrl SqlDB Cache Orm RbacDb RbacService.
From S2P Require Import Wire RbacClient ManagerDb Registry Manager Document ManagerInterfaces.
From S2P Require Import ManagerHandlers ManagerSandbox ManagerTheory.

(** Any event. *)
Notation any := (λ _ : event, True).

Section answers.
Context `{SqlEngine} {N : Type} `{Transport N} `{ManagerNet N} `{ManagerEnv} `{EmailPattern}.
Context `{BlockCipher} `{MapRange}.

Lemma any_reads {A} (m : M World A) : extends reads m → extends any m.
Proof. by apply extends_weaken. Qed.

Lemma any_exec_with sql args : extends any (exec_with sql args).
Proof.
  unfold exec_with. apply extends_bind; [apply extends_connect|intros].
  apply extends_bind; [by apply extends_exec|intros; apply extends_ret].
Qed.

Lemma any_Insert fs vs s : extends any (Insert_vals fs vs s).
Proof. unfold Insert_vals. destruct (SQLInsert _ _ _). apply extends_bind; [by apply extends_exec|intros; apply extends_ret]. Qed.

Lemma any_Update fs vs s : extends any (Update_vals fs vs s).
Proof. unfold Update_vals. destruct (SQLUpdate _ _ _). apply extends_bind; [by apply extends_exec|intros; apply extends_ret]. Qed.

Lemma any_Exec sql args : extends any (Stmt_Exec sql args).
Proof. unfold Stmt_Exec. apply extends_bind; [by apply extends_exec|intros; apply extends_ret]. Qed.

Lemma any_add table fs vs : extends any (add table fs vs).
Proof.
  unfold add. destruct (decide _); [apply extends_throw|]. apply extends_bind; [apply extends_connect|intros].
  apply extends_bind; [by apply extends_exec|intros; apply extends_ret].
Qed.

Lemma any_add_field i p f level parent : extends any (add_field i p f level parent).
Proof.
  revert f level parent. fix IH 1. intros [n t rq c [child|]] level parent; cbn [add_field].
  - apply extends_bind; [apply any_Insert|intros _]. revert child. fix IHl 1. intros [|[k f] rest].
    + apply extends_ret.
    + apply extends_bind; [apply IH|intros _; apply IHl].
  - apply extends_bind; [apply any_Insert|intros; apply extends_ret].
Qed.

Lemma any_addVariable level parent i p l : extends any (addVariable level parent i p l).
Proof.
  induction l as [|[k f] l IH]; simpl; [apply extends_ret|].
  apply extends_bind; [apply any_add_field|intros; apply IH].
Qed.

Lemma any_store_interface v : extends any (store_interface v).
Proof.
  unfold store_interface, replace_interface. apply extends_try; [apply any_Insert| |intros; apply extends_ret].
  intros e. destruct (Contains _ _); [|apply extends_throw].
  apply extends_bind; [apply any_reads, reads_QueryOne|intros].
  apply extends_bind; [apply any_Update|intros]. apply extends_bind; [apply any_Exec|intros; apply extends_ret].
Qed.

Lemma any_first_row {A} sql args ks e (f : list gval → A) :
  extends any (vs ← first_row sql args ks e; mret (f vs)).
Proof. apply extends_bind; [apply any_reads, reads_first_row|intros; apply extends_ret]. Qed.

Lemma any_selectStats id : extends any (selectStats id).
Proof.
  unfold selectStats. apply extends_bind; [apply extends_connect|intros].
  apply extends_try; [by apply extends_query|intros; apply extends_throw|intros rows].
  destruct (scan_rows rows); first [apply extends_throw|apply extends_lift].
Qed.

Lemma any_emit e : extends any (emit e).
Proof. by apply extends_emit. Qed.

Lemma answers_reply r : answers (respond (N := N) r).
Proof. intros s. unfold trace_of, Mgr_traced. simpl. by exists [], r. Qed.

Lemma any_on_db {A} (m : M World A) : extends any m → extends any (on_db (N := N) m).
Proof. apply extends_on_db. Qed.

Lemma any_session r : extends any (session_User (N := N) r).
Proof. eapply extends_weaken; [|apply reads_session_User]. done. Qed.

Lemma answers_with_user r (k : userinfo → M (Mgr N) unit) :
  (∀ u, answers (k u)) → answers (with_user r k).
Proof. intros Hk. eapply answers_try; [apply any_session|intros; apply answers_reply|exact Hk]. Qed.

Lemma answers_with_connection (k : M (Mgr N) unit) : answers k → answers (with_connection k).
Proof.
  intros Hk. eapply answers_try; [apply any_on_db, extends_connect|intros; apply answers_reply|].
  by intros [].
Qed.

Lemma answers_decode_role r u (k : list gval → M (Mgr N) unit) :
  (∀ v, answers (k v)) → answers (decode_role r u k).
Proof.
  intros Hk. eapply answers_try; [apply (extends_decode_receiver any)|intros; apply answers_reply|].
  intros v. eapply answers_bind; [apply (extends_with_recv any)|by intros s|by intros []].
Qed.

Lemma calm_logged_query w so o p c : calm_code (logged_query (N := N) w so o p c).
Proof. intros s. unfold logged_query, try. by destruct (on_db _ s) as [[x|e|p'] s']. Qed.

Lemma any_logged_query w so o p c : extends any (logged_query (N := N) w so o p c).
Proof.
  unfold logged_query. apply extends_try; [apply any_on_db, any_reads, reads_query|intros; apply extends_ret..].
Qed.
Lemma calm_nodes_key p : calm_code (lift (S := Mgr N) (nodes_key p)).
Proof.
  intros s. unfold lift, nodes_key, slice_from. simpl. unfold slice. repeat case_decide; simpl; done.
Qed.

End answers.

(** Database code, and then code of the process, by its head. *)
Ltac any_world :=
  lazymatch goal with
  | |- extends _ GetConnection => apply extends_connect
  | |- extends _ (Stmt_QueryOne _) => apply any_reads, reads_QueryOne
  | |- extends _ (Stmt_QueryAll _) => apply any_reads, reads_QueryAll
  | |- extends _ (Stmt_Count _) => apply any_reads, reads_Count
  | |- extends _ (query _ _ _ _ _ _) => apply any_reads, reads_query
  | |- extends _ selectTopIface => apply any_reads, reads_all_rows
  | |- extends _ (selectTopApp _) => apply any_reads, reads_all_rows
  | |- extends _ (selectStats _) => apply any_selectStats
  | |- extends _ (queryInterfaceInfo _) => apply any_first_row
  | |- extends _ (getApp _) => apply any_first_row
  | |- extends _ (getInterfaceState _) => apply any_first_row
  | |- extends _ (getResourceID _ _) => apply any_first_row
  | |- extends _ (Insert_vals _ _ _) => apply any_Insert
  | |- extends _ (Stmt_Exec _ _) => apply any_Exec
  | |- extends _ (add _ _ _) => apply any_add
  | |- extends _ (addVariable _ _ _ _ _) => apply any_addVariable
  | |- extends _ (store_interface _) => apply any_store_interface
  | |- extends _ (emit _) => apply any_emit
  | |- extends _ _ => apply any_exec_with
  end.

Ltac any_code :=
  lazymatch goal with
  | |- extends _ (on_db _) => apply any_on_db; any_world
  | |- extends _ (getServiceResourceID _) => apply any_on_db, any_first_row
  | |- extends _ (on_net _) => apply extends_on_net
  | |- extends _ (lift _) => apply extends_lift
  | |- extends _ (decode _ _) => apply extends_lift
  | |- extends _ (decode_copy _ _) => apply extends_lift
  | |- extends _ (decode_receiver _ _ _) => apply extends_decode_receiver
  | |- extends _ (session_User _) => apply any_session
  | |- extends _ (logged_query _ _ _ _ _) => apply any_logged_query
  | |- extends _ (modify (with_recv _ _)) => apply extends_with_recv
  | |- extends _ (mbind _ _) => apply extends_same; intros; done
  end.

Ltac calm_step :=
  lazymatch goal with
  | |- calm_code (logged_query _ _ _ _ _) => apply calm_logged_query
  | |- calm_code (lift _) => apply calm_nodes_key
  | |- calm_code _ => by intros ?
  end.

(** The function an application starts with. *)
Ltac head_of t := lazymatch t with ?f _ => head_of f | _ => t end.

(** Walk through a handler: every step is code whose error is answered. *)
Ltac answer_go :=
  intros; cbv zeta;
  lazymatch goal with
  | |- answers (with_user _ _) => apply answers_with_user; answer_go
  | |- answers (with_connection _) => apply answers_with_connection; answer_go
  | |- answers (decode_role _ _ _) => apply answers_decode_role; answer_go
  | |- answers (try _ _ _) => apply (answers_try any); [any_code|answer_go|answer_go]
  | |- answers (mbind _ _) => apply (answers_bind any); [any_code|calm_step|answer_go]
  | |- answers (insert_failed _ _) => unfold insert_failed; answer_go
  | |- answers (send_rows _ _) => unfold send_rows; answer_go
  | |- answers (store_registration _ _ _) => unfold store_registration; answer_go
  | |- answers (match ?x with _ => _ end) => destruct x; answer_go
  | |- answers _ => apply answers_reply
  end.

Section every_request.
Context `{SqlEngine} {N : Type} `{Transport N} `{ManagerNet N} `{ManagerEnv} `{EmailPattern}.
Context `{BlockCipher} `{MapRange}.

(** A form that was decoded can be parsed again. *)
Lemma answers_decode fs r (h : goerror → M (Mgr N) unit) k :
  (∀ e, answers (h e)) → (∀ v, (∃ form, parsed_form r = Ret form) → answers (k v)) →
  answers (try (decode fs r) h k).
Proof.
  intros Hh Hk. unfold decode, DecodeRequestValue. destruct (parsed_form r) as [form|e|p] eqn:E.
  - eapply answers_try; [apply (extends_lift any)|done|]. intros v. apply Hk. by exists form.
  - intros s. apply (Hh e s).
  - intros s. unfold try, lift. simpl. exists []. by rewrite app_nil_r.
Qed.

Lemma answers_lift_ret {A} (o : outcome A) (k : A → M (Mgr N) unit) :
  (∃ v, o = Ret v) → (∀ a, answers (k a)) → answers (mbind k (lift o)).
Proof. intros [a ->] Hk s. apply (Hk a s). Qed.

Lemma interfaceRun_answers r : answers (interfaceRun_PUT (N := N) r).
Proof.
  unfold interfaceRun_PUT. apply answers_decode; [intros; apply answers_reply|intros v Hf].
  do 2 (apply (answers_try any); [any_code|answer_go|intros]).
  apply (answers_bind any); [any_code|calm_step|intros now]. cbv zeta.
  apply answers_lift_ret; [done|intros form]. answer_go.
Qed.

Ltac answer_route :=
  first [apply interfaceRun_answers
        |lazymatch goal with |- context [snd (_, ?h) ?r] => let f := head_of h in cbn [snd]; unfold f; answer_go end].

Lemma routes_answer (rt : mgr_route (N := N)) r : rt ∈ manager_routes → answers (snd rt r).
Proof.
  intros Hin. unfold manager_routes in Hin.
  apply elem_of_app in Hin as [Hin|Hin]; [|apply elem_of_app in Hin as [Hin|Hin]].
  - unfold session_routes in Hin.
    repeat (apply elem_of_cons in Hin as [->|Hin]; [answer_route|]). by apply elem_of_nil in Hin.
  - unfold open_write_routes in Hin.
    repeat (apply elem_of_cons in Hin as [->|Hin]; [answer_route|]). by apply elem_of_nil in Hin.
  - unfold open_read_routes in Hin.
    repeat (apply elem_of_cons in Hin as [->|Hin]; [answer_route|]). by apply elem_of_nil in Hin.
Qed.

Lemma serve_answered (h : Request → M (Mgr N) unit) r s :
  answers (h r) →
  ∃ evs last, (manager_serve h r s).1 = Ret tt ∧
    trace_of (manager_serve h r s).2 = (trace_of s ++ evs ++ [EvReply last])%list.
Proof.
  intros Ha. specialize (Ha s). unfold manager_serve, recover.
  destruct (h r s) as [[[]|e|p] s']; [|done|].
  - destruct Ha as (pre & l & Ht). exists pre, l. split; [done|exact Ht].
  - destruct Ha as (pre & Ht). exists (pre ++ [EvReply (WriteHeader StatusInternalServerError)])%list, (WriteText p).
    split; [done|]. unfold trace_of, Mgr_traced in *. simpl. by rewrite Ht, !app_assoc.
Qed.

(** Every request to a route of the manager is answered: whatever the
    database, the other processes and the request do, the handler comes to its
    end without an error of its own, and the last thing it did is to write a
    reply; a panic on the way is turned into one. *)
Theorem manager_answers (rt : mgr_route (N := N)) r s :
  rt ∈ manager_routes →
  ∃ evs last, (manager_serve (snd rt) r s).1 = Ret tt ∧
    trace_of (manager_serve (snd rt) r s).2 = (trace_of s ++ evs ++ [EvReply last])%list.
Proof. intros Hin. by apply serve_answered, routes_answer. Qed.
End every_request.

(** ** The caches of users

    What every step keeps: no entry of a cache of users is from the future. *)
Section settled.
Context `{SqlEngine} {N : Type} `{Transport N} `{ManagerNet N} `{ManagerEnv} `{EmailPattern}.
Context `{BlockCipher} `{MapRange}.

Definition past {V} (now : Z) (c : list (cacheEntry V)) : Prop := Forall (λ e, ce_last e ≤ now) c.

Definition settled (s : Mgr N) : Prop :=
  past (m_now s) (ud_admins (m_users s)) ∧ past (m_now s) (ud_res (m_users s)) ∧
  past (m_now s) (ud_uid (m_users s)) ∧ past (m_now s) (ud_roles (m_users s)).

Definition keeps {A} (m : M (Mgr N) A) : Prop :=
  ∀ s, settled s → settled (m s).2 ∧ m_now (m s).2 = m_now s.

Lemma past_later {V} now now' (c : list (cacheEntry V)) : now ≤ now' → past now c → past now' c.
Proof. intros Hle Hc. eapply list.Forall_impl; [exact Hc|]. simpl. lia. Qed.

Lemma past_add {V} now key v (c : list (cacheEntry V)) : past now c → past now (cache_add now key v c).
Proof.
  intros Hc. unfold cache_add, past. destruct (cache_lookup key c); [|by constructor].
  apply (Forall_lasts (λ l, l ≤ now)). rewrite set_lasts. by apply Forall_lasts.
Qed.

(** With the timeout 0 nothing survives a look into the cache. *)
Lemma evict_past {V} now (c : list (cacheEntry V)) : past now c → evict userdb_timeout now c = [].
Proof.
  intros Hc. unfold evict, userdb_timeout. apply Forall_rev in Hc. rewrite Z.sub_0_r.
  induction (rev c) as [|e l IH]; [done|]. apply Forall_cons_iff in Hc as [He Hl].
  simpl. rewrite decide_False by lia. by apply IH.
Qed.

Lemma get_past {V} now key (c : list (cacheEntry V)) : past now c → cache_get userdb_timeout now key c = (None, []).
Proof. intros Hc. unfold cache_get. by rewrite evict_past. Qed.

Lemma keeps_same {A} (m : M (Mgr N) A) :
  (∀ s, m_users (m s).2 = m_users s ∧ m_now (m s).2 = m_now s) → keeps m.
Proof. intros Hm s Hs. destruct (Hm s) as [Hu Hn]. unfold settled. by rewrite Hu, Hn. Qed.

Lemma keeps_ret {A} (a : A) : keeps (mret a).
Proof. by apply keeps_same. Qed.
Lemma keeps_throw {A} e : keeps (throw (A := A) e).
Proof. by apply keeps_same. Qed.
Lemma keeps_lift {A} (o : outcome A) : keeps (lift o).
Proof. by apply keeps_same. Qed.
Lemma keeps_on_db {A} (m : M World A) : keeps (on_db m).
Proof. apply keeps_same. intros s. unfold on_db. by destruct (m _). Qed.
Lemma keeps_on_net {A} (m : M N A) : keeps (on_net m).
Proof. apply keeps_same. intros s. unfold on_net. by destruct (m _). Qed.
Lemma keeps_decode_receiver name fs r : keeps (decode_receiver name fs r).
Proof. apply keeps_same. intros s. unfold decode_receiver. by destruct (DecodeRequestValue _ _ _ _). Qed.
Lemma keeps_with_recv name vs : keeps (modify (with_recv name vs)).
Proof. by apply keeps_same. Qed.

Lemma keeps_bind {A B} (m : M (Mgr N) A) (k : A → M (Mgr N) B) :
  keeps m → (∀ a, keeps (k a)) → keeps (mbind k m).
Proof.
  intros Hm Hk s Hs. destruct (Hm s Hs) as [E1 E2]. unfold mbind, M_bind.
  destruct (m s) as [[a|e|p] s1]; [|done..]. destruct (Hk a s1 E1) as [E3 E4]. split; [done|]. by rewrite E4.
Qed.

Lemma keeps_try {A B} (m : M (Mgr N) A) h (k : A → M (Mgr N) B) :
  keeps m → (∀ e, keeps (h e)) → (∀ a, keeps (k a)) → keeps (try m h k).
Proof.
  intros Hm Hh Hk s Hs. destruct (Hm s Hs) as [E1 E2]. unfold try.
  destruct (m s) as [[a|e|p] s1]; [|..|done].
  - destruct (Hk a s1 E1) as [E3 E4]. split; [done|]. by rewrite E4.
  - destruct (Hh e s1 E1) as [E3 E4]. split; [done|]. by rewrite E4.
Qed.

(** One of the four caches. *)
Definition user_cache {V} (get : userDB → list (cacheEntry V)) (put : list (cacheEntry V) → userDB → userDB) : Prop :=
  (∀ s, settled s → past (m_now s) (get (m_users s))) ∧
  ∀ s c, settled s → past (m_now s) c → settled (with_users (put c) s).

Lemma cache_admins : user_cache ud_admins put_admins.
Proof. split; unfold settled; simpl; tauto. Qed.
Lemma cache_res : user_cache ud_res put_res.
Proof. split; unfold settled; simpl; tauto. Qed.
Lemma cache_uid : user_cache ud_uid put_uid.
Proof. split; unfold settled; simpl; tauto. Qed.
Lemma cache_roles : user_cache ud_roles put_roles.
Proof. split; unfold settled; simpl; tauto. Qed.

Lemma keeps_users_add {V} (get : userDB → list (cacheEntry V)) put email v :
  user_cache get put → keeps (users_add get put email v).
Proof. intros [Hg Hp] s Hs. split; [|done]. apply Hp; [done|]. by apply past_add, Hg. Qed.

(** Both looks into the cache find nothing and leave it empty. *)
Lemma cached_empty {V} (get : userDB → list (cacheEntry V)) put email (load : M (Mgr N) V) s :
  user_cache get put → (∀ c d, get (put c d) = c) → (∀ c c' d, put c (put c' d) = put c d) → settled s →
  cached get put email load s = load (with_users (put []) s).
Proof.
  intros [Hg Hp] Hgp Hpp Hs. unfold cached, mbind, M_bind, users_get.
  rewrite get_past by by apply Hg. cbn [m_users m_now with_users]. rewrite Hgp. cbn.
  unfold with_users. cbn. by rewrite Hpp.
Qed.

Lemma keeps_cached {V} (get : userDB → list (cacheEntry V)) put email (load : M (Mgr N) V) :
  user_cache get put → keeps load → keeps (cached get put email load).
Proof.
  intros [Hg Hp] Hl. unfold cached.
  assert (Hu : keeps (users_get get put email)).
  { intros s Hs. unfold users_get. rewrite get_past by by apply Hg. split; [|done]. apply Hp; [done|constructor]. }
  apply keeps_bind; [done|intros [x|]; [apply keeps_ret|]].
  apply keeps_bind; [done|intros [x|]; [apply keeps_ret|done]].
Qed.

Lemma keeps_isAdmin email : keeps (isAdmin email).
Proof.
  unfold isAdmin. apply keeps_cached; [apply cache_admins|].
  apply keeps_try; [apply keeps_on_db|intros; apply keeps_ret|intros []].
  apply keeps_try; [apply keeps_on_db|intros e|intros a].
  - destruct (decide _); [|apply keeps_ret].
    apply keeps_bind; [apply keeps_users_add, cache_admins|intros; apply keeps_ret].
  - apply keeps_bind; [apply keeps_users_add, cache_admins|intros; apply keeps_ret].
Qed.

(** A cached value that comes from the network. *)
Lemma keeps_net_load {A V} (get : userDB → list (cacheEntry V)) put email (m : M N A) (f : A → V) :
  user_cache get put → keeps (cached get put email (x ← on_net m; _ ← users_add get put email (f x); mret (f x))).
Proof.
  intros Hc. apply keeps_cached; [done|]. apply keeps_bind; [apply keeps_on_net|intros x].
  apply keeps_bind; [by apply keeps_users_add|intros; apply keeps_ret].
Qed.

Lemma keeps_loadInfo u : keeps (loadInfo u).
Proof.
  unfold loadInfo. apply keeps_try; intros; [|apply keeps_ret|].
  { apply (keeps_net_load _ _ _ _ (λ x, x)), cache_res. }
  apply keeps_try; intros; [|apply keeps_ret|].
  { apply (keeps_net_load _ _ _ _ (λ rs, RoleUser_RoleID <$> rs)), cache_roles. }
  apply keeps_bind; [apply keeps_isAdmin|intros; apply keeps_ret].
Qed.

Lemma keeps_session_User r : keeps (session_User r).
Proof.
  unfold session_User. apply keeps_bind; [apply keeps_lift|intros ticket].
  apply keeps_bind; [by apply keeps_same|intros [i|]].
  - apply keeps_bind; [apply keeps_loadInfo|intros [u err]].
    apply keeps_bind; [by apply keeps_same|intros]. destruct err; [apply keeps_throw|apply keeps_ret].
  - apply keeps_bind; [|intros resp].
    { apply keeps_bind; [apply keeps_on_net|intros; apply keeps_lift]. }
    destruct (sso_Flag resp); [|apply keeps_throw].
    apply keeps_bind; [apply keeps_loadInfo|intros [u [e|]]]; [apply keeps_throw|].
    apply keeps_bind; [apply (keeps_net_load _ _ _ _ User_ID), cache_uid|intros].
    apply keeps_bind; [by apply keeps_same|intros; apply keeps_ret].
Qed.

Lemma keeps_logged_query w so o p c : keeps (logged_query w so o p c).
Proof. apply keeps_try; intros; [apply keeps_on_db|apply keeps_ret..]. Qed.

Ltac keeps_go :=
  intros; cbv zeta;
  lazymatch goal with
  | |- keeps (on_db _) => apply keeps_on_db
  | |- keeps (on_net _) => apply keeps_on_net
  | |- keeps (lift _) => apply keeps_lift
  | |- keeps (decode _ _) => apply keeps_lift
  | |- keeps (decode_copy _ _) => apply keeps_lift
  | |- keeps (decode_receiver _ _ _) => apply keeps_decode_receiver
  | |- keeps (session_User _) => apply keeps_session_User
  | |- keeps (logged_query _ _ _ _ _) => apply keeps_logged_query
  | |- keeps (modify (with_recv _ _)) => apply keeps_with_recv
  | |- keeps (with_user _ _) => unfold with_user; keeps_go
  | |- keeps (with_connection _) => unfold with_connection; keeps_go
  | |- keeps (decode_role _ _ _) => unfold decode_role; keeps_go
  | |- keeps (try _ _ _) => apply keeps_try; keeps_go
  | |- keeps (mbind _ _) => apply keeps_bind; keeps_go
  | |- keeps (insert_failed _ _) => unfold insert_failed; keeps_go
  | |- keeps (send_rows _ _) => unfold send_rows; keeps_go
  | |- keeps (store_registration _ _ _) => unfold store_registration; keeps_go
  | |- keeps (getServiceResourceID _) => apply keeps_on_db
  | |- keeps (match ?x with _ => _ end) => destruct x; keeps_go
  | |- keeps (mret _) => apply keeps_ret
  | |- keeps get_state => by apply keeps_same
  | |- keeps _ => apply keeps_on_db
  end.

Lemma routes_keep (rt : mgr_route (N := N)) r : rt ∈ manager_routes → keeps (snd rt r).
Proof.
  intros Hin. unfold manager_routes, session_routes, open_write_routes, open_read_routes in Hin. simpl in Hin.
  repeat (apply elem_of_cons in Hin as [->|Hin];
    [lazymatch goal with |- context [snd (_, ?h) ?r] => let f := head_of h in cbn [snd]; unfold f; keeps_go end|]).
  by apply elem_of_nil in Hin.
Qed.

Lemma reachable_settled s : reachable s → settled s.
Proof.
  induction 1 as [w n now|s s' Hs IH Hstep]; [by repeat constructor|]. destruct Hstep as [rt r s Hin|s w n now Hle].
  - destruct (routes_keep rt r Hin s IH) as [Hk _]. unfold manager_serve, recover.
    destruct (snd rt r s) as [[a|e|p] s']; [done..|]. exact Hk.
  - destruct IH as (A1 & A2 & A3 & A4). unfold settled. simpl. split_and!; by eapply past_later.
Qed.

(** C9: whatever was asked before, the rights of a caller are looked up anew:
    the cache of users is created before the configuration sets its timeout, so
    it never holds a value when it is read, and every request with a session
    asks the rbac service for the resources and the roles of the user and the
    database whether the user is an administrator. *)
Theorem user_rights_always_fresh u (s : Mgr N) :
  reachable s →
  (loadResource (u_Email u) s).1 = (GetUserResourceIDs rbacClient (u_Email u) (m_net s)).1 ∧
  (loadRoles (u_Email u) s).1 =
    match (GetUserRoles rbacClient (u_Email u) (m_net s)).1 with
    | Ret rs => Ret (RoleUser_RoleID <$> rs) | Throw e => Throw e | Panic p => Panic p end ∧
  (isAdmin (u_Email u) s).1 =
    match (_ ← GetConnection; Stmt_QueryOne (T:=admin) (admin_stmt (u_Email u))) (m_world s) with
    | (Ret _, _) => Ret true | (Throw _, _) => Ret false | (Panic p, _) => Panic p end.
Proof.
  intros Hr. apply reachable_settled in Hr as Hs. split_and!.
  - unfold loadResource. rewrite (cached_empty _ _ _ _ _ cache_res) by done.
    unfold mbind, M_bind, on_net. simpl. by destruct (GetUserResourceIDs _ _ _) as [[a|e|p] n].
  - unfold loadRoles. rewrite (cached_empty _ _ _ _ _ cache_roles) by done.
    unfold mbind, M_bind, on_net. simpl. by destruct (GetUserRoles _ _ _) as [[a|e|p] n].
  - unfold isAdmin. rewrite (cached_empty _ _ _ _ _ cache_admins) by done.
    unfold mbind, M_bind, try, on_db. simpl.
    destruct (GetConnection (m_world s)) as [[[]|e|p] w]; [|done..].
    cbn [m_world]. destruct (Stmt_QueryOne _ w) as [[a|e|p] w']; [done| |done]. by destruct (decide _).
Qed.
End settled.

(** ** Runs *)

Module EveryRequest.
Import Scripted XorCipher Sandbox.

Definition cold : Mgr net :=
  start (Scripted.world [inr []] []) (mkNet [resources [7]; roles [3]] []) 100.

Theorem manager_answers_witness :
  let r := request "GET" "/nodes/" [("serviceID", "4")] "t1" in
  ∃ evs last, (manager_serve nodes_GET r cold).1 = Ret tt ∧
    w_events (m_world (manager_serve nodes_GET r cold).2) = (evs ++ [EvReply last])%list.
Proof.
  destruct (manager_answers (("GET", "/nodes/"), nodes_GET) (request "GET" "/nodes/" [("serviceID", "4")] "t1") cold)
    as (evs & last & Hr & Ht).
  - unfold manager_routes, open_read_routes. apply elem_of_app. right.
    apply elem_of_app. right. do 4 apply list_elem_of_further. apply list_elem_of_here.
  - exists evs, last. split; [exact Hr|exact Ht].
Defined.

(** The rights just read are read again a moment later. *)
Theorem user_rights_always_fresh_witness :
  let s := (manager_serve account_GET (request "GET" "/account" [] "t1") cold).2 in
  let later := mkMgr (m_world s) (mkNet [resources [8]] []) (m_session s) (m_users s) (m_recv s) 100 in
  (loadResource "alice@local" later).1 = Ret [8].
Proof.
  cbv zeta. set (s := (manager_serve account_GET (request "GET" "/account" [] "t1") cold).2).
  set (later := mkMgr _ _ _ _ _ 100).
  destruct (user_rights_always_fresh alice later) as [Hl _].
  - apply (reach_step s).
    + apply (reach_step cold); [apply reach_start|].
      apply (step_request (("GET", "/account"), account_GET)). apply list_elem_of_here.
    + apply step_outside. vm_compute. discriminate.
  - etransitivity; [exact Hl|]. vm_compute. reflexivity.
Defined.
End EveryRequest.
