(* ===== verification/SharedObjects.v ===== *)
(** * SharedObjects: handlers at once on one object

    The dispatcher keeps one object per route, and handlers of the manager
    decode their request into it. Here a handler is a program whose steps are its
    calls and the statements that read or write the fields of that object, the
    reads of one statement at once: alone it is the handler of ManagerInterfaces
    or ManagerHandlers, and among others it works on what they decoded. *)

From Stdlib Require Import ZArith Lia Ascii.
From stdpp Require Import base gmap strings list.
From S2P Require Import Prelude GoStrings Crypto Http Json SqlDB Cache Orm RbacDb Wire RbacClient ManagerDb Registry Manager Document.
From S2P Require Import ManagerInterfaces ManagerHandlers ManagerSandbox Prog.

(** ** The programs *)

Section shared_objects.
Context `{SqlEngine} {N : Type} `{Transport N} `{ManagerNet N} `{ManagerEnv} `{EmailPattern}.

(** Any call is a step. *)
Definition calls (A : Type) : Type := M (Mgr N) A.
Definition one_step A (m : calls A) : M (Mgr N) A := m.

Notation steps := (program calls).
Notation call := (perform (E := calls)).

(** A statement that reads the object, and an assignment to one of its fields. *)
Definition reading {A} (name : string) (fs : list structField) (f : list gval → A) : M (Mgr N) A :=
  λ s, (Ret (f (receiver name fs s)), s).

Definition assign (name : string) (fs : list structField) (i : nat) (v : gval) : M (Mgr N) unit :=
  modify (λ s, with_recv name (<[i := v]> (receiver name fs s)) s).

Definition of_listing {A} : (list gval → A) → M (Mgr N) A := reading "interfaceAction" interfaceAction.

Definition p_interface_stmt : steps Stmt :=
  stmt ← call (of_listing (λ i, Where ("service_id=" +:+ itoa (nth_int i 2)) (NewStmt "interface")));
  published ← call (of_listing (λ i, bool_decide (nth_int i 1 = 1)));
  let stmt := if published : bool then Where "state=1" stmt else stmt in
  unsearched ← call (of_listing (λ i, bool_decide (nth_str i 7 = "")));
  if unsearched : bool then mret stmt else call (of_listing (λ i, Where (search_where (nth_str i 7)) stmt)).

(** From the connection on. *)
Definition p_show_interfaces : steps unit :=
  prog_try (call (on_db GetConnection)) (λ e, call (fprintf_error e)) (λ _,
  stmt ← p_interface_stmt;
  prog_try (call (on_db (Stmt_Count stmt))) (λ e, call (fprintf_error e)) (λ total,
  unsorted ← call (of_listing (λ i, bool_decide (nth_str i 3 = "")));
  stmt ← (if unsorted : bool then mret stmt
          else call (of_listing (λ i, Order ("interface." +:+ nth_str i 3) stmt)));
  stmt ← call (of_listing (λ i, Limit (nth_int i 6) (Offset (nth_int i 5) stmt)));
  prog_try (call (on_db (Stmt_QueryAll (T:=Interface) stmt))) (λ _, call (respond (SendRows 0 PNull)))
    (λ is_, call (respond (SendRows total (PJson (slice_json encode_interface is_))))))).

Definition p_interfaceAction_GET (r : Request) : steps unit :=
  prog_try (call (session_User r)) (λ e, call (fail StatusBadRequest e)) (λ u,
  prog_try (call (decode_receiver "interfaceAction" interfaceAction r)) (λ e, call (fprintf_error e)) (λ _,
  service ← call (of_listing (λ i, nth_int i 2));
  prog_try (call (getServiceResourceID service)) (λ e, call (fprintf_error e)) (λ resID,
  prog_try (Done (assert_ u resID)) (λ e, call (fprintf_error e)) (λ _, p_show_interfaces)))).

(** [if !u.IsAdmin { r.User = u.User; r.Email = u.Email }]. *)
Definition p_own_role (u : userinfo) : steps unit :=
  if u_IsAdmin u then mret tt
  else _ ← call (assign "role" role 2 (VStr (u_User u)));
       call (assign "role" role 3 (VStr (u_Email u))).

Definition p_post_role : steps unit :=
  v ← call (reading "role" role id);
  prog_try (call (on_net (PostRole rbacClient (nth_str v 1) (nth_str v 4) (nth_str v 2) (nth_str v 3))))
    (λ e, call (fail StatusInternalServerError e))
    (λ id, call (respond (SendResponseData (PVal (VInt id))))).

Definition p_role_POST (r : Request) : steps unit :=
  prog_try (call (session_User r)) (λ e, call (fail StatusBadRequest e)) (λ u,
  prog_try (call (decode_receiver "role" role r)) (λ e, call (fail StatusInternalServerError e)) (λ _,
  _ ← p_own_role u; p_post_role)).

(** ** Alone *)

(** The same process, whose object of a type holds the values [i]. *)
Definition holding (name : string) (i : list gval) (s t : Mgr N) : Prop := s = t ∧ m_recv s !! name = Some i.

Notation agrees := (simulates one_step).

Lemma agrees_same {A} (m : M (Mgr N) A) : agrees eq (call m) m.
Proof. intros s t ->. cbn [run_program perform]. unfold one_step. by destruct (m t). Qed.

(** Calls that leave the object alone. *)
Lemma agrees_call {A} name i (m : M (Mgr N) A) :
  (∀ s, m_recv (m s).2 = m_recv s) → agrees (holding name i) (call m) m.
Proof.
  intros Hm s t [<- Hs]. cbn [run_program perform]. unfold one_step, holding.
  specialize (Hm s). destruct (m s) as [o s']. cbn [snd] in Hm. by rewrite Hm.
Qed.

Lemma agrees_reading {A B} name fs i (f : list gval → A) (k : A → steps B) m :
  agrees (holding name i) (k (f i)) m → agrees (holding name i) (call (reading name fs f) ≫= k) m.
Proof.
  intros Hk s t Hs. cbn [mbind program_bind perform and_then run_program].
  unfold one_step, reading, receiver. destruct Hs as [-> Hs]. rewrite Hs. by apply Hk.
Qed.

Lemma agrees_read {A} name fs i (f : list gval → A) :
  agrees (holding name i) (call (reading name fs f)) (mret (f i)).
Proof.
  intros s t [-> Hs]. cbn [perform run_program]. unfold one_step, reading, receiver. by rewrite Hs.
Qed.

Lemma decode_holds name fs r s i s' :
  decode_receiver (N:=N) name fs r s = (Ret i, s') → m_recv s' !! name = Some i.
Proof.
  unfold decode_receiver. destruct (DecodeRequestValue _ _ _ _); [|done..].
  intros [= <- <-]. apply lookup_insert_eq.
Qed.

Lemma agrees_decode {B} name fs r (h : goerror → steps B) h' (k : list gval → steps B) g :
  (∀ e, agrees eq (h e) (h' e)) →
  (∀ i s, m_recv s !! name = Some i → run_program one_step (k i) s = g i s) →
  agrees eq (prog_try (call (decode_receiver name fs r)) h k) (try (decode_receiver name fs r) h' g).
Proof.
  intros Hh Hk s t ->. unfold prog_try, try. cbn [perform and_then run_program].
  unfold one_step. destruct (decode_receiver name fs r t) as [o s'] eqn:Hd. destruct o as [i|e|p]; [|by apply Hh|done].
  specialize (Hk i s' (decode_holds _ _ _ _ _ _ Hd)). destruct (g i s') as [o t'].
  change (let '(o1, s1) := run_program one_step (k i) s' in o1 = o ∧ s1 = t'). by rewrite Hk.
Qed.

(** A program that does what a computation does among holding states. *)
Lemma agrees_holding {A} name i (p : steps A) m s :
  agrees (holding name i) p m → m_recv s !! name = Some i → run_program one_step p s = m s.
Proof.
  intros Hp Hs. specialize (Hp s s (conj eq_refl Hs)).
  destruct (run_program _ p s) as [o s1], (m s) as [o' s2]. by destruct Hp as [-> [-> _]].
Qed.

(** A part that only reads. *)
Lemma agrees_after {A B} name i (p : steps A) a (k : A → steps B) (m : M (Mgr N) B) :
  agrees (holding name i) p (mret a) → agrees (holding name i) (k a) m → agrees (holding name i) (p ≫= k) m.
Proof. intros Hp Hk s t Hs. 
  unfold mbind, program_bind. rewrite run_and_then. specialize (Hp s t Hs).
  destruct (run_program _ p s) as [o s']. destruct Hp as [-> Hs']. by apply Hk.
Qed.

Lemma recv_on_db {A} (m : M World A) (s : Mgr N) : m_recv (on_db m s).2 = m_recv s.
Proof. unfold on_db. by destruct (m (m_world s)). Qed.

Lemma recv_on_net {A} (m : M N A) (s : Mgr N) : m_recv (on_net m s).2 = m_recv s.
Proof. unfold on_net. by destruct (m (m_net s)). Qed.

Local Ltac alone := first
  [ apply agrees_call; intros; (apply recv_on_db || apply recv_on_net)
  | apply agrees_reading | apply simulates_try; [|intros ?..]
  | apply simulates_done | apply simulates_ret ].

(** The listing of the values [i]. *)
Definition show_interfaces (i : list gval) : M (Mgr N) unit :=
  let? _ := on_db GetConnection catch e => fprintf_error e in
  let stmt := interface_stmt (nth_int i 2) (nth_int i 1) (nth_str i 7) in
  let? total := on_db (Stmt_Count stmt) catch e => fprintf_error e in
  let stmt := if decide (nth_str i 3 = "") then stmt else Order ("interface." +:+ nth_str i 3) stmt in
  let? is_ := on_db (Stmt_QueryAll (T:=Interface) (Limit (nth_int i 6) (Offset (nth_int i 5) stmt)))
    catch _ => respond (SendRows 0 PNull) in
  respond (SendRows total (PJson (slice_json encode_interface is_))).

Lemma stmt_alone i : agrees (holding "interfaceAction" i) p_interface_stmt
  (mret (interface_stmt (nth_int i 2) (nth_int i 1) (nth_str i 7))).
Proof.
  unfold p_interface_stmt, interface_stmt, of_listing. do 3 alone.
  do 2 case_bool_decide; do 2 case_decide; try done; try apply simulates_ret;
    apply (agrees_read _ _ _ (λ i, Where (search_where (nth_str i 7)) _)).
Qed.

Lemma show_alone i : agrees (holding "interfaceAction" i) p_show_interfaces (show_interfaces i).
Proof.
  unfold p_show_interfaces, show_interfaces. alone; [alone..|].
  apply (agrees_after _ _ _ _ _ _ (stmt_alone i)). alone; [alone..|]. unfold of_listing. alone.
  eapply agrees_after; [|alone; alone; alone].
  case_bool_decide; case_decide; try done.
  apply (agrees_read _ _ _ (λ i, Order ("interface." +:+ nth_str i 3) _)).
Qed.

(** Alone the program is the handler. *)
Lemma listing_alone r s : run_program one_step (p_interfaceAction_GET r) s = interfaceAction_GET r s.
Proof.
  assert (Ha : agrees eq (p_interfaceAction_GET r) (interfaceAction_GET r)).
  { unfold p_interfaceAction_GET, interfaceAction_GET, with_user.
    apply simulates_try; [apply agrees_same|intros; apply agrees_same|intros u].
    apply agrees_decode; [intros; apply agrees_same|intros i s1; apply agrees_holding].
    unfold of_listing. alone. do 2 (alone; [alone..|]). apply show_alone. }
  specialize (Ha s s eq_refl). destruct (run_program _ _ s) as [o s1], (interfaceAction_GET r s) as [o' s2].
  by destruct Ha as [-> ->].
Qed.
(** [rbacClient.PostRole(r.Name, r.Comment, r.User, r.Email)] and the reply. *)
Definition post_role (v : list gval) : M (Mgr N) unit :=
  let? id := on_net (PostRole rbacClient (nth_str v 1) (nth_str v 4) (nth_str v 2) (nth_str v 3))
    catch e => fail StatusInternalServerError e in
  respond (SendResponseData (PVal (VInt id))).

Lemma post_alone v : agrees (holding "role" v) p_post_role (post_role v).
Proof. unfold p_post_role. alone. do 2 alone. Qed.

Lemma with_recv_twice name v w (s : Mgr N) : with_recv name v (with_recv name w s) = with_recv name v s.
Proof. unfold with_recv. cbn. by rewrite insert_insert_eq. Qed.

Lemma assign_holds name fs i x v (s : Mgr N) :
  m_recv s !! name = Some v → assign name fs i x s = (Ret tt, with_recv name (<[i := x]> v) s).
Proof. intros Hv. unfold assign, modify, receiver. by rewrite Hv. Qed.

Lemma assign_again name fs i x v (s : Mgr N) :
  assign name fs i x (with_recv name v s) = (Ret tt, with_recv name (<[i := x]> v) s).
Proof. rewrite (assign_holds _ _ _ _ v) by apply lookup_insert_eq. by rewrite with_recv_twice. Qed.

Lemma own_role_holds u v s :
  m_recv s !! "role" = Some v →
  run_program one_step (p_own_role u) s = (Ret tt, with_recv "role" (owner_vals 2 3 u v) s).
Proof.
  intros Hv. unfold p_own_role, owner_vals. destruct (u_IsAdmin u).
  - cbn. unfold with_recv. rewrite insert_id by done. by destruct s.
  - cbn [run_program perform mbind program_bind and_then]. unfold one_step.
    rewrite (assign_holds _ _ _ _ _ _ Hv). cbn [run_program perform].
    by rewrite assign_again.
Qed.

Lemma role_alone r s : run_program one_step (p_role_POST r) s = role_POST r s.
Proof.
  assert (Ha : agrees eq (p_role_POST r) (role_POST r)).
  { unfold p_role_POST, role_POST, with_user, decode_role.
    apply simulates_try; [apply agrees_same|intros; apply agrees_same|intros u].
    apply agrees_decode; [intros; apply agrees_same|intros v t Ht].
    unfold mbind at 1, program_bind at 1. rewrite run_and_then, (own_role_holds _ _ _ Ht).
    rewrite (agrees_holding _ _ _ _ _ (post_alone (owner_vals 2 3 u v))) by apply lookup_insert_eq.
    done. }
  specialize (Ha s s eq_refl). destruct (run_program _ _ s) as [o s1], (role_POST r s) as [o' s2].
  by destruct Ha as [-> ->].
Qed.

(** ** Among others *)

Local Ltac turn H := erewrite turn_act; [|reflexivity|exact H]; cbn [insert list_insert].

(** C27: A listing that was allowed for one service shows another: when a second
    request for listings decodes itself into the object they share after the first
    request was checked, the first goes on with the values of the second,
    whatever service those name and whatever its caller may use. *)
Theorem listing_crosses_services r1 r2 (s s1 s2 s3 s4 s5 : Mgr N) u1 u2 i1 i2 resID :
  session_User r1 s = (Ret u1, s1) →
  decode_receiver "interfaceAction" interfaceAction r1 s1 = (Ret i1, s2) →
  getServiceResourceID (nth_int i1 2) s2 = (Ret resID, s3) → assert_ u1 resID = Ret tt →
  session_User r2 s3 = (Ret u2, s4) →
  decode_receiver "interfaceAction" interfaceAction r2 s4 = (Ret i2, s5) →
  ∃ p q, take_turns one_step [0; 0; 0; 0; 1; 1]%nat ([p_interfaceAction_GET r1; p_interfaceAction_GET r2], s)
         = ([p; q], s5) ∧
    run_program one_step p s5 = show_interfaces i2 s5.
Proof.
  intros Hu1 Hi1 Hr Ha Hu2 Hi2. unfold take_turns. cbn [foldl].
  assert (Hread : of_listing (λ i, nth_int i 2) s2 = (Ret (nth_int i1 2), s2)).
  { unfold of_listing, reading, receiver. by rewrite (decode_holds _ _ _ _ _ _ Hi1). }
  turn Hu1. turn Hi1. turn Hread. turn Hr. turn Hu2. turn Hi2. do 2 eexists. split; [done|].
  unfold prog_try. cbn [and_then]. rewrite Ha.
  apply (agrees_holding "interfaceAction" i2); [apply show_alone|by eapply decode_holds].
Qed.

(** A role created without the rights of an administrator, after its owner was
    filled in, when another request for the object comes in: the role is the
    one of that request, whoever it names as its owner. *)
Theorem role_under_another_name r1 r2 (s s1 s2 s3 s4 : Mgr N) u1 u2 v1 v2 :
  session_User r1 s = (Ret u1, s1) → decode_receiver "role" role r1 s1 = (Ret v1, s2) → u_IsAdmin u1 = false →
  session_User r2 (with_recv "role" (owner_vals 2 3 u1 v1) s2) = (Ret u2, s3) →
  decode_receiver "role" role r2 s3 = (Ret v2, s4) →
  ∃ p q, take_turns one_step [0; 0; 0; 0; 1; 1]%nat ([p_role_POST r1; p_role_POST r2], s) = ([p; q], s4) ∧
    run_program one_step p s4 = post_role v2 s4.
Proof.
  intros Hu1 Hv1 Ha Hu2 Hv2. unfold take_turns. cbn [foldl]. turn Hu1.
turn Hv1.
  pose proof (assign_holds "role" role 2 (VStr (u_User u1)) _ _ (decode_holds _ _ _ _ _ _ Hv1)) as Huser.
  pose proof (assign_again "role" role 3 (VStr (u_Email u1)) (<[2%nat := VStr (u_User u1)]> v1) s2) as Hemail.
  revert Hu2. unfold p_own_role, owner_vals. rewrite Ha. intros Hu2.
  turn Huser. turn Hemail. turn Hu2. turn Hv2. do 2 eexists. split; [done|].
  apply (agrees_holding "role" v2); [apply post_alone|by eapply decode_holds].
Qed.
End shared_objects.

(** ** Runs *)

Module Runs.
Import Scripted Sandbox.

(** A caller who may use the resource 7 of the service 5 only, and sends two
    requests at once. *)
Definition own : Request := request "GET" "/interface/" [("pid", "5")] "t1".
Definition other : Request := request "GET" "/interface/" [("pid", "6")] "t1".

Definition start : Mgr net :=
  Sandbox.state [inr []; inr [[VInt 7]]; inr []; inr [[VInt 2]]; inr []] []
    [resources [7]; roles [3]; resources [7]; roles [3]].

Definition start1 : Mgr net := (session_User own start).2.
Definition start2 : Mgr net := (decode_receiver "interfaceAction" interfaceAction own start1).2.
Definition start3 : Mgr net := (getServiceResourceID 5 start2).2.
Definition start4 : Mgr net := (session_User other start3).2.
Definition start5 : Mgr net := (decode_receiver "interfaceAction" interfaceAction other start4).2.

Definition asked (pid : Z) : list gval :=
  [VInt 0; VInt 0; VInt pid; VStr ""; VStr ""; VInt 0; VInt 0; VStr ""].

(** The resource of the service 6 is 8. *)
Example other_alone :
  let s := Sandbox.state [inr []; inr [[VInt 8]]] [] [resources [7]; roles [3]] in
  list.last (w_events (m_world (interfaceAction_GET other s).2)) =
    Some (EvReply (WriteText (Error permission_error))).
Proof. vm_compute. reflexivity. Qed.

Theorem listing_crosses_services_witness :
  ∃ p q, take_turns one_step [0; 0; 0; 0; 1; 1]%nat ([p_interfaceAction_GET own; p_interfaceAction_GET other], start)
         = ([p; q], start5) ∧
    run_program one_step p start5 = show_interfaces (asked 6) start5.
Proof.
  apply (listing_crosses_services own other start start1 start2 start3 start4 start5 alice alice (asked 5) (asked 6) 7);
    vm_compute; reflexivity.
Defined.

(** The right was asked for the service 5, the rows counted are those of 6. *)
Example rights_of_one_rows_of_another :
  let evs := w_events (m_world (show_interfaces (asked 6) start5).2) in
  evs !! 1%nat = Some (EvQuery "select resource_id from service where id=5" []) ∧
  evs !! 3%nat = Some (EvQuery "select count(*) from interface where service_id=6" []).
Proof. vm_compute. by split. Qed.
End Runs.
