(* ===== verification/Routes.v ===== *)
(** * Routes: the servers of the program

    What the [ServerInit] of the manager and of rbac and the [Init] of the
    distributor register with [Dispatch], and that it amounts to the tables of
    routes the other files speak of. *)

From Stdlib Require Import ZArith Lia Ascii.
From stdpp Require Import base gmap strings list sorting.
From S2P Require Import Prelude GoStrings Crypto Http Json Fmt NetUrl SqlDB Cache Orm RbacDb RbacService RbacHandlers.
From S2P Require Import Wire Dispatch DispatchTheory RbacClient ManagerDb Registry Manager Document ManagerInterfaces.
From S2P Require Import ManagerHandlers ManagerSandbox ManagerTheory ManagerRuns.

#[local] Open Scope list_scope.

(** ** Keys of routes *)

Lemma list_find_decided {A} (P : A → Prop) (d d' : ∀ x, Decision (P x)) l :
  @list_find A P d l = @list_find A P d' l.
Proof. induction l as [|x l IH]; simpl; [done|]. rewrite IH. by destruct (d x), (d' x). Qed.

(** A request as it comes over HTTP: no slash in its method, one at the start of
    its path. *)
Definition well_formed (r : Request) : Prop :=
  byte_in "/" (r_method r) = false ∧ HasPrefix (r_path r) "/" = true.

Lemma key_inj m m' p p' :
  byte_in "/" m = false → byte_in "/" m' = false → HasPrefix p "/" = true → HasPrefix p' "/" = true →
  m +:+ p = m' +:+ p' → m = m' ∧ p = p'.
Proof.
  assert (Hout : ∀ c m p q, HasPrefix p "/" = true → byte_in "/" (String c m) = false → p ≠ String c m +:+ q).
  { intros c n [|d p0] q; [done|]. simpl. intros [Hd _]%andb_prop [Hb _]%orb_false_iff [= -> _].
    by rewrite bool_decide_eq_true in Hd; rewrite bool_decide_eq_false in Hb. }
  intros Hm Hm' Hp Hp'. revert m' Hm'. induction m as [|c m IH]; intros [|c' m'] Hm' He; simpl in *.
  - done.
  - by destruct (Hout c' m' p p').
  - symmetry in He. by destruct (Hout c m p' p).
  - injection He as <- He. apply orb_false_iff in Hm as [_ Hm], Hm' as [_ Hm'].
    by destruct (IH Hm m' Hm' He) as [-> ->].
Qed.

Lemma HasPrefix_key m m' p q :
  byte_in "/" m = false → byte_in "/" m' = false → HasPrefix p "/" = true → HasPrefix q "/" = true →
  HasPrefix (m +:+ p) (m' +:+ q) = bool_decide (m = m') && HasPrefix p q.
Proof.
  intros Hm Hm' Hp Hq. apply Bool.eq_true_iff_eq. rewrite andb_true_iff, bool_decide_eq_true. split.
  - intros [b Hb]%HasPrefix_split. rewrite <-str_app_assoc in Hb.
    assert (Hqb : HasPrefix (q +:+ b) "/" = true).
    { apply HasPrefix_split in Hq as [c ->]. rewrite <-str_app_assoc. apply HasPrefix_app. }
    destruct (key_inj _ _ _ _ Hm Hm' Hp Hqb Hb) as [-> ->]. split; [done|]. apply HasPrefix_app.
  - intros [-> [b ->]%HasPrefix_split]. rewrite str_app_assoc. apply HasPrefix_app.
Qed.

(** Whether a route is found. *)
Ltac found_in l :=
  match goal with |- context [@list_find ?A ?P ?d l] => destruct (@list_find A P d l) as [[? [? ?]]|] end.

Section keys.
Context {H : Type}.
Notation route := ((string * string) * H)%type.

Definition key_route (x : route) : string * H := (fst (fst x) +:+ snd (fst x), snd x).

Definition good_key (x : route) : Prop :=
  byte_in "/" (fst (fst x)) = false ∧ HasPrefix (snd (fst x)) "/" = true.

(** Looking for method and path is looking for them written together. *)
Lemma find_key_route (routes : list route) r :
  Forall good_key routes → well_formed r →
  find_route (r_method r +:+ r_path r) (key_route <$> routes) =
    (λ p, snd (snd p)) <$> list_find (λ x : route, fst x = (r_method r, r_path r)) routes.
Proof.
  intros HF [Hm Hp]. induction HF as [|[[m p] h] routes [Hgm Hgp] HF IH]; [done|].
  unfold find_route in *. cbn [fmap list_fmap List.find list_find key_route fst snd].
  destruct (decide ((m, p) = (r_method r, r_path r))) as [He|Hne].
  - injection He as -> ->. by rewrite bool_decide_true.
  - rewrite bool_decide_false.
    + rewrite IH. by destruct (list_find _ routes) as [[i x]|].
    + intros He. apply Hne. destruct (key_inj _ _ _ _ Hgm Hm Hgp Hp He) as [Em Ep]. simpl in Em, Ep. by rewrite Em, Ep.
Qed.
End keys.

(** A list of places, each once: taking the entries of a list in that order
    permutes it. *)
Lemma places_permute {A} (d : A) (is_ : list nat) (l : list A) :
  merge_sort le is_ = seq 0 (length l) → ((λ i, nth i l d) <$> is_) ≡ₚ l.
Proof.
  intros Hs. rewrite <-(merge_sort_Permutation le is_), Hs.
  clear. induction l as [|x l IH]; [done|]. cbn [length seq fmap list_fmap nth]. f_equiv.
  by rewrite <-seq_shift, <-list_fmap_compose.
Qed.

(** ** [rbac/init.go] *)

Section rbac.
Context `{SqlEngine} `{BlockCipher} `{EmailPattern}.
Notation handler := (Request → M World unit).

Definition rbac_object (type : string) (methods : list (string * handler)) : object handler :=
  mkObject true ("*rbac." +:+ type) ((λ m, (fst m, Some (snd m))) <$> methods).

Definition rbac_ServerInit : list (object handler * string * bool) :=
  [(rbac_object "rbacUser" [("GET", rbacUser_GET); ("POST", rbacUser_POST); ("PUT", rbacUser_PUT)], "/rbac/user/", false);
   (rbac_object "rbacUserInfo" [("GET", rbacUserInfo_GET)], "/rbac/user/info/", false);
   (rbac_object "userRole" [("GET", RbacHandlers.userRole_GET)], "/rbac/user/role/", false);
   (rbac_object "rbacRoleUser" [("DELETE", rbacRoleUser_DELETE); ("GET", rbacRoleUser_GET); ("POST", rbacRoleUser_POST)],
      "/rbac/role/user/", false);
   (rbac_object "rbacRoleResource"
      [("DELETE", rbacRoleResource_DELETE); ("GET", rbacRoleResource_GET); ("POST", rbacRoleResource_POST)],
      "/rbac/role/resource/", false);
   (rbac_object "resourceRolesUnrelated" [("GET", resourceRolesUnrelated_GET)], "/rbac/resource/role/unrelated/", false);
   (rbac_object "rbacRole" [("DELETE", rbacRole_DELETE); ("GET", rbacRole_GET); ("POST", rbacRole_POST);
      ("PUT", rbacRole_PUT)], "/rbac/role/", false);
   (rbac_object "rbacAPP" [("GET", rbacAPP_GET); ("POST", rbacAPP_POST)], "/rbac/app/", false);
   (rbac_object "rbacResource" [("DELETE", rbacResource_DELETE); ("GET", rbacResource_GET); ("POST", rbacResource_POST)],
      "/rbac/resource/", false);
   (rbac_object "userResource" [("GET", userResource_GET)], "/rbac/user/resource/", false)].

Notation rbac_keys := (key_route <$> ServerInit_routes).

(** What is registered, in the order of the routes. *)
Lemma rbac_registers : routes_of false rbac_ServerInit ≡ₚ rbac_keys.
Proof.
  rewrite <-(places_permute ("", rbacUser_GET)
    [0; 5; 4; 1; 15; 7; 16; 6; 8; 17; 9; 18; 13; 19; 10; 11; 2; 3; 14; 20; 12; 21]%nat rbac_keys) by (vm_compute; reflexivity).
  reflexivity.
Qed.
End rbac.

(** Registered and found in the same tables. *)
Section tables.
Context {H : Type} `{RegexpLaws}.
Notation route := ((string * string) * H)%type.

Lemma registered_dispatch (regs : list (object H * string * bool)) (routes : list route) r :
  routes_of false regs ≡ₚ key_route <$> routes → NoDup (key_route <$> routes).*1 → Forall good_key routes →
  NoDup (routes_of true regs).*1 → Forall (λ k, plain k = true) (routes_of true regs).*1 → well_formed r →
  ∃ s, register_all regs newHTTPServer = (Ret tt, s) ∧
    ∀ d, getHandler (r_method r) (r_path r) s = Ret ((λ h, (h, None)) <$>
      match @list_find route (λ x, fst x = (r_method r, r_path r)) d routes with
      | Some (_, (_, h)) => Some h
      | None => snd <$> longest_prefix (r_method r +:+ r_path r) (routes_of true regs)
      end).
Proof.
  intros Hperm Hn Hg HP Hpl Hr.
  destruct (table_all regs newHTTPServer [] [] table_new) as (s & E & T);
    [by rewrite app_nil_r, Hperm|by rewrite app_nil_r|done|].
  rewrite !app_nil_r in T. exists s. split; [done|]. intros d.
  rewrite (table_getHandler s _ _ _ _ (table_perm _ _ _ _ _ Hperm (reflexivity _) T)) by done.
  unfold reference. rewrite find_key_route by done.
  by rewrite (list_find_decided _ _ d routes); destruct (@list_find _ _ _ routes) as [[i [k h]]|].
Qed.
End tables.

(** ** [manager/init.go] *)

(** Files and profiles, which [net/http] and [net/http/pprof] write, and where
    the files are. *)
Class Files := { web_path : string; ServeFile : Request → string → reply; pprof_Index : Request → reply }.

Section manager.
Context `{SqlEngine} {N : Type} `{Transport N} `{ManagerNet N} `{ManagerEnv} `{EmailPattern}.
Context `{BlockCipher} `{MapRange} `{Files}.
Notation handler := (Request → M (Mgr N) unit).

Definition static_GET (r : Request) : M (Mgr N) unit := respond (ServeFile r (web_path +:+ r_path r)).
Definition debug_GET (r : Request) : M (Mgr N) unit := respond (pprof_Index r).

Definition manager_object (type : string) (methods : list (string * handler)) : object handler :=
  mkObject true ("*manager." +:+ type) ((λ m, (fst m, Some (snd m))) <$> methods).

Definition manager_ServerInit : list (object handler * string * bool) :=
  [(manager_object "domain" [("GET", domain_GET)], "/domain", false);
   (manager_object "account" [("GET", account_GET)], "/account", false);
   (manager_object "debug" [("GET", debug_GET)], "/debug/pprof/", true);
   (manager_object "static" [("GET", static_GET)], "/static/", true);
   (manager_object "static" [("GET", static_GET)], "/", true);
   (manager_object "resource" [("GET", resource_GET); ("POST", resource_POST)], "/resource/", false);
   (manager_object "resourceInfo" [("GET", resourceInfo_GET)], "/resource/info", false);
   (manager_object "resourceRole" [("DELETE", resourceRole_DELETE)], "/resource/role/", false);
   (manager_object "cluster" [("DELETE", cluster_DELETE); ("GET", cluster_GET); ("POST", cluster_POST)], "/cluster/", false);
   (manager_object "clusterInfo" [("GET", clusterInfo_GET)], "/cluster/info/", false);
   (manager_object "clusterNode" [("DELETE", clusterNode_DELETE); ("GET", clusterNode_GET); ("POST", clusterNode_POST)],
      "/cluster/node/", false);
   (manager_object "role" [("DELETE", role_DELETE); ("GET", role_GET); ("POST", role_POST); ("PUT", role_PUT)],
      "/role/", false);
   (manager_object "roleUser" [("DELETE", roleUser_DELETE); ("GET", roleUser_GET); ("POST", roleUser_POST);
      ("PUT", roleUser_PUT)], "/role/user/", false);
   (manager_object "roleInfo" [("GET", roleInfo_GET)], "/role/info/", false);
   (manager_object "userRole" [("GET", userRole_GET)], "/user/role/", false);
   (manager_object "serviceInfo" [("GET", serviceInfo_GET)], "/service/info/", false);
   (manager_object "service" [("DELETE", service_DELETE); ("GET", service_GET); ("POST", service_POST);
      ("PUT", service_PUT)], "/service/", false);
   (manager_object "nodes" [("GET", nodes_GET)], "/nodes/", false);
   (manager_object "interfaceAction" [("DELETE", interfaceAction_DELETE); ("GET", interfaceAction_GET);
      ("POST", interfaceAction_POST); ("PUT", interfaceAction_PUT)], "/interface/", false);
   (manager_object "interfaceRegister" [("POST", interfaceRegister_POST)], "/interface/register/", false);
   (manager_object "interfaceRun" [("PUT", interfaceRun_PUT)], "/interface/run", false);
   (manager_object "interfaceInfo" [("GET", interfaceInfo_GET)], "/interface/info", false);
   (manager_object "interfaceDeploy" [("PUT", interfaceDeploy_PUT)], "/interface/deploy", false);
   (manager_object "variableInfo" [("GET", variableInfo_GET)], "/variable/infos", false);
   (manager_object "variable" [("DELETE", variable_DELETE); ("GET", variable_GET); ("POST", variable_POST);
      ("PUT", variable_PUT)], "/variable/", false);
   (manager_object "appInfo" [("GET", appInfo_GET)], "/application/info", false);
   (manager_object "appInfos" [("GET", appInfos_GET)], "/application/infos", false);
   (manager_object "app" [("DELETE", app_DELETE); ("GET", app_GET); ("POST", app_POST); ("PUT", app_PUT)],
      "/application/", false);
   (manager_object "relation" [("DELETE", relation_DELETE); ("GET", relation_GET); ("POST", relation_POST);
      ("PUT", relation_PUT)], "/relation/", false);
   (manager_object "docs" [("GET", docs_GET)], "/docs/", false);
   (manager_object "statsSumAction" [("GET", statsSumAction_GET)], "/stats/sum/", false);
   (manager_object "statsTopApplication" [("GET", statsTopApplication_GET)], "/stats/top/app/", false);
   (manager_object "statsTopInterface" [("GET", statsTopInterface_GET)], "/stats/top/iface/", false);
   (manager_object "statsErrors" [("GET", statsErrors_GET)], "/stats/error/", false)].

Notation manager_keys := (key_route (H := handler) <$> manager_routes).

Lemma manager_registers : routes_of false manager_ServerInit ≡ₚ manager_keys.
Proof.
  rewrite <-(places_permute ("", account_GET)
    [41; 0; 1; 25; 42; 26; 4; 2; 3; 5; 8; 6; 7; 27; 9; 10; 11; 12; 43; 29; 28; 13; 14; 44; 30; 15; 16; 17; 45; 32;
     18; 19; 31; 33; 46; 47; 34; 48; 21; 20; 35; 36; 49; 50; 37; 22; 23; 24; 40; 51; 38; 39; 52; 53; 54; 55; 56]%nat
    manager_keys) by (vm_compute; reflexivity).
  reflexivity.
Qed.

(** What answers a request no path is registered for. *)
Definition prefix_handler (r : Request) : option handler :=
  if decide (r_method r = "GET") then
    Some (if HasPrefix (r_path r) "/debug/pprof/" then debug_GET else static_GET)
  else None.

Lemma manager_prefixes r :
  well_formed r → snd <$> longest_prefix (r_method r +:+ r_path r) (routes_of true manager_ServerInit) = prefix_handler r.
Proof.
  intros [Hm Hp]. change (routes_of true manager_ServerInit) with
    [("GET" +:+ "/debug/pprof/", debug_GET); ("GET" +:+ "/static/", static_GET); ("GET" +:+ "/", static_GET)].
  unfold longest_prefix. rewrite !HasPrefix_key by done. rewrite Hp. unfold prefix_handler.
  destruct (decide (r_method r = "GET")) as [He|He].
  - rewrite bool_decide_true by done. simpl.
    destruct (HasPrefix (r_path r) "/debug/pprof/"), (HasPrefix (r_path r) "/static/"); try done.
  - by rewrite bool_decide_false.
Qed.

(** The handler of a request: that of its path, or of a prefix. *)
Definition manager_handler_of (r : Request) : option handler :=
  match list_find (λ x : mgr_route (N := N), fst x = (r_method r, r_path r)) manager_routes with
  | Some (_, (_, h)) => Some h
  | None => prefix_handler r
  end.

(** [httpServer.ServeHTTP] of the manager's process. *)
Definition manager_ServeHTTP `{Regexps} (srv : httpServer handler) (r : Request) : M (Mgr N) unit :=
  recover
    (h ← lift (getHandler (r_method r) (r_path r) srv);
     match h with
     | None => respond (SendResponse StatusNotFound "invalid request")
     | Some (h, _) => h r
     end)
    (λ p, _ ← respond (WriteHeader StatusInternalServerError); respond (WriteText p)).
End manager.

(** ** Properties *)

Ltac good_keys := repeat (constructor; [split; reflexivity|]); constructor.

Section properties.
Context `{SqlEngine} {N : Type} `{Transport N} `{ManagerNet N} `{ManagerEnv} `{EmailPattern}.
Context `{BlockCipher} `{MapRange} `{Files} `{RegexpLaws}.

(** The routes of the rbac service are what its [ServerInit] registers: no
    registration fails, and a request reaches the handler of the table of routes
    for its method and path, or none. *)
Theorem rbac_dispatch r :
  well_formed r →
  ∃ s h, register_all rbac_ServerInit newHTTPServer = (Ret tt, s) ∧
    getHandler (r_method r) (r_path r) s = Ret h ∧ (λ hc, fst hc r) <$> h = rbac_serve r.
Proof.
  intros Hr.
  destruct (registered_dispatch rbac_ServerInit ServerInit_routes r) as (s & E & Hg); [apply rbac_registers| | | | |done|].
  - apply (bool_decide_eq_true_1 (NoDup _)). vm_compute. reflexivity.
  - unfold ServerInit_routes, public_routes, write_routes, delete_routes, read_routes. good_keys.
  - constructor.
  - constructor.
  - eexists s, _. split; [exact E|]. unfold rbac_serve, route.
    match goal with |- context [@list_find _ _ ?d ServerInit_routes] => split; [exact (Hg d)|] end.
    found_in ServerInit_routes; reflexivity.
Qed.

Lemma manager_dispatched r :
  well_formed r →
  ∃ srv, register_all manager_ServerInit newHTTPServer = (Ret tt, srv) ∧
    getHandler (r_method r) (r_path r) srv = Ret ((λ h, (h, None)) <$> manager_handler_of (N := N) r).
Proof.
  intros Hr.
  destruct (registered_dispatch manager_ServerInit manager_routes r) as (s & E & Hg); [apply manager_registers| | | | |done|].
  - apply (bool_decide_eq_true_1 (NoDup _)). vm_compute. reflexivity.
  - unfold manager_routes, session_routes, open_write_routes, open_read_routes. good_keys.
  - apply (bool_decide_eq_true_1 (NoDup _)). vm_compute. reflexivity.
  - by apply (bool_decide_eq_true_1 (Forall _ _)).
  - exists s. split; [done|]. rewrite manager_prefixes in Hg by done. apply Hg.
Qed.

Lemma served_as srv r (o : option (Request → M (Mgr N) unit)) s :
  getHandler (r_method r) (r_path r) srv = Ret ((λ h, (h, None)) <$> o) →
  manager_ServeHTTP srv r s =
    match o with
    | Some h => manager_serve h r s
    | None => respond (SendResponse StatusNotFound "invalid request") s
    end.
Proof. intros Hg. unfold manager_ServeHTTP. rewrite Hg. by destruct o. Qed.

(** C16: the manager's process is the table of routes and its files: whatever
    [ServerInit] meets, no registration fails, and a request with any method and
    path is served by the handler of the table; only a GET of a path that is not
    in the table gets a profile or a file, and everything else one reply that
    there is no such thing. *)
Theorem manager_dispatch r :
  well_formed r →
  ∃ srv, register_all manager_ServerInit newHTTPServer = (Ret tt, srv) ∧
    ∀ s, manager_ServeHTTP srv r s =
      match manager_handler_of r with
      | Some h => manager_serve h r s
      | None => respond (SendResponse StatusNotFound "invalid request") s
      end.
Proof.
  intros Hr. destruct (manager_dispatched r Hr) as (srv & E & Hg). exists srv. split; [exact E|].
  intros s. by apply served_as.
Qed.

Lemma prefix_answers r (h : Request → M (Mgr N) unit) : prefix_handler r = Some h → answers (h r).
Proof.
  unfold prefix_handler. destruct (decide _); [|done]. intros [= <-].
  destruct (HasPrefix _ _); apply answers_reply.
Qed.

Lemma handler_answers r (h : Request → M (Mgr N) unit) : manager_handler_of r = Some h → answers (h r).
Proof.
  unfold manager_handler_of.
  match goal with |- context [@list_find ?A ?P ?d manager_routes] =>
    destruct (@list_find A P d manager_routes) as [[i [k h']]|] eqn:E end; [|apply prefix_answers].
  intros [= <-]. apply list_find_Some in E as (Hi & _). apply (routes_answer (k, h') r), (list_elem_of_lookup_2 _ i), Hi.
Qed.

(** C17: whoever sends whatever to the manager gets an answer: for every method,
    path and body, every state of its process, database and network, the server
    comes to its end and the last thing it does is to write a reply. *)
Theorem manager_answers_everything r :
  well_formed r →
  ∃ srv, register_all manager_ServerInit newHTTPServer = (Ret tt, srv) ∧
    ∀ s, ∃ evs last, (manager_ServeHTTP srv r s).1 = Ret tt ∧
      trace_of (manager_ServeHTTP srv r s).2 = (trace_of s ++ evs ++ [EvReply last])%list.
Proof.
  intros Hr. destruct (manager_dispatched r Hr) as (srv & E & Hg). exists srv. split; [exact E|]. intros s.
  rewrite (served_as _ _ _ _ Hg).
  destruct (manager_handler_of r) as [h|] eqn:Eh; [by apply serve_answered, handler_answers|].
  by exists [], (SendResponse StatusNotFound "invalid request").
Qed.
End properties.

(** ** Runs *)

Module Serving.
Import Scripted XorCipher Sandbox Literal.

#[local] Instance files : Files := {|
  web_path := "/web"; ServeFile _ p := WriteText ("the file " +:+ p); pprof_Index _ := WriteText "profiles"
|}.

Definition picture : Request := request "GET" "/img/logo.png" [] "".
Definition removal : Request := request "DELETE" "/img/logo.png" [] "".

Lemma picture_formed : well_formed picture.
Proof. split; reflexivity. Qed.

(** A file, and no such thing. *)
Theorem manager_dispatch_witness :
  ∃ srv, (∀ s : Mgr net, manager_ServeHTTP srv picture s = manager_serve static_GET picture s) ∧
    ∃ srv', ∀ s : Mgr net, manager_ServeHTTP srv' removal s =
      respond (SendResponse StatusNotFound "invalid request") s.
Proof.
  destruct (manager_dispatch (N := net) picture picture_formed) as (srv & _ & Hs).
  exists srv. split; [exact Hs|].
  destruct (manager_dispatch (N := net) removal) as (srv' & _ & Hs'); [split; reflexivity|].
  exists srv'. exact Hs'.
Defined.

Theorem manager_answers_everything_witness :
  ∃ srv evs last, w_events (m_world (manager_ServeHTTP srv removal EveryRequest.cold).2) = (evs ++ [EvReply last])%list.
Proof.
  destruct (manager_answers_everything (N := net) removal) as (srv & _ & Ha); [split; reflexivity|].
  destruct (Ha EveryRequest.cold) as (evs & last & _ & Ht). exists srv, evs, last. exact Ht.
Defined.

(** A path of the table, and one with something behind it. *)
Theorem rbac_dispatch_witness :
  (∃ s h, getHandler (H := Request → M World unit) "GET" "/rbac/role/" s = Ret h ∧ is_Some h) ∧
  ∃ s, getHandler (H := Request → M World unit) "GET" "/rbac/role/x" s = Ret None.
Proof.
  split.
  - destruct (rbac_dispatch (request "GET" "/rbac/role/" [] "")) as (s & h & _ & Hg & Hh); [split; reflexivity|].
    exists s, h. split; [exact Hg|]. destruct h as [h|]; [by eexists|]. vm_compute in Hh. discriminate Hh.
  - destruct (rbac_dispatch (request "GET" "/rbac/role/x" [] "")) as (s & h & _ & Hg & Hh); [split; reflexivity|].
    exists s. destruct h as [h|]; [vm_compute in Hh; discriminate Hh|exact Hg].
Defined.
End Serving.
