(* ===== verification/DbCache.v ===== *)
(** * DbCache: the repeater's cached view of the manager's tables

    [repeater/cache.go] over the expiring cache of [Cache], with the rows of
    [meta/common.go] it reads. Operations run one at a time here: every access to
    the connection is under the mutex of [dbCache]. [Requests] takes the lookups
    apart into what each lock protects and lets requests interleave. *)

From Stdlib Require Import ZArith Lia Ascii.
From stdpp Require Import base gmap strings list.
From S2P Require Import Prelude GoStrings Crypto Http Json Fmt SqlDB Cache Registry.

(** ** [meta/common.go]: what the repeater reads of the rows *)

Record Application := mkApplication { A_ID : Z; A_Name : string; A_Email : string }.
Record Service := mkService { S_ID : Z; S_Validate : bool; S_Version : Z }.
Record Variable_ := mkVariable { V_Postion : Z; V_Name : string; V_Type : string; V_Required : bool }.
Record Interface := mkInterface {
  I_ID : Z; I_Method : Z; I_Backend : string; I_Email : string; I_Path : string; I_Service : Service
}.

(** ** Cached values *)

(** A cached value: the program stores these four types under disjoint keys and
    asserts the type it expects. *)
Inductive cval : Type :=
| CApp (a : Application)
| CVars (vs : list Variable_)
| CIface (i : Interface)
| CRelation (id : Z).

(** ** [dbCache] *)

Definition errInvalidPath : goerror := ErrVar "repeater" "errInvalidPath" "invalid path".
Definition errInvalidToken : goerror := ErrVar "repeater" "errInvalidToken" "invalid token".
Definition errForbidden : goerror := ErrVar "repeater" "errForbidden" "forbidden".

Definition maxRetry : nat := 5.

Definition selService : string := "select id, validate, version from service where path=?".
Definition selIface : string :=
  "select id, method, backend, email from interface where service_id = ? and path=?".
Definition selVar : string := "select postion, name, type, required from variable where interface_id = ?".
Definition selApp : string := "select name, email from application where id = ? and token=?".
Definition selRelation : string := "select id from relation where application_id = ? and interface_id=?".
Definition instStats : string :=
  "insert into stats (iface_id, app_id, cnt, cost, event_time) values (?,?,?,?,?) ON DUPLICATE KEY UPDATE cnt = cnt + ?, cost =  cost + ?".
Definition instErrorStats : string :=
  "insert into stats_error (session, iface_id, app_id, info, ctime) values (?,?,?,?,?)".


(** The repeater's state: the database and the trace of its statements, whether
    [dc.dbc] and with it the seven prepared statements are set, the cache and
    the clock in seconds. *)
Record DC `{SqlEngine} := mkDC {
  dc_world : World;
  dc_conn : bool;
  dc_cache : list (cacheEntry cval);
  dc_now : Z
}.
Arguments mkDC {_} _ _ _ _.

(** Parts of the environment: the cache timeout of the configuration, the clock
    as [insertStats] prints it, and the rendering of a statement and its
    arguments in an error message. *)
Class RepeaterEnv := {
  cache_timeout : Z;
  format_minute : Z → string;
  show_statement : string → list gval → string
}.

Section dbcache.
Context `{SqlEngine} `{BlockCipher} `{RepeaterEnv}.

Definition on_world {A} (m : M World A) : M DC A := λ s,
  let '(o, w) := m (dc_world s) in (o, mkDC w (dc_conn s) (dc_cache s) (dc_now s)).

Definition set_conn (b : bool) : M DC unit :=
  modify (λ s, mkDC (dc_world s) b (dc_cache s) (dc_now s)).

Definition connected : M DC bool := s ← get_state; mret (dc_conn s).

(** [closeAll] leaves the connection and every statement nil. *)
Definition closeAll : M DC unit := set_conn false.

Definition prepare_all : M World unit :=
  _ ← GetConnection;
  _ ← Prepare selService; _ ← Prepare selIface; _ ← Prepare selVar; _ ← Prepare selApp;
  _ ← Prepare selRelation; _ ← Prepare instStats; Prepare instErrorStats.

Definition conectDB : M DC unit :=
  let? _ := on_world prepare_all catch e => (_ ← closeAll; throw e) in set_conn true.

(** The value of a statement field when it is read: nil without a connection. *)
Definition statement_of (sql : string) : M DC (option string) :=
  c ← connected; mret (if (c : bool) then Some sql else None).

(** The retry loop of [queryDB], with the statement the caller read before the
    call: [rows] and [err] are the variables of the loop. *)
Fixpoint query_loop (n : nat) (s : option string) (arg : list gval)
    (rows : option (list (list gval))) (err : option goerror)
    : M DC (option (list (list gval)) * option goerror) :=
  match n with
  | O => mret (rows, err)
  | S n' =>
      c ← connected;
      if (c : bool) then
        match s with
        | None => gopanic nil_deref
        | Some sql =>
            let? r := on_world (StmtQuery sql arg) catch e => query_loop n' s arg None (Some e) in
            mret (Some r, None)
        end
      else
        let? _ := conectDB catch e => query_loop n' s arg rows (Some e) in
        query_loop n' s arg rows None
  end.

Definition queryDB (s : option string) (arg : list gval) (res : list kind) : M DC (list gval) :=
  p ← query_loop maxRetry s arg None None;
  match p with
  | (_, Some e) => throw e
  | (None, None) => gopanic nil_deref
  | (Some [], None) => throw (Annotatef errNotFound (show_statement (default "" s) arg))
  | (Some (row :: _), None) =>
      match scan_vals res row with
      | None => throw scan_error
      | Some vs => mret vs
      end
  end.

(** [dbQuery] reads the statement anew on every try. *)
Fixpoint dbQuery_loop (n : nat) (sql : string) (arg : list gval)
    (rows : option (list (list gval))) (err : option goerror)
    : M DC (option (list (list gval)) * option goerror) :=
  match n with
  | O => mret (rows, err)
  | S n' =>
      c ← connected;
      let reconnect (rows : option (list (list gval))) :=
        let? _ := conectDB catch e => dbQuery_loop n' sql arg rows (Some e) in
        dbQuery_loop n' sql arg rows None in
      if (c : bool) then
        let? r := on_world (StmtQuery sql arg) catch _ => reconnect None in mret (Some r, None)
      else reconnect rows
  end.

Fixpoint exec_loop (n : nat) (s : option string) (arg : list gval) (err : option goerror)
    : M DC (option (Z * Z) * option goerror) :=
  match n with
  | O => mret (None, err)
  | S n' =>
      c ← connected;
      if (c : bool) then
        match s with
        | None => gopanic nil_deref
        | Some sql =>
            let? r := on_world (StmtExec sql arg) catch e => exec_loop n' s arg (Some e) in
            mret (Some r, None)
        end
      else
        let? _ := conectDB catch e => exec_loop n' s arg (Some e) in exec_loop n' s arg None
  end.

Definition executeDB (s : option string) (arg : list gval) : M DC (option (Z * Z)) :=
  p ← exec_loop maxRetry s arg None;
  match p with (_, Some e) => throw e | (r, None) => mret r end.

(** A nil result is used without a check. *)
Definition insertDB (s : option string) (arg : list gval) : M DC Z :=
  res ← executeDB s arg;
  match res with None => gopanic nil_deref | Some (id, _) => mret id end.

Definition insertStats (iface app count cost : Z) : M DC unit :=
  s ← statement_of instStats;
  st ← get_state;
  _ ← insertDB s [VInt iface; VInt app; VInt count; VInt cost; VStr (format_minute (dc_now st));
                  VInt count; VInt cost];
  mret tt.

(** The time is passed and not used. *)
Definition insertErrorStats (session : string) (iface app : Z) (info : string) (tm : Z) : M DC unit :=
  s ← statement_of instErrorStats;
  _ ← insertDB s [VStr session; VInt iface; VInt app; VStr info];
  mret tt.

(** ** Cached queries *)

Definition cacheGet (key : string) : M DC (option cval) := λ s,
  let '(v, c) := cache_get cache_timeout (dc_now s) key (dc_cache s) in
  (Ret v, mkDC (dc_world s) (dc_conn s) c (dc_now s)).

Definition cacheAdd (key : string) (v : cval) : M DC unit :=
  modify (λ s, mkDC (dc_world s) (dc_conn s) (cache_add (dc_now s) key v (dc_cache s)) (dc_now s)).

Definition bad_assertion : string := "interface conversion: interface {} has an unexpected type".

Definition application_key (id : Z) : string := String "001" (itoa id).
Definition variable_key (id : Z) : string := String "002" (itoa id).
Definition relation_key (appID ifaceID : Z) : string := String "003" (itoa appID +:+ itoa ifaceID).

(** The path under which an interface is registered. *)
Definition interface_path (version : Z) (key : string) (ps : list string) : outcome string :=
  if decide (version = 1) then
    path ← slice_from key (len (List.nth 1 ps "") + 1);
    if decide (LastIndex path "?" ≠ -1) then slice path 0 (LastIndex path "?") else Ret path
  else Ret (List.nth 2 ps "").

Definition getInterface (key : string) : M DC Interface :=
  v ← cacheGet key;
  match v with
  | Some (CIface i) => mret i
  | Some _ => gopanic bad_assertion
  | None =>
      let ps := Split "/" key in
      if decide (length ps < 3)%nat then throw errInvalidPath else
      s ← statement_of selService;
      vs ← queryDB s [VStr (List.nth 1 ps "")] [KInt64; KBool; KInt];
      let p := mkService (nth_int vs 0)
                 (match vs !! 1%nat with Some (VBool b) => b | _ => false end) (nth_int vs 2) in
      path ← lift (interface_path (S_Version p) key ps);
      s ← statement_of selIface;
      vs ← queryDB s [VInt (S_ID p); VStr path] [KInt64; KInt; KString; KString];
      let i := mkInterface (nth_int vs 0) (nth_int vs 1) (nth_str vs 2) (nth_str vs 3) path p in
      _ ← cacheAdd key (CIface i);
      mret i
  end.

Definition validateRelation (appID ifaceID : Z) : M DC unit :=
  let key := relation_key appID ifaceID in
  v ← cacheGet key;
  match v with
  | Some _ => mret tt
  | None =>
      s ← statement_of selRelation;
      vs ← queryDB s [VInt appID; VInt ifaceID] [KInt64];
      cacheAdd key (CRelation (nth_int vs 0))
  end.

Definition getApplication (id : Z) (token : string) : M DC Application :=
  let key := application_key id in
  v ← cacheGet key;
  match v with
  | Some (CApp a) => mret a
  | Some _ => gopanic bad_assertion
  | None =>
      s ← statement_of selApp;
      vs ← queryDB s [VInt id; VStr token] [KString; KString];
      let a := mkApplication id (nth_str vs 0) (nth_str vs 1) in
      _ ← cacheAdd key (CApp a);
      mret a
  end.

Definition getApp (token : string) : M DC Application :=
  let? buf := lift (AesDecrypt token AesKey)
    catch e => throw (Annotatef errInvalidToken (format_message (Error e))) in
  let '(id, n) := Varint buf in
  if decide (n < 1) then throw (Errorf ("invalid token " +:+ token)) else
  getApplication id token.

Fixpoint scan_variables (rows : list (list gval)) : outcome (list Variable_) :=
  match rows with
  | [] => Ret []
  | row :: rest =>
      match scan_vals [KInt; KString; KString; KBool] row with
      | Some [VInt p; VStr n; VStr t; VBool r] =>
          vs ← scan_variables rest; Ret (mkVariable p n t r :: vs)
      | _ => Throw scan_error
      end
  end.

Definition getVariable (id : Z) : M DC (list Variable_) :=
  let key := variable_key id in
  v ← cacheGet key;
  match v with
  | Some (CVars vs) => mret vs
  | Some _ => gopanic bad_assertion
  | None =>
      p ← dbQuery_loop maxRetry selVar [VInt id] None None;
      match p with
      | (_, Some e) => throw e
      | (None, None) => gopanic nil_deref
      | (Some rows, None) =>
          vs ← lift (scan_variables rows);
          _ ← cacheAdd key (CVars vs);
          mret vs
      end
  end.
End dbcache.
