(* ===== verification/DbCacheTheory.v ===== *)
(** * DbCacheTheory: what the repeater's cached queries guarantee

    Queries are retried on an established connection; a lost connection, an
    ambiguous cache key and a short argument list are where the code does not
    do what it is for. *)

From Stdlib Require Import ZArith Lia Ascii.
From stdpp Require Import base gmap strings list sorting.
From S2P Require Import Prelude GoStrings Crypto Http SqlDB Cache Registry DbCache.

(** ** Queries with and without a connection *)

Section queries.
Context `{SqlEngine} `{BlockCipher} `{RepeaterEnv}.

Lemma prepare_all_events w : w_events (prepare_all w).2 = w_events w.
Proof.
  assert (He : extends (λ _, False) prepare_all) by (unfold prepare_all; eauto 20 with trace).
  destruct (He w) as (evs & Hw & HF). unfold trace_of, World_traced in Hw. rewrite Hw.
  destruct evs; [by rewrite app_nil_r|].
  by apply Forall_cons_iff in HF as [[] _].
Qed.

Lemma prepare_all_no_panic w : is_panic (prepare_all w).1 = false.
Proof.
  unfold prepare_all. unfold_M. unfold GetConnection, Prepare.
  repeat match goal with
  | |- context [db_connect ?d] => destruct (db_connect d) as [[?|] ?]; simpl; [done|]
  | |- context [db_prepare ?q ?d] => destruct (db_prepare q d) as [[?|] ?]; simpl; try done
  end.
Qed.

(** A connection attempt sends no statement; it ends connected or with an
    error. *)
Lemma conectDB_run s :
  (∃ w, conectDB s = (Ret tt, mkDC w true (dc_cache s) (dc_now s)) ∧
        w_events w = w_events (dc_world s)) ∨
  (∃ e w, conectDB s = (Throw e, mkDC w false (dc_cache s) (dc_now s)) ∧
        w_events w = w_events (dc_world s)).
Proof.
  unfold conectDB, on_world, closeAll, set_conn. unfold_M.
  pose proof (prepare_all_events (dc_world s)) as He.
  pose proof (prepare_all_no_panic (dc_world s)) as Hp.
  destruct (prepare_all (dc_world s)) as [[[]|e|p] w]; simpl in *; [by eauto|by eauto|done].
Qed.

Lemma query_loop_nil n arg err s :
  let '(o, s') := query_loop n None arg None err s in
  (o = Panic nil_deref ∨ ∃ err', o = Ret (None, err')) ∧
  w_events (dc_world s') = w_events (dc_world s).
Proof.
  revert err s. induction n as [|n IH]; intros err s; [simpl; eauto|].
  cbn [query_loop]. unfold connected. unfold_M. destruct (dc_conn s) eqn:Hc; simpl; [by eauto|].
  destruct (conectDB_run s) as [(w & -> & Hw)|(e & w & -> & Hw)].
  - specialize (IH None (mkDC w true (dc_cache s) (dc_now s))).
    destruct (query_loop n None arg None None _) as [o s']. simpl in IH. by rewrite <-Hw.
  - specialize (IH (Some e) (mkDC w false (dc_cache s) (dc_now s))).
    destruct (query_loop n None arg None (Some e) _) as [o s']. simpl in IH. by rewrite <-Hw.
Qed.

(** A query whose statement was read while there was no connection sends
    nothing and never returns: the statement stays nil while [queryDB]
    reconnects, so the call ends in an error when no attempt succeeds and in a
    nil dereference when one does. *)
Theorem queryDB_without_connection sql arg res s :
  dc_conn s = false →
  let '(o, s') := (q ← statement_of sql; queryDB q arg res) s in
  (o = Panic nil_deref ∨ ∃ e, o = Throw e) ∧
  w_events (dc_world s') = w_events (dc_world s).
Proof.
  intros Hc. unfold statement_of, connected, queryDB. generalize maxRetry as n. intros n.
  unfold_M. rewrite Hc. pose proof (query_loop_nil n arg None s) as Hq.
  destruct (query_loop n None arg None None s) as [o s'].
  destruct Hq as [[->|(err & ->)] He]; [by auto|]. destruct err as [e|]; simpl; eauto.
Qed.

Lemma query_loop_connected n sql arg err s :
  dc_conn s = true → placeholders sql = length arg →
  ∃ k, (k ≤ n)%nat ∧
  let '(o, s') := query_loop n (Some sql) arg None err s in
  dc_conn s' = true ∧ dc_cache s' = dc_cache s ∧ dc_now s' = dc_now s ∧
  w_events (dc_world s') = (w_events (dc_world s) ++ replicate k (EvQuery sql arg))%list ∧
  ((∃ rows d0 d1, o = Ret (Some rows, None) ∧ db_query sql arg d0 = (inr rows, d1) ∧ (1 ≤ k)%nat) ∨
   (k = n ∧ ∃ err', o = Ret (None, err') ∧ (n ≠ 0%nat → is_Some err') ∧ (n = 0%nat → err' = err))).
Proof.
  intros Hc Ha. revert err s Hc. induction n as [|n IH]; intros err s Hc.
  { exists 0%nat. simpl. rewrite app_nil_r. split; [done|]. split_and!; auto. right. split; [done|]. by exists err. }
  cbn [query_loop]. unfold connected, on_world, StmtQuery. unfold_M. rewrite Hc, decide_True by done.
  unfold Query. destruct (db_query sql arg (w_db (dc_world s))) as [[e|rows] d] eqn:E; simpl.
  - destruct (IH (Some e) (mkDC (mkWorld d (w_events (dc_world s) ++ [EvQuery sql arg])) (dc_conn s)
        (dc_cache s) (dc_now s)) Hc) as (k & Hk & Hrun).
    exists (S k). split; [lia|]. rewrite Hc in *.
    destruct (query_loop n (Some sql) arg None (Some e) _) as [o s']. simpl in Hrun.
    destruct Hrun as (Ha1 & Ha2 & Ha3 & Ha4 & Ha5). split_and!; try done.
    + rewrite Ha4, <-app_assoc. done.
    + destruct Ha5 as [(rows & d0 & d1 & ? & ? & ?)|(-> & err' & -> & Hs & Hz)].
      * left. exists rows, d0, d1. split_and!; [done..|lia].
      * right. split; [done|]. exists err'. split_and!; [done| |done]. intros _.
        destruct n; [rewrite Hz by done; by eexists|by apply Hs].
  - exists 1%nat. rewrite Hc. split; [lia|]. split_and!; try done. left. eauto 10.
Qed.

(** On an established connection a query is tried at most five times and the
    first answer counts: the statement and arguments sent are the caller's, a
    returned row is the first row the engine gave, [errNotFound] is reported
    only for an answer without rows, and the connection is kept. *)
Theorem queryDB_connected sql arg res s :
  dc_conn s = true → placeholders sql = length arg →
  let '(o, s') := queryDB (Some sql) arg res s in
  dc_conn s' = true ∧
  (∃ k, (1 ≤ k ≤ maxRetry)%nat ∧
     w_events (dc_world s') = (w_events (dc_world s) ++ replicate k (EvQuery sql arg))%list) ∧
  (∀ vs, o = Ret vs → ∃ row rows d0 d1,
     db_query sql arg d0 = (inr (row :: rows), d1) ∧ scan_vals res row = Some vs) ∧
  (o = Throw (Annotatef errNotFound (show_statement sql arg)) →
     (∃ k, (1 ≤ k ≤ maxRetry)%nat ∧ w_events (dc_world s') =
        (w_events (dc_world s) ++ replicate k (EvQuery sql arg))%list)) ∧
  is_panic o = false.
Proof.
  intros Hc Ha. unfold queryDB. remember maxRetry as mr eqn:Hmr.
  assert (Hmr0 : mr ≠ 0%nat) by by rewrite Hmr. unfold_M.
  destruct (query_loop_connected mr sql arg None s Hc Ha) as (k & Hk & Hrun).
  destruct (query_loop mr (Some sql) arg None None s) as [o s'].
  destruct Hrun as (H1' & _ & _ & He & [(rows & d0 & d1 & -> & Hq & Hk1)|(-> & err' & -> & Hs & _)]).
  - destruct rows as [|row rows]; simpl.
    + split_and!; eauto. done.
    + destruct (scan_vals res row) as [vs|] eqn:Ev; simpl; split_and!; eauto.
      * intros vs' [= <-]. eauto 10.
      * done.
  - destruct (Hs Hmr0) as [e ->]. simpl.
    assert (∃ k0, (1 ≤ k0 ≤ mr)%nat ∧ w_events (dc_world s') =
       (w_events (dc_world s) ++ replicate k0 (EvQuery sql arg))%list) as Hex.
    { exists mr. split; [lia|done]. }
    split_and!; eauto. done.
Qed.

Lemma queryDB_keeps sql arg res s :
  dc_conn s = true → placeholders sql = length arg →
  let s' := (queryDB (Some sql) arg res s).2 in
  dc_conn s' = true ∧ dc_cache s' = dc_cache s ∧ dc_now s' = dc_now s.
Proof.
  intros Hc Ha. unfold queryDB. generalize maxRetry as mr. intros mr. unfold_M.
  destruct (query_loop_connected mr sql arg None s Hc Ha) as (k & Hk & Hrun).
  destruct (query_loop mr (Some sql) arg None None s) as [o s'].
  destruct Hrun as (Hc' & Hca & Hn & _ & Ho).
  destruct Ho as [(rows & d0 & d1 & -> & _)|(_ & err' & -> & _)]; simpl.
  - destruct rows as [|row rows]; simpl; [done|]. by destruct (scan_vals res row).
  - by destruct err'.
Qed.

Lemma exec_loop_arity n sql arg err s :
  dc_conn s = true → placeholders sql ≠ length arg →
  exec_loop (S n) (Some sql) arg err s =
    (Ret (None, Some (arity_error (placeholders sql) (length arg))), s).
Proof.
  intros Hc Ha. revert err. induction n as [|n IH]; intros err.
  - cbn [exec_loop]. unfold connected, on_world, StmtExec. unfold_M. rewrite Hc, decide_False by done.
    unfold_M. by destruct s.
  - remember (S n) as m. cbn [exec_loop]. unfold connected, on_world, StmtExec. unfold_M.
    rewrite Hc, decide_False by done. unfold_M.
    replace (mkDC (dc_world s) (dc_conn s) (dc_cache s) (dc_now s)) with s by (by destruct s).
    apply IH.
Qed.

Lemma exec_loop_arity_any n sql arg err s :
  n ≠ 0%nat → dc_conn s = true → placeholders sql ≠ length arg →
  exec_loop n (Some sql) arg err s =
    (Ret (None, Some (arity_error (placeholders sql) (length arg))), s).
Proof. destruct n; [done|]. intros _. apply exec_loop_arity. Qed.

(** A failed call is never recorded: the statement has five placeholders and
    four arguments are passed, so on an established connection
    [insertErrorStats] always returns the arity error, having sent nothing. *)
Theorem insertErrorStats_never_records session iface app info tm s :
  dc_conn s = true →
  insertErrorStats session iface app info tm s = (Throw (arity_error 5 4), s).
Proof.
  intros Hc. unfold insertErrorStats, statement_of, connected, insertDB, executeDB.
  remember maxRetry as mr eqn:Hmr. assert (mr ≠ 0%nat) by by rewrite Hmr. unfold_M. rewrite Hc.
  by rewrite exec_loop_arity_any.
Qed.

Lemma exec_loop_accepted n sql arg err s r d :
  n ≠ 0%nat → dc_conn s = true → placeholders sql = length arg →
  db_exec sql arg (w_db (dc_world s)) = (inr r, d) →
  exec_loop n (Some sql) arg err s =
    (Ret (Some r, None), mkDC (mkWorld d (w_events (dc_world s) ++ [EvExec sql arg])) true
               (dc_cache s) (dc_now s)).
Proof.
  intros Hn Hc Ha Hx. destruct n as [|n]; [done|]. cbn [exec_loop].
  unfold connected, on_world, StmtExec. unfold_M. rewrite Hc, decide_True by done.
  unfold Exec. rewrite Hx. simpl. by rewrite Hc.
Qed.

(** On an established connection whose engine accepts the insert, the
    statistics of an interface and an application are sent once, with the count
    and the cost both as new values and as increments. *)
Theorem insertStats_records iface app count cost s r d :
  dc_conn s = true →
  let args := [VInt iface; VInt app; VInt count; VInt cost; VStr (format_minute (dc_now s));
               VInt count; VInt cost] in
  db_exec instStats args (w_db (dc_world s)) = (inr r, d) →
  insertStats iface app count cost s =
    (Ret tt, mkDC (mkWorld d (w_events (dc_world s) ++ [EvExec instStats args])) true
               (dc_cache s) (dc_now s)).
Proof.
  intros Hc args Hx. unfold insertStats, statement_of, connected, insertDB, executeDB.
  remember maxRetry as mr eqn:Hmr. assert (mr ≠ 0%nat) by by rewrite Hmr. unfold_M. rewrite Hc.
  fold args. rewrite (exec_loop_accepted mr instStats args None s r d) by done. by destruct r.
Qed.

(** ** The relation cache *)

Lemma cacheGet_run key s :
  cacheGet key s =
    (Ret (ce_val <$> cache_lookup key (evict cache_timeout (dc_now s) (dc_cache s))),
     mkDC (dc_world s) (dc_conn s) (evict cache_timeout (dc_now s) (dc_cache s)) (dc_now s)).
Proof. done. Qed.

(** Once a relation is accepted, its key is answered from the cache. *)
Lemma validateRelation_cached a i s s' :
  0 < cache_timeout → dc_conn s = true →
  validateRelation a i s = (Ret tt, s') →
  is_Some (cache_lookup (relation_key a i) (evict cache_timeout (dc_now s') (dc_cache s'))) ∧
  dc_conn s' = true.
Proof.
  intros Ht Hc. unfold validateRelation, mbind, M_bind. rewrite cacheGet_run.
  set (c := evict cache_timeout (dc_now s) (dc_cache s)).
  destruct (cache_lookup (relation_key a i) c) as [e|] eqn:E; simpl.
  - intros [= <-]. simpl. unfold c. rewrite evict_idemp. fold c. rewrite E. eauto.
  - unfold statement_of, connected. unfold get_state, mret, M_ret, mbind, M_bind. simpl dc_conn. rewrite Hc.
    set (s1 := mkDC (dc_world s) true c (dc_now s)).
    destruct (queryDB_keeps selRelation [VInt a; VInt i] [KInt64] s1) as (Hc2 & Hca & Hn); [done..|].
    destruct (queryDB (Some selRelation) [VInt a; VInt i] [KInt64] s1) as [[vs|e|p] s2]; [|done..].
    simpl in Hc2, Hca, Hn. unfold cacheAdd, modify. intros [= <-]. simpl. rewrite Hca, Hn.
    unfold cache_add. rewrite E. rewrite evict_cons_fresh by (simpl; lia). simpl.
    rewrite decide_True by done. eauto.
Qed.

(** The key under which an accepted relation is cached is the two ids
    written next to each other. After one relation has been accepted, any other
    pair whose digits read the same is accepted too, without a query, while the
    entry lives. *)
Theorem relation_cache_collision a i b j s s' :
  0 < cache_timeout → dc_conn s = true →
  validateRelation a i s = (Ret tt, s') →
  itoa a +:+ itoa i = itoa b +:+ itoa j →
  let '(o, s2) := validateRelation b j s' in
  o = Ret tt ∧ w_events (dc_world s2) = w_events (dc_world s').
Proof.
  intros Ht Hc Hv Hk. destruct (validateRelation_cached a i s s' Ht Hc Hv) as [[e He] _].
  unfold validateRelation, mbind, M_bind. rewrite cacheGet_run.
  unfold relation_key in *. rewrite <-Hk, He. done.
Qed.
End queries.

(** ** Concrete runs *)

Module CacheRuns.
#[local] Existing Instance Scripted.engine.
#[local] Existing Instance XorCipher.cipher.
#[local] Instance env : RepeaterEnv := {
  cache_timeout := 60; format_minute := itoa; show_statement sql _ := sql
}.

Definition up (rows : list (goerror + list (list gval))) (res : list (goerror + Z * Z)) : DC :=
  mkDC (Scripted.world rows res) true [] 1000.
Definition down : DC := mkDC (Scripted.world [] []) false [] 1000.

Theorem queryDB_without_connection_witness :
  let r := (q ← statement_of selService; queryDB q [VStr "svc"] [KInt64; KBool; KInt]) down in
  r = (Panic nil_deref, mkDC (Scripted.world [] []) true [] 1000) ∧ w_events (dc_world r.2) = [].
Proof.
  split; [vm_compute; reflexivity|].
  pose proof (queryDB_without_connection selService [VStr "svc"] [KInt64; KBool; KInt] down eq_refl) as Hq.
  destruct ((q ← statement_of selService; queryDB q [VStr "svc"] [KInt64; KBool; KInt]) down) as [o s'].
  apply Hq.
Defined.

Theorem queryDB_connected_witness :
  is_panic (queryDB (Some selApp) [VInt 5; VStr "t"] [KString; KString]
              (up [inl (Errorf "gone"); inr [[VStr "n"; VStr "e"]]] [])).1 = false.
Proof.
  pose proof (queryDB_connected selApp [VInt 5; VStr "t"] [KString; KString]
    (up [inl (Errorf "gone"); inr [[VStr "n"; VStr "e"]]] []) eq_refl eq_refl) as Hq.
  destruct (queryDB _ _ _ _) as [o s']. apply Hq.
Defined.

Theorem insertErrorStats_never_records_witness :
  insertErrorStats "s" 1 2 "timeout" 7 (up [] []) = (Throw (arity_error 5 4), up [] []).
Proof. apply insertErrorStats_never_records. reflexivity. Defined.

Theorem insertStats_records_witness :
  (insertStats 1 2 3 40 (up [] [inr (9, 1)])).1 = Ret tt.
Proof.
  rewrite (insertStats_records 1 2 3 40 (up [] [inr (9, 1)]) (9, 1) (Scripted.mkState [] [] []));
    reflexivity.
Defined.

(** Application 1 may call interface 23; then application 12 may call
    interface 3, which no row of the table allows. *)
Theorem relation_cache_collision_witness :
  let s' := (validateRelation 1 23 (up [inr [[VInt 77]]] [])).2 in
  (validateRelation 12 3 s').1 = Ret tt.
Proof.
  cbv zeta.
  pose proof (relation_cache_collision 1 23 12 3 (up [inr [[VInt 77]]] [])
    (validateRelation 1 23 (up [inr [[VInt 77]]] [])).2 eq_refl eq_refl eq_refl eq_refl) as Hc.
  destruct (validateRelation 12 3 _) as [o s2]. apply Hc.
Defined.
End CacheRuns.
