(* ===== verification/Uuid.v ===== *)
(** * Uuid: request identifiers

    [util/uuid/uuid.go]: an atomic 32-bit counter written into a shared 8-byte
    buffer, which is then read back as the identifier. The buffer is not locked,
    so calls of several goroutines interleave between the three steps. *)

From Stdlib Require Import ZArith Lia.
From stdpp Require Import base gmap strings list.
From S2P Require Import Prelude GoStrings.

(** [inc] and [buf]. *)
Record generator := mkGenerator { inc : Z; buf : list Z }.

(** The bytes [PutUint32] of a big-endian order writes. *)
Definition uint32_bytes (v : Z) : list Z :=
  [Z.shiftr v 24 mod 256; Z.shiftr v 16 mod 256; Z.shiftr v 8 mod 256; v mod 256].

Definition big_endian (l : list Z) : Z := foldl (λ acc b, acc * 256 + b) 0 l.

(** [init]: the last two bytes of the first IPv4 address, then the process id in
    little-endian order. *)
Definition uuid_init (ip : option (Z * Z)) (pid : Z) : generator :=
  let '(a, b) := default (0, 0) ip in
  mkGenerator 0 [a; b; pid mod 256; Z.shiftr pid 8 mod 256; 0; 0; 0; 0].

(** The three steps of a call. *)
Definition add_inc (g : generator) : Z * generator :=
  let v := (inc g + 1) mod 2 ^ 32 in (v, mkGenerator v (buf g)).
Definition put_buf (v : Z) (g : generator) : generator :=
  mkGenerator (inc g) (take 4 (buf g) ++ uint32_bytes v).
Definition read_buf (g : generator) : Z := big_endian (buf g).

Definition UINT64 (g : generator) : Z * generator :=
  let '(v, g1) := add_inc g in let g2 := put_buf v g1 in (read_buf g2, g2).

Definition String_ (g : generator) : string * generator :=
  let '(u, g') := UINT64 g in (hex u, g').

(** Calls one after another. *)
Fixpoint uuids (n : nat) (g : generator) : list string :=
  match n with
  | O => []
  | S n' => let '(s, g') := String_ g in s :: uuids n' g'
  end.

(** Calls of several goroutines: each is before its call, holds a counter value,
    has written it, or has its result. *)
Inductive caller : Type := Before | Counted (v : Z) | Written | Done (id : string).

Definition caller_step (c : caller) (g : generator) : caller * generator :=
  match c with
  | Before => let '(v, g') := add_inc g in (Counted v, g')
  | Counted v => (Written, put_buf v g)
  | Written => (Done (hex (read_buf g)), g)
  | Done id => (Done id, g)
  end.

(** A schedule names the goroutine that moves next. *)
Definition sched_step (st : list caller * generator) (t : nat) : list caller * generator :=
  let '(cs, g) := st in
  match cs !! t with
  | None => st
  | Some c => let '(c', g') := caller_step c g in (<[t := c']> cs, g')
  end.

Definition run_schedule (sched : list nat) (st : list caller * generator) : list caller * generator :=
  foldl sched_step st sched.

(** ** Lemmas *)

Lemma uint32_bytes_value v : 0 ≤ v < 2 ^ 32 → big_endian (uint32_bytes v) = v.
Proof.
  intros Hv. unfold big_endian, uint32_bytes. simpl foldl.
  rewrite !Z.shiftr_div_pow2 by lia. change (2 ^ 24) with 16777216. change (2 ^ 16) with 65536.
  change (2 ^ 8) with 256. change (2 ^ 32) with 4294967296 in Hv.
  Z.to_euclidean_division_equations. lia.
Qed.

Lemma big_endian_app a b :
  big_endian (a ++ b) = big_endian a * 256 ^ Z.of_nat (length b) + big_endian b.
Proof.
  unfold big_endian. rewrite foldl_app. generalize (foldl (λ acc b, acc * 256 + b) 0 a) as x.
  induction b as [|y b IH] using rev_ind; intros x; [simpl; lia|].
  rewrite !foldl_app. simpl. rewrite IH, length_app. simpl.
  replace (Z.of_nat (length b + 1)) with (Z.of_nat (length b) + 1) by lia.
  rewrite Z.pow_add_r by lia. lia.
Qed.

Definition high (g : generator) : Z := big_endian (take 4 (buf g)).

Lemma read_put v g :
  (4 ≤ length (buf g))%nat → 0 ≤ v < 2 ^ 32 → read_buf (put_buf v g) = high g * 2 ^ 32 + v.
Proof.
  intros Hl Hv. unfold read_buf, put_buf. simpl. rewrite big_endian_app, uint32_bytes_value by done.
  done.
Qed.

Lemma put_keeps v g :
  (4 ≤ length (buf g))%nat → high (put_buf v g) = high g ∧ (4 ≤ length (buf (put_buf v g)))%nat.
Proof.
  intros Hl. unfold high, put_buf. simpl. split.
  - f_equal. rewrite take_app_le by (rewrite length_take; lia). by rewrite take_take.
  - rewrite length_app, length_take. simpl. lia.
Qed.

Lemma String_run g :
  (4 ≤ length (buf g))%nat →
  let v := (inc g + 1) mod 2 ^ 32 in
  ∃ g', String_ g = (hex (high g * 2 ^ 32 + v), g') ∧ inc g' = v ∧ high g' = high g ∧
        (4 ≤ length (buf g'))%nat.
Proof.
  intros Hl v. unfold String_, UINT64, add_inc. fold v. set (g1 := mkGenerator v (buf g)).
  destruct (put_keeps v g1 Hl) as [Hh Hl']. exists (put_buf v g1).
  rewrite read_put by (done || apply Z.mod_pos_bound; lia). split_and!; done.
Qed.

(** The identifiers of [n] calls, in closed form. *)
Lemma uuids_closed n g :
  (4 ≤ length (buf g))%nat →
  uuids n g = (λ k, hex (high g * 2 ^ 32 + (inc g + 1 + Z.of_nat k) mod 2 ^ 32)) <$> seq 0 n.
Proof.
  revert g. induction n as [|n IH]; intros g Hl; [done|].
  cbn [uuids]. destruct (String_run g Hl) as (g' & -> & Hi & Hh & Hl').
  rewrite IH by done. rewrite <-cons_seq, <-fmap_S_seq, fmap_cons, <-list_fmap_compose.
  f_equal; [by rewrite Z.add_0_r|]. apply list_fmap_ext. intros k x _. simpl.
  rewrite Hh, Hi. f_equal. f_equal. rewrite !Zplus_mod_idemp_l || idtac.
  rewrite <-Z.add_assoc, Zplus_mod_idemp_l. f_equal. lia.
Qed.

Lemma hex_inj a b : 0 ≤ a → 0 ≤ b → hex a = hex b → a = b.
Proof.
  intros Ha Hb E. unfold hex, render_Z in E. rewrite !decide_False in E by lia.
  pose proof (parse_render 16 (Z.to_N a) ltac:(lia)) as H1. rewrite E, parse_render in H1 by lia.
  injection H1. lia.
Qed.

Lemma high_nonneg g : Forall (λ b, 0 ≤ b) (buf g) → 0 ≤ high g.
Proof.
  intros Hb. unfold high. assert (Hb4 : Forall (λ b, 0 ≤ b) (take 4 (buf g))) by (by apply Forall_take).
  revert Hb4.
  generalize (take 4 (buf g)) as l. unfold big_endian. intros l.
  assert (∀ acc, 0 ≤ acc → Forall (λ b, 0 ≤ b) l → 0 ≤ foldl (λ acc b, acc * 256 + b) acc l) as Hgen.
  { induction l as [|b l IH]; intros acc Hacc Hl; [done|]. apply Forall_cons_iff in Hl as [Hb0 Hl].
    simpl. apply IH; [lia|done]. }
  by apply Hgen.
Qed.

(** Calls that do not overlap never repeat an identifier within a cycle of
    the counter: any [2^32] consecutive identifiers of a process are pairwise
    different, wherever the counter starts. *)
Theorem uuids_distinct n g :
  (4 ≤ length (buf g))%nat → Forall (λ b, 0 ≤ b) (buf g) → Z.of_nat n ≤ 2 ^ 32 →
  NoDup (uuids n g).
Proof.
  intros Hl Hb Hn. rewrite uuids_closed by done. pose proof (high_nonneg g Hb) as Hh.
  apply NoDup_fmap_2_strong; [|apply NoDup_seq].
  intros j k Hj Hk E. apply elem_of_seq in Hj, Hk. apply hex_inj in E.
  - assert ((inc g + 1 + Z.of_nat j) mod 2 ^ 32 = (inc g + 1 + Z.of_nat k) mod 2 ^ 32) as Hm by lia.
    change (2 ^ 32) with 4294967296 in *. Z.to_euclidean_division_equations. lia.
  - pose proof (Z.mod_pos_bound (inc g + 1 + Z.of_nat j) (2 ^ 32)). lia.
  - pose proof (Z.mod_pos_bound (inc g + 1 + Z.of_nat k) (2 ^ 32)). lia.
Qed.

(** Calls that overlap can. From every state of the generator, two
    goroutines that both write the shared buffer before either reads it return
    the same identifier. *)
Theorem uuid_race_duplicates g :
  ∃ id g', run_schedule [0; 1; 0; 1; 0; 1]%nat ([Before; Before], g) = ([Done id; Done id], g').
Proof. eexists _, _. reflexivity. Qed.

Theorem uuids_distinct_witness : NoDup (uuids 3 (uuid_init (Some (4, 7)) 1234)).
Proof.
  apply uuids_distinct; [simpl; lia| |lia].
  repeat constructor; vm_compute; discriminate.
Defined.
