(* ===== verification/Repeater.v ===== *)
(** * Repeater: the gateway

    [repeater/repeater.go]: a request is authenticated by its token, matched to
    an interface, checked against the interface's variables, rewritten towards a
    backend and forwarded; the statistics record what happened. *)

From Stdlib Require Import ZArith Lia Ascii.
From stdpp Require Import base gmap strings list sorting.
From S2P Require Import Prelude GoStrings Crypto Http NetUrl SqlDB Registry Stats DbCache Uuid.

(** ** Positions and methods *)

Definition URI : Z := 0.
Definition HEADER : Z := 1.
Definition JSON : Z := 2.
Definition FORM : Z := 3.

Definition position_String (p : Z) : string :=
  if decide (p = URI) then "URI" else if decide (p = HEADER) then "HEADER"
  else if decide (p = JSON) then "JSON" else if decide (p = FORM) then "FORM" else "NIL".

Definition RESTful : Z := 4.

Definition method_String (m : Z) : string :=
  if decide (m = 0) then "GET" else if decide (m = 1) then "POST" else if decide (m = 2) then "PUT"
  else if decide (m = 3) then "DELETE" else if decide (m = 4) then "RESTful" else "NIL".

(** ** State and environment *)

(** The state of the process: cache and database, statistics, backends, the
    identifier generator and the nanosecond clock. *)
Record Rep `{SqlEngine} := mkRep {
  rp_dc : DC;
  rp_stats : statsCache;
  rp_apps : gmap string (list MicroAPP);
  rp_uuid : generator;
  rp_nano : Z
}.
Arguments mkRep {_} _ _ _ _ _.

#[export] Instance DC_traced `{SqlEngine} : Traced DC := λ s, w_events (dc_world s).
#[export] Instance Rep_traced `{SqlEngine} : Traced Rep := λ s, trace_of (rp_dc s).

(** The network: [url.Parse] on the backend address (its error, if any), and
    the answer of a forwarded request with its duration in milliseconds. *)
Class Network := {
  url_Parse_error : string → option goerror;
  do_request : string → string → gmap string (list string) → string → Z * (goerror + string * Z);
  repeater_GitTime : string
}.

Section repeater.
Context `{SqlEngine} `{BlockCipher} `{RepeaterEnv} `{Network}.

Definition on_dc {A} (m : M DC A) : M Rep A := λ s,
  let '(o, d) := m (rp_dc s) in (o, mkRep d (rp_stats s) (rp_apps s) (rp_uuid s) (rp_nano s)).

Definition respond (r : reply) : M Rep unit := on_dc (on_world (reply_with r)).

Definition record_stats (f : statsCache → statsCache) : M Rep unit :=
  modify (λ s, mkRep (rp_dc s) (f (rp_stats s)) (rp_apps s) (rp_uuid s) (rp_nano s)).

(** [uuid.String()]. *)
Definition new_id : M Rep string := λ s,
  let '(id, g) := String_ (rp_uuid s) in
  (Ret id, mkRep (rp_dc s) (rp_stats s) (rp_apps s) g (rp_nano s)).

(** ** Variables *)

(** The request data the checks read and change: headers, and the form once it
    has been parsed. *)
Record ReqData := mkReqData {
  rd_header : gmap string (list string);
  rd_form : gmap string (list string)
}.

(** [Query()] builds a new map every time, so a deletion from it is lost. *)
Definition delValue (d : ReqData) (v : Variable_) : ReqData :=
  if decide (V_Postion v = HEADER) then mkReqData (header_del (rd_header d) (V_Name v)) (rd_form d)
  else if decide (V_Postion v = FORM) then mkReqData (rd_header d) (delete (V_Name v) (rd_form d))
  else d.

Definition validateValue (v : Variable_) (val : string) : outcome bool :=
  if decide (V_Required v = false ∧ val = "") then Ret true
  else if decide (V_Type v = "int") then
    match ParseInt val 10 with
    | (_, Some _) => Throw (Errorf ("key:" +:+ V_Name v +:+ " val:" +:+ val +:+ " is not number, in "
                                    +:+ position_String (V_Postion v)))
    | (_, None) => Ret false
    end
  else if decide (val = "") then
    Throw (Errorf ("key:" +:+ V_Name v +:+ " not found in " +:+ position_String (V_Postion v)))
  else Ret false.

Definition value_of (query : gmap string (list string)) (d : ReqData) (v : Variable_) : string :=
  if decide (V_Postion v = URI) then values_get query (V_Name v)
  else if decide (V_Postion v = FORM) then values_get (rd_form d) (V_Name v)
  else if decide (V_Postion v = HEADER) then header_get (rd_header d) (V_Name v)
  else "".

Fixpoint validate_vars (query : gmap string (list string)) (vars : list Variable_) (d : ReqData)
    : outcome ReqData :=
  match vars with
  | [] => Ret d
  | v :: rest =>
      del ← validateValue v (value_of query d v);
      validate_vars query rest (if (del : bool) then delValue d v else d)
  end.

(** The body is parsed as a form only if some variable is in the form; it is put
    back afterwards. *)
Definition parseForm (req : Request) (vars : list Variable_) : outcome (gmap string (list string)) :=
  if decide (Exists (λ v, V_Postion v = FORM) vars) then parsed_form req else Ret ∅.

(** The headers left for the backend. *)
Definition Validate (req : Request) (iface : Interface) : M Rep (gmap string (list string)) :=
  vars ← on_dc (getVariable (I_ID iface));
  form ← lift (parseForm req vars);
  d ← lift (validate_vars (r_query req) vars (mkReqData (r_header req) form));
  mret (rd_header d).

(** ** Routing *)

Definition GetInterface (req : Request) : M Rep (Application * Interface) :=
  let token := header_get (r_header req) "Token" in
  if decide (token = "") then throw (Errorf "need Token in Header") else
  app ← on_dc (getApp token);
  iface ← on_dc (getInterface (r_path req));
  if decide (I_Method iface ≠ RESTful ∧ r_method req ≠ method_String (I_Method iface)) then
    throw (Errorf ("invalid method:" +:+ r_method req +:+ ", need:" +:+ method_String (I_Method iface)))
  else if S_Validate (I_Service iface) then
    let? _ := on_dc (validateRelation (A_ID app) (I_ID iface))
      catch e => (if decide (Cause e = errNotFound) then throw errForbidden else throw e) in
    mret (app, iface)
  else mret (app, iface).

(** What follows the interface's path in the request path, appended to the
    backend's address. *)
Definition rest_path (backend url_path iface_path : string) : outcome string :=
  let idx := Index url_path iface_path in
  if decide (0 < idx) then
    path ← slice_from url_path (idx + len iface_path);
    if decide (1 < len path) then
      if HasSuffix backend "/" then (p ← slice_from path 1; Ret (backend +:+ p))
      else Ret (backend +:+ path)
    else Ret backend
  else Ret backend.

Definition backend_url (req : Request) (iface : Interface) (apps : gmap string (list MicroAPP))
    (nano : Z) : outcome string :=
  backend ←
    (if decide (S_Version (I_Service iface) = 1) then
       as_ ← getMicroAPPs apps (I_Backend iface);
       a ← pick_backend nano as_;
       Ret ("http://" +:+ Host a +:+ ":" +:+ itoa (Port a) +:+ I_Path iface)
     else rest_path (I_Backend iface) (r_path req) (I_Path iface));
  let args := Encode (r_query req) in
  Ret (if decide (args = "") then backend else backend +:+ "?" +:+ args).

(** The backend's URL and the headers sent to it. *)
Definition buildRequest (id : string) (iface : Interface) (req : Request)
    (header : gmap string (list string)) : M Rep (string * gmap string (list string)) :=
  s ← get_state;
  url ← lift (backend_url req iface (rp_apps s) (rp_nano s));
  match url_Parse_error url with
  | Some e => throw e
  | None =>
      let h1 := header_set header "User-Agent" ("APIGate " +:+ repeater_GitTime) in
      let h2 := header_del h1 "Token" in
      mret (url, header_set h2 "Session" id)
  end.

(** [util.DoRequest(req)]. *)
Definition DoRequest (method url : string) (header : gmap string (list string)) (body : string)
    : M Rep (Z * (goerror + string * Z)) :=
  _ ← on_dc (on_world (emit (EvBackend method url header)));
  mret (do_request method url header body).

Definition clock_seconds (s : Rep) : Z := dc_now (rp_dc s).

(** The statistics of a call, and the answer passed on. *)
Definition finish (id : string) (app : Application) (iface : Interface)
    (r : Z * (goerror + string * Z)) : M Rep unit :=
  s ← get_state;
  match r with
  | (_, inl e) =>
      _ ← record_stats (failed id (A_ID app) (I_ID iface) (Error e) (clock_seconds s));
      respond (SendResponse StatusInternalServerError (Error e))
  | (cost, inr (rb, code)) =>
      _ ← (if decide (code ≠ StatusOK) then
             record_stats (failed id (A_ID app) (I_ID iface)
               ("invalid http status:" +:+ itoa code) (clock_seconds s))
           else record_stats (success (A_ID app) (I_ID iface) cost));
      _ ← respond (WriteHeader code);
      respond (WriteText rb)
  end.

(** The body of [ServeHTTP] after the identifier is made. *)
Definition serve (id : string) (req : Request) : M Rep unit :=
  match r_body req with
  | Ret body =>
      let? ai := GetInterface req catch e =>
        (if decide (Cause e = errForbidden) then respond (WriteHeader StatusForbidden)
         else (_ ← respond (WriteHeader StatusInternalServerError); respond (WriteText (Error e)))) in
      let? header := Validate req (snd ai)
        catch e => respond (SendResponse StatusBadRequest (Error e)) in
      let? uh := buildRequest id (snd ai) req header
        catch e => respond (SendResponse StatusInternalServerError (Error e)) in
      r ← DoRequest (r_method req) (fst uh) (snd uh) body;
      finish id (fst ai) (snd ai) r
  | _ => mret tt
  end.

(** A panic is answered with the panic value in brackets: the handler passes its
    argument list on as one value. *)
Definition ServeHTTP (req : Request) : M Rep unit :=
  id ← new_id;
  recover (serve id req) (λ p, respond (SendResponse StatusBadRequest ("[" +:+ p +:+ "]"))).

(** The timer of [stats.run]: one tick. An error of one entry is logged and the
    next is tried; a panic is not recovered and ends the process. *)
Fixpoint flush {A} (f : A → M DC unit) (es : list A) : M DC unit :=
  match es with
  | [] => mret tt
  | e :: r => let? _ := f e catch _ => flush f r in flush f r
  end.

Definition stats_tick : M Rep unit :=
  s ← get_state;
  let '(es, st) := entrys (rp_stats s) in
  _ ← record_stats (λ _, st);
  _ ← on_dc (flush (λ e, insertStats (e_Iface e) (e_App e) (e_Count e) (e_Time e)) es);
  s ← get_state;
  let '(ee, st) := errorEntrys (rp_stats s) in
  _ ← record_stats (λ _, st);
  on_dc (flush (λ e, insertErrorStats (ee_Session e) (ee_Iface e) (ee_App e) (ee_Info e) (ee_Time e)) ee).
End repeater.
