(* ===== verification/RepeaterTheory.v ===== *)
(** * RepeaterTheory: what the gateway guarantees

    A request reaches a backend only through every check; a request is always
    answered; a forwarded call is accounted for exactly once; the variable
    checks accept exactly the requests their definition describes. *)

From Stdlib Require Import ZArith Lia Ascii.
From stdpp Require Import base gmap strings list sorting.
From S2P Require Import Prelude GoStrings Crypto Http SqlDB Registry Stats DbCache Uuid Repeater.

(** ** Traces of the database layer *)

Definition is_backend (e : event) : Prop := match e with EvBackend _ _ _ => True | _ => False end.
Definition is_sql (e : event) : Prop := match e with EvQuery _ _ | EvExec _ _ => True | _ => False end.

Section dc_traces.
Context `{SqlEngine} `{BlockCipher} `{RepeaterEnv}.

Lemma extends_on_world {A} P (m : M World A) : extends P m → extends P (on_world m).
Proof.
  intros Hm s. destruct (Hm (dc_world s)) as (evs & He & HF). exists evs. unfold on_world.
  by destruct (m (dc_world s)).
Qed.

Lemma sql_conectDB : extends is_sql conectDB.
Proof.
  unfold conectDB, closeAll, set_conn. apply extends_try.
  - apply extends_on_world. unfold prepare_all. eauto 20 with trace.
  - intros e. apply extends_bind; [by apply extends_modify|]. eauto with trace.
  - intros _. by apply extends_modify.
Qed.

Lemma sql_connected : extends is_sql connected.
Proof. apply extends_bind; eauto with trace. Qed.

Lemma sql_query q a : extends is_sql (on_world (StmtQuery q a)).
Proof. by apply extends_on_world, extends_stmt_query. Qed.

Lemma sql_exec q a : extends is_sql (on_world (StmtExec q a)).
Proof. by apply extends_on_world, extends_stmt_exec. Qed.

Lemma sql_statement_of q : extends is_sql (statement_of q).
Proof. apply extends_bind; [apply sql_connected|]. eauto with trace. Qed.

#[local] Hint Resolve sql_conectDB sql_connected sql_query sql_exec sql_statement_of : trace.

Lemma sql_query_loop n s arg rows err : extends is_sql (query_loop n s arg rows err).
Proof.
  revert rows err. induction n as [|n IH]; intros rows err; cbn [query_loop]; eauto with trace.
  apply extends_bind; [apply sql_connected|]. intros [].
  - destruct s; eauto with trace.
  - apply extends_try; eauto with trace.
Qed.

Lemma sql_dbQuery_loop n q arg rows err : extends is_sql (dbQuery_loop n q arg rows err).
Proof.
  revert rows err. induction n as [|n IH]; intros rows err; cbn [dbQuery_loop]; eauto with trace.
  apply extends_bind; [apply sql_connected|]. intros [].
  - apply extends_try; [apply sql_query| |]; eauto with trace.
  - apply extends_try; auto 3 with trace.
Qed.

Lemma sql_queryDB s arg res : extends is_sql (queryDB s arg res).
Proof.
  unfold queryDB. apply extends_bind; [apply sql_query_loop|].
  intros [[[|row rows]|] [e|]]; auto 3 with trace.
Qed.

Lemma sql_cacheGet k : extends is_sql (cacheGet k).
Proof. by apply extends_same. Qed.

Lemma sql_cacheAdd k v : extends is_sql (cacheAdd k v).
Proof. by apply extends_modify. Qed.

#[local] Hint Resolve sql_queryDB sql_cacheGet sql_cacheAdd sql_dbQuery_loop : trace.

Lemma sql_getInterface k : extends is_sql (getInterface k).
Proof. unfold getInterface. trace_go. Qed.

Lemma sql_validateRelation a i : extends is_sql (validateRelation a i).
Proof. unfold validateRelation. trace_go. Qed.

Lemma sql_getApplication id token : extends is_sql (getApplication id token).
Proof. unfold getApplication. trace_go. Qed.

Lemma sql_getApp token : extends is_sql (getApp token).
Proof. pose proof sql_getApplication. unfold getApp. trace_go. Qed.

Lemma sql_getVariable id : extends is_sql (getVariable id).
Proof. unfold getVariable. trace_go. Qed.
End dc_traces.

(** ** Variables *)

Section variables.

(** What a variable accepts. *)
Definition acceptable (v : Variable_) (val : string) : Prop :=
  (V_Required v = false ∧ val = "") ∨
  (V_Type v = "int" ∧ (ParseInt val 10).2 = None) ∨
  (V_Type v ≠ "int" ∧ val ≠ "").

Lemma validateValue_accepts v val :
  (∃ b, validateValue v val = Ret b ∧ (b = true → val = "")) ∧ acceptable v val ∨
  (∃ e, validateValue v val = Throw e) ∧ ¬ acceptable v val.
Proof.
  unfold validateValue, acceptable. destruct (decide _) as [[Hr Hv]|Hr]; [left; eauto 10|].
  destruct (decide (V_Type v = "int")) as [Ht|Ht].
  - destruct (ParseInt val 10) as [z [e|]]; simpl.
    + right. split; [by eauto|]. naive_solver.
    + left. split; [|by auto]. exists false. done.
  - destruct (decide (val = "")) as [Hv|Hv].
    + right. split; [by eauto|]. naive_solver.
    + left. split; [|by auto]. exists false. done.
Qed.

Lemma values_get_delete m k k' : values_get m k = "" → values_get (delete k m) k' = values_get m k'.
Proof.
  unfold values_get. intros Hk. destruct (decide (k' = k)) as [->|Hne].
  - by rewrite lookup_delete_eq.
  - by rewrite lookup_delete_ne.
Qed.

(** Deleting a variable whose value is empty changes no value. *)
Lemma value_of_delValue query d v v' :
  value_of query d v = "" → value_of query (delValue d v) v' = value_of query d v'.
Proof.
  unfold value_of, delValue, header_get, header_del, URI, HEADER, FORM. intros Hv.
  destruct (decide (V_Postion v = 1)) as [Hp|Hp].
  - rewrite Hp in Hv. simpl in Hv. simpl. destruct (decide (V_Postion v' = 0)); [done|].
    destruct (decide (V_Postion v' = 3)); [done|]. destruct (decide (V_Postion v' = 1)); [|done].
    by apply values_get_delete.
  - destruct (decide (V_Postion v = 3)) as [Hp3|Hp3]; [|done].
    rewrite Hp3 in Hv. simpl in Hv. simpl. destruct (decide (V_Postion v' = 0)); [done|].
    destruct (decide (V_Postion v' = 3)); [|done]. by apply values_get_delete.
Qed.

Lemma validate_vars_facts query vars d :
  ((∃ d', validate_vars query vars d = Ret d') ↔ Forall (λ v, acceptable v (value_of query d v)) vars) ∧
  is_panic (validate_vars query vars d) = false ∧
  (∀ d' v, validate_vars query vars d = Ret d' → value_of query d' v = value_of query d v).
Proof.
  revert d. induction vars as [|v vars IH]; intros d; simpl.
  { split_and!; [|done|by intros d' v [= ->]]. split; [constructor|by eauto]. }
  destruct (validateValue_accepts v (value_of query d v)) as [[(b & Hb & Hbv) Hacc]|[(e & He) Hacc]].
  - rewrite Hb. cbn [mbind outcome_bind].
    set (d1 := if b then delValue d v else d).
    assert (Hd1 : ∀ v', value_of query d1 v' = value_of query d v').
    { intros v'. unfold d1. destruct b; [|done]. by apply value_of_delValue, Hbv. }
    destruct (IH d1) as (IH1 & IH2 & IH3). split_and!; [|done|].
    + rewrite IH1, Forall_cons_iff. split.
      * intros HF. split; [done|]. eapply list.Forall_impl; [exact HF|]. intros v'. simpl. by rewrite Hd1.
      * intros [_ HF]. eapply list.Forall_impl; [exact HF|]. intros v'. simpl. by rewrite Hd1.
    + intros d' v' Hr. by rewrite (IH3 d' v' Hr), Hd1.
  - rewrite He. cbn [mbind outcome_bind]. split_and!; [|done|done].
    split; [by intros [? ?]|]. rewrite Forall_cons_iff. by intros [? _].
Qed.

Lemma validate_vars_accepted query vars d :
  (∃ d', validate_vars query vars d = Ret d') → Forall (λ v, acceptable v (value_of query d v)) vars.
Proof. apply validate_vars_facts. Qed.

(** C29: a request passes the variable checks exactly when every variable of the
    interface accepts its value: empty and optional, an integer for an [int], or
    present for any other type. The headers and form that are removed on the way
    change no variable's value, so the order of the variables does not matter. *)
Theorem validate_vars_spec query vars d :
  ((∃ d', validate_vars query vars d = Ret d') ↔ Forall (λ v, acceptable v (value_of query d v)) vars) ∧
  is_panic (validate_vars query vars d) = false ∧
  (∀ d' v, validate_vars query vars d = Ret d' → value_of query d' v = value_of query d v).
Proof.
  apply validate_vars_facts.
Qed.

(** No case reads a variable out of a JSON body, so an interface with a
    required variable there rejects every request. *)
Theorem required_json_rejected query vars d v :
  v ∈ vars → V_Postion v = JSON → V_Required v = true →
  ∀ d', validate_vars query vars d ≠ Ret d'.
Proof.
  intros Hin Hp Hr d' Hd'.
  revert d Hd'. induction vars as [|u vars IH]; [by apply elem_of_nil in Hin|].
  intros d. simpl. apply elem_of_cons in Hin as [<-|Hin].
  - unfold value_of, validateValue. rewrite Hp, Hr. unfold JSON, URI, FORM, HEADER. simpl.
    destruct (decide (V_Type v = "int")); done.
  - destruct (validateValue u _) as [b| |]; simpl; [by apply IH|done..].
Qed.
End variables.

(** ** The gateway *)

(** What a step that forwards nothing does: the statistics stay, and what it adds
    to the trace is not a backend call. *)
Definition quiet `{SqlEngine} (s s' : Rep) : Prop :=
  rp_stats s' = rp_stats s ∧
  ∃ evs, trace_of s' = (trace_of s ++ evs)%list ∧ Forall (λ e, ¬ is_backend e) evs.

#[export] Instance quiet_preorder `{SqlEngine} : PreOrder quiet.
Proof.
  split.
  - intros s. split; [done|]. exists []. by rewrite app_nil_r.
  - intros s1 s2 s3 [H1 (e1 & E1 & F1)] [H2 (e2 & E2 & F2)]. split; [congruence|].
    exists (e1 ++ e2)%list. rewrite E2, E1, app_assoc. split; [done|]. by apply Forall_app.
Qed.

(** [respects R m]: the state [m] leaves is related to the one it starts from. *)
Definition respects {S A} (R : S → S → Prop) (m : M S A) : Prop := ∀ s, R s (m s).2.

Section gateway.
Context `{SqlEngine} `{BlockCipher} `{RepeaterEnv} `{Network}.

Lemma respects_same {A} (m : M Rep A) : (∀ s, (m s).2 = s) → respects quiet m.
Proof. intros Hm s. by rewrite Hm. Qed.

Lemma respects_bind {A B} (m : M Rep A) (f : A → M Rep B) :
  respects quiet m → (∀ a, respects quiet (f a)) → respects quiet (mbind f m).
Proof.
  intros Hm Hf s. specialize (Hm s). unfold mbind, M_bind.
  destruct (m s) as [[a| |] s']; simpl in *; [|done..]. etrans; [done|apply Hf].
Qed.

Lemma respects_try {A B} (m : M Rep A) (h : goerror → M Rep B) (k : A → M Rep B) :
  respects quiet m → (∀ e, respects quiet (h e)) → (∀ a, respects quiet (k a)) →
  respects quiet (try m h k).
Proof.
  intros Hm Hh Hk s. specialize (Hm s). unfold try.
  destruct (m s) as [[a|e|p] s']; simpl in *; [| |done]; etrans; [done|apply Hk|done|apply Hh].
Qed.

Lemma respects_on_dc {A} (m : M DC A) :
  extends (λ e, ¬ is_backend e) m → respects quiet (on_dc m).
Proof.
  intros Hm s. destruct (Hm (rp_dc s)) as (evs & He & HF). unfold on_dc, quiet.
  destruct (m (rp_dc s)) as [o d]. simpl in *. split; [done|]. by exists evs.
Qed.

Lemma sql_not_backend {A} (m : M DC A) : extends is_sql m → extends (λ e, ¬ is_backend e) m.
Proof. apply extends_weaken. intros []; simpl; tauto. Qed.

Lemma respects_respond r : respects quiet (respond r).
Proof. apply respects_on_dc, extends_on_world, extends_reply. simpl. tauto. Qed.

Lemma respects_GetInterface req : respects quiet (GetInterface req).
Proof.
  unfold GetInterface. destruct (decide _); [by apply respects_same|].
  apply respects_bind; [apply respects_on_dc, sql_not_backend, sql_getApp|intros app].
  apply respects_bind; [apply respects_on_dc, sql_not_backend, sql_getInterface|intros iface].
  destruct (decide _); [by apply respects_same|]. destruct (S_Validate _); [|by apply respects_same].
  apply respects_try; [apply respects_on_dc, sql_not_backend, sql_validateRelation| |].
  - intros e. destruct (decide _); by apply respects_same.
  - intros _. by apply respects_same.
Qed.

Lemma respects_Validate req iface : respects quiet (Validate req iface).
Proof.
  unfold Validate. apply respects_bind; [apply respects_on_dc, sql_not_backend, sql_getVariable|].
  intros vars. apply respects_bind; [by apply respects_same|]. intros form.
  apply respects_bind; [by apply respects_same|]. intros d. by apply respects_same.
Qed.

Lemma respects_buildRequest id iface req header : respects quiet (buildRequest id iface req header).
Proof.
  unfold buildRequest. apply respects_bind; [by apply respects_same|]. intros s.
  apply respects_bind; [by apply respects_same|]. intros url.
  destruct (url_Parse_error url); by apply respects_same.
Qed.

(** Either a request is forwarded after every step succeeded, or nothing is
    forwarded. *)
Lemma serve_cases id req s :
  quiet s (serve id req s).2 ∨
  ∃ body app iface header url hdr s1 s2 s3,
    r_body req = Ret body ∧
    GetInterface req s = (Ret (app, iface), s1) ∧
    Validate req iface s1 = (Ret header, s2) ∧
    buildRequest id iface req header s2 = (Ret (url, hdr), s3) ∧
    quiet s s3 ∧
    serve id req s = (r ← DoRequest (r_method req) url hdr body; finish id app iface r) s3.
Proof.
  unfold serve. destruct (r_body req) as [body| |]; [|by left..].
  unfold try at 1. pose proof (respects_GetInterface req s) as Q1.
  destruct (GetInterface req s) as [[[app iface]|e|p] s1] eqn:E1; simpl in Q1.
  2:{ left. etrans; [exact Q1|]. destruct (decide _); [apply respects_respond|].
      apply respects_bind; [apply respects_respond|intros _; apply respects_respond]. }
  2:{ left. exact Q1. }
  unfold try at 1. pose proof (respects_Validate req iface s1) as Q2. cbn [fst snd].
  destruct (Validate req iface s1) as [[header|e|p] s2] eqn:E2; simpl in Q2.
  2:{ left. etrans; [exact Q1|]. etrans; [exact Q2|apply respects_respond]. }
  2:{ left. by etrans. }
  unfold try at 1. pose proof (respects_buildRequest id iface req header s2) as Q3.
  destruct (buildRequest id iface req header s2) as [[[url hdr]|e|p] s3] eqn:E3; simpl in Q3.
  2:{ left. etrans; [exact Q1|]. etrans; [exact Q2|]. etrans; [exact Q3|apply respects_respond]. }
  2:{ left. etrans; [exact Q1|]. by etrans. }
  right. exists body, app, iface, header, url, hdr, s1, s2, s3. split_and!; try done.
  - etrans; [exact Q1|]. by etrans.
  - unfold try. rewrite E1. cbn [fst snd]. by rewrite E2, E3.
Qed.

(** The forwarding itself. *)
Lemma forward_run id app iface method url hdr body s :
  ∃ o evs s', (r ← DoRequest method url hdr body; finish id app iface r) s = (o, s') ∧
    o = Ret tt ∧
    trace_of s' = (trace_of s ++ EvBackend method url hdr :: evs)%list ∧
    Forall (λ e, ∃ r, e = EvReply r) evs ∧ evs ≠ [] ∧
    rp_stats s' =
      match (do_request method url hdr body).2 with
      | inl e => failed id (A_ID app) (I_ID iface) (Error e) (clock_seconds s) (rp_stats s)
      | inr (_, code) =>
          if decide (code = StatusOK)
          then success (A_ID app) (I_ID iface) (do_request method url hdr body).1 (rp_stats s)
          else failed id (A_ID app) (I_ID iface) ("invalid http status:" +:+ itoa code)
                 (clock_seconds s) (rp_stats s)
      end.
Proof.
  unfold DoRequest, finish. destruct (do_request method url hdr body) as [cost [e|[rb code]]].
  - eexists _, _, _. split; [reflexivity|]. simpl. unfold trace_of, Rep_traced, trace_of, DC_traced. simpl.
    rewrite <-app_assoc. split_and!; [done|done| |done|done]. repeat constructor. by eexists.
  - destruct (decide (code = StatusOK)) as [->|Hc].
    + eexists _, _, _. split; [reflexivity|]. unfold trace_of, Rep_traced, trace_of, DC_traced. simpl.
      rewrite <-!app_assoc. split_and!; [done|done| |done|done]. repeat constructor; by eexists.
    + unfold mbind, M_bind, on_dc, on_world, emit, mret, M_ret, get_state, record_stats, modify,
        respond, reply_with. simpl. rewrite !(decide_True (P := code ≠ StatusOK)) by done.
      eexists _, _, _. split; [reflexivity|]. unfold on_dc, on_world, emit. simpl. rewrite decide_False by done.
      unfold trace_of, Rep_traced, trace_of, DC_traced. simpl.
      rewrite <-!app_assoc. split_and!; [done|done| |done|done]. repeat constructor; by eexists.
Qed.

(** The relation is looked up, and found, exactly when the service demands it. *)
Definition relation_checked (app : Application) (iface : Interface) (d d' : DC) : Prop :=
  if S_Validate (I_Service iface) then validateRelation (A_ID app) (I_ID iface) d = (Ret tt, d')
  else d' = d.

Lemma GetInterface_checked req s app iface s1 :
  GetInterface req s = (Ret (app, iface), s1) →
  header_get (r_header req) "Token" ≠ "" ∧
  ∃ d1 d2, getApp (header_get (r_header req) "Token") (rp_dc s) = (Ret app, d1) ∧
    getInterface (r_path req) d1 = (Ret iface, d2) ∧
    (I_Method iface = RESTful ∨ r_method req = method_String (I_Method iface)) ∧
    relation_checked app iface d2 (rp_dc s1).
Proof.
  unfold GetInterface. destruct (decide _) as [Ht|Ht]; [by unfold_M|].
  unfold mbind, M_bind, on_dc. intros Hg. split; [done|].
  destruct (getApp _ (rp_dc s)) as [[a| |] d1]; [|done..]. simpl in Hg.
  destruct (getInterface (r_path req) d1) as [[i| |] d2] eqn:Ei; [|done..]. simpl in Hg.
  destruct (decide _) as [Hm|Hm]; [by unfold_M|].
  assert (Hm' : I_Method i = RESTful ∨ r_method req = method_String (I_Method i)).
  { destruct (decide (I_Method i = RESTful)); [by left|right].
    destruct (decide (r_method req = method_String (I_Method i))); [done|]. exfalso. by apply Hm. }
  destruct (S_Validate (I_Service i)) eqn:Ev.
  - unfold try in Hg. simpl in Hg.
    destruct (validateRelation (A_ID a) (I_ID i) d2) as [[[]|e|p] d3] eqn:Er; simpl in Hg.
    + injection Hg as <- <- <-. exists d1, d2. split_and!; try done. unfold relation_checked. by rewrite Ev.
    + by destruct (decide _).
    + done.
  - injection Hg as <- <- <-. exists d1, d2. split_and!; try done. unfold relation_checked. by rewrite Ev.
Qed.

(** The headers of a call: the token is gone and the session is set. *)
Lemma sent_headers header agent id :
  let h := header_set (header_del (header_set header "User-Agent" agent) "Token") "Session" id in
  header_get h "Token" = "" ∧ header_get h "Session" = id.
Proof.
  unfold header_get, header_set, header_del, values_get.
  change (CanonicalKey "Token") with "Token". change (CanonicalKey "Session") with "Session".
  change (CanonicalKey "User-Agent") with "User-Agent". split.
  - rewrite lookup_insert_ne by done. by rewrite lookup_delete_eq.
  - by rewrite lookup_insert_eq.
Qed.

Lemma buildRequest_headers id iface req header s url hdr s' :
  buildRequest id iface req header s = (Ret (url, hdr), s') →
  header_get hdr "Token" = "" ∧ header_get hdr "Session" = id.
Proof.
  unfold buildRequest. unfold_M. destruct (backend_url _ _ _ _) as [u| |]; [|done..].
  destruct (url_Parse_error u); [done|]. intros [= <- <- <-]. apply sent_headers.
Qed.

Lemma new_id_run s : ∃ id s0, new_id s = (Ret id, s0) ∧ quiet s s0 ∧ rp_dc s0 = rp_dc s.
Proof.
  unfold new_id. destruct (String_ (rp_uuid s)) as [id g]. eexists _, _. split; [done|].
  split; [|done]. split; [done|]. exists []. by rewrite app_nil_r.
Qed.

Lemma ServeHTTP_cases req s :
  ∃ id s0, new_id s = (Ret id, s0) ∧ rp_dc s0 = rp_dc s ∧ quiet s s0 ∧
  (quiet s (ServeHTTP req s).2 ∨
   ∃ body app iface header url hdr s1 s2 s3 s4 evs,
    r_body req = Ret body ∧
    GetInterface req s0 = (Ret (app, iface), s1) ∧
    Validate req iface s1 = (Ret header, s2) ∧
    buildRequest id iface req header s2 = (Ret (url, hdr), s3) ∧
    quiet s s3 ∧ ServeHTTP req s = (Ret tt, s4) ∧
    trace_of s4 = (trace_of s3 ++ EvBackend (r_method req) url hdr :: evs)%list ∧
    Forall (λ e, ∃ r, e = EvReply r) evs ∧ evs ≠ [] ∧
    rp_stats s4 =
      match (do_request (r_method req) url hdr body).2 with
      | inl e => failed id (A_ID app) (I_ID iface) (Error e) (clock_seconds s3) (rp_stats s)
      | inr (_, code) =>
          if decide (code = StatusOK)
          then success (A_ID app) (I_ID iface) (do_request (r_method req) url hdr body).1 (rp_stats s)
          else failed id (A_ID app) (I_ID iface) ("invalid http status:" +:+ itoa code)
                 (clock_seconds s3) (rp_stats s)
      end).
Proof.
  destruct (new_id_run s) as (id & s0 & En & Q0 & Hd). exists id, s0. split_and!; [done..|].
  unfold ServeHTTP, mbind, M_bind. rewrite En. unfold recover.
  destruct (serve_cases id req s0) as [Q|(body & app & iface & header & url & hdr & s1 & s2 & s3 &
    Hb & E1 & E2 & E3 & Q3 & Es)].
  - left. etrans; [exact Q0|]. destruct (serve id req s0) as [[[]|e|p] s']; simpl in Q; [done|done|].
    etrans; [exact Q|apply respects_respond].
  - right. destruct (forward_run id app iface (r_method req) url hdr body s3) as
      (o & evs & s4 & Ef & -> & Ht & HF & Hne & Hst).
    rewrite Es, Ef. exists body, app, iface, header, url, hdr, s1, s2, s3, s4, evs.
    assert (Q : quiet s s3) by by etrans.
    split_and!; try done. rewrite Hst. by destruct Q as [-> _].
Qed.

(** C1: a request is forwarded only if it passed every check: it carries a token
    that resolves to an application, its path resolves to an interface whose
    method it has, the application is related to the interface whenever its
    service demands it, and every variable the interface is then found to have
    accepts its value; each lookup starts where the one before it ended. What is sent has
    the request's method, no token, and the request's identifier as session. *)
Theorem ServeHTTP_authorised req s :
  let '(_, s') := ServeHTTP req s in
  ∃ evs, trace_of s' = (trace_of s ++ evs)%list ∧
  ∀ m url hdr, EvBackend m url hdr ∈ evs →
    let token := header_get (r_header req) "Token" in
    ∃ app iface d1 d2 d3 vars form query_form id,
      token ≠ "" ∧ getApp token (rp_dc s) = (Ret app, d1) ∧
      getInterface (r_path req) d1 = (Ret iface, d2) ∧
      m = r_method req ∧ (I_Method iface = RESTful ∨ m = method_String (I_Method iface)) ∧
      relation_checked app iface d2 d3 ∧
      (getVariable (I_ID iface) d3).1 = Ret vars ∧ parseForm req vars = Ret form ∧
      query_form = mkReqData (r_header req) form ∧
      Forall (λ v, acceptable v (value_of (r_query req) query_form v)) vars ∧
      header_get hdr "Token" = "" ∧ header_get hdr "Session" = id ∧ (new_id s).1 = Ret id.
Proof.
  destruct (ServeHTTP_cases req s) as (id & s0 & En & Hd & Q0 & [Q|(body & app & iface & header & url &
    hdr & s1 & s2 & s3 & s4 & evs & Hb & E1 & E2 & E3 & Q3 & -> & Ht & HF & Hne & Hst)]).
  - destruct (ServeHTTP req s) as [o s']. destruct Q as [_ (evs & He & HF)]. exists evs.
    split; [done|]. intros m url hdr Hin. rewrite list.Forall_forall in HF.
    by specialize (HF _ Hin I).
  - destruct Q3 as [_ (pre & Hpre & HFpre)].
    exists (pre ++ EvBackend (r_method req) url hdr :: evs)%list.
    split; [by rewrite Ht, Hpre, <-app_assoc|]. intros m u h Hin.
    assert (Heq : m = r_method req ∧ u = url ∧ h = hdr).
    { apply elem_of_app in Hin as [Hin|Hin].
      - rewrite list.Forall_forall in HFpre. by specialize (HFpre _ Hin I).
      - apply elem_of_cons in Hin as [[= -> -> ->]|Hin]; [done|].
        rewrite list.Forall_forall in HF. by destruct (HF _ Hin) as [? ?]. }
    destruct Heq as (-> & -> & ->).
    destruct (GetInterface_checked _ _ _ _ _ E1) as (Htok & d1 & d2 & Ha & Hi & Hm & Hv).
    rewrite Hd in Ha. destruct (buildRequest_headers _ _ _ _ _ _ _ _ E3) as [Hh1 Hh2].
    unfold Validate in E2. unfold mbind, M_bind in E2. unfold on_dc in E2.
    destruct (getVariable (I_ID iface) (rp_dc s1)) as [[vars| |] d3] eqn:Ev; [|done..].
    unfold lift in E2. destruct (parseForm req vars) as [form| |] eqn:Ef; [|done..].
    destruct (validate_vars (r_query req) vars (mkReqData (r_header req) form)) as [rd| |] eqn:Er; [|done..].
    exists app, iface, d1, d2, (rp_dc s1), vars, form, (mkReqData (r_header req) form), id.
    split_and!; try done.
    + by rewrite Ev.
    + apply validate_vars_accepted. by exists rd.
    + by rewrite En.
Qed.

(** The gateway's books balance: handling a request forwards at most one
    call; if it forwards none the statistics do not change, and if it forwards
    one they record exactly that call, as a success of the application on the
    interface with its cost when the backend answered 200 and as a failure
    otherwise. *)
Theorem ServeHTTP_accounted req s :
  let s' := (ServeHTTP req s).2 in
  ∃ evs, trace_of s' = (trace_of s ++ evs)%list ∧
  ((Forall (λ e, ¬ is_backend e) evs ∧ rp_stats s' = rp_stats s) ∨
   ∃ pre post body app iface url hdr s0 s1,
     evs = (pre ++ EvBackend (r_method req) url hdr :: post)%list ∧
     Forall (λ e, ¬ is_backend e) (pre ++ post) ∧ r_body req = Ret body ∧
     GetInterface req s0 = (Ret (app, iface), s1) ∧
     match do_request (r_method req) url hdr body with
     | (cost, inr (_, code)) =>
         if decide (code = StatusOK)
         then rp_stats s' = success (A_ID app) (I_ID iface) cost (rp_stats s)
         else ∃ now, rp_stats s' = failed (default "" (match new_id s with (Ret i, _) => Some i | _ => None end))
                (A_ID app) (I_ID iface) ("invalid http status:" +:+ itoa code) now (rp_stats s)
     | (_, inl e) =>
         ∃ now, rp_stats s' = failed (default "" (match new_id s with (Ret i, _) => Some i | _ => None end))
                (A_ID app) (I_ID iface) (Error e) now (rp_stats s)
     end).
Proof.
  destruct (ServeHTTP_cases req s) as (id & s0 & En & Hd & Q0 & [Q|(body & app & iface & header & url &
    hdr & s1 & s2 & s3 & s4 & evs & Hb & E1 & E2 & E3 & Q3 & -> & Ht & HF & Hne & Hst)]); cbv zeta.
  - destruct Q as [Hs (evs & He & HF)]. exists evs. split; [done|]. by left.
  - destruct Q3 as [_ (pre & Hpre & HFpre)]. cbn [snd].
    exists (pre ++ EvBackend (r_method req) url hdr :: evs)%list.
    split; [by rewrite Ht, Hpre, <-app_assoc|]. right.
    exists pre, evs, body, app, iface, url, hdr, s0, s1. split_and!; try done.
    + apply Forall_app. split; [done|]. eapply list.Forall_impl; [exact HF|].
      intros e [r ->]. simpl. tauto.
    + rewrite En. simpl. destruct (do_request (r_method req) url hdr body) as [cost [e|[rb code]]];
        simpl in Hst; [by eexists|]. destruct (decide (code = StatusOK)); [done|by eexists].
Qed.

Lemma respond_run r s : ∃ s', respond r s = (Ret tt, s') ∧ trace_of s' = (trace_of s ++ [EvReply r])%list.
Proof. eexists. split; reflexivity. Qed.

Lemma answers_respond r : answers (respond r).
Proof. intros s. destruct (respond_run r s) as (s' & -> & Ht). by exists [], r. Qed.

Lemma answers_then (m : M Rep unit) r : (∀ s, ∃ s' pre, m s = (Ret tt, s') ∧ trace_of s' = (trace_of s ++ pre)%list) →
  answers (_ ← m; respond r).
Proof.
  intros Hm s. destruct (Hm s) as (s1 & pre & E & Ht). unfold mbind, M_bind. rewrite E.
  destruct (respond_run r s1) as (s' & -> & Ht'). exists pre, r. by rewrite Ht', Ht, app_assoc.
Qed.

Lemma answers_quiet {A} (m : M Rep A) (h : goerror → M Rep unit) (k : A → M Rep unit) :
  respects quiet m → (∀ e, answers (h e)) → (∀ a, answers (k a)) → answers (try m h k).
Proof.
  intros Hm. apply (answers_try (λ _, True)). intros s. destruct (Hm s) as [_ (pre & Hp & _)].
  exists pre. split; [done|]. by apply Forall_true.
Qed.

(** C28: the handler always returns, whatever panics on the way, and a request
    whose body could be read always gets an answer: the last thing in the trace
    is a reply. *)
Theorem ServeHTTP_answers req body s :
  r_body req = Ret body →
  ∃ s' pre r, ServeHTTP req s = (Ret tt, s') ∧ trace_of s' = (trace_of s ++ pre ++ [EvReply r])%list.
Proof.
  intros Hb. unfold ServeHTTP, mbind at 1, M_bind at 1.
  destruct (new_id_run s) as (id & s0 & -> & [_ (p0 & H0' & _)] & _).
  assert (Ha : answers (serve id req)).
  { unfold serve. rewrite Hb. apply answers_quiet; [apply respects_GetInterface| |].
    - intros e. destruct (decide _); [apply answers_respond|]. apply answers_then.
      intros s1. destruct (respond_run (WriteHeader StatusInternalServerError) s1) as (s2 & E & Ht). eauto.
    - intros ai. apply answers_quiet; [apply respects_Validate|intros; apply answers_respond|].
      intros header. apply answers_quiet; [apply respects_buildRequest|intros; apply answers_respond|].
      intros [url hdr] s1.
      destruct (forward_run id (fst ai) (snd ai) (r_method req) url hdr body s1) as
        (o & evs & s2 & E & -> & Ht & HF & Hne & _). cbn [fst snd]. rewrite E.
      destruct (exists_last Hne) as (evs' & e & ->). apply Forall_app in HF as [_ He].
      apply Forall_cons_iff in He as [[r ->] _].
      exists (EvBackend (r_method req) url hdr :: evs')%list, r. by rewrite Ht. }
  unfold recover. specialize (Ha s0). destruct (serve id req s0) as [[[]|e|p] s1]; [|done|].
  - destruct Ha as (pre & r & Ht). exists s1, (p0 ++ pre)%list, r. split; [done|].
    by rewrite Ht, H0', !app_assoc.
  - destruct Ha as (pre & Ht). destruct (respond_run (SendResponse StatusBadRequest ("[" +:+ p +:+ "]")) s1)
      as (s2 & -> & Ht2). exists s2, (p0 ++ pre)%list. eexists. split; [done|].
    by rewrite Ht2, Ht, H0', !app_assoc.
Qed.
End gateway.

(** ** Rewriting the path *)

(** What [buildRequest] appends to a backend's address. *)
Definition join_rest (backend rest : string) : string :=
  if decide (1 < len rest) then
    if HasSuffix backend "/" then backend +:+ drop_bytes 1 rest else backend +:+ rest
  else backend.

Lemma slice_from_one c r : slice_from (String c r) 1 = Ret r.
Proof. apply (slice_from_app (String c "") r). Qed.

Lemma rest_path_at backend a p b :
  Index (a +:+ (p +:+ b)) p = len a →
  rest_path backend (a +:+ (p +:+ b)) p = Ret (if decide (a = "") then backend else join_rest backend b).
Proof.
  intros Hi. unfold rest_path, join_rest. rewrite Hi. destruct (decide (a = "")) as [->|Ha].
  - by rewrite decide_False by (unfold len; simpl; lia).
  - rewrite decide_True by (destruct a; [done|unfold len; simpl; lia]).
    rewrite str_app_assoc, <-len_app, slice_from_app. cbn [mbind outcome_bind].
    destruct (decide (1 < len b)) as [Hb|Hb]; [|done].
    destruct (HasSuffix backend "/"); [|done].
    destruct b as [|c b]; [unfold len in Hb; simpl in Hb; lia|].
    rewrite slice_from_one. cbn [mbind outcome_bind]. by destruct b.
Qed.

(** Rewriting a request path never slices out of range. When the interface's
    path first occurs in the request path at a position other than its start,
    what follows it is appended to the backend's address without doubling the
    slash; otherwise the address is used as it is. *)
Theorem rest_path_spec backend u p :
  (∃ r, rest_path backend u p = Ret r) ∧
  (∀ a b, u = a +:+ (p +:+ b) → Index u p = len a →
     rest_path backend u p = Ret (if decide (a = "") then backend else join_rest backend b)).
Proof.
  split.
  - destruct (index_from_spec 0 u p) as [Hi|(a & b & -> & Hi)].
    + exists backend. unfold rest_path, Index. by rewrite Hi.
    + eexists. apply rest_path_at. unfold Index. rewrite Hi. lia.
  - intros a b -> Hi. by apply rest_path_at.
Qed.

(** ** Concrete runs *)

Module GatewayRuns.
#[local] Existing Instance Scripted.engine.
#[local] Existing Instance XorCipher.cipher.
#[local] Instance env : RepeaterEnv := {
  cache_timeout := 60; format_minute := itoa; show_statement sql _ := sql
}.
#[local] Instance net : Network := {
  url_Parse_error _ := None;
  do_request _ _ _ _ := (12, inr ("pong", 200));
  repeater_GitTime := "0"
}.

Definition token5 : string :=
  match AesEncrypt [10; 0; 0; 0; 0; 0; 0; 0] AesKey with Ret t => t | _ => "" end.

Definition req : Request :=
  mkRequest "GET" "/svc/ping/1" ∅ {[ "Token" := [token5] ]} (Ret ∅) (Ret "").

(** The rows of the application, the service, the interface, the relation and
    the variables, in the order they are asked for. *)
Definition start : Rep :=
  mkRep (mkDC (Scripted.world
    [inr [[VStr "shop"; VStr "a@b.c"]];
     inr [[VInt 3; VBool true; VInt 0]];
     inr [[VInt 8; VInt 0; VStr "http://backend/"; VStr "x@y.z"]];
     inr [[VInt 1]];
     inr []] []) true [] 1000)
  newStatsCache ∅ (uuid_init None 1) 0.

(** The request is forwarded, and the reply passed on. *)
Example gateway_forwards :
  let '(o, s) := ServeHTTP req start in
  o = Ret tt ∧
  List.filter (λ e, match e with EvQuery _ _ => false | _ => true end) (trace_of s) =
    [EvBackend "GET" "http://backend/1"
       (header_set (header_del (header_set {[ "Token" := [token5] ]} "User-Agent" "APIGate 0") "Token")
          "Session" "10000000001");
     EvReply (WriteHeader 200); EvReply (WriteText "pong")].
Proof. vm_compute. split; reflexivity. Qed.

Theorem required_json_rejected_witness :
  validate_vars ∅ [mkVariable JSON "id" "string" true] (mkReqData ∅ ∅) ≠ Ret (mkReqData ∅ ∅).
Proof.
  apply (required_json_rejected ∅ _ _ (mkVariable JSON "id" "string" true));
    [by left|reflexivity|reflexivity].
Defined.

Theorem ServeHTTP_answers_witness :
  ∃ s' pre r, ServeHTTP req start = (Ret tt, s') ∧
    trace_of s' = (trace_of start ++ pre ++ [EvReply r])%list.
Proof. apply (ServeHTTP_answers req "" start). reflexivity. Defined.
End GatewayRuns.
