(* ===== verification/Gateway.v ===== *)
(** * Gateway: the running repeater

    Requests ([Repeater]) count their calls while the timer of
    [repeater/stats.go] empties the statistics and sends what it took, one entry
    after the other, to the database ([repeater/cache.go]). The timer is a state
    machine here, so that requests are served between any two entries: what was
    taken but not yet sent is neither in the statistics nor in the database. *)

From Stdlib Require Import ZArith Lia.
From stdpp Require Import base gmap strings list.
From S2P Require Import Prelude GoStrings Crypto Http SqlDB Registry Stats DbCache DbCacheTheory Uuid.
From S2P Require Import Repeater RepeaterTheory.

(** ** The goroutine of [run] *)

(** Waiting for the ticker, sending entries, sending failures, or ended with the
    process by a panic, which nothing recovers there. *)
Inductive timer : Type :=
| TIdle
| TStats (es : list entry)
| TErrors (es : list errorEntry)
| TDead (es : list entry).

(** The process, and which entries were accepted by the database or given up
    with a line in the log. *)
Record gateway `{SqlEngine} := mkGateway {
  g_rep : Rep;
  g_timer : timer;
  g_sent : list entry;
  g_dropped : list entry;
  g_errors_sent : list errorEntry
}.
Arguments mkGateway {_} _ _ _ _ _.

Section gateway.
Context `{SqlEngine} `{BlockCipher} `{RepeaterEnv} `{Network}.

Definition with_stats (st : statsCache) (s : Rep) : Rep :=
  mkRep (rp_dc s) st (rp_apps s) (rp_uuid s) (rp_nano s).

Definition send_entry (e : entry) : M Rep unit :=
  on_dc (insertStats (e_Iface e) (e_App e) (e_Count e) (e_Time e)).

Definition send_error (e : errorEntry) : M Rep unit :=
  on_dc (insertErrorStats (ee_Session e) (ee_Iface e) (ee_App e) (ee_Info e) (ee_Time e)).

(** The next thing [run] does: taking the entries or the failures, or sending one. *)
Definition timer_step (g : gateway) : gateway :=
  let '(mkGateway s t sent dropped errs) := g in
  match t with
  | TIdle => let '(es, st) := entrys (rp_stats s) in mkGateway (with_stats st s) (TStats es) sent dropped errs
  | TStats [] =>
      let '(es, st) := errorEntrys (rp_stats s) in mkGateway (with_stats st s) (TErrors es) sent dropped errs
  | TStats (e :: r) =>
      match send_entry e s with
      | (Ret _, s') => mkGateway s' (TStats r) (sent ++ [e]) dropped errs
      | (Throw _, s') => mkGateway s' (TStats r) sent (dropped ++ [e]) errs
      | (Panic _, s') => mkGateway s' (TDead (e :: r)) sent dropped errs
      end
  | TErrors [] => mkGateway s TIdle sent dropped errs
  | TErrors (e :: r) =>
      match send_error e s with
      | (Ret _, s') => mkGateway s' (TErrors r) sent dropped (errs ++ [e])
      | (Throw _, s') => mkGateway s' (TErrors r) sent dropped errs
      | (Panic _, s') => mkGateway s' (TDead []) sent dropped errs
      end
  | TDead _ => g
  end.

Definition ended (t : timer) : bool := match t with TDead _ => true | _ => false end.

(** What happens next in the process. *)
Inductive action : Type :=
| ARequest (req : Request)
| ATimer.

Definition gateway_do (g : gateway) (a : action) : gateway :=
  match a with
  | ATimer => timer_step g
  | ARequest req =>
      if ended (g_timer g) then g
      else mkGateway (ServeHTTP req (g_rep g)).2 (g_timer g) (g_sent g) (g_dropped g) (g_errors_sent g)
  end.

Definition gateway_run (acts : list action) (g : gateway) : gateway := foldl gateway_do g acts.

(** [Init]: no call was counted. *)
Definition gateway_start (s : Rep) : gateway := mkGateway (with_stats newStatsCache s) TIdle [] [] [].

(** ** What requests amount to *)

(** A request forwards no call, one that is answered 200, or one that fails; the
    application and the interface are those [GetInterface] found. *)
Inductive request_call (req : Request) (s : Rep) : option stats_op → Prop :=
| call_none evs :
    trace_of (ServeHTTP req s).2 = (trace_of s ++ evs)%list → Forall (λ e, ¬ is_backend e) evs →
    request_call req s None
| call_success pre post url hdr body app iface s1 cost rb :
    trace_of (ServeHTTP req s).2 = (trace_of s ++ pre ++ EvBackend (r_method req) url hdr :: post)%list →
    Forall (λ e, ¬ is_backend e) (pre ++ post) → r_body req = Ret body →
    GetInterface req (new_id s).2 = (Ret (app, iface), s1) →
    do_request (r_method req) url hdr body = (cost, inr (rb, StatusOK)) →
    request_call req s (Some (OpSuccess (A_ID app) (I_ID iface) cost))
| call_failed pre post url hdr body app iface s1 id info now :
    trace_of (ServeHTTP req s).2 = (trace_of s ++ pre ++ EvBackend (r_method req) url hdr :: post)%list →
    Forall (λ e, ¬ is_backend e) (pre ++ post) → r_body req = Ret body →
    GetInterface req (new_id s).2 = (Ret (app, iface), s1) →
    match (do_request (r_method req) url hdr body).2 with inr (_, code) => code ≠ StatusOK | inl _ => True end →
    request_call req s (Some (OpFailed id (A_ID app) (I_ID iface) info now)).

(** The calls of a run: one line for each request that forwarded one. *)
Inductive logged : gateway → list action → list stats_op → Prop :=
| logged_nil g : logged g [] []
| logged_timer g acts log : logged (gateway_do g ATimer) acts log → logged g (ATimer :: acts) log
| logged_ended g req acts log :
    ended (g_timer g) = true → logged g acts log → logged g (ARequest req :: acts) log
| logged_request g req acts o log :
    ended (g_timer g) = false → request_call req (g_rep g) o →
    logged (gateway_do g (ARequest req)) acts log →
    logged g (ARequest req :: acts) (option_list o ++ log).

(** What was taken from the statistics and not sent. *)
Definition waiting (t : timer) : list entry :=
  match t with TStats es | TDead es => es | TIdle | TErrors _ => [] end.

(** ** Requests *)

Definition do_op (o : option stats_op) (st : statsCache) : statsCache :=
  match o with
  | Some (OpSuccess a i tm) => success a i tm st
  | Some (OpFailed id a i l now) => failed id a i l now st
  | _ => st
  end.

Lemma request_called req s :
  ∃ o, request_call req s o ∧ rp_stats (ServeHTTP req s).2 = do_op o (rp_stats s) ∧
       match o with Some OpDrain | Some OpDrainErrors => False | _ => True end.
Proof.
  destruct (ServeHTTP_cases req s) as (id & s0 & En & Hd & Q0 & [Q|(body & app & iface & header & url &
    hdr & s1 & s2 & s3 & s4 & evs & Hb & E1 & E2 & E3 & Q3 & Es & Ht & HF & Hne & Hst)]).
  - destruct Q as [Hs (evs & He & HF)]. exists None. split; [|done]. by eapply call_none.
  - destruct Q3 as [_ (pre & Hpre & HFpre)]. rewrite Es. cbn [snd].
    assert (Htr : trace_of (ServeHTTP req s).2 = (trace_of s ++ pre ++ EvBackend (r_method req) url hdr :: evs)%list).
    { rewrite Es. cbn [snd]. by rewrite Ht, Hpre, <-app_assoc. }
    assert (HFa : Forall (λ e, ¬ is_backend e) (pre ++ evs)).
    { apply Forall_app. split; [done|]. eapply list.Forall_impl; [exact HF|]. intros e [r ->]. simpl. tauto. }
    assert (Eg : GetInterface req (new_id s).2 = (Ret (app, iface), s1)) by (by rewrite En).
    rewrite Hst. destruct (do_request (r_method req) url hdr body) as [cost [e|[rb code]]] eqn:Ed; cbn [fst snd].
    + eexists (Some (OpFailed _ _ _ _ _)). split; [|done]. eapply call_failed; try done. by rewrite Ed.
    + destruct (decide (code = StatusOK)) as [->|Hc].
      * eexists (Some (OpSuccess _ _ _)). split; [|done]. by eapply call_success.
      * eexists (Some (OpFailed _ _ _ _ _)). split; [|done]. eapply call_failed; try done. by rewrite Ed.
Qed.

(** ** What reaches the database *)

#[local] Hint Resolve sql_conectDB sql_connected sql_exec sql_statement_of : trace.

Lemma sql_exec_loop n s arg err : extends is_sql (exec_loop n s arg err).
Proof.
  revert err. induction n as [|n IH]; intros err; cbn [exec_loop]; eauto with trace.
  apply extends_bind; [apply sql_connected|]. intros [].
  - destruct s; eauto with trace.
  - apply extends_try; eauto with trace.
Qed.

Lemma sql_insertDB s arg : extends is_sql (insertDB s arg).
Proof.
  unfold insertDB, executeDB. apply extends_bind; [|intros [[]|]; eauto with trace].
  apply extends_bind; [apply sql_exec_loop|]. intros [[] []]; eauto with trace.
Qed.

Lemma sql_insertStats iface app count cost : extends is_sql (insertStats iface app count cost).
Proof.
  unfold insertStats. apply extends_bind; [apply sql_statement_of|]. intros s.
  apply extends_bind; [eauto with trace|]. intros st.
  apply extends_bind; [apply sql_insertDB|]. eauto with trace.
Qed.

Lemma sql_insertErrorStats session iface app info tm : extends is_sql (insertErrorStats session iface app info tm).
Proof.
  unfold insertErrorStats. apply extends_bind; [apply sql_statement_of|]. intros s.
  apply extends_bind; [apply sql_insertDB|]. eauto with trace.
Qed.

(** A result of the loop is that of the last statement it executed. *)
Lemma exec_loop_result n s arg err st r st' :
  exec_loop n s arg err st = (Ret (Some r, None), st') →
  ∃ q evs, s = Some q ∧ w_events (dc_world st') = (w_events (dc_world st) ++ evs ++ [EvExec q arg])%list ∧
    placeholders q = length arg.
Proof.
  revert err st. induction n as [|n IH]; intros err st; [done|].
  cbn [exec_loop]. unfold connected, on_world, StmtExec. unfold_M. destruct (dc_conn st).
  - destruct s as [q|]; [|done]. destruct (decide _) as [Hp|Hp]; [|by intros ?%IH].
    unfold Exec. destruct (db_exec q arg (w_db (dc_world st))) as [[e|r'] d].
    + intros (q' & evs & Hq & Hw & Ha)%IH. exists q', (EvExec q arg :: evs). split; [done|].
      simpl in Hw. by rewrite Hw, <-app_assoc.
    + intros [= -> <-]. by exists q, [].
  - destruct (conectDB_run st) as [(w & -> & Hw)|(e & w & -> & Hw)];
      intros (q' & evs & Hq & Hw' & Ha)%IH; exists q', evs; (split; [done|]); simpl in Hw'; by rewrite Hw', Hw.
Qed.

Lemma insertDB_result s arg st id st' :
  insertDB s arg st = (Ret id, st') →
  ∃ q evs, s = Some q ∧ w_events (dc_world st') = (w_events (dc_world st) ++ evs ++ [EvExec q arg])%list ∧
    placeholders q = length arg.
Proof.
  unfold insertDB, executeDB. generalize maxRetry as mr. intros mr. unfold_M. intros Hi.
  destruct (exec_loop mr s arg None st) as [[[r [e|]]|e|p] s1] eqn:E; try discriminate Hi.
  destruct r as [[id' n]|]; [|discriminate Hi]. injection Hi as _ <-. by eapply exec_loop_result.
Qed.

Lemma insertStats_result iface app count cost s s' :
  insertStats iface app count cost s = (Ret tt, s') →
  ∃ minute evs, w_events (dc_world s') = (w_events (dc_world s) ++ evs ++
    [EvExec instStats [VInt iface; VInt app; VInt count; VInt cost; VStr minute; VInt count; VInt cost]])%list.
Proof.
  unfold insertStats, statement_of, connected, mbind, M_bind, mret, M_ret, get_state. intros Hi.
  destruct (insertDB _ _ _) as [[id|e|p] s1] eqn:E; [|done..]. injection Hi as <-.
  apply insertDB_result in E as (q & evs & Hq & Hin & _). destruct (dc_conn s); [|done].
  injection Hq as <-. by eexists _, evs.
Qed.

(** No failure is ever accepted: connected or not, the statement has a placeholder
    too many. *)
Lemma insertErrorStats_no_result session iface app info tm s s' :
  insertErrorStats session iface app info tm s ≠ (Ret tt, s').
Proof.
  unfold insertErrorStats, statement_of, connected, mbind, M_bind, mret, M_ret, get_state. intros Hi.
  destruct (insertDB _ _ _) as [[id|e|p] s1] eqn:E; [|done..].
  apply insertDB_result in E as (q & evs & Hq & _ & Hp). destruct (dc_conn s); [|done].
  by injection Hq as <-.
Qed.

(** ** The books *)

(** The statement that adds an entry to the minute it is sent in. *)
Definition is_sent (e : entry) (ev : event) : Prop :=
  ∃ minute, ev = EvExec instStats [VInt (e_Iface e); VInt (e_App e); VInt (e_Count e); VInt (e_Time e);
                                   VStr minute; VInt (e_Count e); VInt (e_Time e)].

(** Each of the entries has a statement of its own in the trace, in their order. *)
Definition in_database (es : list entry) (tr : list event) : Prop :=
  ∃ evs, evs `sublist_of` tr ∧ Forall2 is_sent es evs.

(** Every call is in one place: in the statistics, waiting to be sent, accepted or
    given up. [ops] is what was done to the statistics. *)
Record books (g : gateway) (ops : list stats_op) : Prop := {
  books_run : ∃ out eout, stats_run ops = (rp_stats (g_rep g), out, eout) ∧
    ∀ a i, counted a i out =
      counted a i (g_sent g) + counted a i (g_dropped g) + counted a i (waiting (g_timer g));
  books_sent : in_database (g_sent g) (trace_of (g_rep g));
  books_errors : g_errors_sent g = []
}.

Lemma send_entry_run e s :
  let '(o, s') := send_entry e s in
  rp_stats s' = rp_stats s ∧ (∃ evs, trace_of s' = (trace_of s ++ evs)%list) ∧
  (o = Ret tt → ∃ evs ev, trace_of s' = (trace_of s ++ evs ++ [ev])%list ∧ is_sent e ev).
Proof.
  unfold send_entry, on_dc.
  pose proof (sql_insertStats (e_Iface e) (e_App e) (e_Count e) (e_Time e) (rp_dc s)) as (evs & He & _).
  pose proof (insertStats_result (e_Iface e) (e_App e) (e_Count e) (e_Time e) (rp_dc s)) as Hr.
  destruct (insertStats _ _ _ _ _) as [o d]. split; [done|]. split; [by exists evs|].
  intros ->. destruct (Hr d eq_refl) as (minute & evs' & Hin). eexists evs', _. split; [exact Hin|]. by exists minute.
Qed.

Lemma send_error_run e s :
  let '(o, s') := send_error e s in
  rp_stats s' = rp_stats s ∧ (∃ evs, trace_of s' = (trace_of s ++ evs)%list) ∧ o ≠ Ret tt.
Proof.
  unfold send_error, on_dc.
  pose proof (sql_insertErrorStats (ee_Session e) (ee_Iface e) (ee_App e) (ee_Info e) (ee_Time e) (rp_dc s))
    as (evs & He & _).
  pose proof (insertErrorStats_no_result (ee_Session e) (ee_Iface e) (ee_App e) (ee_Info e) (ee_Time e) (rp_dc s))
    as Hr.
  destruct (insertErrorStats _ _ _ _ _ _) as [o d]. split; [done|]. split; [by exists evs|].
  intros ->. by apply (Hr d).
Qed.

Lemma in_database_later es tr tr' : in_database es tr → (∃ evs, tr' = (tr ++ evs)%list) → in_database es tr'.
Proof.
  intros (evs & Hsub & HF) [evs' ->]. exists evs. split; [|done]. by apply sublist_inserts_r.
Qed.

Lemma in_database_snoc es tr e evs ev :
  in_database es tr → is_sent e ev → in_database (es ++ [e]) (tr ++ evs ++ [ev]).
Proof.
  intros (evs' & Hsub & HF) Hs. exists (evs' ++ [ev])%list. split; [|by apply Forall2_app; [|constructor]].
  apply sublist_app; [done|]. by apply sublist_inserts_l.
Qed.

(** The timer either takes something out of the statistics or leaves them alone. *)
Lemma timer_books g ops :
  books g ops →
  books (timer_step g) ops ∨ books (timer_step g) (ops ++ [OpDrain]) ∨ books (timer_step g) (ops ++ [OpDrainErrors]).
Proof.
  intros [(out & eout & Hr & Hc) Hs He]. destruct g as [s t sent dropped errs]. simpl in Hr, Hs, Hc, He.
  subst errs.
  destruct t as [|[|e es]|[|e es]|es]; cbn [timer_step].
  - right; left. split; simpl; [|done|done].
    eexists (out ++ (entrys (rp_stats s)).1)%list, eout.
    rewrite stats_run_snoc, Hr. split; [done|]. intros a i. rewrite counted_app, Hc. simpl.
    change (counted a i []) with 0. lia.
  - right; right. split; simpl; [|done|done]. eexists out, (eout ++ ees (rp_stats s))%list.
    rewrite stats_run_snoc, Hr. by split.
  - left. pose proof (send_entry_run e s) as Hsend. destruct (send_entry e s) as [[[]|err|p] s'];
      destruct Hsend as (Hst & Htr & Hin); (split; simpl; [exists out, eout; rewrite Hst; split; [done|]|..|done]);
      try (by eapply in_database_later); try (intros a i; rewrite Hc; simpl; rewrite ?counted_app, ?counted_cons;
                      change (counted a i []) with 0; lia).
    destruct (Hin eq_refl) as (evs & ev & -> & Hev). by apply in_database_snoc.
  - left. split; simpl; [by exists out, eout|done|done].
  - left. pose proof (send_error_run e s) as Hsend. destruct (send_error e s) as [[[]|err|p] s'];
      destruct Hsend as (Hst & Htr & Hno); [done|..];
      (split; simpl; [exists out, eout; rewrite Hst; by split|by eapply in_database_later|done]).
  - left. split; simpl; [by exists out, eout|done|done].
Qed.

Lemma request_books req g ops :
  ended (g_timer g) = false → books g ops →
  ∃ o, request_call req (g_rep g) o ∧ books (gateway_do g (ARequest req)) (ops ++ option_list o).
Proof.
  intros Hend [(out & eout & Hr & Hc) Hs He]. destruct (request_called req (g_rep g)) as (o & Ho & Hst & Hnd).
  exists o. split; [done|]. cbn [gateway_do]. rewrite Hend. split; simpl; [|
    eapply in_database_later; [exact Hs|]; by inversion Ho; subst; eexists|done].
  exists out, eout. split; [|done]. rewrite Hst. destruct o as [o|]; simpl; [|by rewrite app_nil_r].
  rewrite stats_run_snoc, Hr. by destruct o.
Qed.

(** A step keeps the books, and what it logs is what it adds to the calls. *)
Lemma step_books a g ops :
  books g ops →
  ∃ log ops', books (gateway_do g a) ops' ∧ (length ops' ≤ S (length ops))%nat ∧
    (∀ app iface, calls app iface ops' = calls app iface ops + calls app iface log) ∧
    ∀ acts rest, logged (gateway_do g a) acts rest → logged g (a :: acts) (log ++ rest).
Proof.
  intros Hb. destruct a as [req|].
  - destruct (ended (g_timer g)) eqn:Hend.
    + exists [], ops. cbn [gateway_do]. rewrite Hend. split_and!; [done|lia|intros; unfold calls at 3; simpl; lia|].
      intros acts rest Hl. by apply logged_ended.
    + destruct (request_books req g ops Hend Hb) as (o & Ho & Hb'). exists (option_list o), (ops ++ option_list o)%list.
      split_and!; [done| |by intros; apply calls_app|by intros; apply logged_request].
      rewrite length_app. destruct o; simpl; lia.
  - cbn [gateway_do]. exists [].
    destruct (timer_books g ops Hb) as [Hb'|[Hb'|Hb']]; eexists; (split; [exact Hb'|]);
      rewrite ?length_app; (split; [simpl; lia|]); (split; [|intros; by apply logged_timer]);
      intros; rewrite ?calls_app; unfold calls; simpl; lia.
Qed.

Lemma run_books acts g ops :
  books g ops →
  ∃ log ops', logged g acts log ∧ books (gateway_run acts g) ops' ∧
    (length ops' ≤ length ops + length acts)%nat ∧
    ∀ app iface, calls app iface ops' = calls app iface ops + calls app iface log.
Proof.
  revert g ops. induction acts as [|a acts IH]; intros g ops Hb.
  - exists [], ops. split_and!; [constructor|done|lia|intros; unfold calls at 3; simpl; lia].
  - destruct (step_books a g ops Hb) as (log & ops1 & Hb1 & Hlen & Hc & Hl).
    destruct (IH _ _ Hb1) as (rest & ops2 & Hl2 & Hb2 & Hlen2 & Hc2).
    exists (log ++ rest)%list, ops2. split_and!; [by apply Hl|done|simpl; lia|].
    intros app iface. rewrite Hc2, Hc, calls_app. lia.
Qed.

Lemma start_books s : books (gateway_start s) [].
Proof.
  split; simpl; [|by exists []; split; [apply sublist_nil_l|]|done].
  by exists [], [].
Qed.

(** ** The timer alone *)

Lemma gateway_run_app a b g : gateway_run (a ++ b) g = gateway_run b (gateway_run a g).
Proof. apply foldl_app. Qed.

Lemma timer_once g : gateway_run (replicate 1 ATimer) g = timer_step g.
Proof. done. Qed.

Lemma flush_cons {A} (f : A → M DC unit) e es s s' :
  on_dc (flush f (e :: es)) s = (Ret tt, s') →
  ∃ o s1, on_dc (f e) s = (o, s1) ∧ is_panic o = false ∧ on_dc (flush f es) s1 = (Ret tt, s').
Proof.
  unfold on_dc. cbn [flush]. unfold try. intros Hf.
  destruct (f e (rp_dc s)) as [[u|err|p] d]; [| |done]; by eexists _, _.
Qed.

Lemma flush_entries es s s' sent dropped errs :
  on_dc (flush (λ e, insertStats (e_Iface e) (e_App e) (e_Count e) (e_Time e)) es) s = (Ret tt, s') →
  ∃ sent' dropped', gateway_run (replicate (length es) ATimer) (mkGateway s (TStats es) sent dropped errs) =
    mkGateway s' (TStats []) sent' dropped' errs.
Proof.
  revert s sent dropped. induction es as [|e es IH]; intros s sent dropped Hf.
  { exists sent, dropped. unfold on_dc in Hf. simpl in *. destruct s. by injection Hf as <-. }
  apply flush_cons in Hf as (o & s1 & He & Hp & Hf).
  cbn [length replicate gateway_run foldl gateway_do timer_step]. unfold send_entry. rewrite He.
  destruct o; [by eapply IH|by eapply IH|done].
Qed.

Lemma flush_errors es s s' sent dropped errs :
  on_dc (flush (λ e, insertErrorStats (ee_Session e) (ee_Iface e) (ee_App e) (ee_Info e) (ee_Time e)) es) s =
    (Ret tt, s') →
  ∃ errs', gateway_run (replicate (length es) ATimer) (mkGateway s (TErrors es) sent dropped errs) =
    mkGateway s' (TErrors []) sent dropped errs'.
Proof.
  revert s errs. induction es as [|e es IH]; intros s errs Hf.
  { exists errs. unfold on_dc in Hf. simpl in *. destruct s. by injection Hf as <-. }
  apply flush_cons in Hf as (o & s1 & He & Hp & Hf).
  cbn [length replicate gateway_run foldl gateway_do timer_step]. unfold send_error. rewrite He.
  destruct o; [by eapply IH|by eapply IH|done].
Qed.

(** Left alone, the steps of the timer are the tick of [Repeater]. *)
Theorem timer_refines_tick s s' sent dropped errs :
  stats_tick s = (Ret tt, s') →
  ∃ n g, gateway_run (replicate n ATimer) (mkGateway s TIdle sent dropped errs) = g ∧
    g_timer g = TIdle ∧ g_rep g = s'.
Proof.
  unfold stats_tick, mbind, M_bind, get_state, record_stats, modify. intros Ht.
  destruct (entrys (rp_stats s)) as [es st] eqn:Ees.
  destruct (on_dc (flush _ es) _) as [[[]|e|p] s1] eqn:E1; [|done..].
  destruct (errorEntrys (rp_stats s1)) as [ee st'] eqn:Eee.
  destruct (flush_entries es _ s1 sent dropped errs E1) as (sent' & dropped' & R1).
  destruct (flush_errors ee _ s' sent' dropped' errs Ht) as (errs' & R2).
  exists (1 + (length es + (1 + (length ee + 1))))%nat, (mkGateway s' TIdle sent' dropped' errs'). split; [|done].
  rewrite !replicate_add, !gateway_run_app.
  rewrite (timer_once (mkGateway s TIdle sent dropped errs)). cbn [timer_step]. rewrite Ees.
  unfold with_stats at 1. rewrite R1, (timer_once (mkGateway s1 (TStats []) sent' dropped' errs)).
  cbn [timer_step]. rewrite Eee.
  unfold with_stats. by rewrite R2, timer_once.
Qed.

(** ** Properties *)

(** C13: every call is counted in exactly one place: however requests are served
    between the steps of the timer, what the database accepted, what was given
    up after an error, what the timer still holds and what the statistics hold
    add up, for every application and interface, to the calls that were forwarded
    and answered 200. Each accepted entry is a statement of its own, and no
    failure is ever accepted. *)
Theorem calls_accounted s acts :
  Z.of_nat (length acts) ≤ max_int64 →
  let g := gateway_run acts (gateway_start s) in
  ∃ log, logged (gateway_start s) acts log ∧
    (∀ app iface,
       counted app iface (g_sent g) + counted app iface (g_dropped g) +
       counted app iface (waiting (g_timer g)) + pending app iface (rp_stats (g_rep g)) = calls app iface log) ∧
    in_database (g_sent g) (trace_of (g_rep g)) ∧ g_errors_sent g = [].
Proof.
  intros Hlen g. destruct (run_books acts _ _ (start_books s)) as (log & ops & Hl & [Hrun Hs He] & Hn & Hc).
  exists log. split; [done|]. split; [|done]. intros app iface.
  destruct Hrun as (out & eout & Hr & Hout).
  pose proof (stats_invariant ops app iface) as Hinv. rewrite Hr in Hinv. simpl in Hn.
  destruct Hinv as (_ & _ & _ & Hsum); [lia|]. fold g in Hout, Hsum |- *.
  specialize (Hout app iface). specialize (Hc app iface). change (calls app iface []) with 0 in Hc.
  lia.
Qed.
End gateway.

(** ** Concrete runs *)

Module GatewayBooks.
Import GatewayRuns.
#[local] Existing Instance Scripted.engine.
#[local] Existing Instance XorCipher.cipher.
#[local] Existing Instance GatewayRuns.env.
#[local] Existing Instance GatewayRuns.net.

(** The answers of the database for one request, which the cache keeps, and for
    one insert. *)
Definition ready : Rep :=
  mkRep (mkDC (Scripted.world
    [inr [[VStr "shop"; VStr "a@b.c"]];
     inr [[VInt 3; VBool true; VInt 0]];
     inr [[VInt 8; VInt 0; VStr "http://backend/"; VStr "x@y.z"]];
     inr [[VInt 1]];
     inr []] [inr (9, 1)]) true [] 1000)
  newStatsCache ∅ (uuid_init None 1) 0.

(** Two requests are taken together, a third is counted while they are sent. *)
Definition acts : list action := [ARequest req; ARequest req; ATimer; ARequest req; ATimer].

Example third_call_waits :
  let g := gateway_run acts (gateway_start ready) in
  counted 5 8 (g_sent g) = 2 ∧ g_timer g = TStats [] ∧
  pending 5 8 (rp_stats (g_rep g)) = 1.
Proof. vm_compute. by split_and!. Qed.

Theorem calls_accounted_witness :
  ∃ log, logged (gateway_start ready) acts log ∧
    calls 5 8 log = counted 5 8 (g_sent (gateway_run acts (gateway_start ready))) +
                     counted 5 8 (g_dropped (gateway_run acts (gateway_start ready))) +
                     counted 5 8 (waiting (g_timer (gateway_run acts (gateway_start ready)))) +
                     pending 5 8 (rp_stats (g_rep (gateway_run acts (gateway_start ready)))).
Proof.
  destruct (calls_accounted ready acts) as (log & Hl & Hc & _); [unfold max_int64; simpl; lia|].
  exists log. split; [exact Hl|]. symmetry. apply Hc.
Defined.
End GatewayBooks.
