(* ===== verification/Requests.v ===== *)
(** * Requests: requests in the gateway at once

    A request of [repeater/repeater.go] as a program of atomic steps: a step reads
    the clock, holds one lock once (of the cache, the database, the table of
    backends, the statistics), touches the shared buffer of [uuid.go], reads a
    field between two locks, sends the call to the backend, or writes to the
    response. Requests run in any interleaving of their steps over what they
    share, the entries of the query cache as [CacheStore] has them. A request that
    runs alone is [ServeHTTP] of [Repeater]. *)

From Stdlib Require Import ZArith Lia Ascii.
From stdpp Require Import base gmap strings list sorting.
From S2P Require Import Prelude GoStrings Crypto Http Json Fmt NetUrl SqlDB Cache CacheStore Registry DbCache DbCacheTheory.
From S2P Require Import Uuid Stats Repeater Prog.

(** ** Atomic steps *)

(** [AClock] is the time [evict] computes before it locks; [ARead] is [v.val]
    after the lock of [Get] is released; [AStmt] is the statement field that is
    read before [queryDB] locks; [AQuery] and [ARows] are [queryDB] and the call
    of [dbQuery] under the lock of [dbCache]. [AInc], [APut] and [AReadId] are the
    three steps of an identifier; [ABackends] reads the table under its lock, whose
    lists never change in place ([Backends]); [AForward] sends the call and waits
    for its answer. *)
Inductive atom : Type → Type :=
| AClock : atom Z
| AEvict (last : Z) : atom unit
| AFind (key : string) : atom (option nat)
| ARead (p : nat) : atom cval
| AAdd (key : string) (v : cval) : atom unit
| AStmt (sql : string) : atom (option string)
| AQuery (s : option string) (arg : list gval) (res : list kind) : atom (list gval)
| ARows (id : Z) : atom (list (list gval))
| AInc : atom Z
| APut (v : Z) : atom unit
| AReadId : atom Z
| ABackends (name : string) : atom (list MicroAPP)
| ANano : atom Z
| AForward (method url : string) (header : gmap string (list string)) (body : string)
    : atom (Z * (goerror + string * Z))
| ASuccess (app iface cost : Z) : atom unit
| AFailed (id : string) (app iface : Z) (log : string) : atom unit
| AReply (r : reply) : atom unit.

Notation prog := (program atom).

(** What all requests share: outside the query cache the statistics, the table of
    backends, the buffer of identifiers and the nanoseconds of the clock. *)
Record rest := mkRest {
  rs_stats : statsCache;
  rs_apps : gmap string (list MicroAPP);
  rs_uuid : generator;
  rs_nano : Z
}.

Record shared `{SqlEngine} := mkShared {
  sh_world : World;
  sh_conn : bool;
  sh_mem : memory cval;
  sh_now : Z;
  sh_rest : rest
}.
Arguments mkShared {_} _ _ _ _ _.

Section lookups.
Context `{SqlEngine} `{BlockCipher} `{RepeaterEnv} `{Network}.

(** ** The programs *)

Definition p_get (key : string) : prog (option cval) :=
  last ← perform AClock;
  _ ← perform (AEvict last);
  p ← perform (AFind key);
  match p with
  | None => mret None
  | Some p => v ← perform (ARead p); mret (Some v)
  end.

Definition p_getInterface (key : string) : prog Interface :=
  v ← p_get key;
  match v with
  | Some (CIface i) => mret i
  | Some _ => Done (Panic bad_assertion)
  | None =>
      let ps := Split "/" key in
      if decide (length ps < 3)%nat then Done (Throw errInvalidPath) else
      s ← perform (AStmt selService);
      vs ← perform (AQuery s [VStr (List.nth 1 ps "")] [KInt64; KBool; KInt]);
      let p := mkService (nth_int vs 0)
                 (match vs !! 1%nat with Some (VBool b) => b | _ => false end) (nth_int vs 2) in
      path ← Done (interface_path (S_Version p) key ps);
      s ← perform (AStmt selIface);
      vs ← perform (AQuery s [VInt (S_ID p); VStr path] [KInt64; KInt; KString; KString]);
      let i := mkInterface (nth_int vs 0) (nth_int vs 1) (nth_str vs 2) (nth_str vs 3) path p in
      _ ← perform (AAdd key (CIface i));
      mret i
  end.

Definition p_validateRelation (appID ifaceID : Z) : prog unit :=
  let key := relation_key appID ifaceID in
  v ← p_get key;
  match v with
  | Some _ => mret tt
  | None =>
      s ← perform (AStmt selRelation);
      vs ← perform (AQuery s [VInt appID; VInt ifaceID] [KInt64]);
      perform (AAdd key (CRelation (nth_int vs 0)))
  end.

Definition p_getApplication (id : Z) (token : string) : prog Application :=
  let key := application_key id in
  v ← p_get key;
  match v with
  | Some (CApp a) => mret a
  | Some _ => Done (Panic bad_assertion)
  | None =>
      s ← perform (AStmt selApp);
      vs ← perform (AQuery s [VInt id; VStr token] [KString; KString]);
      let a := mkApplication id (nth_str vs 0) (nth_str vs 1) in
      _ ← perform (AAdd key (CApp a));
      mret a
  end.

(** The application a token is for, before anything is looked up. *)
Definition token_application (token : string) : outcome Z :=
  match AesDecrypt token AesKey with
  | Ret buf => let '(id, n) := Varint buf in if decide (n < 1) then Throw (Errorf ("invalid token " +:+ token)) else Ret id
  | Throw e => Throw (Annotatef errInvalidToken (format_message (Error e)))
  | Panic p => Panic p
  end.

Definition p_getApp (token : string) : prog Application :=
  id ← Done (token_application token);
  p_getApplication id token.

Definition p_getVariable (id : Z) : prog (list Variable_) :=
  let key := variable_key id in
  v ← p_get key;
  match v with
  | Some (CVars vs) => mret vs
  | Some _ => Done (Panic bad_assertion)
  | None =>
      rows ← perform (ARows id);
      vs ← Done (scan_variables rows);
      _ ← perform (AAdd key (CVars vs));
      mret vs
  end.

Definition p_GetInterface (req : Request) : prog (Application * Interface) :=
  let token := header_get (r_header req) "Token" in
  if decide (token = "") then Done (Throw (Errorf "need Token in Header")) else
  app ← p_getApp token;
  iface ← p_getInterface (r_path req);
  if decide (I_Method iface ≠ RESTful ∧ r_method req ≠ method_String (I_Method iface)) then
    Done (Throw (Errorf ("invalid method:" +:+ r_method req +:+ ", need:" +:+ method_String (I_Method iface))))
  else if S_Validate (I_Service iface) then
    prog_try (p_validateRelation (A_ID app) (I_ID iface))
      (λ e, if decide (Cause e = errNotFound) then Done (Throw errForbidden) else Done (Throw e))
      (λ _, mret (app, iface))
  else mret (app, iface).

Definition p_Validate (req : Request) (iface : Interface) : prog (gmap string (list string)) :=
  vars ← p_getVariable (I_ID iface);
  form ← Done (parseForm req vars);
  d ← Done (validate_vars (r_query req) vars (mkReqData (r_header req) form));
  mret (rd_header d).

(** [uuid.String()]. *)
Definition p_new_id : prog string :=
  v ← perform AInc;
  _ ← perform (APut v);
  u ← perform AReadId;
  mret (hex u).

Definition p_backend (req : Request) (iface : Interface) : prog string :=
  if decide (S_Version (I_Service iface) = 1) then
    as_ ← perform (ABackends (I_Backend iface));
    nano ← perform ANano;
    a ← Done (pick_backend nano as_);
    mret ("http://" +:+ Host a +:+ ":" +:+ itoa (Port a) +:+ I_Path iface)
  else Done (rest_path (I_Backend iface) (r_path req) (I_Path iface)).

Definition p_buildRequest (id : string) (iface : Interface) (req : Request)
    (header : gmap string (list string)) : prog (string * gmap string (list string)) :=
  backend ← p_backend req iface;
  let args := Encode (r_query req) in
  let url := if decide (args = "") then backend else backend +:+ "?" +:+ args in
  match url_Parse_error url with
  | Some e => Done (Throw e)
  | None =>
      let h1 := header_set header "User-Agent" ("APIGate " +:+ repeater_GitTime) in
      mret (url, header_set (header_del h1 "Token") "Session" id)
  end.

(** The statistics of a call, and the answer passed on. *)
Definition p_finish (id : string) (app : Application) (iface : Interface)
    (r : Z * (goerror + string * Z)) : prog unit :=
  match r with
  | (_, inl e) =>
      _ ← perform (AFailed id (A_ID app) (I_ID iface) (Error e));
      perform (AReply (SendResponse StatusInternalServerError (Error e)))
  | (cost, inr (rb, code)) =>
      _ ← perform (if decide (code ≠ StatusOK)
                   then AFailed id (A_ID app) (I_ID iface) ("invalid http status:" +:+ itoa code)
                   else ASuccess (A_ID app) (I_ID iface) cost);
      _ ← perform (AReply (WriteHeader code));
      perform (AReply (WriteText rb))
  end.

Definition p_forward (id : string) (req : Request) (body : string) (ai : Application * Interface)
    (uh : string * gmap string (list string)) : prog unit :=
  r ← perform (AForward (r_method req) (fst uh) (snd uh) body);
  p_finish id (fst ai) (snd ai) r.

(** [ServeHTTP] after the identifier is made. *)
Definition p_serve (id : string) (req : Request) : prog unit :=
  match r_body req with
  | Ret body =>
      prog_try (p_GetInterface req)
        (λ e, if decide (Cause e = errForbidden) then perform (AReply (WriteHeader StatusForbidden))
              else (_ ← perform (AReply (WriteHeader StatusInternalServerError)); perform (AReply (WriteText (Error e)))))
        (λ ai, prog_try (p_Validate req (snd ai))
           (λ e, perform (AReply (SendResponse StatusBadRequest (Error e))))
           (λ header, prog_try (p_buildRequest id (snd ai) req header)
              (λ e, perform (AReply (SendResponse StatusInternalServerError (Error e))))
              (p_forward id req body ai)))
  | _ => mret tt
  end.

Definition p_ServeHTTP (req : Request) : prog unit :=
  id ← p_new_id;
  prog_recover (p_serve id req) (λ p, perform (AReply (SendResponse StatusBadRequest ("[" +:+ p +:+ "]")))).

(** ** Running *)

Definition query_rows (id : Z) : M DC (list (list gval)) :=
  p ← dbQuery_loop maxRetry selVar [VInt id] None None;
  match p with
  | (_, Some e) => throw e
  | (None, None) => gopanic nil_deref
  | (Some rows, None) => mret rows
  end.

(** The database layer under its lock; it does not look at the cache. *)
Definition in_db {A} (m : M DC A) (sh : shared) : outcome A * shared :=
  let '(o, d) := m (mkDC (sh_world sh) (sh_conn sh) [] (sh_now sh)) in
  (o, mkShared (dc_world d) (dc_conn d) (sh_mem sh) (sh_now sh) (sh_rest sh)).

Definition with_mem (f : memory cval → memory cval) (sh : shared) : shared :=
  mkShared (sh_world sh) (sh_conn sh) (f (sh_mem sh)) (sh_now sh) (sh_rest sh).

Definition with_rest (f : rest → rest) (sh : shared) : shared :=
  mkShared (sh_world sh) (sh_conn sh) (sh_mem sh) (sh_now sh) (f (sh_rest sh)).

Definition with_stats (f : statsCache → statsCache) : shared → shared :=
  with_rest (λ r, mkRest (f (rs_stats r)) (rs_apps r) (rs_uuid r) (rs_nano r)).

Definition with_uuid (g : generator) : shared → shared :=
  with_rest (λ r, mkRest (rs_stats r) (rs_apps r) g (rs_nano r)).

(** Something that only adds to the history of the world. *)
Definition with_event (ev : event) (sh : shared) : shared :=
  mkShared (snd (emit ev (sh_world sh))) (sh_conn sh) (sh_mem sh) (sh_now sh) (sh_rest sh).

Definition run_atom {A} (a : atom A) : shared → outcome A * shared :=
  match a in atom A return shared → outcome A * shared with
  | AClock => λ sh, (Ret (sh_now sh - cache_timeout), sh)
  | AEvict last => λ sh, (Ret tt, with_mem (mem_evict last) sh)
  | AFind key => λ sh, (Ret (mem_find key (sh_mem sh)), sh)
  | ARead p => λ sh, (match mem_val p (sh_mem sh) with Some v => Ret v | None => Panic nil_deref end, sh)
  | AAdd key v => λ sh, (Ret tt, with_mem (mem_add (sh_now sh) key v) sh)
  | AStmt sql => λ sh, (Ret (if sh_conn sh then Some sql else None), sh)
  | AQuery s arg res => in_db (queryDB s arg res)
  | ARows id => in_db (query_rows id)
  | AInc => λ sh, let '(v, g) := add_inc (rs_uuid (sh_rest sh)) in (Ret v, with_uuid g sh)
  | APut v => λ sh, (Ret tt, with_uuid (put_buf v (rs_uuid (sh_rest sh))) sh)
  | AReadId => λ sh, (Ret (read_buf (rs_uuid (sh_rest sh))), sh)
  | ABackends name => λ sh, (getMicroAPPs (rs_apps (sh_rest sh)) name, sh)
  | ANano => λ sh, (Ret (rs_nano (sh_rest sh)), sh)
  | AForward m url hdr body => λ sh, (Ret (do_request m url hdr body), with_event (EvBackend m url hdr) sh)
  | ASuccess app iface cost => λ sh, (Ret tt, with_stats (success app iface cost) sh)
  | AFailed id app iface log => λ sh, (Ret tt, with_stats (failed id app iface log (sh_now sh)) sh)
  | AReply r => λ sh, (Ret tt, with_event (EvReply r) sh)
  end.

(** A program with nothing in between. *)
Notation run_prog := (run_program (λ B (a : atom B), run_atom a)).

(** ** A request alone *)

(** A computation of the database layer that neither reads nor changes the cache
    and the clock. *)
Definition blind {A} (m : M DC A) : Prop := ∀ w b c n,
  m (mkDC w b c n) = let '(o, d) := m (mkDC w b [] 0) in (o, mkDC (dc_world d) (dc_conn d) c n).

Lemma blind_ret {A} (a : A) : blind (mret a).
Proof. done. Qed.

Lemma blind_throw {A} e : blind (throw (A:=A) e).
Proof. done. Qed.

Lemma blind_gopanic {A} p : blind (gopanic (A:=A) p).
Proof. done. Qed.

Lemma blind_bind {A B} (m : M DC A) (f : A → M DC B) : blind m → (∀ a, blind (f a)) → blind (m ≫= f).
Proof.
  intros Hm Hf w b c n. unfold mbind, M_bind. rewrite (Hm w b c n), (Hm w b [] 0).
  destruct (m (mkDC w b [] 0)) as [[a|e|p] d]; [|done..]. apply Hf.
Qed.

Lemma blind_try {A B} (m : M DC A) (h : goerror → M DC B) (f : A → M DC B) :
  blind m → (∀ e, blind (h e)) → (∀ a, blind (f a)) → blind (try m h f).
Proof.
  intros Hm Hh Hf w b c n. unfold try. rewrite (Hm w b c n), (Hm w b [] 0).
  destruct (m (mkDC w b [] 0)) as [[a|e|p] d]; [apply Hf|apply Hh|done].
Qed.

Lemma blind_on_world {A} (m : M World A) : blind (on_world m).
Proof. intros w b c n. unfold on_world. simpl. by destruct (m w). Qed.

Lemma blind_set_conn b : blind (set_conn b).
Proof. done. Qed.

Lemma blind_connected : blind connected.
Proof. done. Qed.

Create HintDb blind.
#[local] Hint Resolve blind_ret blind_throw blind_gopanic blind_bind blind_try blind_on_world blind_set_conn
  blind_connected : blind.
#[local] Hint Extern 1 (∀ _, blind _) => intros : blind.
#[local] Hint Extern 2 (blind (match ?x with _ => _ end)) => destruct x : blind.
#[local] Hint Extern 2 (blind (if ?x then _ else _)) => destruct x : blind.

Lemma blind_conectDB : blind conectDB.
Proof. unfold conectDB, closeAll. eauto with blind. Qed.
#[local] Hint Resolve blind_conectDB : blind.

Lemma blind_query_loop n s arg rows err : blind (query_loop n s arg rows err).
Proof. revert rows err. induction n as [|n IH]; intros rows err; cbn [query_loop]; eauto 8 with blind. Qed.

Lemma blind_dbQuery_loop n sql arg rows err : blind (dbQuery_loop n sql arg rows err).
Proof. revert rows err. induction n as [|n IH]; intros rows err; cbn [dbQuery_loop]; eauto 8 with blind. Qed.
#[local] Hint Resolve blind_query_loop blind_dbQuery_loop : blind.

Lemma blind_queryDB s arg res : blind (queryDB s arg res).
Proof.
  unfold queryDB. apply blind_bind; [apply blind_query_loop|]. intros [[[|row rows]|] [e|]]; eauto with blind.
Qed.

Lemma blind_query_rows id : blind (query_rows id).
Proof. unfold query_rows. apply blind_bind; [apply blind_dbQuery_loop|]. intros [[rows|] [e|]]; eauto with blind. Qed.

(** The shared state is the state of [DbCache], the entries being the list of
    their contents, next to [k]; or that of the whole repeater. *)
Definition same_dc (k : rest) (sh : shared) (d : DC) : Prop :=
  d = mkDC (sh_world sh) (sh_conn sh) (contents (sh_mem sh)) (sh_now sh) ∧ consistent (sh_mem sh) ∧ sh_rest sh = k.

Definition rest_of (s : Rep) : rest := mkRest (rp_stats s) (rp_apps s) (rp_uuid s) (rp_nano s).

Definition same_rep (sh : shared) (s : Rep) : Prop := same_dc (rest_of s) sh (rp_dc s).

Notation simulates := (Prog.simulates (λ B (a : atom B), run_atom a)).

Ltac at_same_state :=
  let sh := fresh "sh" in let d := fresh "d" in intros sh d (Hd & Hc & Hk); subst d.

Lemma simulates_on_dc {A} (p : prog A) m : (∀ k, simulates (same_dc k) p m) → simulates same_rep p (on_dc m).
Proof. intros Hp sh s Hs. specialize (Hp _ sh _ Hs). unfold on_dc. by destruct (run_prog p sh), (m (rp_dc s)). Qed.

Section queries.
Context (k : rest).

Lemma simulates_db {A} (a : atom A) m : run_atom a = in_db m → blind m → simulates (same_dc k) (perform a) m.
Proof.
  intros Ha Hm. at_same_state. cbn [perform run_program]. rewrite Ha. unfold in_db.
  rewrite (Hm _ _ (contents (sh_mem sh))), (Hm _ _ [] (sh_now sh)). by destruct (m _).
Qed.

Lemma simulates_stmt sql : simulates (same_dc k) (perform (AStmt sql)) (statement_of sql).
Proof. by at_same_state. Qed.

Lemma simulates_add key v : simulates (same_dc k) (perform (AAdd key v)) (cacheAdd key v).
Proof.
  at_same_state. destruct (add_refines (sh_now sh) key v _ Hc) as [Hc' He].
  split; [done|]. split; [|done]. simpl. by rewrite He.
Qed.

Lemma simulates_get key : simulates (same_dc k) (p_get key) (cacheGet key).
Proof.
  at_same_state. pose proof (get_refines cache_timeout (sh_now sh) key _ Hc) as Hg.
  unfold cacheGet. cbn [dc_now dc_cache]. unfold mem_get in Hg. destruct Hg as [Hc' Hg].
  rewrite <-Hg. cbn [p_get mbind program_bind perform and_then run_program run_atom with_mem sh_mem].
  destruct (mem_find key _) as [p|] eqn:E.
  - destruct (vars_ll _ Hc' key p E) as (_ & e & Hp & _). unfold mem_val.
    cbn [run_program run_atom mbind option_bind with_mem sh_mem mem_val]. unfold mem_val. rewrite Hp. by split.
  - by split.
Qed.

Lemma simulates_query s arg res : simulates (same_dc k) (perform (AQuery s arg res)) (queryDB s arg res).
Proof. apply simulates_db; [done|apply blind_queryDB]. Qed.

Lemma simulates_rows n : simulates (same_dc k) (perform (ARows n)) (query_rows n).
Proof. apply simulates_db; [done|apply blind_query_rows]. Qed.

Create HintDb simulates.
#[local] Hint Resolve simulates_ret simulates_throw simulates_panic simulates_done simulates_query simulates_rows
  simulates_stmt simulates_add simulates_get simulates_bind : simulates.
#[local] Hint Extern 1 (∀ _, simulates _ _ _) => intros : simulates.
#[local] Hint Extern 2 (simulates _ (match ?x with _ => _ end) _) => destruct x : simulates.
#[local] Hint Extern 2 (simulates _ (if ?x then _ else _) _) => destruct x : simulates.

Lemma simulates_getInterface key : simulates (same_dc k) (p_getInterface key) (getInterface key).
Proof.
  apply simulates_bind; [apply simulates_get|]. intros [[]|]; [eauto with simulates..|].
  cbv zeta. destruct (decide _); eauto 20 with simulates.
Qed.

Lemma simulates_validateRelation a i : simulates (same_dc k) (p_validateRelation a i) (validateRelation a i).
Proof. apply simulates_bind; [apply simulates_get|]. intros [|]; eauto 20 with simulates. Qed.

Lemma simulates_getApplication n token : simulates (same_dc k) (p_getApplication n token) (getApplication n token).
Proof. apply simulates_bind; [apply simulates_get|]. intros [[]|]; eauto 20 with simulates. Qed.

Lemma simulates_getApp token : simulates (same_dc k) (p_getApp token) (getApp token).
Proof.
  intros sh d Hs. unfold p_getApp, getApp, token_application, try, lift.
  destruct (AesDecrypt token AesKey) as [buf|e|msg]; [|by split..].
  destruct (Varint buf) as [id n]. destruct (decide (n < 1)); [by split|].
  by apply (simulates_getApplication id token sh d).
Qed.

Lemma simulates_getVariable n : simulates (same_dc k) (p_getVariable n) (getVariable n).
Proof.
  apply simulates_bind; [apply simulates_get|]. intros [[]|]; [eauto with simulates..|].
  apply (simulates_ext (same_dc k) _ (rows ← query_rows n; vs ← lift (scan_variables rows);
    _ ← cacheAdd (variable_key n) (CVars vs); mret vs)); [|eauto 20 with simulates].
  intros d. unfold query_rows. generalize maxRetry as mr. intros mr. unfold mbind, M_bind.
  by destruct (dbQuery_loop mr selVar [VInt n] None None d) as [[[[rows|] [e|]]|e|p] d'].
Qed.

End queries.

Lemma simulates_GetInterface req : simulates same_rep (p_GetInterface req) (GetInterface req).
Proof.
  unfold p_GetInterface, GetInterface. destruct (decide _); [apply simulates_throw|].
  apply simulates_bind; [apply simulates_on_dc; intros k; apply simulates_getApp|]. intros app.
  apply simulates_bind; [apply simulates_on_dc; intros k; apply simulates_getInterface|]. intros iface.
  destruct (decide _); [apply simulates_throw|]. destruct (S_Validate _); [|apply simulates_ret].
  apply simulates_try; [apply simulates_on_dc; intros k; apply simulates_validateRelation| |intros _; apply simulates_ret].
  intros e. destruct (decide _); apply simulates_throw.
Qed.

Lemma simulates_Validate req iface : simulates same_rep (p_Validate req iface) (Validate req iface).
Proof.
  apply simulates_bind; [apply simulates_on_dc; intros k; apply simulates_getVariable|]. intros vars.
  apply simulates_bind; [apply simulates_done|]. intros form.
  apply simulates_bind; [apply simulates_done|]. intros d. apply simulates_ret.
Qed.

Lemma simulates_new_id : simulates same_rep p_new_id new_id.
Proof.
  intros sh s (Hd & Hc & Hk). unfold p_new_id, new_id, String_, UINT64.
  cbn [mbind program_bind perform and_then run_program run_atom]. rewrite Hk. cbn [rest_of rs_uuid].
  destruct (add_inc (rp_uuid s)) as [v g]. cbn [and_then run_program run_atom with_uuid with_rest sh_rest rs_uuid].
  split; [done|]. split_and!; [done|done|]. cbn [with_uuid with_rest sh_rest]. by rewrite Hk.
Qed.

Lemma simulates_buildRequest id iface req header :
  simulates same_rep (p_buildRequest id iface req header) (buildRequest id iface req header).
Proof.
  intros sh s Hs. assert (Hk := proj2 (proj2 Hs)).
  assert (Hb : run_prog (p_backend req iface) sh =
    (if decide (S_Version (I_Service iface) = 1) then
       as_ ← getMicroAPPs (rp_apps s) (I_Backend iface); a ← pick_backend (rp_nano s) as_;
       Ret ("http://" +:+ Host a +:+ ":" +:+ itoa (Port a) +:+ I_Path iface)
     else rest_path (I_Backend iface) (r_path req) (I_Path iface), sh)).
  { unfold p_backend. destruct (decide _) as [Hv|]; [|done].
    cbn [mbind program_bind perform and_then run_program run_atom]. rewrite Hk. cbn [rest_of rs_apps].
    destruct (getMicroAPPs (rp_apps s) (I_Backend iface)) as [as_|e|p]; cbn [run_program run_atom and_then]; [|done..].
    rewrite Hk. cbn [rest_of rs_nano mbind outcome_bind]. by destruct (pick_backend (rp_nano s) as_). }
  unfold p_buildRequest, buildRequest, backend_url. unfold mbind at 1, program_bind. rewrite run_and_then, Hb.
  unfold mbind at 3, M_bind, get_state. unfold mbind at 3, M_bind, lift.
  destruct (if decide _ then _ else _) as [backend|e|p]; cbn [mbind outcome_bind run_program]; [|by split..].
  by destruct (url_Parse_error _).
Qed.

Lemma simulates_respond r : simulates same_rep (perform (AReply r)) (respond r).
Proof. intros sh s (Hd & Hc & Hk). unfold respond, on_dc, on_world, reply_with. rewrite Hd. by split_and!. Qed.

Lemma simulates_success app iface cost :
  simulates same_rep (perform (ASuccess app iface cost)) (record_stats (success app iface cost)).
Proof. intros sh s (Hd & Hc & Hk). split; [done|]. split_and!; [done|done|]. simpl. by rewrite Hk. Qed.

Lemma simulates_finish id app iface r : simulates same_rep (p_finish id app iface r) (finish id app iface r).
Proof.
  assert (Hfailed : ∀ log, simulates same_rep (perform (AFailed id (A_ID app) (I_ID iface) log))
      (s ← get_state; record_stats (failed id (A_ID app) (I_ID iface) log (clock_seconds s)))).
  { intros log sh s (Hd & Hc & Hk). split; [done|]. unfold clock_seconds. rewrite Hd. split_and!; [done|done|]. simpl. by rewrite Hk. }
  destruct r as [cost [e|[rb code]]].
  - apply (simulates_ext _ _ (_ ← (s ← get_state; record_stats (failed id (A_ID app) (I_ID iface) (Error e) (clock_seconds s)));
      respond (SendResponse StatusInternalServerError (Error e)))); [done|].
    apply simulates_bind; [apply Hfailed|]. intros _. apply simulates_respond.
  - apply (simulates_ext _ _ (_ ← (if decide (code ≠ StatusOK) then
        s ← get_state; record_stats (failed id (A_ID app) (I_ID iface) ("invalid http status:" +:+ itoa code) (clock_seconds s))
        else record_stats (success (A_ID app) (I_ID iface) cost));
      _ ← respond (WriteHeader code); respond (WriteText rb))).
    { intros d. unfold finish. by destruct (decide _). }
    apply simulates_bind; [destruct (decide _); [apply Hfailed|apply simulates_success]|]. intros _.
    apply simulates_bind; [apply simulates_respond|]. intros _. apply simulates_respond.
Qed.

Lemma simulates_forward id req body ai uh :
  simulates same_rep (p_forward id req body ai uh)
    (r ← DoRequest (r_method req) (fst uh) (snd uh) body; finish id (fst ai) (snd ai) r).
Proof.
  apply simulates_bind; [|intros r; apply simulates_finish].
  intros sh s (Hd & Hc & Hk). unfold DoRequest, on_dc, on_world. unfold mbind, M_bind. rewrite Hd. by split_and!.
Qed.

Lemma simulates_serve id req : simulates same_rep (p_serve id req) (serve id req).
Proof.
  unfold p_serve, serve. destruct (r_body req) as [body|e|p]; [|apply simulates_ret..].
  apply simulates_try; [apply simulates_GetInterface| |intros ai].
  { intros e. destruct (decide _); [apply simulates_respond|]. apply simulates_bind; [|intros _]; apply simulates_respond. }
  apply simulates_try; [apply simulates_Validate|intros e; apply simulates_respond|intros header].
  apply simulates_try; [apply simulates_buildRequest|intros e; apply simulates_respond|intros uh].
  apply simulates_forward.
Qed.

(** C4: A request alone: its steps are [ServeHTTP], from any state and with the same
    state after it. *)
Theorem alone_is_ServeHTTP req : simulates same_rep (p_ServeHTTP req) (ServeHTTP req).
Proof.
  apply simulates_bind; [apply simulates_new_id|]. intros id.
  apply simulates_recover; [apply simulates_serve|]. intros p. apply simulates_respond.
Qed.
End lookups.
