(* ===== verification/RequestsTheory.v ===== *)
(** * RequestsTheory: what concurrent requests are forwarded by

    Any number of requests run the programs of [Requests], one step of one of them
    after the other, while time passes, backends come and go, the timer empties the
    statistics and others use the database. What a lookup finds was answered by the
    database to a request that stored it as its next step and no longer than the
    timeout ago, and so is what [GetInterface] returns. *)

From Stdlib Require Import ZArith Lia Ascii.
From stdpp Require Import base gmap strings list sorting.
From S2P Require Import Prelude GoStrings Crypto Http Json Fmt SqlDB Cache CacheStore Registry DbCache DbCacheTheory.
From S2P Require Import NetUrl Uuid Stats Repeater RepeaterTheory Prog Requests.

(** ** The process *)

(** What happened: the step of a request with its time and what it came to. *)
Inductive label : Type :=
| LClock (i : nat) (t : Z) (o : outcome Z)
| LEvict (i : nat) (t last : Z)
| LFind (i : nat) (t : Z) (key : string) (o : outcome (option nat))
| LRead (i : nat) (t : Z) (p : nat) (o : outcome cval)
| LAdd (i : nat) (t : Z) (key : string) (v : cval)
| LStmt (i : nat) (t : Z) (sql : string) (o : outcome (option string))
| LQuery (i : nat) (t : Z) (s : option string) (arg : list gval) (res : list kind) (o : outcome (list gval))
| LRows (i : nat) (t id : Z) (o : outcome (list (list gval)))
| LInc (i : nat) (t : Z) (o : outcome Z)
| LPut (i : nat) (t v : Z)
| LReadId (i : nat) (t : Z) (o : outcome Z)
| LBackends (i : nat) (t : Z) (name : string) (o : outcome (list MicroAPP))
| LNano (i : nat) (t : Z) (o : outcome Z)
| LForward (i : nat) (t : Z) (method url : string) (header : gmap string (list string)) (body : string)
    (o : outcome (Z * (goerror + string * Z)))
| LSuccess (i : nat) (t app iface cost : Z)
| LFailed (i : nat) (t : Z) (id : string) (app iface : Z) (log : string)
| LReply (i : nat) (t : Z) (r : reply)
| LSpawn (req : Request)
| LTick (d nano : Z)
| LEvent (e : etcd_event)
| LDrain (es : list entry)
| LDrainErrors (es : list errorEntry)
| LOther.

Definition label_of {A} (i : nat) (t : Z) (a : atom A) : outcome A → label :=
  match a in atom A return outcome A → label with
  | AClock => LClock i t
  | AEvict last => λ _, LEvict i t last
  | AFind key => LFind i t key
  | ARead p => LRead i t p
  | AAdd key v => λ _, LAdd i t key v
  | AStmt sql => LStmt i t sql
  | AQuery s arg res => LQuery i t s arg res
  | ARows id => LRows i t id
  | AInc => LInc i t
  | APut v => λ _, LPut i t v
  | AReadId => LReadId i t
  | ABackends name => LBackends i t name
  | ANano => LNano i t
  | AForward m url hdr body => LForward i t m url hdr body
  | ASuccess app iface cost => λ _, LSuccess i t app iface cost
  | AFailed id app iface log => λ _, LFailed i t id app iface log
  | AReply r => λ _, LReply i t r
  end.

(** The request that takes a step. *)
Definition actor (l : label) : option nat :=
  match l with
  | LClock i _ _ | LEvict i _ _ | LFind i _ _ _ | LRead i _ _ _ | LAdd i _ _ _ | LStmt i _ _ _ | LQuery i _ _ _ _ _
  | LRows i _ _ _ | LInc i _ _ | LPut i _ _ | LReadId i _ _ | LBackends i _ _ _ | LNano i _ _ | LForward i _ _ _ _ _ _
  | LSuccess i _ _ _ _ | LFailed i _ _ _ _ _ | LReply i _ _ => Some i
  | LSpawn _ | LTick _ _ | LEvent _ | LDrain _ | LDrainErrors _ | LOther => None
  end.

Lemma actor_of {A} i t (a : atom A) o : actor (label_of i t a o) = Some i.
Proof. by destruct a. Qed.

(** Nothing of it is a step of request [i]. *)
Definition without (i : nat) (tr : list label) : Prop := Forall (λ l, actor l ≠ Some i) tr.

Record system `{SqlEngine} := mkSystem { sy_shared : shared; sy_requests : list (Request * prog unit) }.
Arguments mkSystem {_} _ _.

Section theory.
Context `{SqlEngine} `{BlockCipher} `{RepeaterEnv} `{Network}.

Definition at_time (now nano : Z) (sh : shared) : shared :=
  mkShared (sh_world sh) (sh_conn sh) (sh_mem sh) now
    (mkRest (rs_stats (sh_rest sh)) (rs_apps (sh_rest sh)) (rs_uuid (sh_rest sh)) nano).

Definition with_apps (f : gmap string (list MicroAPP) → gmap string (list MicroAPP)) : shared → shared :=
  with_rest (λ r, mkRest (rs_stats r) (f (rs_apps r)) (rs_uuid r) (rs_nano r)).

(** [net/http] hands out paths that begin with a slash (or are [*]), never with a
    control byte. *)
Definition web_path (path : string) : Prop :=
  match path with String c _ => (3 < nat_of_ascii c)%nat | EmptyString => True end.

(** A request begins, time passes, a change of a backend is handled, the timer
    takes the entries or the failures of the statistics, others use the database or
    its connection (the timer, the manager), or a request takes its next step. *)
Inductive system_step : system → label → system → Prop :=
| step_spawn sh rs req :
    web_path (r_path req) →
    system_step (mkSystem sh rs) (LSpawn req) (mkSystem sh (rs ++ [(req, p_ServeHTTP req)]))
| step_tick sh rs d nano :
    0 ≤ d → system_step (mkSystem sh rs) (LTick d nano) (mkSystem (at_time (sh_now sh + d) nano sh) rs)
| step_event sh rs e :
    system_step (mkSystem sh rs) (LEvent e) (mkSystem (with_apps (handle_event e) sh) rs)
| step_drain sh rs es st :
    entrys (rs_stats (sh_rest sh)) = (es, st) →
    system_step (mkSystem sh rs) (LDrain es) (mkSystem (with_stats (λ _, st) sh) rs)
| step_drain_errors sh rs es st :
    errorEntrys (rs_stats (sh_rest sh)) = (es, st) →
    system_step (mkSystem sh rs) (LDrainErrors es) (mkSystem (with_stats (λ _, st) sh) rs)
| step_other sh rs w b :
    system_step (mkSystem sh rs) LOther (mkSystem (mkShared w b (sh_mem sh) (sh_now sh) (sh_rest sh)) rs)
| step_request sh rs i req A (a : atom A) k :
    rs !! i = Some (req, Act a k) →
    system_step (mkSystem sh rs) (label_of i (sh_now sh) a (run_atom a sh).1)
      (mkSystem (run_atom a sh).2 (<[i := (req, k (run_atom a sh).1)]> rs)).

(** From an empty cache and table, with nothing counted. *)
Inductive execution : list label → system → Prop :=
| exec_start w b now g nano :
    execution [] (mkSystem (mkShared w b NewCache now (mkRest newStatsCache ∅ g nano)) [])
| exec_step tr s l s' : execution tr s → system_step s l s' → execution (tr ++ [l]) s'.

(** ** Requests and their answers *)

Inductive lookup_ : Type :=
| LkApp (id : Z) (token : string)
| LkIface (path : string)
| LkRelation (appID ifaceID : Z)
| LkVars (id : Z).

Definition cache_key (c : lookup_) : string :=
  match c with
  | LkApp id _ => application_key id
  | LkIface path => path
  | LkRelation a i => relation_key a i
  | LkVars id => variable_key id
  end.

Definition service_of (vs : list gval) : Service :=
  mkService (nth_int vs 0) (match vs !! 1%nat with Some (VBool b) => b | _ => false end) (nth_int vs 2).

Definition interface_of (vs : list gval) (path : string) (p : Service) : Interface :=
  mkInterface (nth_int vs 0) (nth_int vs 1) (nth_str vs 2) (nth_str vs 3) path p.

(** The step [l] of request [i], after [tr], is the answer of the database that
    makes [v] the result of the lookup. *)
Definition answer (i : nat) (c : lookup_) (v : cval) (tr : list label) (l : label) : Prop :=
  match c with
  | LkApp id token => ∃ t vs,
      l = LQuery i t (Some selApp) [VInt id; VStr token] [KString; KString] (Ret vs) ∧
      v = CApp (mkApplication id (nth_str vs 0) (nth_str vs 1))
  | LkIface key => ∃ t t' vs vs' path,
      LQuery i t (Some selService) [VStr (List.nth 1 (Split "/" key) "")] [KInt64; KBool; KInt] (Ret vs) ∈ tr ∧
      interface_path (S_Version (service_of vs)) key (Split "/" key) = Ret path ∧
      l = LQuery i t' (Some selIface) [VInt (S_ID (service_of vs)); VStr path] [KInt64; KInt; KString; KString]
        (Ret vs') ∧
      v = CIface (interface_of vs' path (service_of vs)) ∧ web_path key
  | LkRelation a b => ∃ t vs,
      l = LQuery i t (Some selRelation) [VInt a; VInt b] [KInt64] (Ret vs) ∧ v = CRelation (nth_int vs 0)
  | LkVars id => ∃ t rows vs,
      l = LRows i t id (Ret rows) ∧ scan_variables rows = Ret vs ∧ v = CVars vs
  end.

(** The database answered it to request [i], which did nothing since. *)
Definition just_answered (i : nat) (tr : list label) (c : lookup_) (v : cval) : Prop :=
  ∃ tr1 l tr2, tr = (tr1 ++ l :: tr2)%list ∧ answer i c v tr1 l ∧ without i tr2.

Definition answered (i : nat) (tr : list label) (c : lookup_) (v : cval) : Prop :=
  ∃ tr1 l tr2, tr = (tr1 ++ l :: tr2)%list ∧ answer i c v tr1 l.

(** What an entry of the cache tells apart: applications but not their tokens,
    and pairs only by their digits in a row. *)
Definition same_entry (c c' : lookup_) : Prop :=
  match c, c' with
  | LkApp id _, LkApp id' _ => id' = id
  | LkIface path, LkIface path' => path' = path
  | LkRelation a b, LkRelation a' b' => itoa a' +:+ itoa b' = itoa a +:+ itoa b
  | LkVars id, LkVars id' => id' = id
  | _, _ => False
  end.

(** Request [i] has [v] from the database, or from some request that had it from
    the database for the same entry and stored it as its next step, less than the
    timeout before a time at which [i] read the clock. *)
Definition recent (i : nat) (tr : list label) (c : lookup_) (v : cval) : Prop :=
  answered i tr c v ∨
  ∃ t τ j c' tr1 tr2,
    same_entry c c' ∧ LClock i t (Ret (t - cache_timeout)) ∈ tr ∧ t - cache_timeout < τ ∧
    tr = (tr1 ++ LAdd j τ (cache_key c) v :: tr2)%list ∧ just_answered j tr1 c' v.

Lemma answered_later i tr l c v : answered i tr c v → answered i (tr ++ l) c v.
Proof. intros (tr1 & x & tr2 & -> & Ha). exists tr1, x, (tr2 ++ l)%list. by rewrite <-app_assoc. Qed.

Lemma just_answered_answered i tr c v : just_answered i tr c v → answered i tr c v.
Proof. intros (tr1 & x & tr2 & -> & Ha & _). by exists tr1, x, tr2. Qed.

Lemma just_answered_still i tr l c v : without i l → just_answered i tr c v → just_answered i (tr ++ l) c v.
Proof.
  intros Hl (tr1 & x & tr2 & -> & Ha & Hw). exists tr1, x, (tr2 ++ l)%list. rewrite <-app_assoc.
  split_and!; [done..|]. by apply Forall_app.
Qed.

Lemma same_key c c' i tr v :
  cache_key c' = cache_key c → just_answered i tr c' v →
  match c with LkIface path => web_path path | _ => True end → same_entry c c'.
Proof.
  intros Hk (tr1 & l & tr2 & _ & Ha & _) Hw.
  assert (Hw' : match c' with LkIface path => web_path path | _ => True end).
  { destruct c'; try done. simpl in Ha. naive_solver. }
  clear Ha. destruct c, c'; simpl in *; subst; try (injection Hk as Hk); try done;
    try (by apply itoa_injective); try (vm_compute in Hw; lia); try (vm_compute in Hw'; lia).
Qed.

Lemma recent_later i tr l c v : recent i tr c v → recent i (tr ++ l) c v.
Proof.
  intros [Ha|(t & τ & j & c' & tr1 & tr2 & Hk & Hc & Ht & -> & Ha)]; [left; by apply answered_later|right].
  exists t, τ, j, c', tr1, (tr2 ++ l)%list. split_and!; [done|apply elem_of_app; by left|done| |done].
  by rewrite <-app_assoc.
Qed.

(** ** The state of the cache and its history *)

Definition moment : Type := list label * shared.

Definition later (m m' : moment) : Prop :=
  (∃ l, fst m' = (fst m ++ l)%list) ∧ grown (sh_mem (snd m)) (sh_mem (snd m')).

(** Only others did something. *)
Definition others (i : nat) (m m' : moment) : Prop :=
  (∃ l, fst m' = (fst m ++ l)%list ∧ without i l) ∧ grown (sh_mem (snd m)) (sh_mem (snd m')).

Lemma others_later i m m' : others i m m' → later m m'.
Proof. intros [(l & Hl & _) Hg]. split; [by exists l|done]. Qed.

#[export] Instance later_preorder : PreOrder later.
Proof.
  split.
  - intros m. split; [exists []; by rewrite app_nil_r|done].
  - intros m1 m2 m3 [[l1 E1] G1] [[l2 E2] G2]. split; [|by etrans].
    exists (l1 ++ l2)%list. by rewrite E2, E1, app_assoc.
Qed.

#[export] Instance others_preorder i : PreOrder (others i).
Proof.
  split.
  - intros m. split; [exists []; split; [by rewrite app_nil_r|constructor]|done].
  - intros m1 m2 m3 [(l1 & E1 & W1) G1] [(l2 & E2 & W2) G2]. split; [|by etrans].
    exists (l1 ++ l2)%list. rewrite E2, E1, app_assoc. split; [done|]. by apply Forall_app.
Qed.

(** The table of backends after what was reported of them. *)
Definition label_event (l : label) : option etcd_event := match l with LEvent e => Some e | _ => None end.

Definition table_of (tr : list label) : gmap string (list MicroAPP) := handle_events (omap label_event tr) ∅.

Lemma table_snoc tr l :
  table_of (tr ++ [l]) = match label_event l with Some e => handle_event e (table_of tr) | None => table_of tr end.
Proof.
  unfold table_of, handle_events. rewrite omap_app, foldl_app. simpl. by destruct (label_event l).
Qed.

(** Some request stored the value of an entry after the database had answered it,
    no earlier than the time of the entry. *)
Definition stored (tr : list label) (e : cacheEntry cval) : Prop := ∃ j τ c tr1 tr2,
  cache_key c = ce_key e ∧ ce_last e ≤ τ ∧
  tr = (tr1 ++ LAdd j τ (ce_key e) (ce_val e) :: tr2)%list ∧ just_answered j tr1 c (ce_val e).

Record sound (m : moment) : Prop := {
  so_consistent : consistent (sh_mem (snd m));
  so_ordered : ordered (sh_now (snd m)) (contents (sh_mem (snd m)));
  so_stored : ∀ p e, mem_entries (sh_mem (snd m)) !! p = Some e → stored (fst m) e ∧ ce_last e ≤ sh_now (snd m);
  so_evicted : ∀ j t last, LEvict j t last ∈ fst m →
    last < sh_now (snd m) ∧ Forall (λ e, last < ce_last e) (contents (sh_mem (snd m)));
  so_clock : ∀ j t o, LClock j t o ∈ fst m → o = Ret (t - cache_timeout) ∧ t ≤ sh_now (snd m);
  so_table : rs_apps (sh_rest (snd m)) = table_of (fst m)
}.

(** What [GetInterface] rests on when it returns. *)
Definition identified (i : nat) (req : Request) (tr : list label) (ai : Application * Interface) : Prop :=
  let '(app, iface) := ai in
  let token := header_get (r_header req) "Token" in
  token_application token = Ret (A_ID app) ∧
  recent i tr (LkApp (A_ID app) token) (CApp app) ∧
  recent i tr (LkIface (r_path req)) (CIface iface) ∧
  (I_Method iface = RESTful ∨ r_method req = method_String (I_Method iface)) ∧
  (S_Validate (I_Service iface) = true → ∃ n, recent i tr (LkRelation (A_ID app) (I_ID iface)) (CRelation n)).

(** What a call that is forwarded rests on: the application, the interface and the
    relation are recent, and so are the variables, all of which accept their
    values; the address is that of the interface or of a backend that was in the
    table; what is sent carries no token and an identifier made for it. *)
Definition authorised_as (i : nat) (req : Request) (tr : list label) (method url : string)
    (header : gmap string (list string)) (body : string) (app : Application) (iface : Interface) : Prop :=
  method = r_method req ∧ r_body req = Ret body ∧
  ∃ vars form t u tr1 tr2 nano,
    identified i req tr (app, iface) ∧
    recent i tr (LkVars (I_ID iface)) (CVars vars) ∧ parseForm req vars = Ret form ∧
    Forall (λ v, acceptable v (value_of (r_query req) (mkReqData (r_header req) form) v)) vars ∧
    tr = (tr1 ++ tr2)%list ∧ backend_url req iface (table_of tr1) nano = Ret url ∧
    header_get header "Token" = "" ∧ header_get header "Session" = hex u ∧ LReadId i t (Ret u) ∈ tr.

Definition authorised (i : nat) (req : Request) (tr : list label) (method url : string)
    (header : gmap string (list string)) (body : string) : Prop :=
  ∃ app iface, authorised_as i req tr method url header body app iface.

(** A call is counted for the application and the interface it was authorised
    and made for, a failure under the identifier it was sent with. *)
Definition counted_for (i : nat) (req : Request) (tr : list label) (app iface : Z) (id : option string) : Prop :=
  ∃ tr1 tr2 t url header body o a f,
    tr = (tr1 ++ LForward i t (r_method req) url header body o :: tr2)%list ∧
    authorised_as i req tr1 (r_method req) url header body a f ∧
    app = A_ID a ∧ iface = I_ID f ∧ default (header_get header "Session") id = header_get header "Session".

(** What a request must know before a step. *)
Definition permitted {A} (i : nat) (rq : Request) (a : atom A) (m : moment) : Prop :=
  match a with
  | AEvict last => ∃ j t, LClock j t (Ret last) ∈ fst m
  | AAdd key v => ∃ c, cache_key c = key ∧ just_answered i (fst m) c v
  | AForward method url header body => authorised i rq (fst m) method url header body
  | ASuccess app iface _ => counted_for i rq (fst m) app iface None
  | AFailed id app iface _ => counted_for i rq (fst m) app iface (Some id)
  | _ => True
  end.

Definition after {A} (i : nat) (a : atom A) (m : moment) : moment :=
  ((fst m ++ [label_of i (sh_now (snd m)) a (run_atom a (snd m)).1])%list, (run_atom a (snd m)).2).

Lemma stored_later tr l e : stored tr e → stored (tr ++ l) e.
Proof.
  intros (j & τ & c & tr1 & tr2 & Hk & Ht & -> & Ha). exists j, τ, c, tr1, (tr2 ++ l)%list.
  split_and!; [done..| |done]. by rewrite <-app_assoc.
Qed.

Definition plain_label (l : label) : Prop :=
  match l with LClock _ _ _ | LEvict _ _ _ => False | _ => True end.

(** A step that leaves the entries alone; time may pass. *)
Lemma sound_quiet tr sh l sh' :
  sound (tr, sh) → sh_mem sh' = sh_mem sh → sh_now sh ≤ sh_now sh' → plain_label l →
  rs_apps (sh_rest sh') = match label_event l with
                          | Some e => handle_event e (rs_apps (sh_rest sh))
                          | None => rs_apps (sh_rest sh)
                          end →
  sound ((tr ++ [l])%list, sh').
Proof.
  intros [Hc Ho Hst Hev Hcl Htb] Hm Hn Hl Happs. simpl in *. split; simpl; rewrite ?Hm.
  - done.
  - by eapply ordered_later.
  - intros p e He. destruct (Hst p e He) as [Hs Hle]. split; [by apply stored_later|lia].
  - intros j t last [Hin|Hin%list_elem_of_singleton]%elem_of_app; [|by subst l].
    destruct (Hev j t last Hin) as [Hlt HF]. split; [lia|done].
  - intros j t o [Hin|Hin%list_elem_of_singleton]%elem_of_app; [|by subst l].
    destruct (Hcl j t o Hin) as [Ht Hle]. split; [done|lia].
  - by rewrite table_snoc, <-Htb.
Qed.

Lemma sound_clock i tr sh :
  sound (tr, sh) → sound ((tr ++ [LClock i (sh_now sh) (Ret (sh_now sh - cache_timeout))])%list, sh).
Proof.
  intros [Hc Ho Hst Hev Hcl Htb]. simpl in *. split; simpl; [done|done| | | |by rewrite table_snoc].
  - intros p e He. destruct (Hst p e He) as [Hs Hle]. split; [by apply stored_later|done].
  - intros j t last [Hin|Hin%list_elem_of_singleton]%elem_of_app; [|done]. by eapply Hev.
  - intros j t o [Hin|[= -> -> ->]%list_elem_of_singleton]%elem_of_app; [by eapply Hcl|]. split; [done|lia].
Qed.

Lemma evict_contents last_ (mem : memory cval) :
  consistent mem → newest_first (contents mem) →
  consistent (mem_evict last_ mem) ∧ contents (mem_evict last_ mem) = filter (λ e : cacheEntry cval, last_ < ce_last e) (contents mem).
Proof.
  intros Hc Hn. destruct (evict_refines last_ mem Hc) as [Hc' ->]. split; [done|].
  pose proof (evict_filter 0 last_ (contents mem) Hn) as Hf. unfold evict in Hf. by rewrite Z.sub_0_r in Hf.
Qed.

Lemma sound_evict i tr sh last_ :
  0 < cache_timeout → sound (tr, sh) → (∃ j t, LClock j t (Ret last_) ∈ tr) →
  sound ((tr ++ [LEvict i (sh_now sh) last_])%list, with_mem (mem_evict last_) sh).
Proof.
  intros Hpos [Hc Ho Hst Hev Hcl Htb] (j0 & t0 & Hclk). simpl in *.
  destruct (Hcl _ _ _ Hclk) as [[= Hlast] Hle].
  destruct (evict_contents last_ _ Hc (proj1 Ho)) as [Hc' Hf].
  split; simpl; [done| | | | |by rewrite table_snoc].
  - rewrite Hf. by apply ordered_filter.
  - intros p e He. rewrite grown_evict in He. destruct (Hst p e He) as [Hs Hp]. split; [by apply stored_later|done].
  - rewrite Hf. intros j t last [Hin|[= -> -> ->]%list_elem_of_singleton]%elem_of_app.
    + destruct (Hev j t last Hin) as [Hlt HF]. split; [done|]. rewrite list.Forall_forall in *.
      intros e [_ He]%list_elem_of_filter. by apply HF.
    + split; [lia|]. rewrite list.Forall_forall. by intros e [He _]%list_elem_of_filter.
  - intros j t o [Hin|Hin%list_elem_of_singleton]%elem_of_app; [by eapply Hcl|done].
Qed.

Lemma sound_add i tr sh key v :
  sound (tr, sh) → (∃ c, cache_key c = key ∧ just_answered i tr c v) →
  sound ((tr ++ [LAdd i (sh_now sh) key v])%list, with_mem (mem_add (sh_now sh) key v) sh).
Proof.
  intros [Hc Ho Hst Hev Hcl Htb] (c & Hk & Ha). simpl in *.
  destruct (add_refines (sh_now sh) key v _ Hc) as [Hc' Hcont].
  split; simpl; [done| | | | |by rewrite table_snoc].
  - rewrite Hcont. by apply ordered_add.
  - intros p e He. destruct (add_entries _ _ _ _ _ _ Hc He) as [Hold|(Hke & Hve & Hl)].
    + destruct (Hst p e Hold) as [Hs Hle]. split; [by apply stored_later|done].
    + assert (Hle : ce_last e ≤ sh_now sh).
      { destruct Hl as [->|(e' & He' & <-)]; [lia|]. by apply (Hst p e'). }
      split; [|done]. exists i, (sh_now sh), c, tr, []. rewrite Hke, Hve. by split_and!.
  - intros j t last [Hin|Hin%list_elem_of_singleton]%elem_of_app; [|done].
    destruct (Hev j t last Hin) as [Hlt HF]. split; [done|]. rewrite Hcont. unfold cache_add.
    destruct (cache_lookup key _); [|by constructor].
    apply (Forall_lasts (λ l, last < l)). rewrite set_lasts. by apply (Forall_lasts (λ l, last < l)).
  - intros j t o [Hin|Hin%list_elem_of_singleton]%elem_of_app; [by eapply Hcl|done].
Qed.

Lemma in_db_frame {A} (m : M DC A) sh :
  sh_mem (in_db m sh).2 = sh_mem sh ∧ sh_now (in_db m sh).2 = sh_now sh ∧ sh_rest (in_db m sh).2 = sh_rest sh.
Proof. unfold in_db. by destruct (m _). Qed.

(** The steps of the cache; every other leaves the entries alone. *)
Definition cache_step {A} (a : atom A) : Prop := match a with AEvict _ | AAdd _ _ => True | _ => False end.

Lemma run_atom_frame {A} (a : atom A) sh :
  (sh_mem (run_atom a sh).2 = sh_mem sh ∨ cache_step a) ∧ sh_now (run_atom a sh).2 = sh_now sh ∧
  rs_apps (sh_rest (run_atom a sh).2) = rs_apps (sh_rest sh).
Proof.
  pose proof (λ A (m : M DC A), in_db_frame m sh) as Hdb.
  destruct a; simpl; try (split; [by right|split; done]); try (split; [by left|split; done]).
  - destruct (Hdb _ (queryDB s arg res)) as (-> & -> & ->). split; [by left|done].
  - destruct (Hdb _ (query_rows id)) as (-> & -> & ->). split; [by left|done].
Qed.

Lemma run_atom_grown {A} (a : atom A) sh : grown (sh_mem sh) (sh_mem (run_atom a sh).2).
Proof.
  destruct (run_atom_frame a sh) as [[->|Hc] _]; [done|]. destruct a; try done; simpl.
  - intros p e He. exists (ce_val e). rewrite grown_evict, He. by destruct e.
  - apply grown_add.
Qed.

Lemma after_later {A} i (a : atom A) m : later m (after i a m).
Proof. split; [by eexists|]. apply run_atom_grown. Qed.

(** A permitted step of any request leads from a sound moment to a sound moment. *)
Lemma after_sound {A} i rq (a : atom A) m :
  0 < cache_timeout → sound m → permitted i rq a m → sound (after i a m).
Proof.
  intros Hpos Hm Hp. destruct m as [tr sh]. destruct (run_atom_frame a sh) as (Hmem & Hnow & Happs).
  assert (Hquiet : ¬ cache_step a → plain_label (label_of i (sh_now sh) a (run_atom a sh).1) →
      label_event (label_of i (sh_now sh) a (run_atom a sh).1) = None → sound (after i a (tr, sh))).
  { intros Hn Hl He. apply (sound_quiet tr sh); [done|by destruct Hmem|simpl; lia|done|cbn [snd]; by rewrite He]. }
  destruct a; try (apply Hquiet; [by intros []|exact I|reflexivity]); [by apply sound_clock|by apply sound_evict|by apply sound_add].
Qed.

(** ** Reasoning about one request among others *)

(** [Q] holds when the program of request [i] is done, whatever comes between its
    steps, and its steps are permitted. *)
Fixpoint wp {A} (i : nat) (rq : Request) (p : prog A) (Q : moment → outcome A → Prop) (m : moment) : Prop :=
  match p with
  | Done o => Q m o
  | Act a k => ∀ m', others i m m' → sound m' →
      permitted i rq a m' ∧ wp i rq (k (run_atom a (snd m')).1) Q (after i a m')
  end.

Definition post {A} (P : moment → A → Prop) (m : moment) (o : outcome A) : Prop :=
  match o with Ret a => P m a | _ => True end.

Definition stable {A} (P : moment → A → Prop) : Prop := ∀ m m' a, later m m' → P m a → P m' a.

Lemma wp_later {A} i rq (p : prog A) Q m m' : stable Q → others i m m' → wp i rq p Q m → wp i rq p Q m'.
Proof.
  intros HQ Hl. destruct p as [o|B a k]; simpl; [by apply HQ, (others_later i)|]. intros Hp m2 Hl2. apply Hp. by etrans.
Qed.

Lemma wp_after {A B} i rq (f : outcome A → prog B) p Q m :
  wp i rq p (λ m o, wp i rq (f o) Q m) m → wp i rq (and_then f p) Q m.
Proof.
  revert m. induction p as [o|C a k IH]; intros m; [done|]. simpl. intros Hp m' Hl Hm.
  destruct (Hp m' Hl Hm) as [Hperm Hk]. split; [done|]. by apply IH.
Qed.

Context (timeout_pos : 0 < cache_timeout).

Lemma wp_mono {A} i rq (p : prog A) (Q R : moment → outcome A → Prop) m :
  sound m → wp i rq p Q m → (∀ m' o, later m m' → sound m' → Q m' o → R m' o) → wp i rq p R m.
Proof.
  revert m. induction p as [o|B a k IH]; intros m Hm Hp HQ; [by apply HQ|]. simpl in *.
  intros m' Hl Hm'. destruct (Hp m' Hl Hm') as [Hperm Hk]. split; [done|].
  apply IH; [by eapply after_sound|done|]. intros m2 o Hl2. apply HQ. etrans; [exact (others_later i _ _ Hl)|].
  etrans; [apply (after_later i a)|done].
Qed.

Lemma wp_bind {A B} i rq (p : prog A) (f : A → prog B) P R m :
  sound m → wp i rq p (post P) m →
  (∀ m' a, later m m' → sound m' → P m' a → wp i rq (f a) (post R) m') → wp i rq (p ≫= f) (post R) m.
Proof.
  intros Hm Hp Hf. apply wp_after. eapply wp_mono; [done|exact Hp|].
  intros m' [a|e|msg] Hl Hm' HP; [by apply Hf|done..].
Qed.

Lemma wp_try {A B} i rq (p : prog A) h (f : A → prog B) P R m :
  sound m → wp i rq p (post P) m →
  (∀ m' e, later m m' → sound m' → wp i rq (h e) (post R) m') →
  (∀ m' a, later m m' → sound m' → P m' a → wp i rq (f a) (post R) m') → wp i rq (prog_try p h f) (post R) m.
Proof.
  intros Hm Hp Hh Hf. apply wp_after. eapply wp_mono; [done|exact Hp|].
  intros m' [a|e|msg] Hl Hm' HP; [by apply Hf|by apply Hh|done].
Qed.

Lemma wp_ret {A} i rq (a : A) (P : moment → A → Prop) m : P m a → wp i rq (mret a) (post P) m.
Proof. done. Qed.

(** A step that needs no permission. *)
Lemma wp_perform {A} i rq (a : atom A) (P : moment → A → Prop) m :
  (∀ m', permitted i rq a m') → (∀ m' x, later m m' → sound m' → (run_atom a (snd m')).1 = Ret x → P (after i a m') x) →
  wp i rq (perform a) (post P) m.
Proof.
  intros Hperm HP m' Hl Hm'. split; [done|]. simpl. unfold post.
  destruct (run_atom a (snd m')).1 eqn:E; [|done..]. apply HP; [exact (others_later i _ _ Hl)|done..].
Qed.

Lemma later_in m m' x : later m m' → x ∈ fst m → x ∈ fst m'.
Proof. intros [[l ->] _] Hx. apply elem_of_app. by left. Qed.

Lemma after_in {A} i (a : atom A) m : label_of i (sh_now (snd m)) a (run_atom a (snd m)).1 ∈ fst (after i a m).
Proof. apply elem_of_app. right. by left. Qed.

(** ** The lookups *)

(** A value that [Get] finds. *)
Definition found (i : nat) (key : string) (m : moment) (v : cval) : Prop := ∃ t τ j c tr1 tr2,
  cache_key c = key ∧ LClock i t (Ret (t - cache_timeout)) ∈ fst m ∧ t - cache_timeout < τ ∧
  fst m = (tr1 ++ LAdd j τ key v :: tr2)%list ∧ just_answered j tr1 c v.

Lemma wp_get i rq key m :
  wp i rq (p_get key) (post (λ m v, match v with Some v => found i key m v | None => True end)) m.
Proof.
  intros m1 _ Hm1. split; [done|]. simpl. set (now1 := sh_now (snd m1)).
  intros m2 Hl2%others_later Hm2.
  assert (Hclk : LClock i now1 (Ret (now1 - cache_timeout)) ∈ fst m2) by (eapply later_in; [exact Hl2|exact (after_in i AClock m1)]).
  split; [by eexists _, _|]. simpl. intros m3 Hl3%others_later Hm3. split; [done|].
  assert (Hevi : LEvict i (sh_now (snd m2)) (now1 - cache_timeout) ∈ fst m3)
    by (eapply later_in; [exact Hl3|]; exact (after_in i (AEvict (now1 - cache_timeout)) m2)).
  assert (Hclk3 : LClock i now1 (Ret (now1 - cache_timeout)) ∈ fst m3).
  { eapply later_in; [exact Hl3|]. by eapply later_in; [apply (after_later i (AEvict (now1 - cache_timeout)))|]. }
  destruct (so_evicted _ Hm3 _ _ _ Hevi) as [_ Hfresh]. simpl.
  destruct (mem_find key (sh_mem (snd m3))) as [p|] eqn:E; [|done]. simpl.
  destruct (find_entry _ _ _ (so_consistent _ Hm3) E) as (e & He & Hk & Hin).
  rewrite list.Forall_forall in Hfresh. specialize (Hfresh e Hin).
  intros m4 Hl4%others_later Hm4. split; [done|]. simpl.
  destruct (proj2 Hl4 p e He) as [v He4]. unfold mem_val. rewrite He4. simpl.
  destruct (so_stored _ Hm4 p _ He4) as [(j & τ & c & tr1 & tr2 & Hkc & Hτ & Htr & Ha) _]. simpl in *.
  rewrite Hk in Hkc, Htr. exists now1, τ, j, c, tr1. eexists. split_and!.
  - done.
  - apply elem_of_app. left. eapply later_in; [exact Hl4|]. apply elem_of_app. by left.
  - lia.
  - unfold after. simpl. rewrite Htr, <-app_assoc. reflexivity.
  - done.
Qed.

Lemma queryDB_nil arg res d vs d' : queryDB None arg res d ≠ (Ret vs, d').
Proof.
  unfold queryDB. generalize maxRetry as mr. intros mr. unfold mbind, M_bind.
  pose proof (query_loop_nil mr arg None d) as Hn. destruct (query_loop mr None arg None None d) as [o s'].
  destruct Hn as [[->|[[e|] ->]] _]; done.
Qed.

Lemma wp_stmt i rq sql m : wp i rq (perform (AStmt sql)) (post (λ _ s, s = Some sql ∨ s = None)) m.
Proof. apply wp_perform; [done|]. intros m' s _ _ [= <-]. destruct (sh_conn _); auto. Qed.

(** [x] is the last that happened. *)
Definition latest (m : moment) (x : label) : Prop := ∃ tr, fst m = (tr ++ [x])%list.

Lemma latest_in m x : latest m x → x ∈ fst m.
Proof. intros [tr ->]. apply elem_of_app. right. by left. Qed.

Lemma wp_query i rq s arg res m :
  wp i rq (perform (AQuery s arg res))
    (post (λ m' vs, ∃ sql t, s = Some sql ∧ latest m' (LQuery i t (Some sql) arg res (Ret vs)))) m.
Proof.
  apply wp_perform; [done|]. intros m' vs _ _ Hr. destruct s as [sql|].
  - exists sql, (sh_now (snd m')). split; [done|]. rewrite <-Hr. by exists (fst m').
  - simpl in Hr. unfold in_db in Hr. destruct (queryDB None arg res _) as [o d] eqn:E. simpl in Hr. subst o.
    by apply queryDB_nil in E.
Qed.

Lemma wp_rows i rq n m :
  wp i rq (perform (ARows n)) (post (λ m rows, ∃ t, latest m (LRows i t n (Ret rows)))) m.
Proof.
  apply wp_perform; [done|]. intros m' rows _ _ Hr. exists (sh_now (snd m')). rewrite <-Hr. by exists (fst m').
Qed.

Lemma wp_add i rq key v m c :
  cache_key c = key → just_answered i (fst m) c v → wp i rq (perform (AAdd key v)) (post (λ _ _, True)) m.
Proof.
  intros Hk Ha m' [(l & Hl & Hw) _] Hm'. split; [|done]. exists c. split; [done|]. rewrite Hl.
  by apply just_answered_still.
Qed.

Lemma found_recent i c m v :
  match c with LkIface path => web_path path | _ => True end → found i (cache_key c) m v → recent i (fst m) c v.
Proof.
  intros Hw (t & τ & j & c' & tr1 & tr2 & Hk & Hc & Ht & Htr & Ha). right.
  exists t, τ, j, c', tr1, tr2. split_and!; try done. by eapply same_key.
Qed.

Lemma recent_stable i c v m m' : later m m' → recent i (fst m) c v → recent i (fst m') c v.
Proof. intros [[l ->] _]. apply recent_later. Qed.

Lemma answered_stable i c v m m' : later m m' → answered i (fst m) c v → answered i (fst m') c v.
Proof. intros [[l ->] _]. apply answered_later. Qed.

(** The answer just given, as the result of a lookup. *)
Lemma latest_answer i c v m x :
  latest m x → (∀ tr, fst m = (tr ++ [x])%list → answer i c v tr x) → just_answered i (fst m) c v.
Proof. intros [tr Htr] Ha. exists tr, x, []. split_and!; [done|by apply Ha|constructor]. Qed.

(** Storing it, and returning it. *)
Lemma wp_store {A} i rq c v (x : A) m (P : moment → A → Prop) :
  sound m → just_answered i (fst m) c v → (∀ m', later m m' → recent i (fst m') c v → P m' x) →
  wp i rq (_ ← perform (AAdd (cache_key c) v); mret x) (post P) m.
Proof.
  intros Hm Ha HP. eapply wp_bind; [done|by eapply (wp_add i rq _ _ _ c)|]. intros m' _ Hl Hm' _.
  apply wp_ret, HP; [done|]. left. eapply answered_stable; [done|]. by apply just_answered_answered.
Qed.

Lemma wp_getApplication i rq id token m :
  sound m →
  wp i rq (p_getApplication id token)
    (post (λ m a, A_ID a = id ∧ recent i (fst m) (LkApp id token) (CApp a))) m.
Proof.
  intros Hm. eapply wp_bind; [done|apply wp_get|]. intros m1 v _ Hm1 Hv. cbv beta in Hv.
  destruct v as [[a| | |]|]; try done.
  - pose proof (found_recent i (LkApp id token) m1 (CApp a) I Hv) as Hr. apply wp_ret. split; [|done].
    destruct Hr as [(tr1 & x & tr2 & _ & t' & vs & _ & [= ->])|(t & τ & j & c & tr1 & tr2 & Hc & _ & _ & _ & Ha)]; [done|].
    destruct c; try done. destruct Ha as (tr3 & x & tr4 & _ & (t' & vs & _ & [= ->]) & _). done.
  - eapply wp_bind; [done|apply wp_stmt|]. intros m2 s _ Hm2 Hs.
    eapply wp_bind; [done|apply wp_query|]. intros m3 vs _ Hm3 (sql & t & -> & Hq).
    destruct Hs as [[= ->]|]; [|done]. apply (wp_store i rq (LkApp id token)); [done| |by split].
    eapply latest_answer; [done|]. intros tr _. by exists t, vs.
Qed.

Lemma wp_getInterface i rq key m :
  sound m → web_path key →
  wp i rq (p_getInterface key) (post (λ m x, recent i (fst m) (LkIface key) (CIface x))) m.
Proof.
  intros Hm Hw. eapply wp_bind; [done|apply wp_get|]. intros m1 v _ Hm1 Hv. cbv beta in Hv.
  destruct v as [[| |x|]|]; try done.
  - apply wp_ret. by apply (found_recent i (LkIface key)).
  - cbv zeta. destruct (decide _); [done|].
    eapply wp_bind; [done|apply wp_stmt|]. intros m2 s _ Hm2 Hs.
    eapply wp_bind; [done|apply wp_query|]. intros m3 vs _ Hm3 (sql & t & -> & Hq%latest_in).
    destruct Hs as [[= ->]|]; [|done]. fold (service_of vs).
    destruct (interface_path (S_Version (service_of vs)) key (Split "/" key)) as [path|e|msg] eqn:Ep; [|done..].
    cbn [mbind program_bind and_then].
    eapply wp_bind; [done|apply wp_stmt|]. intros m4 s Hl4 Hm4 Hs.
    eapply wp_bind; [done|apply wp_query|]. intros m5 vs' Hl5 Hm5 (sql & t' & -> & Hq').
    destruct Hs as [[= ->]|]; [|done]. fold (interface_of vs' path (service_of vs)).
    apply (wp_store i rq (LkIface key)); [done| |by intros].
    eapply latest_answer; [done|]. intros tr Htr. exists t, t', vs, vs', path. split_and!; try done.
    assert (Hq5 : LQuery i t (Some selService) [VStr (List.nth 1 (Split "/" key) "")] [KInt64; KBool; KInt] (Ret vs) ∈ fst m5)
      by (eapply later_in; [|exact Hq]; by etrans).
    rewrite Htr in Hq5. apply elem_of_app in Hq5 as [Hq5|Hq5%list_elem_of_singleton]; [exact Hq5|discriminate].
Qed.

Lemma wp_validateRelation i rq a b m :
  sound m →
  wp i rq (p_validateRelation a b) (post (λ m _, ∃ n, recent i (fst m) (LkRelation a b) (CRelation n))) m.
Proof.
  intros Hm. eapply wp_bind; [done|apply wp_get|]. intros m1 v _ Hm1 Hv. cbv beta in Hv. destruct v as [v|].
  - apply wp_ret. pose proof (found_recent i (LkRelation a b) m1 v I Hv) as Hr.
    destruct Hr as [Ha|(t & τ & j & c & tr1 & tr2 & Hc & Hclk & Ht & Htr & Ha)].
    + destruct Ha as (tr1 & x & tr2 & Htr & t & vs & Hx & ->). exists (nth_int vs 0). left.
      exists tr1, x, tr2. split; [done|]. by exists t, vs.
    + destruct c; try done. pose proof Ha as (tr3 & x & tr4 & _ & (t' & vs & _ & ->) & _).
      exists (nth_int vs 0). right. by exists t, τ, j, (LkRelation appID ifaceID), tr1, tr2.
  - eapply wp_bind; [done|apply wp_stmt|]. intros m2 s _ Hm2 Hs.
    eapply wp_bind; [done|apply wp_query|]. intros m3 vs _ Hm3 (sql & t & -> & Hq).
    destruct Hs as [[= ->]|]; [|done].
    assert (Ha : just_answered i (fst m3) (LkRelation a b) (CRelation (nth_int vs 0))).
    { eapply latest_answer; [done|]. intros tr _. by exists t, vs. }
    eapply wp_mono; [done|by eapply (wp_add i rq _ _ _ (LkRelation a b))|]. intros m4 [x|e|msg] Hl4 Hm4 _; [|done..].
    exists (nth_int vs 0). left. eapply answered_stable; [done|]. by apply just_answered_answered.
Qed.

Lemma wp_getVariable i rq n m :
  sound m → wp i rq (p_getVariable n) (post (λ m vs, recent i (fst m) (LkVars n) (CVars vs))) m.
Proof.
  intros Hm. eapply wp_bind; [done|apply wp_get|]. intros m1 v _ Hm1 Hv. cbv beta in Hv.
  destruct v as [[|vs| |]|]; try done.
  - apply wp_ret. by apply (found_recent i (LkVars n)).
  - eapply wp_bind; [done|apply wp_rows|]. intros m2 rows _ Hm2 [t Hr].
    destruct (scan_variables rows) as [vs|e|msg] eqn:Es; [|done..]. cbn [mbind program_bind and_then].
    apply (wp_store i rq (LkVars n)); [done| |by intros].
    eapply latest_answer; [done|]. intros tr _. by exists t, rows, vs.
Qed.

(** ** [GetInterface] *)

Lemma identified_stable i req : stable (λ m ai, identified i req (fst m) ai).
Proof.
  intros m m' [app iface] Hl (Ht & Ha & Hi & Hm & Hr).
  split_and!; try done; try (by eapply recent_stable).
  intros Hs. destruct (Hr Hs) as [n Hn]. exists n. by eapply recent_stable.
Qed.

Lemma wp_GetInterface i rq req m :
  sound m → web_path (r_path req) → wp i rq (p_GetInterface req) (post (λ m ai, identified i req (fst m) ai)) m.
Proof.
  intros Hm Hw. unfold p_GetInterface. destruct (decide _); [done|]. unfold p_getApp.
  destruct (token_application _) as [id|e|msg] eqn:Etok; [|done..]. cbn [mbind program_bind and_then].
  eapply wp_bind; [done|by apply wp_getApplication|]. intros m1 app Hl1 Hm1 [<- Ha].
  eapply wp_bind; [done|by apply wp_getInterface|]. intros m2 iface Hl2 Hm2 Hi. cbv beta in Hi.
  destruct (decide _) as [|Hmeth]; [done|].
  assert (Hmethod : I_Method iface = RESTful ∨ r_method req = method_String (I_Method iface)).
  { destruct (decide (I_Method iface = RESTful)); [by left|right].
    destruct (decide (r_method req = method_String (I_Method iface))); naive_solver. }
  destruct (S_Validate (I_Service iface)) eqn:Eval.
  - eapply wp_try; [done|by apply wp_validateRelation| |].
    + intros m3 e _ _. by destruct (decide _).
    + intros m3 u Hl3 Hm3 Hrel. apply wp_ret.
      split_and!; [done|eapply recent_stable; [|exact Ha]; by etrans|by eapply recent_stable|done|done].
  - apply wp_ret. split_and!; [done|by eapply recent_stable|done|done|by rewrite Eval].
Qed.

End theory.
