(* ===== verification/Serving.v ===== *)
(** * Serving: the gateway with any number of requests at once

    Every execution of the gateway, its requests taking their steps in any order:
    a call is forwarded only after every check, each on an answer of the database
    that was stored no longer than the timeout ago; every request forwards at most one call, counts
    exactly that one and is answered; and the books of the statistics balance. *)

From Stdlib Require Import ZArith Lia Ascii.
From stdpp Require Import base gmap strings list sorting.
From S2P Require Import Prelude GoStrings Crypto Http Json Fmt SqlDB Cache CacheStore Registry DbCache DbCacheTheory.
From S2P Require Import NetUrl Uuid Stats Repeater RepeaterTheory Prog Requests RequestsTheory.

#[local] Open Scope list_scope.

Section serving.
Context `{SqlEngine} `{BlockCipher} `{RepeaterEnv} `{Network}.
Context (timeout_pos : 0 < cache_timeout).

(** ** A request to its end *)

Lemma wp_read i rq {A} (a : atom A) m :
  (∀ m', permitted i rq a m') →
  wp i rq (perform a) (post (λ m x, ∃ t, label_of i t a (Ret x) ∈ fst m)) m.
Proof.
  intros Hp. apply wp_perform; [done..|]. intros m' x _ _ Hr. exists (sh_now (snd m')). rewrite <-Hr. apply after_in.
Qed.

Lemma wp_new_id i rq m :
  sound m → wp i rq p_new_id (post (λ m id, ∃ t u, LReadId i t (Ret u) ∈ fst m ∧ id = hex u)) m.
Proof.
  intros Hm. eapply wp_bind; [done..|by apply (wp_read i rq AInc)|]. intros m1 v _ Hm1 _.
  eapply wp_bind; [done..|by apply (wp_read i rq (APut v))|]. intros m2 _ _ Hm2 _.
  eapply wp_bind; [done..|by apply (wp_read i rq AReadId)|]. intros m3 u _ _ [t Ht].
  apply wp_ret. by exists t, u.
Qed.

Definition validated (i : nat) (req : Request) (iface : Interface) (tr : list label) : Prop := ∃ vars form,
  recent i tr (LkVars (I_ID iface)) (CVars vars) ∧ parseForm req vars = Ret form ∧
  Forall (λ v, acceptable v (value_of (r_query req) (mkReqData (r_header req) form) v)) vars.

Lemma wp_Validate i rq req iface m :
  sound m → wp i rq (p_Validate req iface) (post (λ m _, validated i req iface (fst m))) m.
Proof.
  intros Hm. eapply wp_bind; [done..|by apply wp_getVariable|]. intros m1 vars _ Hm1 Hv.
  destruct (parseForm req vars) as [form|e|p] eqn:Ef; [|done..]. cbn [mbind program_bind and_then].
  destruct (validate_vars _ _ _) as [d|e|p] eqn:Ed; [|done..]. apply wp_ret.
  exists vars, form. split_and!; [done|done|]. apply validate_vars_accepted. by exists d.
Qed.

(** The address was made from the table as it was at some time. *)
Definition addressed (req : Request) (iface : Interface) (tr : list label) (url : string) : Prop :=
  ∃ tr1 tr2 nano, tr = (tr1 ++ tr2)%list ∧ backend_url req iface (table_of tr1) nano = Ret url.

Definition backend_of (req : Request) (iface : Interface) (apps : gmap string (list MicroAPP)) (nano : Z) : outcome string :=
  if decide (S_Version (I_Service iface) = 1) then
    as_ ← getMicroAPPs apps (I_Backend iface);
    a ← pick_backend nano as_;
    Ret ("http://" +:+ Host a +:+ ":" +:+ itoa (Port a) +:+ I_Path iface)
  else rest_path (I_Backend iface) (r_path req) (I_Path iface).

Lemma wp_backend i rq req iface m :
  sound m → wp i rq (p_backend req iface) (post (λ m b, ∃ tr1 tr2 nano,
    fst m = (tr1 ++ tr2)%list ∧ backend_of req iface (table_of tr1) nano = Ret b)) m.
Proof.
  intros Hm. unfold p_backend, backend_of. destruct (decide _) as [Hv|Hv].
  - eapply (wp_bind timeout_pos _ _ _ _ (λ m as_, ∃ tr1 tr2, fst m = (tr1 ++ tr2)%list ∧
      getMicroAPPs (table_of tr1) (I_Backend iface) = Ret as_)); [done| |].
    { apply wp_perform; [done..|]. intros m' as_ _ Hm' Hr. simpl in Hr. rewrite (so_table _ Hm') in Hr.
      exists (fst m'). by eexists. }
    intros m1 as_ _ Hm1 (tr1 & tr2 & He & Hg).
    eapply wp_bind; [done..|by apply (wp_read i rq ANano)|]. intros m2 nano [[l Hl] _] Hm2 _.
    destruct (pick_backend nano as_) as [a|e|p] eqn:Ep; [|done..]. apply wp_ret.
    exists tr1, (tr2 ++ l)%list, nano. rewrite Hl, He, app_assoc, Hg. split; [done|]. simpl. by rewrite Ep.
  - destruct (rest_path _ _ _) as [b|e|p] eqn:Er; [|done..]. exists (fst m), [], 0. by rewrite app_nil_r.
Qed.

Lemma wp_buildRequest i rq id iface req header m :
  sound m → wp i rq (p_buildRequest id iface req header)
    (post (λ m uh, addressed req iface (fst m) (fst uh) ∧
       header_get (snd uh) "Token" = "" ∧ header_get (snd uh) "Session" = id)) m.
Proof.
  intros Hm. eapply wp_bind; [done..|by apply wp_backend|]. intros m1 b _ Hm1 (tr1 & tr2 & nano & He & Hb).
  cbv zeta. destruct (url_Parse_error _); [done|]. apply wp_ret. split.
  - exists tr1, tr2, nano. split; [done|]. unfold backend_url. fold (backend_of req iface (table_of tr1) nano). by rewrite Hb.
  - apply sent_headers.
Qed.

(** The calls that are counted are those of the application and interface that
    were looked up. *)
Lemma wp_free i rq {A} (a : atom A) m : (∀ m', permitted i rq a m') → wp i rq (perform a) (post (λ _ _, True)) m.
Proof. intros Hp. by apply wp_perform. Qed.

Lemma wp_then i rq {A B} (p : prog A) (q : prog B) m :
  sound m → wp i rq p (post (λ _ _, True)) m → (∀ m', later m m' → sound m' → wp i rq q (post (λ _ _, True)) m') →
  wp i rq (_ ← p; q) (post (λ _ _, True)) m.
Proof. intros Hm Hp Hq. eapply wp_bind; [done..|exact Hp|]. intros m' _ Hl Hm' _. by apply Hq. Qed.

Lemma reply_then i rq r m : wp i rq (perform (AReply r)) (post (λ _ _, True)) m.
Proof. by apply wp_free. Qed.

Lemma counted_later i rq m m' app iface id :
  later m m' → counted_for i rq (fst m) app iface id → counted_for i rq (fst m') app iface id.
Proof.
  intros [[l ->] _] (tr1 & tr2 & t & url & header & body & o & a & f & -> & Hc).
  exists tr1, (tr2 ++ l)%list, t, url, header, body, o, a, f. by rewrite <-app_assoc.
Qed.

Lemma counted_unnamed i rq tr app iface id : counted_for i rq tr app iface id → counted_for i rq tr app iface None.
Proof.
  intros (tr1 & tr2 & t & url & header & body & o & a & f & -> & Ha & -> & -> & _).
  by exists tr1, tr2, t, url, header, body, o, a, f.
Qed.

Lemma wp_finish i rq id app iface r m :
  sound m → counted_for i rq (fst m) (A_ID app) (I_ID iface) (Some id) →
  wp i rq (p_finish id app iface r) (post (λ _ _, True)) m.
Proof.
  intros Hm Hid.
  assert (Hcount : ∀ a : atom unit,
      (∀ m', counted_for i rq (fst m') (A_ID app) (I_ID iface) (Some id) → permitted i rq a m') →
      wp i rq (perform a) (post (λ _ _, True)) m).
  { intros a Ha m' Hl%others_later Hm'. split; [|simpl; by destruct (run_atom a (snd m')).1].
    apply Ha. by eapply counted_later. }
  destruct r as [cost [e|[rb code]]]; cbn [p_finish].
  - apply wp_then; [done|by apply Hcount|intros; apply reply_then].
  - apply wp_then; [done|apply Hcount|].
    { intros m'. destruct (decide _); [done|apply counted_unnamed]. }
    intros m1 _ Hm1. apply wp_then; [done|apply reply_then|intros; apply reply_then].
Qed.

Lemma authorised_later i rq m m' method url header body app iface :
  later m m' → authorised_as i rq (fst m) method url header body app iface →
  authorised_as i rq (fst m') method url header body app iface.
Proof.
  intros Hl (Hm & Hb & vars & form & t & u & tr1 & tr2 & nano & Hid & Hv & Hf & Ha & Htr & Hu & Ht & Hs & Hin).
  split; [done|]. split; [done|]. pose proof Hl as [[l Hl'] _].
  exists vars, form, t, u, tr1, (tr2 ++ l)%list, nano. split_and!; try done.
  - by apply (identified_stable i rq m m' (app, iface)).
  - by eapply recent_stable.
  - by rewrite Hl', Htr, app_assoc.
  - by eapply later_in.
Qed.

Lemma wp_forward i rq id body ai uh m :
  sound m → header_get (snd uh) "Session" = id →
  authorised_as i rq (fst m) (r_method rq) (fst uh) (snd uh) body (fst ai) (snd ai) →
  wp i rq (p_forward id rq body ai uh) (post (λ _ _, True)) m.
Proof.
  intros Hm Hs Hau. apply wp_after. intros m' Hl%others_later Hm'.
  assert (Hau' : authorised_as i rq (fst m') (r_method rq) (fst uh) (snd uh) body (fst ai) (snd ai))
    by by apply (authorised_later i rq m).
  assert (Hp : permitted i rq (AForward (r_method rq) (fst uh) (snd uh) body) m') by by exists (fst ai), (snd ai).
  split; [done|]. simpl. apply wp_finish.
  - by apply (after_sound i rq (AForward (r_method rq) (fst uh) (snd uh) body)).
  - by eexists (fst m'), [], _, (fst uh), (snd uh), body, _, (fst ai), (snd ai).
Qed.

Lemma wp_serve i rq id m :
  sound m → web_path (r_path rq) → (∃ t u, LReadId i t (Ret u) ∈ fst m ∧ id = hex u) →
  wp i rq (p_serve id rq) (post (λ _ _, True)) m.
Proof.
  intros Hm Hw (t & u & Ht & ->). unfold p_serve. destruct (r_body rq) as [body|e|p] eqn:Hb; [|done..].
  eapply wp_try; [done..|by apply wp_GetInterface| |].
  { intros m1 e _ Hm1. destruct (decide _); [apply reply_then|]. apply wp_then; [done|apply reply_then|intros; apply reply_then]. }
  intros m1 [app iface] Hl1 Hm1 Hid. eapply wp_try; [done..|by apply wp_Validate|intros; apply reply_then|].
  intros m2 header Hl2 Hm2 (vars & form & Hv & Hf & Ha).
  eapply wp_try; [done..|by apply wp_buildRequest|intros; apply reply_then|].
  intros m3 [url hdr] Hl3 Hm3 ((tr1 & tr2 & nano & Htr & Hu) & Htok & Hses).
  apply wp_forward; [done..|]. split; [done|]. split; [done|].
  exists vars, form, t, u, tr1, tr2, nano. split_and!; try done.
  - apply (identified_stable i rq m1 m3 (app, iface)); [by etrans|done].
  - by eapply recent_stable.
  - eapply later_in; [|exact Ht]. etrans; [exact Hl1|]. by etrans.
Qed.

Lemma wp_ServeHTTP i rq m :
  sound m → web_path (r_path rq) → wp i rq (p_ServeHTTP rq) (post (λ _ _, True)) m.
Proof.
  intros Hm Hw. eapply wp_bind; [done..|by apply wp_new_id|]. intros m1 id _ Hm1 Hid.
  apply wp_after. eapply wp_mono; [done..|by apply wp_serve|].
  intros m2 [x|e|p] _ Hm2 _; [done|done|]. apply reply_then.
Qed.

(** ** Every execution *)

Definition promised (tr : list label) (s : system) : Prop := ∀ i rq p, sy_requests s !! i = Some (rq, p) →
  wp i rq p (post (λ _ _, True)) (tr, sy_shared s).

Lemma promised_later tr l sh sh' rs i rq p :
  promised tr (mkSystem sh rs) → grown (sh_mem sh) (sh_mem sh') → actor l ≠ Some i → rs !! i = Some (rq, p) →
  wp i rq p (post (λ _ _, True)) ((tr ++ [l])%list, sh').
Proof.
  intros Hp Hg Hl Hi. eapply wp_later; [| |by apply Hp].
  - by intros m m' [a|e|msg] _.
  - split; [|done]. exists [l]. split; [done|]. by constructor.
Qed.

Lemma start_sound w b now g nano : sound ([], mkShared w b NewCache now (mkRest newStatsCache ∅ g nano)).
Proof.
  split; simpl; [apply new_consistent|split_and!; constructor|..|done].
  - intros p e He. by rewrite lookup_nil in He.
  - by intros j t last Hin%elem_of_nil.
  - by intros j t o Hin%elem_of_nil.
Qed.

Lemma execution_promised tr s : execution tr s → sound (tr, sy_shared s) ∧ promised tr s.
Proof.
  intros He. induction He as [w b now g nano|tr s l s' He [Hs Hp] Hstep].
  { split; [apply start_sound|]. intros i rq p Hi. cbn [sy_requests] in Hi. by rewrite lookup_nil in Hi. }
  assert (Hquiet : sh_mem (sy_shared s') = sh_mem (sy_shared s) → sh_now (sy_shared s) ≤ sh_now (sy_shared s') →
    plain_label l → actor l = None → sy_requests s' = sy_requests s →
    rs_apps (sh_rest (sy_shared s')) = match label_event l with
      Some e => handle_event e (rs_apps (sh_rest (sy_shared s))) | None => rs_apps (sh_rest (sy_shared s)) end →
    sound ((tr ++ [l])%list, sy_shared s') ∧ promised (tr ++ [l]) s').
  { intros Hmem Hnow Hl Hact Hrs Happs. split; [by eapply sound_quiet|]. destruct s as [sh rs], s' as [sh' rs']. simpl in *.
    subst rs'. intros i rq p Hi. apply (promised_later tr l sh _ rs); [done|by rewrite <-Hmem|by rewrite Hact|done]. }
  destruct Hstep as [sh rs rq Hw|sh rs d nano Hd|sh rs e|sh rs es st Hst|sh rs es st Hst|sh rs w b|sh rs i rq A a k Hi];
    cbn [sy_shared sy_requests] in *; try (apply Hquiet; [done|simpl; lia|done..]).
  - assert (Hs' : sound ((tr ++ [LSpawn rq])%list, sh)) by (by eapply sound_quiet).
    split; [done|]. intros i rq' p Hi. apply lookup_app_Some in Hi as [Hi|[_ Hi]].
    + by apply (promised_later tr (LSpawn rq) sh sh rs).
    + apply list_lookup_singleton_Some in Hi as [_ [= <- <-]]. by apply wp_ServeHTTP.
  - destruct (Hp i rq _ Hi (tr, sh) (reflexivity _) Hs) as [Hperm Hk].
    split; [exact (after_sound i rq a (tr, sh) timeout_pos Hs Hperm)|].
    intros j rq' p Hj. cbn [sy_requests] in Hj. destruct (decide (j = i)) as [->|Hne].
    + rewrite list_lookup_insert_eq in Hj by (by eapply lookup_lt_Some). by injection Hj as <- <-.
    + rewrite list_lookup_insert_ne in Hj by done.
      apply (promised_later tr _ sh _ rs); [done|apply run_atom_grown| |done]. rewrite actor_of. congruence.
Qed.

(** What a call and a count rest on. *)
Definition granted (i : nat) (rq : Request) (tr : list label) (l : label) : Prop :=
  match l with
  | LForward _ _ method url header body _ => authorised i rq tr method url header body
  | LSuccess _ _ app iface _ => counted_for i rq tr app iface None
  | LFailed _ _ id app iface _ => counted_for i rq tr app iface (Some id)
  | _ => True
  end.

Lemma permitted_granted {A} i rq (a : atom A) m t o : permitted i rq a m → granted i rq (fst m) (label_of i t a o).
Proof. by destruct a. Qed.

Lemma execution_granted tr s :
  execution tr s → ∀ tr1 l tr2 i, tr = tr1 ++ l :: tr2 → actor l = Some i →
  ∃ rq p, sy_requests s !! i = Some (rq, p) ∧ granted i rq tr1 l.
Proof.
  intros He. induction He as [w b now g nano|tr s l' s' He IH Hstep]; intros tr1 l tr2 i Htr Hi; [by destruct tr1|].
  destruct (execution_promised tr s He) as [Hs Hp].
  destruct tr2 as [|l2 tr2' _] using rev_ind.
  - apply app_inj_tail in Htr as [<- <-]. destruct Hstep as [| | | | | |sh rs j rq' A a k Hj]; try done.
    rewrite actor_of in Hi. injection Hi as ->. cbn [sy_requests].
    destruct (Hp i rq' _ Hj (tr, sh) (reflexivity _) Hs) as [Hperm _].
    exists rq'. eexists. rewrite list_lookup_insert_eq by (by eapply lookup_lt_Some). split; [done|].
    by apply (permitted_granted i rq' a (tr, sh)).
  - rewrite app_comm_cons, app_assoc in Htr. apply app_inj_tail in Htr as [Htr ->].
    destruct (IH tr1 l tr2' i Htr Hi) as (rq & p & Hrq & HP).
    destruct Hstep as [sh rs rq' Hw|sh rs d nano Hd|sh rs e|sh rs es st Hst|sh rs es st Hst|sh rs w b|sh rs j rq' A a k Hj];
      cbn [sy_requests] in *; try (by exists rq, p).
    + exists rq, p. split; [|done]. by apply lookup_app_l_Some.
    + destruct (decide (i = j)) as [->|Hne].
      * exists rq. eexists. rewrite list_lookup_insert_eq by (by eapply lookup_lt_Some).
        rewrite Hj in Hrq. by injection Hrq as -> _.
      * exists rq, p. by rewrite list_lookup_insert_ne.
Qed.

(** ** The story of a request *)

(** What others see of request [i]. *)
Definition visible (i : nat) (l : label) : bool :=
  match l with
  | LForward j _ _ _ _ _ _ | LSuccess j _ _ _ _ | LFailed j _ _ _ _ _ | LReply j _ _ => bool_decide (j = i)
  | _ => false
  end.

Definition story (i : nat) (tr : list label) : list label := List.filter (visible i) tr.

(** What a step can come to, whatever the others did. *)
Definition possible {A} (a : atom A) : outcome A → Prop :=
  match a in atom A return outcome A → Prop with
  | AForward method url header body => λ o, o = Ret (do_request method url header body)
  | APut _ | ASuccess _ _ _ | AFailed _ _ _ _ | AReply _ => λ o, o = Ret tt
  | AInc | AReadId => λ o, ∃ v, o = Ret v
  | _ => λ _, True
  end.

Lemma run_atom_possible {A} (a : atom A) sh : possible a (run_atom a sh).1.
Proof. destruct a; simpl; try done; by eexists. Qed.

(** [Q] holds of the story, [ls] so far, and the outcome when the program ends. *)
Fixpoint tells {A} (i : nat) (p : prog A) (Q : list label → outcome A → Prop) (ls : list label) : Prop :=
  match p with
  | Done o => Q ls o
  | Act a k => ∀ t o, possible a o → tells i (k o) Q (ls ++ story i [label_of i t a o])
  end.

Lemma tells_after {A B} i (f : outcome A → prog B) p Q ls :
  tells i p (λ ls o, tells i (f o) Q ls) ls → tells i (and_then f p) Q ls.
Proof. revert ls. induction p as [o|C a k IH]; intros ls; [done|]. simpl. intros Hp t o Ho. by apply IH, Hp. Qed.

Lemma tells_mono {A} i (p : prog A) (Q R : list label → outcome A → Prop) ls :
  tells i p Q ls → (∀ ls o, Q ls o → R ls o) → tells i p R ls.
Proof. revert ls. induction p as [o|B a k IH]; intros ls Hp HQ; [by apply HQ|]. simpl in *. intros t o Ho. by apply IH; [apply Hp|]. Qed.

(** A program that nobody sees. *)
Fixpoint silent {A} (p : prog A) : Prop :=
  match p with
  | Done _ => True
  | Act a k => match a with AForward _ _ _ _ | ASuccess _ _ _ | AFailed _ _ _ _ | AReply _ => False | _ => True end ∧
               ∀ o, silent (k o)
  end.

Lemma tells_silent {A} i (p : prog A) ls : silent p → tells i p (λ ls' _, ls' = ls) ls.
Proof.
  induction p as [o|B a k IH]; [done|]. intros [Ha Hk] t o Ho.
  assert (story i [label_of i t a o] = []) as -> by (by destruct a). rewrite app_nil_r. by apply IH.
Qed.

Lemma silent_after {A B} (f : outcome A → prog B) p : silent p → (∀ o, silent (f o)) → silent (and_then f p).
Proof. induction p as [o|C a k IH]; intros Hp Hf; [by apply Hf|]. destruct Hp as [Ha Hk]. split; [done|]. intros o. by apply IH. Qed.

Lemma silent_program_bind {A B} (p : prog A) (f : A → prog B) : silent p → (∀ a, silent (f a)) → silent (p ≫= f).
Proof. intros Hp Hf. apply silent_after; [done|]. by intros [a|e|m]. Qed.

Lemma silent_try {A B} (p : prog A) h (f : A → prog B) :
  silent p → (∀ e, silent (h e)) → (∀ a, silent (f a)) → silent (prog_try p h f).
Proof. intros Hp Hh Hf. apply silent_after; [done|]. by intros [a|e|m]. Qed.

Lemma silent_perform {A} (a : atom A) :
  match a with AForward _ _ _ _ | ASuccess _ _ _ | AFailed _ _ _ _ | AReply _ => False | _ => True end →
  silent (perform a).
Proof. by split. Qed.

Lemma silent_done {A} (o : outcome A) : silent (Done o).
Proof. done. Qed.

Lemma silent_ret {A} (x : A) : silent (mret x).
Proof. done. Qed.

Create HintDb silent.
#[local] Hint Resolve silent_program_bind silent_try silent_done silent_ret : silent.
#[local] Hint Extern 1 (silent (perform _)) => apply silent_perform; exact I : silent.
#[local] Hint Extern 1 (∀ _, silent _) => intros : silent.
#[local] Hint Extern 2 (silent (match ?x with _ => _ end)) => destruct x : silent.
#[local] Hint Extern 2 (silent (if ?x then _ else _)) => destruct x : silent.

Lemma silent_get key : silent (p_get key).
Proof. unfold p_get. eauto 12 with silent. Qed.
#[local] Hint Resolve silent_get : silent.

Lemma silent_GetInterface req : silent (p_GetInterface req).
Proof.
  unfold p_GetInterface. destruct (decide _); [done|].
  apply silent_program_bind; [unfold p_getApp, p_getApplication; eauto 20 with silent|]. intros app.
  apply silent_program_bind; [|intros iface].
  - unfold p_getInterface. apply silent_program_bind; [apply silent_get|]. intros [[]|]; [done..|].
    cbv zeta. destruct (decide _); eauto 20 with silent.
  - destruct (decide _); [done|]. destruct (S_Validate _); [|done].
    apply silent_try; [unfold p_validateRelation; eauto 20 with silent| |done]. intros e. by destruct (decide _).
Qed.

Lemma silent_Validate req iface : silent (p_Validate req iface).
Proof. apply silent_program_bind; [unfold p_getVariable; eauto 20 with silent|]. eauto 20 with silent. Qed.

Lemma silent_buildRequest id iface req header : silent (p_buildRequest id iface req header).
Proof. apply silent_program_bind; [unfold p_backend; destruct (decide _); eauto 20 with silent|]. intros b. cbv zeta. eauto with silent. Qed.

(** Something was written to the response. *)
Definition replied (i : nat) (ls : list label) : Prop := ls ≠ [] ∧ Forall (λ l, ∃ t r, l = LReply i t r) ls.

(** What others see of a request from its beginning to its end: nothing if its
    body cannot be read, an answer without a call, or one call, counted as what it
    came to, and its answer. *)
Inductive served (i : nat) (rq : Request) : list label → Prop :=
| served_unread : (∀ body, r_body rq ≠ Ret body) → served i rq []
| served_refused ls : replied i ls → served i rq ls
| served_forwarded t t' t1 t2 url header body app iface cost rb :
    do_request (r_method rq) url header body = (cost, inr (rb, StatusOK)) →
    served i rq [LForward i t (r_method rq) url header body (Ret (cost, inr (rb, StatusOK)));
                 LSuccess i t' app iface cost; LReply i t1 (WriteHeader StatusOK); LReply i t2 (WriteText rb)]
| served_bad_status t t' t1 t2 url header body id app iface cost rb code :
    do_request (r_method rq) url header body = (cost, inr (rb, code)) → code ≠ StatusOK →
    served i rq [LForward i t (r_method rq) url header body (Ret (cost, inr (rb, code)));
                 LFailed i t' id app iface ("invalid http status:" +:+ itoa code);
                 LReply i t1 (WriteHeader code); LReply i t2 (WriteText rb)]
| served_failed t t' t1 url header body id app iface cost e :
    do_request (r_method rq) url header body = (cost, inl e) →
    served i rq [LForward i t (r_method rq) url header body (Ret (cost, inl e));
                 LFailed i t' id app iface (Error e); LReply i t1 (SendResponse StatusInternalServerError (Error e))].

Definition ends (i : nat) (rq : Request) (ls : list label) (o : outcome unit) : Prop := o = Ret tt ∧ served i rq ls.

Lemma tells_reply i r (Q : list label → outcome unit → Prop) ls :
  (∀ t, Q (ls ++ [LReply i t r]) (Ret tt)) → tells i (perform (AReply r)) Q ls.
Proof.
  intros HQ t o ->. unfold story. simpl. rewrite bool_decide_eq_true_2 by done. apply HQ.
Qed.

Lemma tells_refused i rq r : tells i (perform (AReply r)) (ends i rq) [].
Proof.
  apply tells_reply. intros t. split; [done|]. apply served_refused. split; [done|].
  constructor; [by eexists _, _|done].
Qed.

Lemma tells_forward i rq id body ai uh :
  tells i (p_forward id rq body ai uh) (ends i rq) [].
Proof.
  intros t o ->. unfold story. simpl. rewrite bool_decide_eq_true_2 by done.
  destruct (do_request _ _ _ _) as [cost [e|[rb code]]] eqn:E; cbn [and_then p_finish].
  - intros t' o ->. simpl. intros t1 o ->. simpl. rewrite !bool_decide_eq_true_2 by done. simpl.
    split; [done|]. by apply served_failed.
  - destruct (decide (code ≠ StatusOK)) as [Hc|Hc].
    + intros t' o ->. simpl. intros t1 o ->. simpl. intros t2 o ->. simpl. rewrite !bool_decide_eq_true_2 by done. simpl.
      split; [done|]. by apply served_bad_status.
    + assert (code = StatusOK) as -> by (destruct (decide (code = StatusOK)); [done|by destruct Hc]).
      intros t' o ->. simpl. intros t1 o ->. simpl. intros t2 o ->. simpl. rewrite !bool_decide_eq_true_2 by done. simpl.
      split; [done|]. by apply served_forwarded.
Qed.

(** A quiet part, and what follows it for each of its outcomes. *)
Lemma tells_quiet {A B} i (p : prog A) (f : outcome A → prog B) Q :
  silent p → (∀ o, tells i (f o) Q []) → tells i (and_then f p) Q [].
Proof.
  intros Hp Hf. apply tells_after. eapply tells_mono; [by apply tells_silent|]. intros ls o ->. apply Hf.
Qed.

(** [ServeHTTP] before its panics are recovered: it ends well or has not been seen. *)
Definition ends_or_panics (i : nat) (rq : Request) (ls : list label) (o : outcome unit) : Prop :=
  ends i rq ls o ∨ (ls = [] ∧ ∃ msg, o = Panic msg).

Lemma tells_serve i rq id : tells i (p_serve id rq) (ends_or_panics i rq) [].
Proof.
  assert (Hreply : ∀ r, tells i (perform (AReply r)) (ends_or_panics i rq) []).
  { intros r. eapply tells_mono; [apply (tells_refused i rq)|]. by left. }
  unfold p_serve. destruct (r_body rq) as [body|e|p] eqn:Hb;
    [|left; split; [done|]; apply served_unread; intros b; by rewrite Hb..].
  apply tells_quiet; [apply silent_GetInterface|]. intros [ai|e|msg]; [| |right; split; [done|]; by eexists].
  2: { destruct (decide _); [apply Hreply|]. intros t o ->. unfold story. simpl. intros t' o ->. simpl.
       rewrite !bool_decide_eq_true_2 by done. simpl. left. split; [done|]. apply served_refused. split; [done|].
       repeat constructor; by eexists _, _. }
  apply tells_quiet; [apply silent_Validate|]. intros [header|e|msg]; [|apply Hreply|right; split; [done|]; by eexists].
  apply tells_quiet; [apply silent_buildRequest|]. intros [uh|e|msg]; [|apply Hreply|right; split; [done|]; by eexists].
  eapply tells_mono; [apply tells_forward|]. by left.
Qed.

Lemma tells_ServeHTTP i rq : tells i (p_ServeHTTP rq) (ends i rq) [].
Proof.
  intros t o [v ->]. cbn [and_then]. intros t' o ->. cbn [and_then]. intros t2 o [u ->]. simpl.
  apply tells_after. eapply tells_mono; [apply tells_serve|].
  intros ls o [[-> Hs]|[-> [msg ->]]]; [done|apply tells_refused].
Qed.

Lemma story_snoc i tr l : story i (tr ++ [l]) = story i tr ++ story i [l].
Proof. apply filter_app. Qed.

Lemma story_other i l : actor l ≠ Some i → story i [l] = [].
Proof.
  intros Hl. unfold story. simpl. destruct (visible i l) eqn:E; [|done].
  destruct l; try done; simpl in E; apply bool_decide_eq_true in E; by subst.
Qed.

(** The story of a request is that of its program. *)
Lemma execution_tells tr s :
  execution tr s →
  (∀ i rq p, sy_requests s !! i = Some (rq, p) → tells i p (ends i rq) (story i tr)) ∧
  ∀ i, sy_requests s !! i = None → story i tr = [].
Proof.
  intros He. induction He as [w b now g nano|tr s l s' He [IH Hnone] Hstep]; [by split|].
  assert (Hquiet : actor l = None → sy_requests s' = sy_requests s →
    (∀ i rq p, sy_requests s' !! i = Some (rq, p) → tells i p (ends i rq) (story i (tr ++ [l]))) ∧
    ∀ i, sy_requests s' !! i = None → story i (tr ++ [l]) = []).
  { intros Hl ->. setoid_rewrite story_snoc.
    assert (∀ i, story i [l] = []) as Hs by (intros i; apply story_other; by rewrite Hl).
    split; intros; rewrite Hs, app_nil_r; auto. }
  destruct Hstep as [sh rs rq Hw|sh rs d nano Hd|sh rs e|sh rs es st Hst|sh rs es st Hst|sh rs w b|sh rs i rq A a k Hi];
    cbn [sy_requests] in *; try (by apply Hquiet).
  - setoid_rewrite story_snoc. setoid_rewrite (story_other _ (LSpawn rq)); [|done..]. setoid_rewrite app_nil_r.
    split; intros i.
    + intros rq' p [Hi|[Hle Hi]]%lookup_app_Some; [by apply IH|].
      apply list_lookup_singleton_Some in Hi as [Hz [= <- <-]].
      rewrite Hnone; [apply tells_ServeHTTP|]. apply lookup_ge_None. lia.
    + intros Hi%lookup_ge_None. apply Hnone, lookup_ge_None. rewrite length_app in Hi. simpl in Hi. lia.
  - setoid_rewrite story_snoc. split; intros j.
    + intros rq' p Hj. destruct (decide (j = i)) as [->|Hne].
      * rewrite list_lookup_insert_eq in Hj by (by eapply lookup_lt_Some). injection Hj as <- <-.
        apply (IH i rq _ Hi). apply run_atom_possible.
      * rewrite list_lookup_insert_ne in Hj by done. rewrite (story_other j), app_nil_r; [by apply IH|].
        rewrite actor_of. congruence.
    + intros Hj%lookup_ge_None. rewrite length_insert in Hj. pose proof (lookup_lt_Some _ _ _ Hi).
      rewrite (story_other j), app_nil_r; [by apply Hnone, lookup_ge_None|]. rewrite actor_of. intros [= ->]. lia.
Qed.

(** ** The books *)

Lemma omap_le {A B} (f : A → option B) l : (length (omap f l) ≤ length l)%nat.
Proof. induction l as [|x l IH]; [done|]. cbn [omap list_omap]. destruct (f x); simpl; lia. Qed.

Definition label_op (l : label) : option stats_op :=
  match l with
  | LSuccess _ _ app iface cost => Some (OpSuccess app iface cost)
  | LFailed _ t id app iface log => Some (OpFailed id app iface log t)
  | LDrain _ => Some OpDrain
  | LDrainErrors _ => Some OpDrainErrors
  | _ => None
  end.

(** What the timer took. *)
Definition taken (tr : list label) : list entry := tr ≫= λ l, match l with LDrain es => es | _ => [] end.
Definition taken_errors (tr : list label) : list errorEntry := tr ≫= λ l, match l with LDrainErrors es => es | _ => [] end.

Lemma run_atom_stats {A} i (a : atom A) sh :
  rs_stats (sh_rest (run_atom a sh).2) =
    match label_op (label_of i (sh_now sh) a (run_atom a sh).1) with
    | Some (OpSuccess app iface cost) => success app iface cost (rs_stats (sh_rest sh))
    | Some (OpFailed id app iface log now) => failed id app iface log now (rs_stats (sh_rest sh))
    | _ => rs_stats (sh_rest sh)
    end.
Proof.
  destruct a; try done; simpl.
  - by destruct (in_db_frame (queryDB s arg res) sh) as (_ & _ & ->).
  - by destruct (in_db_frame (query_rows id) sh) as (_ & _ & ->).
Qed.

Lemma execution_books tr s :
  execution tr s → stats_run (omap label_op tr) = (rs_stats (sh_rest (sy_shared s)), taken tr, taken_errors tr).
Proof.
  intros He. induction He as [w b now g nano|tr s l s' He IH Hstep]; [done|].
  unfold taken, taken_errors in *. rewrite omap_app, !bind_app. cbn [mbind list_bind omap list_omap].
  assert (Hsame : label_op l = None → rs_stats (sh_rest (sy_shared s')) = rs_stats (sh_rest (sy_shared s)) →
    stats_run (omap label_op tr ++ match label_op l with Some o => [o] | None => [] end) =
    (rs_stats (sh_rest (sy_shared s')),
     (tr ≫= λ l, match l with LDrain es => es | _ => [] end) ++ match l with LDrain es => es | _ => [] end ++ [],
     (tr ≫= λ l, match l with LDrainErrors es => es | _ => [] end) ++ match l with LDrainErrors es => es | _ => [] end ++ [])).
  { intros Hl ->. rewrite Hl, app_nil_r, IH. by destruct l; try done; rewrite !app_nil_r. }
  destruct Hstep as [sh rs rq Hw|sh rs d nano Hd|sh rs e|sh rs es st Hst|sh rs es st Hst|sh rs w b|sh rs i rq A a k Hi];
    cbn [sy_shared] in *; try (by apply Hsame).
  - cbn [label_op]. rewrite stats_run_snoc, IH, !app_nil_r. cbn [stats_step]. by rewrite Hst.
  - cbn [label_op]. rewrite stats_run_snoc, IH, !app_nil_r. cbn [stats_step]. by rewrite Hst.
  - pose proof (run_atom_stats i a sh) as Hst. destruct a; try (by apply Hsame);
      cbn [label_op label_of] in *; rewrite stats_run_snoc, IH, !app_nil_r, Hst; done.
Qed.
End serving.

(** C2: requests at once: in every interleaving of the steps of any number of
    requests, with time passing, backends coming and going, the timer emptying the
    statistics and others using the database and its connection, a call is
    forwarded only for a request that had its body read, and only when, before it,
    its token decoded to the application, its path was found to be that of the
    interface, the two were found related where the service demands it, and every
    variable found for the interface accepted its value. Each was found in an
    answer the database gave to this request, or to one that looked up the same
    entry of the cache (the same path, the variables of the same interface, the
    same application under whatever token, a pair whose identifiers written in a
    row are the same) and stored the answer as its very next step, less than the
    timeout before a moment at which this request read the clock. The address is
    that of the interface or of a backend in the table at some moment before, and
    what is sent carries no token. *)
Theorem forwarded_authorised `{SqlEngine} `{BlockCipher} `{RepeaterEnv} `{Network} tr1 tr2 s i t method url header body o :
  0 < cache_timeout → execution (tr1 ++ LForward i t method url header body o :: tr2) s →
  ∃ rq p, sy_requests s !! i = Some (rq, p) ∧ authorised i rq tr1 method url header body.
Proof.
  intros Hpos He. exact (execution_granted Hpos _ s He tr1 (LForward i t method url header body o) tr2 i eq_refl eq_refl).
Qed.

(** C3: what becomes of requests at once: in every interleaving, a request that has
    ended returned, whatever panicked on the way, and all that was seen of it is
    nothing if its body could not be read, an answer without a call, or one call,
    counted once as what it came to, followed by its answer. Both what is counted
    as answered and what is counted as failed is counted for the very application
    and interface the call was authorised and made for, a failure under the
    identifier it was sent with. What the timer took and what is still pending add
    up, for every application and interface, to the calls counted as answered. *)
Theorem served_and_counted `{SqlEngine} `{BlockCipher} `{RepeaterEnv} `{Network} tr s :
  0 < cache_timeout → Z.of_nat (length tr) ≤ max_int64 → execution tr s →
  (∀ i rq o, sy_requests s !! i = Some (rq, Done o) → o = Ret tt ∧ served i rq (story i tr)) ∧
  (∀ tr1 tr2 i t app iface cost, tr = tr1 ++ LSuccess i t app iface cost :: tr2 →
     ∃ rq p, sy_requests s !! i = Some (rq, p) ∧ counted_for i rq tr1 app iface None) ∧
  (∀ tr1 tr2 i t id app iface log, tr = tr1 ++ LFailed i t id app iface log :: tr2 →
     ∃ rq p, sy_requests s !! i = Some (rq, p) ∧ counted_for i rq tr1 app iface (Some id)) ∧
  ∀ app iface, counted app iface (taken tr) + pending app iface (rs_stats (sh_rest (sy_shared s))) =
    calls app iface (omap label_op tr).
Proof.
  intros Hpos Hlen He. split_and!.
  - intros i rq o Hi. destruct (execution_tells tr s He) as [Ht _]. exact (Ht i rq _ Hi).
  - intros tr1 tr2 i t app iface cost Htr.
    exact (execution_granted Hpos _ s He tr1 (LSuccess i t app iface cost) tr2 i Htr eq_refl).
  - intros tr1 tr2 i t id app iface log Htr.
    exact (execution_granted Hpos _ s He tr1 (LFailed i t id app iface log) tr2 i Htr eq_refl).
  - intros app iface. pose proof (stats_conserved (omap label_op tr) app iface) as Hc.
    rewrite (execution_books tr s He) in Hc. apply Hc.
    pose proof (omap_le label_op tr). lia.
Qed.

(** ** Schedules *)

(** Who goes next. *)
Inductive choice : Type :=
| CSpawn (req : Request)
| CTick (d nano : Z)
| CEvent (e : etcd_event)
| CDrain
| CStep (i : nat).

Section schedules.
Context `{SqlEngine} `{BlockCipher} `{RepeaterEnv} `{Network}.

Definition choose (c : choice) (s : system) : option (label * system) :=
  let '(mkSystem sh rs) := s in
  match c with
  | CSpawn req =>
      match r_path req with
      | String "/" _ => Some (LSpawn req, mkSystem sh (rs ++ [(req, p_ServeHTTP req)]))
      | _ => None
      end
  | CTick d nano =>
      if decide (0 ≤ d) then Some (LTick d nano, mkSystem (at_time (sh_now sh + d) nano sh) rs) else None
  | CEvent e => Some (LEvent e, mkSystem (with_apps (handle_event e) sh) rs)
  | CDrain =>
      let '(es, st) := entrys (rs_stats (sh_rest sh)) in Some (LDrain es, mkSystem (with_stats (λ _, st) sh) rs)
  | CStep i =>
      match rs !! i with
      | Some (req, Act a k) =>
          let '(o, sh') := run_atom a sh in
          Some (label_of i (sh_now sh) a o, mkSystem sh' (<[i := (req, k o)]> rs))
      | _ => None
      end
  end.

(** A choice that is not possible is skipped. *)
Fixpoint scheduled (cs : list choice) (tr : list label) (s : system) : list label * system :=
  match cs with
  | [] => (tr, s)
  | c :: cs => match choose c s with Some (l, s') => scheduled cs (tr ++ [l]) s' | None => scheduled cs tr s end
  end.

Lemma choose_step c s l s' : choose c s = Some (l, s') → system_step s l s'.
Proof.
  destruct s as [sh rs]. destruct c as [req|d nano|e| |i]; simpl.
  - destruct (r_path req) as [|c p] eqn:E; [done|]. intros Hc.
    assert (c = "/"%char ∧ (LSpawn req, mkSystem sh (rs ++ [(req, p_ServeHTTP req)])) = (l, s')) as [-> [= <- <-]].
    { destruct c as [[] [] [] [] [] [] [] []]; by inversion Hc. }
    apply step_spawn. rewrite E. vm_compute. lia.
  - destruct (decide (0 ≤ d)) as [Hd|]; [|done]. intros [= <- <-]. by apply step_tick.
  - intros [= <- <-]. apply step_event.
  - intros [= <- <-]. by apply step_drain.
  - destruct (rs !! i) as [[req [o|A a k]]|] eqn:E; [done| |done].
    destruct (run_atom a sh) as [o sh'] eqn:Er. intros [= <- <-].
    pose proof (step_request sh rs i req A a k E) as Hs. by rewrite Er in Hs.
Qed.

Lemma scheduled_execution cs tr s :
  execution tr s → execution (scheduled cs tr s).1 (scheduled cs tr s).2.
Proof.
  revert tr s. induction cs as [|c cs IH]; intros tr s He; [done|]. simpl.
  destruct (choose c s) as [[l s']|] eqn:E; apply IH; [|done].
  eapply exec_step; [done|]. by eapply choose_step.
Qed.
End schedules.

(** ** Concrete runs *)

Module Concurrent.
Import GatewayRuns.
#[local] Existing Instance Scripted.engine.
#[local] Existing Instance XorCipher.cipher.
#[local] Existing Instance GatewayRuns.env.
#[local] Existing Instance GatewayRuns.net.

(** Two requests with one token and one path take turns until both have been
    answered about the application; then the first goes on to its end, the timer
    takes its entry, and the second finds the rest in the cache. *)
Definition answers : list (goerror + list (list gval)) :=
  [inr [[VStr "shop"; VStr "a@b.c"]];
   inr [[VStr "shop"; VStr "a@b.c"]];
   inr [[VInt 3; VBool true; VInt 0]];
   inr [[VInt 8; VInt 0; VStr "http://backend/"; VStr "x@y.z"]];
   inr [[VInt 1]];
   inr []].

Definition start_system : system :=
  mkSystem (mkShared (Scripted.world answers []) true NewCache 1000 (mkRest newStatsCache ∅ (uuid_init None 1) 0)) [].

Definition choices : list choice :=
  [CSpawn req; CSpawn req] ++ mjoin (replicate 9 [CStep 0; CStep 1]) ++ replicate 60 (CStep 0) ++
  [CTick 5 7; CDrain] ++ replicate 60 (CStep 1).

Definition run_ : list label * system := scheduled choices [] start_system.

Definition is_query (l : label) : bool := match l with LQuery _ _ _ _ _ _ | LRows _ _ _ _ => true | _ => false end.

(** The calls of a run, with what precedes them. *)
Fixpoint forwards (before tr : list label) : list (list label * label * list label) :=
  match tr with
  | [] => []
  | l :: r =>
      (match l with LForward _ _ _ _ _ _ _ => [(before, l, r)] | _ => [] end) ++ forwards (before ++ [l]) r
  end.

(** The nth call that was forwarded. *)
Definition forward_of (n : nat) : list label * label * list label := default ([], LOther, []) (forwards [] run_.1 !! n).

Definition header_of (l : label) : gmap string (list string) := match l with LForward _ _ _ _ h _ _ => h | _ => ∅ end.

(** Both end, with six answers of the database between them, and are forwarded
    with one identifier, because they took turns on its buffer. *)
Example both_served :
  length (List.filter is_query run_.1) = 6%nat ∧
  snd <$> sy_requests run_.2 = [Done (Ret tt); Done (Ret tt)] ∧
  length (story 0 run_.1) = 4%nat ∧ length (story 1 run_.1) = 4%nat ∧
  header_get (header_of (forward_of 0).1.2) "Session" = "10000000002" ∧
  header_get (header_of (forward_of 1).1.2) "Session" = "10000000002".
Proof. vm_compute. repeat split. Qed.

(** The second call, which the cache let through. *)
Theorem forwarded_authorised_witness : ∃ tr1 tr2 header o,
  run_.1 = tr1 ++ LForward 1 1005 "GET" "http://backend/1" header "" o :: tr2 ∧
  authorised 1 req tr1 "GET" "http://backend/1" header "".
Proof.
  exists (forward_of 1).1.1, (forward_of 1).2, (header_of (forward_of 1).1.2), (Ret (12, inr ("pong", 200))).
  assert (Htr : run_.1 = (forward_of 1).1.1 ++
    LForward 1 1005 "GET" "http://backend/1" (header_of (forward_of 1).1.2) "" (Ret (12, inr ("pong", 200))) :: (forward_of 1).2)
    by (vm_compute; reflexivity).
  split; [exact Htr|].
  destruct (forwarded_authorised (forward_of 1).1.1 (forward_of 1).2 run_.2 1 1005 "GET" "http://backend/1"
    (header_of (forward_of 1).1.2) "" (Ret (12, inr ("pong", 200)))) as (rq & p & Hi & Ha).
  - reflexivity.
  - rewrite <-Htr. unfold run_. apply scheduled_execution. unfold start_system. apply exec_start.
  - assert (Hreq : fst <$> sy_requests run_.2 !! 1%nat = Some req) by (vm_compute; reflexivity).
    rewrite Hi in Hreq. injection Hreq as <-. exact Ha.
Defined.

Theorem served_and_counted_witness :
  served 1 req (story 1 run_.1) ∧
  counted 5 8 (taken run_.1) + pending 5 8 (rs_stats (sh_rest (sy_shared run_.2))) = 2.
Proof.
  destruct (served_and_counted run_.1 run_.2) as (Hserved & _ & _ & Hbooks).
  - reflexivity.
  - vm_compute. discriminate.
  - unfold run_. apply scheduled_execution. unfold start_system. apply exec_start.
  - split; [|rewrite Hbooks; vm_compute; reflexivity].
    apply (Hserved 1%nat req (Ret tt)). vm_compute. reflexivity.
Defined.
End Concurrent.
