(* ===== verification/Watcher.v ===== *)
(** * Watcher: the distributor's view of running services

    [distributor/watcher.go] follows the same key space as the repeater and,
    when a service comes up with a new version, reads its interface document and
    registers the interfaces with the manager; [distributor/project.go] makes
    the project key that ties a running service to its project. *)

From Stdlib Require Import ZArith Lia Ascii.
From stdpp Require Import base gmap strings list sorting.
From S2P Require Import Prelude GoStrings Crypto Registry Http Json Document.

(** ** [project.key] and [parseProjectID] *)

(** The AES key made of the configured secret: zero bytes up to the next multiple
    of eight, and eight of them if it is one already. *)
Definition pad_key (secret : list Z) : list Z :=
  secret ++ replicate (8 - length secret mod 8) 0.

Definition project_key `{BlockCipher} (secret : list Z) (id nano : Z) : string :=
  match AesEncrypt (bytes_of (hex id +:+ "." +:+ itoa nano)) (pad_key secret) with
  | Ret key => key
  | _ => ""
  end.

Definition parseProjectID `{BlockCipher} (secret : list Z) (key : string) : outcome Z :=
  buf ← AesDecrypt key (pad_key secret);
  Sscanf_hex_dot (string_of buf).

(** ** The manager's registration interface *)

(** [server.NewMethod]. *)
Definition NewMethod (m : string) : Z :=
  if decide (ToUpper m = "GET") then 0 else if decide (ToUpper m = "POST") then 1
  else if decide (ToUpper m = "PUT") then 2 else if decide (ToUpper m = "DELETE") then 3 else 4.

(** The body [interfaceRegister] posts. *)
Record registration := mkRegistration {
  reg_Name : string; reg_ProjectID : Z; reg_Version : Z; reg_Path : string; reg_Method : Z;
  reg_Backend : string; reg_Comment : string; reg_Attr : Method
}.

Definition registration_json (r : registration) : json :=
  JObj [("Name", JStr (reg_Name r)); ("ProjectID", JInt (reg_ProjectID r));
        ("Version", JInt (reg_Version r)); ("Path", JStr (reg_Path r)); ("Method", JInt (reg_Method r));
        ("Backend", JStr (reg_Backend r)); ("Comment", JStr (reg_Comment r));
        ("Attr", encode_method (reg_Attr r))].

(** The network: a service's document, decoded, in some iteration order of its
    modules and their methods. *)
Class Services := {
  get_document : string → Z → outcome (list (string * Module_))
}.

(** ** [watcher] *)

(** [service]: the version and the nodes by host. The node map is shared between
    the table and the copy a handler works on; it is only reached through the
    table. *)
Record service := mkSvc { svc_version : Z; svc_nodes : gmap string MicroAPP }.

(** [w.services], and the registrations sent so far. *)
Record watcher := mkWatcher {
  w_services : gmap string service;
  w_sent : list registration
}.

Section watcher.
Context `{BlockCipher} `{Services}.
Variable secret : list Z.

Definition method_registrations (backend : string) (projectID version : Z)
    (ok : string) (ov : Module_) : list registration :=
  (λ m, mkRegistration (ok +:+ "_" +:+ fst m) projectID version (mod_URL ov) (NewMethod (fst m))
          backend (m_Comment (snd m)) (snd m)) <$> mod_Methods ov.

(** The registrations of a service's document; an error of one is dropped. *)
Definition parseDocument (backend : string) (app : MicroAPP) : outcome (list registration) :=
  doc ← get_document (Host app) (Port app);
  projectID ← parseProjectID secret (ServiceKey app);
  match ParseInt (GitTime app) 10 with
  | (_, Some e) => Throw e
  | (version, None) =>
      Ret (p ← doc; method_registrations backend projectID version (fst p) (snd p))
  end.

Definition send (backend : string) (app : MicroAPP) (w : watcher) : outcome watcher :=
  match parseDocument backend app with
  | Ret rs => Ret (mkWatcher (w_services w) (w_sent w ++ rs))
  | Throw _ => Ret w
  | Panic p => Panic p
  end.

Definition online (backend : string) (app : MicroAPP) (w : watcher) : outcome watcher :=
  let o := default (mkSvc 0 ∅) (w_services w !! backend) in
  let nodes := <[Host app := app]> (svc_nodes o) in
  if decide (is_Some (w_services w !! backend) ∧ Version app ≤ svc_version o) then
    Ret (mkWatcher (<[backend := mkSvc (svc_version o) nodes]> (w_services w)) (w_sent w))
  else
    send backend app (mkWatcher (<[backend := mkSvc (Version app) nodes]> (w_services w)) (w_sent w)).

Definition offline (name host : string) (w : watcher) : watcher :=
  match w_services w !! name with
  | None => w
  | Some s => mkWatcher (<[name := mkSvc (svc_version s) (delete host (svc_nodes s))]> (w_services w)) (w_sent w)
  end.

Definition get (name host : string) (w : watcher) : MicroAPP :=
  match w_services w !! name with
  | None => zero_app
  | Some s => default zero_app (svc_nodes s !! host)
  end.

(** One turn of the loop of [start], and of [load]. *)
Definition watch_event (e : etcd_event) (w : watcher) : outcome watcher :=
  match e with
  | EventDelete key =>
      match parse_key key with None => Ret w | Some (name, host, _) => Ret (offline name host w) end
  | EventPut key value =>
      match parse_key key with None => Ret w | Some (name, _, _) => online name (app_Unmarshal value) w end
  end.

Fixpoint watch_events (es : list etcd_event) (w : watcher) : outcome watcher :=
  match es with
  | [] => Ret w
  | e :: r => w' ← watch_event e w; watch_events r w'
  end.

Definition watch_load (kvs : list (string * string)) (w : watcher) : outcome watcher :=
  watch_events ((λ kv, EventPut (fst kv) (snd kv)) <$> kvs) w.

Definition newWatcher : watcher := mkWatcher ∅ [].
End watcher.

(** ** Lemmas *)

Definition version_of (w : watcher) (b : string) : option Z := svc_version <$> w_services w !! b.

Lemma get_insert b s w sent name host :
  get name host (mkWatcher (<[b := s]> (w_services w)) sent) =
    if decide (name = b) then default zero_app (svc_nodes s !! host) else get name host w.
Proof.
  unfold get. simpl. destruct (decide (name = b)) as [->|Hn].
  - by rewrite lookup_insert_eq.
  - by rewrite lookup_insert_ne.
Qed.

Lemma get_nodes name host w :
  get name host w = default zero_app (svc_nodes (default (mkSvc 0 ∅) (w_services w !! name)) !! host).
Proof. unfold get. destruct (w_services w !! name); [done|]. simpl. by rewrite lookup_empty. Qed.

Lemma version_insert b s w sent b' :
  version_of (mkWatcher (<[b := s]> (w_services w)) sent) b' =
    if decide (b' = b) then Some (svc_version s) else version_of w b'.
Proof.
  unfold version_of. simpl. destruct (decide (b' = b)) as [->|Hn].
  - by rewrite lookup_insert_eq.
  - by rewrite lookup_insert_ne.
Qed.

Section watcher_lemmas.
Context `{BlockCipher} `{Services}.
Variable secret : list Z.

Lemma send_run b app w w' :
  send secret b app w = Ret w' →
  w_services w' = w_services w ∧
  ∃ rs, w_sent w' = (w_sent w ++ rs)%list ∧
        Forall (λ r, reg_Backend r = b ∧ reg_Version r = Version app) rs.
Proof.
  unfold send, parseDocument. intros Hs.
  destruct (get_document (Host app) (Port app)) as [doc| |]; cbn [mbind outcome_bind] in Hs; [| |done].
  2:{ injection Hs as <-. split; [done|]. exists []. by rewrite app_nil_r. }
  destruct (parseProjectID secret (ServiceKey app)) as [pid| |]; cbn [mbind outcome_bind] in Hs; [| |done].
  2:{ injection Hs as <-. split; [done|]. exists []. by rewrite app_nil_r. }
  unfold Version. destruct (ParseInt (GitTime app) 10) as [v [e|]]; injection Hs as <-.
  - split; [done|]. exists []. by rewrite app_nil_r.
  - simpl. split; [done|]. eexists. split; [done|]. simpl.
    induction doc as [|[ok ov] doc IH]; simpl; [constructor|]. apply Forall_app. split; [|exact IH].
    unfold method_registrations. simpl. induction (mod_Methods ov); constructor; auto.
Qed.

(** What a step does to the table and to what was sent. *)
Lemma online_run b app w w' :
  online secret b app w = Ret w' →
  (∀ name host, get name host w' =
     if decide (name = b ∧ host = Host app) then app else get name host w) ∧
  (∀ b', b' ≠ b → version_of w' b' = version_of w b') ∧
  ∃ v rs, version_of w' b = Some v ∧ w_sent w' = (w_sent w ++ rs)%list ∧
    (∀ v0, version_of w b = Some v0 → v0 ≤ v) ∧
    Forall (λ r, reg_Backend r = b ∧ reg_Version r = v) rs ∧
    (rs ≠ [] → v = Version app ∧ ∀ v0, version_of w b = Some v0 → v0 < v).
Proof.
  intros Ho. unfold online in Ho. set (o := default (mkSvc 0 ∅) (w_services w !! b)) in *.
  assert (Hget : ∀ v name host sent, get name host
      (mkWatcher (<[b := mkSvc v (<[Host app := app]> (svc_nodes o))]> (w_services w)) sent) =
      if decide (name = b ∧ host = Host app) then app else get name host w).
  { intros v name host sent. rewrite get_insert. destruct (decide (name = b)) as [->|Hn].
    - destruct (decide (host = Host app)) as [->|Hh].
      + simpl. rewrite lookup_insert_eq. by rewrite decide_True.
      + simpl. rewrite lookup_insert_ne by done. rewrite decide_False by naive_solver.
        by rewrite get_nodes.
    - by rewrite decide_False by naive_solver. }
  destruct (decide _) as [[Hsome Hle]|Hnew].
  - injection Ho as <-. destruct Hsome as [s Hs]. unfold o in *. rewrite Hs in *. simpl in *.
    split_and!; [intros; apply Hget|intros b' Hb; rewrite version_insert; by rewrite decide_False|].
    exists (svc_version s), []. rewrite version_insert, decide_True, app_nil_r by done. split_and!; try done.
    intros v0. unfold version_of. rewrite Hs. simpl. intros [= ->]. lia.
  - destruct (send_run _ _ _ _ Ho) as (Hsv & rs & Hsent & HF). simpl in *.
    assert (Hw' : w' = mkWatcher (<[b := mkSvc (Version app) (<[Host app := app]> (svc_nodes o))]>
        (w_services w)) (w_sent w')) by (destruct w'; simpl in *; by rewrite Hsv).
    rewrite Hw'. split_and!; [intros; apply Hget|intros b' Hb; rewrite version_insert; by rewrite decide_False|].
    exists (Version app), rs. rewrite version_insert, decide_True by done. simpl.
    assert (Hlt : ∀ v0, version_of w b = Some v0 → v0 < Version app).
    { intros v0 Hv0. unfold version_of in Hv0. unfold o in Hnew.
      destruct (w_services w !! b) as [s|]; [|done]. simpl in *. injection Hv0 as <-.
      destruct (decide (Version app ≤ svc_version s)); [|lia]. exfalso. apply Hnew. eauto. }
    split_and!; try done. intros v0 Hv0. specialize (Hlt v0 Hv0). lia.
Qed.

Lemma offline_run b h w :
  (∀ name host, get name host (offline b h w) =
     if decide (name = b ∧ host = h) then zero_app else get name host w) ∧
  (∀ b', version_of (offline b h w) b' = version_of w b') ∧ w_sent (offline b h w) = w_sent w.
Proof.
  unfold offline. destruct (w_services w !! b) as [s|] eqn:E.
  - split_and!; [|intros b'|done].
    + intros name host. rewrite get_insert. destruct (decide (name = b)) as [->|Hn].
      * destruct (decide (host = h)) as [->|Hh]; simpl.
        -- by rewrite lookup_delete_eq, decide_True.
        -- rewrite lookup_delete_ne by done. rewrite decide_False by naive_solver.
           unfold get. by rewrite E.
      * by rewrite decide_False by naive_solver.
    + rewrite version_insert. destruct (decide (b' = b)) as [->|]; [|done].
      unfold version_of. by rewrite E.
  - split_and!; [|done|done]. intros name host. destruct (decide _) as [[-> ->]|]; [|done].
    unfold get. by rewrite E.
Qed.

(** Registrations never run ahead of the table's version, and go up in order. *)
Definition in_order (w : watcher) : Prop :=
  Forall (λ r, ∃ v, version_of w (reg_Backend r) = Some v ∧ reg_Version r ≤ v) (w_sent w) ∧
  StronglySorted (λ r r', reg_Backend r = reg_Backend r' → reg_Version r ≤ reg_Version r') (w_sent w).

Lemma StronglySorted_app_2 {A} (R : A → A → Prop) (a b : list A) :
  StronglySorted R a → StronglySorted R b → (∀ x y, x ∈ a → y ∈ b → R x y) →
  StronglySorted R (a ++ b).
Proof.
  intros Ha Hb Hab. induction Ha as [|x a Ha IH Hx]; simpl; [done|]. constructor.
  - apply IH. intros y z Hy Hz. apply Hab; [by right|done].
  - apply Forall_app. split; [done|]. apply list.Forall_forall. intros y Hy. apply Hab; [by left|done].
Qed.

Lemma in_order_step e w w' : in_order w → watch_event secret e w = Ret w' → in_order w'.
Proof.
  intros [Hv Hs] He.
  assert (Hon : ∀ b app, online secret b app w = Ret w' → in_order w').
  { intros b app Ho. destruct (online_run b app w w' Ho) as (_ & Hother & v & rs & Hvb & Hsent & Hle & HF & _).
    assert (Hold : Forall (λ r, ∃ v, version_of w' (reg_Backend r) = Some v ∧ reg_Version r ≤ v) (w_sent w)).
    { eapply list.Forall_impl; [exact Hv|]. intros r (v0 & Hv0 & Hr).
      destruct (decide (reg_Backend r = b)) as [Hb|Hb].
      - rewrite Hb in *. exists v. split; [done|]. specialize (Hle v0 Hv0). lia.
      - exists v0. by rewrite Hother. }
    split; rewrite Hsent.
    - apply Forall_app. split; [done|]. eapply list.Forall_impl; [exact HF|].
      intros r [-> ->]. exists v. split; [done|lia].
    - apply StronglySorted_app_2; [done| |].
      + clear Hsent. induction HF as [|r rs [Hb Hr] HF IH]; constructor; [done|].
        eapply list.Forall_impl; [exact HF|]. intros r' [_ ->] _. lia.
      + intros x y Hx Hy Hxy. rewrite list.Forall_forall in HF, Hold.
        destruct (HF y Hy) as [Hyb ->]. destruct (Hold x Hx) as (v0 & Hv0 & Hxv).
        rewrite Hxy, Hyb, Hvb in Hv0. injection Hv0 as <-. done. }
  destruct e as [k val|k]; simpl in He; destruct (parse_key k) as [[[name host] port]|].
  - by eapply Hon.
  - by injection He as <-.
  - injection He as <-. destruct (offline_run name host w) as (_ & Hver & Hsent).
    split; rewrite Hsent; [|done]. eapply list.Forall_impl; [exact Hv|]. intros r. by rewrite Hver.
  - by injection He as <-.
Qed.
End watcher_lemmas.

(** ** Properties *)

Lemma length_pad_key secret : length (pad_key secret) = (8 * (length secret / 8) + 8)%nat.
Proof.
  pose proof (Nat.div_mod_eq (length secret) 8) as Hdm.
  pose proof (Nat.mod_upper_bound (length secret) 8 ltac:(lia)) as Hm.
  unfold pad_key. rewrite length_app, length_replicate. lia.
Qed.

(** The secrets that make a key. *)
Lemma pad_key_ok secret : key_ok (pad_key secret) ↔ (8 ≤ length secret < 32)%nat.
Proof.
  pose proof (Nat.div_mod_eq (length secret) 8) as Hdm.
  pose proof (Nat.mod_upper_bound (length secret) 8 ltac:(lia)) as Hm.
  unfold key_ok. rewrite length_pad_key. lia.
Qed.

Lemma parse_project_key `{BlockCipherLaws} secret id nano :
  bytes_ok secret → in_int64 id → (8 ≤ length secret < 32)%nat →
  parseProjectID secret (project_key secret id nano) = Ret id.
Proof.
  intros Hb Hid Hk%pad_key_ok.
  assert (Hpb : bytes_ok (pad_key secret)).
  { apply Forall_app. split; [done|]. apply Forall_replicate. unfold is_byte. lia. }
  unfold project_key, parseProjectID.
  destruct (aes_encrypt_total (pad_key secret) Hk Hpb
    (bytes_of (hex id +:+ "." +:+ itoa nano)) (bytes_of_ok _)) as (s & -> & Hd).
  rewrite Hd. cbn [mbind outcome_bind]. rewrite string_of_bytes_of. by apply Sscanf_hex.
Qed.

(** A project key leads back to its project: for every secret of 8 to 31
    bytes, the key [project.key] makes is decoded by [parseProjectID] to the
    project's id, at any time of issue; for any other length of the secret the
    key is empty. *)
Theorem project_key_roundtrip `{BlockCipherLaws} secret id nano :
  bytes_ok secret → in_int64 id →
  ((8 ≤ length secret < 32)%nat →
     parseProjectID secret (project_key secret id nano) = Ret id) ∧
  (¬ (8 ≤ length secret < 32)%nat → project_key secret id nano = "").
Proof.
  intros Hb Hid. split; [by apply parse_project_key|]. intros Hl. unfold project_key, AesEncrypt.
  by rewrite decide_False by by rewrite pad_key_ok.
Qed.

Theorem project_key_roundtrip_witness :
  parseProjectID (H := XorCipher.cipher) (bytes_of "1qaz@WSX") 
    (project_key (H := XorCipher.cipher) (bytes_of "1qaz@WSX") 17 1500000000) = Ret 17.
Proof.
  apply (project_key_roundtrip (H := XorCipher.cipher) (bytes_of "1qaz@WSX") 17 1500000000).
  - apply bytes_of_ok.
  - unfold in_int64, min_int64, max_int64. lia.
  - simpl. lia.
Defined.

Section watcher_properties.
Context `{BlockCipher} `{Services}.
Variable secret : list Z.

(** C25: interfaces are registered in order of version: in every run of the
    watcher, what was registered for a backend never has a higher version than
    the table holds for it, and later registrations of a backend never have a
    lower version than earlier ones. *)
Theorem registrations_in_order es w :
  watch_events secret es newWatcher = Ret w → in_order w.
Proof.
  assert (Hgen : ∀ w0, in_order w0 → watch_events secret es w0 = Ret w → in_order w).
  { induction es as [|e es IH]; intros w0 Hi Hr; simpl in Hr; [by injection Hr as <-|].
    destruct (watch_event secret e w0) as [w1| |] eqn:E; [|done..].
    cbn [mbind outcome_bind] in Hr. apply (IH w1); [by eapply in_order_step|done]. }
  apply Hgen. split; constructor.
Qed.

(** A service that comes up is found under its host with the data it
    announced, whether or not its version is new, and no other entry changes;
    its interfaces are registered only when the backend is new or the version
    increased. *)
Theorem online_spec b app w w' :
  online secret b app w = Ret w' →
  (∀ name host, get name host w' =
     if decide (name = b ∧ host = Host app) then app else get name host w) ∧
  (w_sent w' ≠ w_sent w →
     version_of w' b = Some (Version app) ∧ ∀ v0, version_of w b = Some v0 → v0 < Version app).
Proof.
  intros Ho. destruct (online_run secret b app w w' Ho) as (Hg & _ & v & rs & Hv & Hs & _ & _ & Hrs).
  split; [done|]. intros Hne. destruct Hrs as [-> Hlt].
  { intros ->. apply Hne. by rewrite Hs, app_nil_r. }
  done.
Qed.

(** Nodes are indexed by host alone. Of two instances of a service on one
    host, the departure of either removes both: the other can no longer be found
    though its key is still there. *)
Theorem departure_hides_other_port b a1 a2 w w1 w2 :
  Host a1 = Host a2 → Port a1 ≠ Port a2 →
  byte_in "/" (Host a1) = false →
  online secret b a1 w = Ret w1 → online secret b a2 w1 = Ret w2 →
  ∃ w3, watch_event secret (EventDelete (apiKey b (Host a1) (Port a1))) w2 = Ret w3 ∧
    get b (Host a2) w3 = zero_app.
Proof.
  intros Hh Hp Hb H1' H2'. eexists. split; [simpl; by rewrite parse_apiKey|].
  destruct (offline_run b (Host a1) w2) as (Hg & _). rewrite Hg. by rewrite decide_True.
Qed.

(** The watcher decrypts a key any instance can announce: a service whose
    document can be read and whose key makes [AesDecrypt] panic takes the
    watcher down. *)
Theorem bad_service_key_panics b app w doc :
  w_services w !! b = None → get_document (Host app) (Port app) = Ret doc →
  is_panic (AesDecrypt (ServiceKey app) (pad_key secret)) = true →
  is_panic (online secret b app w) = true.
Proof.
  intros Hn Hd Hp. unfold online. rewrite Hn. rewrite decide_False by (intros [[? ?] _]; done).
  unfold send, parseDocument. rewrite Hd. cbn [mbind outcome_bind]. unfold parseProjectID.
  by destruct (AesDecrypt (ServiceKey app) (pad_key secret)).
Qed.
End watcher_properties.

(** ** Concrete runs *)

Module WatcherRuns.
#[local] Existing Instance XorCipher.cipher.
#[local] Instance services : Services := {
  get_document _ _ := Ret [("User", mkModule "/main/User/" [("Get", mkMethod "c" None None)])]
}.
Definition secret := bytes_of "1qaz@WSX".
Definition up (v : string) : etcd_event :=
  EventPut "/api/faas/h/80" (app_String (mkMicroAPP (project_key secret 17 1) "h" 80 1 "" v "")).
Definition app (port : Z) (key : string) : MicroAPP := mkMicroAPP key "h" port 1 "" "1" "".

Definition state_of (o : outcome watcher) : watcher :=
  match o with Ret w => w | _ => newWatcher end.

(** A repeated version is not registered again; a new one is. *)
Example registers_each_version :
  reg_Version <$> w_sent (state_of (watch_events secret [up "1"; up "1"; up "2"] newWatcher)) = [1; 2].
Proof. vm_compute. reflexivity. Qed.

Theorem registrations_in_order_witness :
  in_order (state_of (watch_events secret [up "1"; up "1"; up "2"] newWatcher)).
Proof.
  apply (registrations_in_order secret [up "1"; up "1"; up "2"]). vm_compute. reflexivity.
Defined.

Theorem online_spec_witness :
  get "b" "h" (state_of (online secret "b" (app 80 "") newWatcher)) = app 80 "".
Proof.
  destruct (online_spec secret "b" (app 80 "") newWatcher
    (state_of (online secret "b" (app 80 "") newWatcher))) as [Hg _].
  - vm_compute. reflexivity.
  - rewrite Hg. reflexivity.
Defined.

Theorem departure_hides_other_port_witness :
  ∃ w3, watch_event secret (EventDelete (apiKey "b" "h" 80))
      (state_of (online secret "b" (app 81 "") (state_of (online secret "b" (app 80 "") newWatcher)))) = Ret w3 ∧
    get "b" "h" w3 = zero_app.
Proof.
  apply (departure_hides_other_port secret "b" (app 80 "") (app 81 "") newWatcher
    (state_of (online secret "b" (app 80 "") newWatcher)));
    [reflexivity|discriminate|reflexivity|vm_compute; reflexivity|vm_compute; reflexivity].
Defined.

Theorem bad_service_key_panics_witness :
  is_panic (online secret "b" (app 80 "YQ==") newWatcher) = true.
Proof.
  apply (bad_service_key_panics secret "b" (app 80 "YQ==") newWatcher
    [("User", mkModule "/main/User/" [("Get", mkMethod "c" None None)])]); vm_compute; reflexivity.
Defined.
End WatcherRuns.
