(* ===== verification/Watch.v ===== *)
(** * Watch: following the key space

    The goroutines between etcd and a table: [WatchPrefix] ([util/etcd/etcd.go])
    sends what the watcher of etcd reports through an unbuffered channel to the
    loop of [start], while [load] enters what was listed; [repeater/backend.go]
    and [distributor/watcher.go] have the same two functions and [Init] starts
    them in the same way. *)

From Stdlib Require Import ZArith Lia.
From stdpp Require Import base gmap strings list relations.
From S2P Require Import Prelude GoStrings Crypto Registry Watcher.

(** A response of the watcher of [clientv3]. *)
Record WatchResponse := mkWatchResponse { Canceled : bool; Events : list etcd_event }.

(** ** The goroutines *)

(** [WatchPrefix]: waiting for the next of the responses to come, after which
    the channel of the watcher is closed; sending the events of one; returned. *)
Inductive watch_prefix : Type :=
| PWait (rs : list WatchResponse)
| PSend (es : list etcd_event) (rs : list WatchResponse)
| PReturned.

(** The inner loop of [start]: receiving, or at work on an event. It would end, and
    the outer loop begin another watch, if the channel were closed, but
    [WatchPrefix] returns without closing it. *)
Inductive start_loop : Type :=
| SReceive
| SHandle (e : etcd_event).

Section watch.
(** The table, and what an event does to it under the lock. *)
Context {T : Type} (handle : T → etcd_event → T).

Record watching := mkWatching {
  wt_prefix : watch_prefix;
  wt_start : start_loop;
  wt_listed : list (string * string);
  wt_table : T
}.

(** What [load] enters for a key of the listing. *)
Definition listed_event (kv : string * string) : etcd_event := EventPut (fst kv) (snd kv).

Inductive watching_step : watching → watching → Prop :=
| step_response r rs c l t :
    Canceled r = false →
    watching_step (mkWatching (PWait (r :: rs)) c l t) (mkWatching (PSend (Events r) rs) c l t)
| step_canceled r rs c l t :
    Canceled r = true →
    watching_step (mkWatching (PWait (r :: rs)) c l t) (mkWatching PReturned c l t)
| step_closed c l t : watching_step (mkWatching (PWait []) c l t) (mkWatching PReturned c l t)
| step_sent rs c l t : watching_step (mkWatching (PSend [] rs) c l t) (mkWatching (PWait rs) c l t)
| step_send e es rs l t :
    watching_step (mkWatching (PSend (e :: es) rs) SReceive l t) (mkWatching (PSend es rs) (SHandle e) l t)
| step_handle p e l t :
    watching_step (mkWatching p (SHandle e) l t) (mkWatching p SReceive l (handle t e))
| step_load p c kv l t :
    watching_step (mkWatching p c (kv :: l) t) (mkWatching p c l (handle t (listed_event kv))).

(** [go bs.start()] and [bs.load()]: the responses that will come, the listing in
    the order the map iteration takes. *)
Definition watching_begin (rs : list WatchResponse) (listed : list (string * string)) (t : T) : watching :=
  mkWatching (PWait rs) SReceive listed t.

(** ** What is to be expected *)

(** The events up to the response that cancels the watch. *)
Fixpoint delivered (rs : list WatchResponse) : list etcd_event :=
  match rs with
  | [] => []
  | r :: rs => if Canceled r then [] else (Events r ++ delivered rs)%list
  end.

(** The watch is over, the loop still receives from its channel, and nobody will
    send or close it. *)
Definition deserted (s : watching) : Prop :=
  wt_prefix s = PReturned ∧ wt_start s = SReceive ∧ wt_listed s = [].

(** Two sequences of events, one among the other. *)
Inductive interleaved {A} : list A → list A → list A → Prop :=
| interleaved_nil : interleaved [] [] []
| interleaved_l x a b l : interleaved a b l → interleaved (x :: a) b (x :: l)
| interleaved_r x a b l : interleaved a b l → interleaved a (x :: b) (x :: l).

Definition response_size (r : WatchResponse) : nat := 2 + 2 * length (Events r).

Definition responses_size (rs : list WatchResponse) : nat := sum_list_with response_size rs.

(** The events a state still has to handle, and a bound on its steps. *)
Definition expected (s : watching) : list etcd_event :=
  (match wt_start s with SReceive => [] | SHandle e => [e] end ++
   match wt_prefix s with PWait rs => delivered rs | PSend es rs => es ++ delivered rs | PReturned => [] end)%list.

Definition steps_left (s : watching) : nat :=
  match wt_start s with SReceive => 0 | SHandle _ => 1 end + length (wt_listed s) +
  match wt_prefix s with
  | PWait rs => 1 + responses_size rs
  | PSend es rs => 2 + 2 * length es + responses_size rs
  | PReturned => 0
  end.

(** ** Lemmas *)

Lemma step_shorter s s' : watching_step s s' → (steps_left s' < steps_left s)%nat.
Proof.
  intros Hs. inversion Hs; unfold steps_left, responses_size, response_size; simpl; lia.
Qed.

Lemma steps_bounded n s s' : nsteps watching_step n s s' → (n ≤ steps_left s)%nat.
Proof.
  induction 1 as [s|n s1 s2 s3 H1 _ IH]; [lia|]. apply step_shorter in H1. lia.
Qed.

(** A step handles the first event expected, the first key listed, or nothing. *)
Lemma step_progress s s' :
  watching_step s s' →
  (wt_table s' = wt_table s ∧ expected s' = expected s ∧ wt_listed s' = wt_listed s) ∨
  (∃ e, expected s = e :: expected s' ∧ wt_listed s' = wt_listed s ∧ wt_table s' = handle (wt_table s) e) ∨
  (∃ kv, wt_listed s = kv :: wt_listed s' ∧ expected s' = expected s ∧
         wt_table s' = handle (wt_table s) (listed_event kv)).
Proof.
  intros Hs. destruct Hs as [r rs c l t Hc|r rs c l t Hc| | | | |]; unfold expected; simpl; try rewrite Hc; eauto 6.
Qed.

Lemma stuck_deserted s : (∃ s', watching_step s s') ∨ deserted s.
Proof.
  destruct s as [p c [|kv l] t]; [|left; eexists; apply step_load].
  destruct p as [[|r rs]|[|e es] rs|].
  - left. eexists. apply step_closed.
  - left. destruct (Canceled r) eqn:E; eexists; [by apply step_canceled|by apply step_response].
  - left. eexists. apply step_sent.
  - left. destruct c; eexists; [apply step_send|apply step_handle].
  - destruct c; [by right|left; eexists; apply step_handle].
Qed.

Lemma deserted_stuck s s' : deserted s → ¬ watching_step s s'.
Proof. intros (Hp & Hc & Hl) Hs. destruct Hs; simpl in *; congruence. Qed.

Lemma begin_expected rs l t : expected (watching_begin rs l t) = delivered rs.
Proof. done. Qed.

(** What was handled on the way to the end is all that was expected. *)
Lemma run_handles s s' :
  rtc watching_step s s' → deserted s' →
  ∃ es, interleaved (expected s) (listed_event <$> wt_listed s) es ∧ wt_table s' = foldl handle (wt_table s) es.
Proof.
  intros Hr Hd. induction Hr as [s|s1 s2 s3 H1 _ IH].
  - destruct Hd as (Hp & Hc & Hl). exists []. unfold expected. rewrite Hp, Hc, Hl. split; [constructor|done].
  - destruct (IH Hd) as (es & Hi & ->).
    destruct (step_progress _ _ H1) as [(-> & <- & <-)|[(e & -> & <- & ->)|(kv & -> & <- & ->)]].
    + by exists es.
    + exists (e :: es). split; [by constructor|done].
    + exists (listed_event kv :: es). split; [by constructor|done].
Qed.

(** C32: following the key space handles everything it is told, once, and then stops
    for good: every schedule of the watch, the loop and the load of the listing
    ends within a number of steps given by the responses and the listing; it can
    only stop when the loop waits at a channel that nobody sends to or closes,
    so that no second watch is ever begun; and the table is then what the listed
    keys, in their order, and the events up to the cancellation of the watch, in
    theirs, one among the other, make of it. *)
Theorem watch_ends_deserted rs listed t :
  let s0 := watching_begin rs listed t in
  (∀ n s, nsteps watching_step n s0 s → (n ≤ 1 + length listed + responses_size rs)%nat) ∧
  ∀ s, rtc watching_step s0 s →
    ((∀ s', ¬ watching_step s s') ↔ deserted s) ∧
    (deserted s → ∃ es, interleaved (delivered rs) (listed_event <$> listed) es ∧
                        wt_table s = foldl handle t es).
Proof.
  intros s0. split.
  - intros n s Hn. apply steps_bounded in Hn. unfold steps_left in Hn. simpl in Hn. lia.
  - intros s Hr. split; [|by intros Hd; apply (run_handles s0 s)].
    split; [|intros Hd s'; by apply deserted_stuck].
    intros Hno. destruct (stuck_deserted s) as [[s' Hs]|Hd]; [by destruct (Hno s')|done].
Qed.
End watch.

(** ** The two processes *)

(** The repeater: a table that was well formed stays so in every state. *)
Lemma repeater_watch_wf rs listed bs s :
  well_formed bs →
  rtc (watching_step (λ b e, handle_event e b)) (watching_begin rs listed bs) s → well_formed (wt_table s).
Proof.
  intros Hwf Hr. change bs with (wt_table (watching_begin rs listed bs)) in Hwf.
  induction Hr as [|s1 s2 s3 H1 _ IH]; [done|]. apply IH.
  destruct (step_progress _ _ _ H1) as [(-> & _)|[(e & _ & _ & ->)|(kv & _ & _ & ->)]];
    auto using handle_event_wf.
Qed.

(** The distributor, whose process a panic would end: the fold over the events is
    [watch_events]. *)
Lemma distributor_watch `{BlockCipher} `{Services} secret es w :
  foldl (λ o e, w ← o; watch_event secret e w) (Ret w) es = watch_events secret es w.
Proof.
  revert w. induction es as [|e es IH]; intros w; [done|]. simpl.
  destruct (watch_event secret e w) as [w'|err|p]; simpl; [apply IH|..];
    clear IH; induction es as [|e' es IH]; simpl; auto.
Qed.

(** ** Concrete runs *)

Module Watches.
Import RegistryRuns.

(** An instance comes up and the watch is cancelled: that the instance goes is
    never seen. *)
Definition responses : list WatchResponse :=
  [mkWatchResponse false [up]; mkWatchResponse true []; mkWatchResponse false [down]].

Example third_response_unseen : delivered responses = [up].
Proof. reflexivity. Qed.

Example watch_runs :
  ∃ s, rtc (watching_step (λ b e, handle_event e b)) (watching_begin responses [] ∅) s ∧ deserted s ∧
    wt_table s = handle_event up ∅.
Proof.
  eexists. split.
  - eapply rtc_l; [by apply step_response|]. eapply rtc_l; [apply step_send|].
    eapply rtc_l; [apply step_handle|]. eapply rtc_l; [apply step_sent|].
    eapply rtc_l; [by apply step_canceled|]. apply rtc_refl.
  - split; [by split_and!|done].
Qed.
End Watches.
