(* ===== verification/Config.v ===== *)
(** * Config: what the processes are configured with

    [crab/config], which reads an ini file into a struct of structs, the structs
    of the four [config.go] files, and the key tool of [cmd/sapper], which reads
    the repeater's. *)

From Stdlib Require Import ZArith Lia Ascii.
From stdpp Require Import base gmap strings list.
From S2P Require Import Prelude GoStrings Crypto Http Json Fmt SqlDB Registry Document Watcher.

(** ** Reading the file *)

(** [os] and [ioutil.ReadFile]. *)
Class FileSystem := ReadFile : string → outcome string.

Definition newline : ascii := "010"%char.

Definition configSplit (raw sep : string) : list string :=
  let i := Index raw sep in
  if decide (i > 0) then
    [TrimSpace (take_bytes (Z.to_nat i) raw); TrimSpace (drop_bytes (Z.to_nat (i + 1)) raw)]
  else [raw].

Definition makeKey (s k : string) : string := ToLower (TrimSpace s +:+ "/" +:+ TrimSpace k).

(** One line: the section it leaves one in, and the options so far. *)
Definition config_line (acc : string * gmap string string) (line : string) : string * gmap string string :=
  let '(s, kv) := acc in
  let line := TrimSpace line in
  if decide (len line < 3 ∨ HasPrefix line ";" = true ∨ HasPrefix line "#" = true) then (s, kv)
  else if decide (HasPrefix line "[" = true ∧ HasSuffix line "]" = true) then
    (take_bytes (String.length line - 2) (drop_bytes 1 line), kv)
  else
    match configSplit line "=" with
    | [k; v] => (s, <[makeKey s k := v]> kv)
    | _ => (s, kv)
    end.

Definition parse_config (dat : string) : gmap string string :=
  snd (foldl config_line ("", ∅) (Split newline dat)).

Definition NewConfig `{FileSystem} (path : string) : outcome (gmap string string) :=
  dat ← ReadFile path; Ret (parse_config dat).

(** ** Filling a struct *)

(** Integers of a width, 64 for [int] and [uint]; [COther] is every kind the
    reader refuses. Floating-point fields, which no configuration of the program
    has, are left out. *)
Inductive ckind : Type := CUint (w : Z) | CInt (w : Z) | CString | CBool | COther.

Inductive cval : Type := VNumber (z : Z) | VText (s : string) | VBool (b : bool).

Definition Errunsupported : goerror := ErrVar "config" "Errunsupported" "expect ptr data".
Definition ErrNotFound : goerror := ErrVar "config" "ErrNotFound" "key not found".

Definition max_uint64 : Z := 18446744073709551615.

Definition number_error (fn s msg : string) : goerror := Errorf ("strconv." +:+ fn +:+ ": parsing " +:+ s +:+ ": " +:+ msg).

(** [strconv.ParseUint(s, 10, 64)]. *)
Definition ParseUint (s : string) : Z * option goerror :=
  match s with
  | EmptyString => (0, Some (number_error "ParseUint" s "invalid syntax"))
  | _ =>
      match parse_digits 10 s 0 with
      | None => (0, Some (number_error "ParseUint" s "invalid syntax"))
      | Some n => if decide (max_uint64 < Z.of_N n) then (max_uint64, Some (number_error "ParseUint" s "value out of range")) else (Z.of_N n, None)
      end
  end.

(** [strconv.ParseBool]. *)
Definition ParseBool (s : string) : bool * option goerror :=
  if decide (s ∈ ["1"; "t"; "T"; "true"; "TRUE"; "True"]) then (true, None)
  else if decide (s ∈ ["0"; "f"; "F"; "false"; "FALSE"; "False"]) then (false, None)
  else (false, Some (number_error "ParseBool" s "invalid syntax")).

(** Storing into fewer bits keeps the low ones. *)
Definition wrap_unsigned (w z : Z) : Z := z mod 2 ^ w.
Definition wrap_signed (w z : Z) : Z := (z + 2 ^ (w - 1)) mod 2 ^ w - 2 ^ (w - 1).

(** [GetData]: the value a field gets. *)
Definition GetData (kv : gmap string string) (s k : string) (kind : ckind) (d : option cval) : outcome cval :=
  match kv !! makeKey s k with
  | None =>
      match d with
      | None => Throw (Annotatef ErrNotFound (s +:+ ":" +:+ k))
      | Some d => Ret d
      end
  | Some v =>
      match kind with
      | CUint w => match ParseUint v with (z, None) => Ret (VNumber (wrap_unsigned w z)) | (_, Some e) => Throw e end
      | CInt w => match ParseInt v 10 with (z, None) => Ret (VNumber (wrap_signed w z)) | (_, Some e) => Throw e end
      | CString => Ret (VText v)
      | CBool => match ParseBool v with (b, None) => Ret (VBool b) | (_, Some e) => Throw e end
      | COther => Throw Errunsupported
      end
  end.

(** Fields with their [default] tags, and the fields of the outer struct, which
    are structs or passed over, as are those neither exported nor embedded. *)
Record cfield := mkCField { cf_Name : string; cf_Kind : ckind; cf_default : string; cf_exported : bool }.
Record csection := mkCSection { cs_Name : string; cs_struct : option (list cfield); cs_exported : bool }.

Definition bad_assertion : string := "interface conversion: interface {} is int64, not uint64".

(** The value of a default. A width other than 64 makes the signed ones fail: the
    number read is asserted to be unsigned. *)
Definition default_value (v : string) (kind : ckind) : outcome (option cval) :=
  if decide (v = "") then Ret None else
  match kind with
  | CUint w => match ParseUint v with (z, None) => Ret (Some (VNumber (wrap_unsigned w z))) | (_, Some e) => Throw e end
  | CInt w =>
      if decide (w = 64) then
        match ParseInt v 10 with (z, None) => Ret (Some (VNumber z)) | (_, Some e) => Throw e end
      else Panic bad_assertion
  | CString => Ret (Some (VText v))
  | CBool => match ParseBool v with (b, None) => Ret (Some (VBool b)) | (_, Some e) => Throw e end
  | COther => Throw Errunsupported
  end.

Definition unexported_field : string := "reflect.Value.Interface: cannot return value obtained from unexported field or method".

(** The loop over the fields of a section: those before an error are set. *)
Fixpoint load_fields (kv : gmap string string) (s : string) (fs : list cfield) (old : list cval)
    : outcome unit * list cval :=
  match fs, old with
  | f :: fs', o :: old' =>
      match default_value (cf_default f) (cf_Kind f) with
      | Ret d =>
          if cf_exported f then
            match GetData kv s (cf_Name f) (cf_Kind f) d with
            | Ret v => let '(r, vs) := load_fields kv s fs' old' in (r, v :: vs)
            | Throw e => (Throw e, old)
            | Panic p => (Panic p, old)
            end
          else (Panic unexported_field, old)
      | Throw e => (Throw e, old)
      | Panic p => (Panic p, old)
      end
  | _, _ => (Ret tt, old)
  end.

Fixpoint load_sections (kv : gmap string string) (secs : list csection) (old : list (list cval))
    : outcome unit * list (list cval) :=
  match secs, old with
  | c :: secs', o :: old' =>
      match cs_exported c, cs_struct c with
      | true, Some fs =>
          match load_fields kv (cs_Name c) fs o with
          | (Ret _, vs) => let '(r, vss) := load_sections kv secs' old' in (r, vs :: vss)
          | (r, vs) => (r, vs :: old')
          end
      | _, _ => let '(r, vss) := load_sections kv secs' old' in (r, o :: vss)
      end
  | _, _ => (Ret tt, old)
  end.

(** [LoadConfig] of a pointer to a struct. *)
Definition LoadConfig `{FileSystem} (path : string) (secs : list csection) (old : list (list cval))
    : outcome unit * list (list cval) :=
  match NewConfig path with
  | Ret kv => load_sections kv secs old
  | Throw e => (Throw e, old)
  | Panic p => (Panic p, old)
  end.

(** ** The configurations of the program *)

Definition int_field (n : string) : cfield := mkCField n (CInt 64) "" true.
Definition string_field (n : string) : cfield := mkCField n CString "" true.
Definition section (n : string) (fs : list cfield) : csection := mkCSection n (Some fs) true.

Definition dbConfig : list cfield :=
  [string_field "IP"; int_field "Port"; string_field "Name"; string_field "User"; string_field "Passwd"; string_field "Charset"].

Definition repeaterConfig : list csection :=
  [section "Cache" [int_field "Timeout"]; section "Server" [int_field "Timeout"; string_field "SecretKey"];
   section "DB" dbConfig; section "ETCD" [string_field "Hosts"]].

Definition managerConfig : list csection :=
  [section "Server" [string_field "Domain"; string_field "WebPath"]; section "DB" dbConfig;
   section "ETCD" [string_field "Hosts"]; section "RBAC" [string_field "Host"; string_field "Token"];
   section "SSO" [string_field "Domain"; string_field "Key"]; section "Cache" [int_field "Timeout"]].

Definition distributorConfig : list csection :=
  [section "Server" [int_field "Timeout"; string_field "Domain"; string_field "Script"; string_field "BuildPath";
     string_field "SecretKey"];
   section "DB" dbConfig; section "ETCD" [string_field "Hosts"]; section "Manager" [string_field "URL"];
   section "SSH" [string_field "Key"]].

Definition rbacConfig : list csection := [section "Server" [int_field "Timeout"]; section "DB" dbConfig].

(** The zero value of a configuration. *)
Definition zero_cval (k : ckind) : cval :=
  match k with CUint _ | CInt _ => VNumber 0 | CBool => VBool false | _ => VText "" end.

Definition zero_config (secs : list csection) : list (list cval) :=
  (λ c, (λ f, zero_cval (cf_Kind f)) <$> default [] (cs_struct c)) <$> secs.

(** Where an option of a loaded configuration is. *)
Definition text_at (vs : list (list cval)) (i j : nat) : string :=
  match vs !! i ≫= (λ fs, fs !! j) with Some (VText s) => s | _ => "" end.

(** ** [cmd/sapper]

    [parseServiceKey]: the secret is that of the repeater's configuration; when
    there is none the answer is project 0, without an error. *)
Definition parseServiceKey `{FileSystem} `{BlockCipher} (path key : string) : outcome Z :=
  match LoadConfig path repeaterConfig (zero_config repeaterConfig) with
  | (Throw _, _) => Ret 0
  | (Panic p, _) => Panic p
  | (Ret _, vs) => parseProjectID (bytes_of (text_at vs 1 1)) key
  end.

(** ** Lemmas: lines *)

(** A text that starts and ends with something. *)
Definition trimmed (s : string) : Prop := TrimSpace s = s.

Lemma length_rev_string s acc : String.length (rev_string s acc) = (String.length s + String.length acc)%nat.
Proof. revert acc. induction s as [|a s IH]; intros acc; simpl; [done|]. rewrite IH. simpl. lia. Qed.

Lemma rev_string_app s acc : rev_string s acc = rev_string s "" +:+ acc.
Proof.
  revert acc. induction s as [|a s IH]; intros acc; [done|]. simpl. rewrite IH, (IH (String a "")).
  by rewrite <-str_app_assoc.
Qed.

Lemma rev_string_twice s : rev_string (rev_string s "") "" = s.
Proof.
  assert (Hg : ∀ s acc, rev_string (rev_string s acc) "" = rev_string acc s).
  { intros s0. induction s0 as [|a s0 IH]; intros acc; simpl; [done|]. by rewrite IH. }
  apply Hg.
Qed.

Lemma rev_string_cat a b : rev_string (a +:+ b) "" = rev_string b "" +:+ rev_string a "".
Proof.
  induction a as [|x a IH]; [by rewrite str_app_nil_r|]. rewrite str_app_cons. simpl.
  by rewrite (rev_string_app (a +:+ b) (String x "")), IH, (rev_string_app a (String x "")), str_app_assoc.
Qed.

Lemma trim_left_length s : (String.length (trim_left s) ≤ String.length s)%nat.
Proof. induction s as [|a s IH]; simpl; [done|]. destruct (is_space a); simpl; lia. Qed.

Lemma trim_left_same s : String.length (trim_left s) = String.length s → trim_left s = s.
Proof.
  destruct s as [|a s]; simpl; [done|]. destruct (is_space a); [|done]. intros He.
  pose proof (trim_left_length s). lia.
Qed.

(** Nothing is cut on either side. *)
Lemma trimmed_sides s : trimmed s ↔ trim_left s = s ∧ trim_left (rev_string s "") = rev_string s "".
Proof.
  unfold trimmed, TrimSpace. split.
  - intros He. assert (Hl := f_equal String.length He). rewrite length_rev_string in Hl. simpl in Hl.
    pose proof (trim_left_length (rev_string (trim_left s) "")) as H1. rewrite length_rev_string in H1. simpl in H1.
    pose proof (trim_left_length s) as H2.
    assert (Hs : trim_left s = s) by (apply trim_left_same; lia). split; [done|]. rewrite Hs in *.
    apply trim_left_same. rewrite length_rev_string. simpl. lia.
  - intros [Hl Hr]. by rewrite Hl, Hr, rev_string_twice.
Qed.

Lemma trim_left_app a b : a ≠ "" → trim_left a = a → trim_left (a +:+ b) = a +:+ b.
Proof.
  destruct a as [|x a]; [done|]. intros _. rewrite str_app_cons. simpl. destruct (is_space x) eqn:E; [|done].
  intros He. exfalso. pose proof (trim_left_length a) as Hl. rewrite He in Hl. simpl in Hl. lia.
Qed.

Lemma trimmed_app a b : a ≠ "" → b ≠ "" → trim_left a = a → trim_left (rev_string b "") = rev_string b "" → trimmed (a +:+ b).
Proof.
  intros Ha Hb Hl Hr. apply trimmed_sides. split; [by apply trim_left_app|].
  rewrite rev_string_cat. apply trim_left_app; [|done]. intros He.
  assert (Hlen := length_rev_string b ""). rewrite He in Hlen. simpl in Hlen. destruct b; [done|]. simpl in Hlen. lia.
Qed.

Lemma alnum_not_space c : alnum c = true → is_space c = false.
Proof.
  unfold alnum, is_space. rewrite bool_decide_eq_true, bool_decide_eq_false. intros Hc Hs.
  repeat (apply elem_of_cons in Hs as [Hs|Hs]; [lia|]). by apply elem_of_nil in Hs.
Qed.

Lemma all_alnum_app a b : all_alnum (a +:+ b) = all_alnum a && all_alnum b.
Proof. induction a as [|x a IH]; [done|]. rewrite str_app_cons. simpl. by rewrite IH, andb_assoc. Qed.

Lemma all_alnum_rev s : all_alnum s = true → all_alnum (rev_string s "") = true.
Proof.
  induction s as [|a s IH]; [done|]. simpl. intros [Ha Hs]%andb_prop. rewrite rev_string_app, all_alnum_app, IH by done.
  simpl. by rewrite Ha.
Qed.

Lemma alnum_left s : all_alnum s = true → trim_left s = s.
Proof. destruct s as [|a s]; [done|]. simpl. intros [Ha _]%andb_prop. by rewrite alnum_not_space. Qed.

Lemma word_trimmed s : all_alnum s = true → trimmed s.
Proof. intros Hs. apply trimmed_sides. split; apply alnum_left; [done|by apply all_alnum_rev]. Qed.

Lemma word_no_byte c s : all_alnum s = true → alnum c = false → byte_in c s = false.
Proof.
  intros Hs Hc. induction s as [|a s IH]; [done|]. simpl in *. apply andb_prop in Hs as [Ha Hs].
  rewrite IH by done. rewrite bool_decide_false; [done|]. intros ->. congruence.
Qed.

Lemma Index_byte a b c : byte_in c a = false → Index (a +:+ String c b) (String c "") = len a.
Proof.
  assert (Hg : ∀ n a, byte_in c a = false → index_from n (a +:+ String c b) (String c "") = n + len a).
  { intros n a0. revert n. induction a0 as [|x a0 IH]; intros n Ha.
    - change ("" +:+ String c b) with (String c b). cbn [index_from HasPrefix]. rewrite bool_decide_true by done.
      destruct b; simpl; unfold len; simpl; lia.
    - rewrite str_app_cons. simpl in Ha. apply orb_false_iff in Ha as [Hx Ha]. apply bool_decide_eq_false in Hx.
      cbn [index_from HasPrefix]. rewrite bool_decide_false by congruence. cbn [andb]. rewrite IH by done.
      unfold len. simpl. lia. }
  intros Ha. unfold Index. rewrite Hg by done. lia.
Qed.

(** A line is split at the first sign of equality. *)
Lemma configSplit_option k v :
  k ≠ "" → byte_in "=" k = false → trimmed k → trimmed v → configSplit (k +:+ "=" +:+ v) "=" = [k; v].
Proof.
  intros Hne Hk Htk Htv. unfold configSplit. change ("=" +:+ v) with (String "=" v). rewrite Index_byte by done.
  rewrite decide_True by (destruct k; [done|unfold len; simpl; lia]).
  assert (Hz : Z.to_nat (len k) = String.length k) by (unfold len; lia).
  assert (Hz1 : Z.to_nat (len k + 1) = String.length (k +:+ "=")) by (rewrite length_str_app; unfold len; simpl; lia).
  rewrite Hz, Hz1, take_bytes_app. change (String "=" v) with ("=" +:+ v). rewrite str_app_assoc, drop_bytes_app.
  by rewrite Htk, Htv.
Qed.

Lemma Split_lines ls :
  Forall (λ l, byte_in newline l = false) ls →
  Split newline (foldr (λ l acc, l +:+ String newline acc) "" ls) = (ls ++ [""])%list.
Proof. induction 1 as [|l ls Hl _ IH]; [done|]. cbn [foldr]. by rewrite Split_app, Split_nosep, IH. Qed.

(** ** Configurations written out *)

Definition value_text (v : cval) : string :=
  match v with VNumber z => itoa z | VText s => s | VBool b => if b then "true" else "false" end.

Definition option_line (f : cfield) (v : cval) : string := cf_Name f +:+ "=" +:+ value_text v.

Definition section_lines (c : csection) (vs : list cval) : list string :=
  ("[" +:+ cs_Name c +:+ "]") :: zip_with option_line (default [] (cs_struct c)) vs.

Definition config_lines (secs : list csection) (vals : list (list cval)) : list string :=
  concat (zip_with section_lines secs vals).

Definition config_text (secs : list csection) (vals : list (list cval)) : string :=
  foldr (λ l acc, l +:+ String newline acc) "" (config_lines secs vals).

Definition word (s : string) : Prop := s ≠ "" ∧ all_alnum s = true.

(** Values that have a place in an ini file: numbers, and texts of one line
    without space around them; a line has at least three bytes. *)
Definition writable_value (name : string) (k : ckind) (v : cval) : Prop :=
  match k, v with
  | CInt w, VNumber z => w = 64 ∧ in_int64 z
  | CString, VText s => trimmed s ∧ byte_in newline s = false ∧ (s ≠ "" ∨ (2 ≤ String.length name)%nat)
  | CBool, VBool _ => True
  | _, _ => False
  end.

Definition writable (f : cfield) (v : cval) : Prop :=
  word (cf_Name f) ∧ cf_exported f = true ∧ cf_default f = "" ∧ writable_value (cf_Name f) (cf_Kind f) v.

Definition writable_section (c : csection) (vs : list cval) : Prop :=
  word (cs_Name c) ∧ cs_exported c = true ∧ ∃ fs, cs_struct c = Some fs ∧ Forall2 writable fs vs.

Definition section_keys (c : csection) : list string :=
  (λ f, makeKey (cs_Name c) (cf_Name f)) <$> default [] (cs_struct c).

Definition config_keys (secs : list csection) : list string := concat (section_keys <$> secs).

Lemma word_first s : word s → ∃ a r, s = String a r ∧ alnum a = true ∧ all_alnum r = true.
Proof. intros [Hne Hs]. destruct s as [|a r]; [done|]. simpl in Hs. apply andb_prop in Hs as [Ha Hr]. by exists a, r. Qed.


Lemma byte_in_rev c s : byte_in c (rev_string s "") = byte_in c s.
Proof.
  induction s as [|a s IH]; [done|]. simpl. rewrite rev_string_app, byte_in_app, IH. simpl.
  by rewrite orb_false_r, orb_comm.
Qed.

Lemma no_space_trimmed s : (∀ c, is_space c = true → byte_in c s = false) → trimmed s.
Proof.
  intros Hs.
  assert (Hl : ∀ u, (∀ c, is_space c = true → byte_in c u = false) → trim_left u = u).
  { intros [|a u] Hu; [done|]. simpl. destruct (is_space a) eqn:E; [|done]. specialize (Hu a E). simpl in Hu.
    by rewrite bool_decide_true in Hu. }
  apply trimmed_sides. split; apply Hl; [done|]. intros c Hc. by rewrite byte_in_rev, Hs.
Qed.

Lemma itoa_no_byte z c : is_space c = true → byte_in c (itoa z) = false.
Proof.
  intros Hc. destruct c as [[] [] [] [] [] [] [] []]; first [discriminate Hc|by apply render_Z_no_byte].
Qed.

Lemma itoa_nonempty z : itoa z ≠ "".
Proof.
  unfold itoa, render_Z. destruct (decide (z < 0)); [done|].
  destruct (render_N_nonempty 10 (Z.to_N z)) as (a & r & ->). done.
Qed.

(** The text of a value: one line, trimmed, long enough. *)
Lemma value_text_ok name k v :
  word name → writable_value name k v →
  trimmed (value_text v) ∧ byte_in newline (value_text v) = false ∧
  (3 ≤ String.length (name +:+ "=" +:+ value_text v))%nat.
Proof.
  intros [Hne _] Hw. rewrite !length_str_app. cbn [String.length].
  assert (Hn : (1 ≤ String.length name)%nat) by (destruct name; [done|simpl; lia]).
  destruct k, v as [z|s|[]]; try done; cbn [value_text].
  - split_and!; [apply no_space_trimmed; by apply itoa_no_byte|by apply itoa_no_byte|].
    pose proof (itoa_nonempty z). destruct (itoa z); [done|simpl; lia].
  - destruct Hw as (Ht & Hb & Hl). split_and!; [done|done|]. destruct Hl as [Hs|Hs]; [destruct s; [done|simpl; lia]|lia].
  - split_and!; [apply no_space_trimmed; intros c; by destruct c as [[] [] [] [] [] [] [] []]|done|simpl; lia].
  - split_and!; [apply no_space_trimmed; intros c; by destruct c as [[] [] [] [] [] [] [] []]|done|simpl; lia].
Qed.

Lemma HasPrefix_byte c a r : HasPrefix (String a r) (String c "") = bool_decide (c = a).
Proof. simpl. destruct r; apply andb_true_r. Qed.

Lemma option_run s kv f v :
  writable f v →
  config_line (s, kv) (option_line f v) = (s, <[makeKey s (cf_Name f) := value_text v]> kv).
Proof.
  intros (Hw & _ & _ & Hv). destruct (value_text_ok _ _ _ Hw Hv) as (Ht & _ & Hlen).
  destruct (word_first _ Hw) as (a & r & En & Ha & _). destruct Hw as [Hne Hal].
  assert (Htl : trimmed (option_line f v)).
  { unfold option_line. destruct (decide (value_text v = "")) as [->|Hvt].
    - apply trimmed_app; [done|done|by apply alnum_left|done].
    - rewrite str_app_assoc. apply trimmed_sides in Ht as [_ Hr].
      apply trimmed_app; [by destruct (cf_Name f)|done| |done].
      apply trim_left_app; [done|by apply alnum_left]. }
  assert (Hfirst : ∀ c, alnum c = false → HasPrefix (option_line f v) (String c "") = false).
  { intros c Hc. unfold option_line. rewrite En, str_app_cons, HasPrefix_byte, bool_decide_false; [done|]. congruence. }
  unfold config_line. rewrite Htl, decide_False, decide_False.
  - unfold option_line. rewrite configSplit_option; [done|done|by apply word_no_byte|by apply word_trimmed|done].
  - intros [Hp _]. by rewrite Hfirst in Hp.
  - unfold option_line in *. unfold len. intros [Hl|[Hp|Hp]]; [lia|by rewrite Hfirst in Hp..].
Qed.

Lemma section_run s kv c : word (cs_Name c) → config_line (s, kv) ("[" +:+ cs_Name c +:+ "]") = (cs_Name c, kv).
Proof.
  intros [Hne Hal]. set (n := cs_Name c) in *. clearbody n.
  assert (Ht : trimmed ("[" +:+ (n +:+ "]"))).
  { rewrite str_app_assoc. apply trimmed_app; done. }
  assert (Hlen : String.length ("[" +:+ (n +:+ "]")) = S (S (String.length n))).
  { rewrite !length_str_app. simpl. lia. }
  unfold config_line. rewrite Ht, decide_False, decide_True.
  - rewrite Hlen. f_equal. change (drop_bytes 1 ("[" +:+ (n +:+ "]"))) with (n +:+ "]").
    replace (S (S (String.length n)) - 2)%nat with (String.length n) by lia. by rewrite take_bytes_app.
  - split; [by rewrite HasPrefix_app|]. unfold HasSuffix. rewrite str_app_assoc, rev_string_cat.
    apply HasPrefix_app.
  - unfold len. rewrite Hlen. rewrite str_app_cons, !HasPrefix_byte. destruct n; [done|]. simpl. intros [?|[?|?]]; [lia|done..].
Qed.

Definition put (kv : gmap string string) (e : string * string) : gmap string string := <[fst e := snd e]> kv.

(** The options of a section, and of all of them. *)
Definition section_entries (c : csection) (vs : list cval) : list (string * string) :=
  zip_with (λ f v, (makeKey (cs_Name c) (cf_Name f), value_text v)) (default [] (cs_struct c)) vs.

Definition config_entries (secs : list csection) (vals : list (list cval)) : list (string * string) :=
  concat (zip_with section_entries secs vals).

Lemma lines_run secs vals s kv :
  Forall2 writable_section secs vals →
  ∃ s', foldl config_line (s, kv) (config_lines secs vals) = (s', foldl put kv (config_entries secs vals)).
Proof.
  intros HF. revert s kv. induction HF as [|c vs secs vals (Hw & _ & fs & Hfs & Hvs) HF IH]; intros s kv; [by exists s|].
  unfold config_lines, config_entries in *. cbn [zip_with concat]. rewrite !foldl_app.
  assert (Hsec : foldl config_line (s, kv) (section_lines c vs) = (cs_Name c, foldl put kv (section_entries c vs))).
  { unfold section_lines, section_entries. rewrite Hfs. cbn [foldl default from_option Datatypes.id]. rewrite section_run by done.
    clear Hfs s. revert kv. induction Hvs as [|f v fs vs Hf Hvs IHf]; intros kv; [done|].
    cbn [zip_with foldl]. rewrite option_run by done. apply IHf. }
  rewrite Hsec. apply IH.
Qed.

Lemma config_keys_entries secs vals :
  Forall2 writable_section secs vals → (config_entries secs vals).*1 = config_keys secs.
Proof.
  induction 1 as [|c vs secs vals (_ & _ & fs & Hfs & Hvs) HF IH]; [done|].
  unfold config_entries, config_keys in *. cbn [zip_with concat fmap list_fmap]. rewrite fmap_app, IH. f_equal.
  unfold section_entries, section_keys. rewrite Hfs. cbn [default from_option Datatypes.id].
  clear Hfs. induction Hvs as [|f v fs vs _ _ IHf]; [done|]. cbn [zip_with fmap list_fmap fst]. exact (f_equal (cons _) IHf).
Qed.

Lemma put_other k es kv : k ∉ es.*1 → foldl put kv es !! k = kv !! k.
Proof.
  revert kv. induction es as [|[k' v] es IH]; intros kv Hk; [done|]. rewrite fmap_cons, not_elem_of_cons in Hk.
  destruct Hk as [Hne Hk]. cbn [foldl]. rewrite IH by done. unfold put. by rewrite lookup_insert_ne.
Qed.

Lemma put_entry k v es kv : NoDup es.*1 → (k, v) ∈ es → foldl put kv es !! k = Some v.
Proof.
  revert kv. induction es as [|[k' v'] es IH]; intros kv Hn Hin; [by apply elem_of_nil in Hin|].
  rewrite fmap_cons in Hn. apply list.NoDup_cons in Hn as [Hk Hn].
  apply elem_of_cons in Hin as [[= <- <-]|Hin]; cbn [foldl]; [|by apply IH].
  rewrite put_other by done. apply lookup_insert_eq.
Qed.

Lemma config_lines_plain secs vals :
  Forall2 writable_section secs vals → Forall (λ l, byte_in newline l = false) (config_lines secs vals).
Proof.
  induction 1 as [|c vs secs vals ([_ Hal] & _ & fs & Hfs & Hvs) HF IH]; [constructor|].
  unfold config_lines in *. cbn [zip_with concat]. apply Forall_app. split; [|exact IH].
  unfold section_lines. rewrite Hfs. cbn [default from_option Datatypes.id]. constructor.
  - rewrite !byte_in_app. by rewrite (word_no_byte newline _ Hal).
  - clear Hfs. induction Hvs as [|f v fs vs (Hw & _ & _ & Hv) _ IHf]; [constructor|]. constructor; [|exact IHf].
    unfold option_line. rewrite !byte_in_app. destruct (value_text_ok _ _ _ Hw Hv) as (_ & Hb & _).
    rewrite Hb, (word_no_byte newline _ (proj2 Hw)) by done. done.
Qed.

(** What is read of a configuration that was written out. *)
Lemma parse_config_text secs vals k v :
  Forall2 writable_section secs vals → NoDup (config_keys secs) →
  (k, v) ∈ config_entries secs vals → parse_config (config_text secs vals) !! k = Some v.
Proof.
  intros HF Hn Hin. unfold parse_config, config_text. rewrite Split_lines by by apply config_lines_plain.
  rewrite foldl_app. destruct (lines_run secs vals "" ∅ HF) as (s & ->).
  change (foldl config_line (s, ?kv) [""]) with (config_line (s, kv) ""). unfold config_line.
  rewrite decide_True by (left; unfold len; simpl; lia).
  apply put_entry; [|done]. by rewrite config_keys_entries.
Qed.

Lemma wrap_signed_64 z : in_int64 z → wrap_signed 64 z = z.
Proof.
  intros [Hlo Hhi]. unfold wrap_signed. unfold min_int64, max_int64 in *.
  rewrite Z.mod_small; lia.
Qed.

Lemma GetData_written kv s f v :
  writable f v → kv !! makeKey s (cf_Name f) = Some (value_text v) →
  GetData kv s (cf_Name f) (cf_Kind f) None = Ret v.
Proof.
  intros (_ & _ & _ & Hv) Hk. unfold GetData. rewrite Hk. destruct (cf_Kind f), v as [z|t|b]; try done; cbn [value_text].
  - destruct Hv as [-> Hz]. change (ParseInt (itoa z) 10) with (Atoi (itoa z)). rewrite Atoi_itoa by done.
    by rewrite wrap_signed_64.
  - by destruct b.
Qed.

Lemma load_fields_written kv s fs vs old :
  Forall2 writable fs vs → length old = length fs →
  Forall2 (λ f v, kv !! makeKey s (cf_Name f) = Some (value_text v)) fs vs →
  load_fields kv s fs old = (Ret tt, vs).
Proof.
  intros HF. revert old. induction HF as [|f v fs vs Hf HF IH]; intros [|o old] Hl Hk; try done.
  apply Forall2_cons_1 in Hk as [Hk Hks]. cbn [load_fields].
  pose proof Hf as (_ & He & Hd & _). unfold default_value. rewrite Hd, decide_True, He by done.
  rewrite (GetData_written kv s f v) by done. injection Hl as Hl. by rewrite (IH old Hl Hks).
Qed.

(** A configuration has the shape of another. *)
Definition same_shape (secs : list csection) (old : list (list cval)) : Prop :=
  Forall2 (λ c o, length o = length (default [] (cs_struct c))) secs old.

Lemma load_sections_written kv secs vals old :
  Forall2 writable_section secs vals → same_shape secs old →
  (∀ k v, (k, v) ∈ config_entries secs vals → kv !! k = Some v) →
  load_sections kv secs old = (Ret tt, vals).
Proof.
  intros HF. revert old. induction HF as [|c vs secs vals (Hw & He & fs & Hfs & Hvs) HF IH]; intros old Hs Hk.
  { by apply Forall2_nil_inv_l in Hs as ->. }
  apply Forall2_cons_inv_l in Hs as (o & old' & Ho & Hs & ->). cbn [load_sections]. rewrite He, Hfs.
  rewrite Hfs in Ho. cbn [default from_option Datatypes.id] in Ho.
  rewrite (load_fields_written kv (cs_Name c) fs vs o Hvs Ho).
  - rewrite (IH old' Hs); [done|]. intros k v Hin. apply Hk. unfold config_entries. cbn [zip_with concat].
    apply elem_of_app. by right.
  - assert (Hk1 : ∀ k v, (k, v) ∈ section_entries c vs → kv !! k = Some v).
    { intros k v Hin. apply Hk. unfold config_entries. cbn [zip_with concat]. apply elem_of_app. by left. }
    unfold section_entries in Hk1. rewrite Hfs in Hk1. cbn [default from_option Datatypes.id] in Hk1.
    clear Hk Hfs Ho. induction Hvs as [|f v fs vs Hf Hvs IHf]; [constructor|]. cbn [zip_with] in Hk1.
    constructor; [apply Hk1; left|]. apply IHf. intros k v' Hin. apply Hk1. by right.
Qed.

(** A file that was written out. *)
Definition written `{FileSystem} (path : string) (secs : list csection) (vals : list (list cval)) : Prop :=
  ReadFile path = Ret (config_text secs vals) ∧ Forall2 writable_section secs vals ∧ NoDup (config_keys secs).

Lemma load_written `{FileSystem} path secs vals old :
  written path secs vals → same_shape secs old → LoadConfig path secs old = (Ret tt, vals).
Proof.
  intros (Hf & HF & Hn) Hs. unfold LoadConfig, NewConfig. rewrite Hf. cbn [mbind outcome_bind].
  apply load_sections_written; [done|done|]. intros k v Hin. by apply parse_config_text.
Qed.

(** ** Properties *)

(** C23: what is written in an ini file is what a process gets: for every
    configuration of sections and options with names of letters and digits that
    differ in more than case, reading its text fills every field with the value
    written for it, without an error, whatever was there before. *)
Theorem config_roundtrip `{FileSystem} path secs vals old :
  ReadFile path = Ret (config_text secs vals) →
  Forall2 writable_section secs vals → NoDup (config_keys secs) → same_shape secs old →
  LoadConfig path secs old = (Ret tt, vals).
Proof. intros Hf HF Hn. by apply load_written. Qed.

(** C24: the key tool reads the keys of the platform: with a configuration whose
    secret has 8 to 31 bytes it decodes the key the distributor makes with that
    secret to the project it was made for, at any time; and for a configuration
    that cannot be read it reports the project 0 and no error, whatever the key. *)
Theorem sapper_reads_keys `{FileSystem} `{BlockCipherLaws} path vals id nano :
  written path repeaterConfig vals → in_int64 id → (8 ≤ String.length (text_at vals 1 1) < 32)%nat →
  parseServiceKey path (project_key (bytes_of (text_at vals 1 1)) id nano) = Ret id ∧
  ∀ missing e key, ReadFile missing = Throw e → parseServiceKey missing key = Ret 0.
Proof.
  intros Hw Hid Hl. split.
  - unfold parseServiceKey. rewrite (load_written _ _ _ _ Hw); [|by repeat constructor].
    apply parse_project_key; [apply bytes_of_ok|done|]. by rewrite length_bytes_of.
  - intros missing e key Hf. unfold parseServiceKey, LoadConfig, NewConfig. by rewrite Hf.
Qed.

(** ** Runs *)

Module Files.

Definition repeater_vals : list (list cval) :=
  [[VNumber 300]; [VNumber 30; VText "1qaz@WSX"];
   [VText "127.0.0.1"; VNumber 3306; VText "doodle"; VText "root"; VText ""; VText "utf8"]; [VText "127.0.0.1:2379"]].

#[local] Instance files : FileSystem := λ path,
  if decide (path = "./config/repeater.ini") then Ret (config_text repeaterConfig repeater_vals)
  else Throw (Errorf "no such file or directory").

Example repeater_ini :
  config_lines repeaterConfig repeater_vals =
    ["[Cache]"; "Timeout=300"; "[Server]"; "Timeout=30"; "SecretKey=1qaz@WSX"; "[DB]"; "IP=127.0.0.1"; "Port=3306";
     "Name=doodle"; "User=root"; "Passwd="; "Charset=utf8"; "[ETCD]"; "Hosts=127.0.0.1:2379"].
Proof. vm_compute. reflexivity. Qed.

Ltac writable_tac :=
  repeat match goal with
  | |- Forall2 _ _ _ => constructor
  | |- writable_section _ _ => split; [split; [discriminate|reflexivity]|split; [reflexivity|eexists; split; [reflexivity|]]]
  | |- writable _ _ => split; [split; [discriminate|reflexivity]|split; [reflexivity|split; [reflexivity|]]]
  | |- writable_value _ _ (VNumber _) =>
      split; [reflexivity|unfold in_int64, min_int64, max_int64; lia]
  | |- writable_value _ _ (VText _) =>
      split; [reflexivity|split; [reflexivity|first [left; discriminate|right; simpl; lia]]]
  end.

Lemma repeater_writable : Forall2 writable_section repeaterConfig repeater_vals.
Proof. writable_tac. Qed.

Lemma repeater_keys : NoDup (config_keys repeaterConfig).
Proof. apply (bool_decide_eq_true_1 (NoDup _)). vm_compute. reflexivity. Qed.

Theorem config_roundtrip_witness :
  LoadConfig "./config/repeater.ini" repeaterConfig (zero_config repeaterConfig) = (Ret tt, repeater_vals).
Proof.
  apply config_roundtrip; [reflexivity|exact repeater_writable|exact repeater_keys|repeat constructor].
Defined.

Theorem sapper_reads_keys_witness :
  parseServiceKey (H0 := XorCipher.cipher) "./config/repeater.ini"
    (project_key (H := XorCipher.cipher) (bytes_of "1qaz@WSX") 17 1500) = Ret 17 ∧
  parseServiceKey (H0 := XorCipher.cipher) "nowhere.ini" "any key" = Ret 0.
Proof.
  destruct (sapper_reads_keys (H0 := XorCipher.cipher) "./config/repeater.ini" repeater_vals 17 1500) as [Hk Hz].
  - split; [reflexivity|]. split; [exact repeater_writable|exact repeater_keys].
  - unfold in_int64, min_int64, max_int64. lia.
  - simpl. lia.
  - split; [exact Hk|]. apply (Hz _ (Errorf "no such file or directory")). reflexivity.
Defined.
End Files.
