(* ===== verification/Task.v ===== *)
(** * Task: building and deploying a project

    [distributor/task.go] and [run] of [distributor/distributor.go]: a task compiles a
    project with a build script, packs the result, uploads it to every node of
    the project's cluster over ssh and runs the install script there, recording
    its state in the database as it goes. A task is taken here as if it ran alone;
    [TaskDirs] is about several. *)

From Stdlib Require Import ZArith Lia Ascii.
From stdpp Require Import base gmap strings list.
From S2P Require Import Prelude GoStrings Http Json Fmt SqlDB Orm Registry.

Definition stateCompileBegin : Z := 1.
Definition stateComplieSuccess : Z := 2.
Definition stateComplieFailed : Z := 3.
Definition stateInstallBegin : Z := 4.
Definition stateInstallSuccess : Z := 5.
Definition stateInstallFailed : Z := 6.

Definition sqlWriteLogs : string :=
  "update distributor_logs set info = concat(info, ?) , state = ? where id=?".
Definition sqlUpdateState : string := "update distributor set state = ? where id=?".

(** What a task is made with: the fixed part of [task] and of its project. *)
Record task := mkTask {
  t_path : string;
  t_Name : string;
  t_Source : string;
  t_key : string;
  t_nodes : list string;
  t_dID : Z
}.

(** A log record, as [orm] inserts it. *)
Record distributorLogs := mkDistributorLogs {
  dl_ID : Z; dl_DistributorID : Z; dl_State : Z; dl_PID : Z; dl_INFO : string; dl_CreateTime : string
}.

#[export] Instance distributorLogs_struct : Struct distributorLogs := {
  fields := [mkField "ID" KInt64 "" "" "" ""; mkField "DistributorID" KInt64 "" "" "" "";
             mkField "State" KInt "" "" "" ""; mkField "PID" KInt "" "" "" "";
             mkField "INFO" KString "" "" "" ""; mkField "CreateTime" KString "" "now()" "" ""];
  to_vals r := [VInt (dl_ID r); VInt (dl_DistributorID r); VInt (dl_State r); VInt (dl_PID r);
                VStr (dl_INFO r); VStr (dl_CreateTime r)];
  of_vals vs := match vs with
    | [VInt a; VInt b; VInt c; VInt d; VStr e; VStr f] => Some (mkDistributorLogs a b c d e f)
    | _ => None end
}.

(** The machine the distributor runs on, and the nodes it reaches: changing
    directory; a command, which fails to start or runs with a process id, prints
    lines and ends; and the ssh operations on a node. *)
Inductive command_run : Type :=
| NotStarted (e : goerror)
| Ran (pid : Z) (lines : list string) (wait : option goerror).

Class Machine := {
  chdir : string → option goerror;
  run_command : string → command_run;
  ssh_dial : string → option goerror;
  ssh_upload : string → string → option goerror;
  ssh_exec : string → string → command_run;
  pid_of : string → string → Z;
  etcd_hosts : string
}.

(** The running state: database and trace, [t.state] and [t.logID]. *)
Record TaskState `{SqlEngine} := mkTaskState {
  tk_world : World;
  tk_state : Z;
  tk_logID : Z
}.
Arguments mkTaskState {_} _ _ _.

#[export] Instance Task_traced `{SqlEngine} : Traced TaskState := λ s, w_events (tk_world s).

Section task.
Context `{SqlEngine} `{Machine}.

Definition on_db {A} (m : M World A) : M TaskState A := λ s,
  let '(o, w) := m (tk_world s) in (o, mkTaskState w (tk_state s) (tk_logID s)).

(** The state is set first; an error of the update is only logged. *)
Definition updateState (t : task) (state : Z) : M TaskState unit :=
  _ ← modify (λ s, mkTaskState (tk_world s) state (tk_logID s));
  let? _ := on_db (Stmt_Exec sqlUpdateState [VInt state; VInt (t_dID t)]) catch _ => mret tt in mret tt.

(** The lines of a stream: an error of one is logged and the next is written. *)
Fixpoint logStream (lines : list string) : M TaskState unit :=
  match lines with
  | [] => mret tt
  | line :: rest =>
      s ← get_state;
      let? _ := on_db (Stmt_Exec sqlWriteLogs
                  [VStr (line +:+ String "010" ""); VInt (tk_state s); VInt (tk_logID s)])
        catch _ => logStream rest in
      logStream rest
  end.

(** A log record is inserted; its streams are read only if that worked. *)
Definition writeLogs (t : task) (pid : Z) (lines : list string) : M TaskState unit :=
  s ← get_state;
  let? id := on_db (Stmt_Insert (mkDistributorLogs 0 (t_dID t) (tk_state s) pid "" "")
                      (NewStmt "distributor_logs"))
    catch _ => mret tt in
  _ ← modify (λ s, mkTaskState (tk_world s) (tk_state s) id);
  logStream lines.

(** The error a command ends with. *)
Definition waited (r : command_run) : option goerror :=
  match r with NotStarted e => Some e | Ran _ _ wait => wait end.

Definition run_logged (t : task) (pid_shown : Z → Z) (r : command_run) : M TaskState (option goerror) :=
  match r with
  | NotStarted e => mret (Some e)
  | Ran pid lines wait => _ ← writeLogs t (pid_shown pid) lines; mret wait
  end.

Definition execSystemCmdWait (t : task) (cmd : string) : M TaskState (option goerror) :=
  run_logged t (λ pid, pid) (run_command cmd).

(** [sc.ExecPipe(cmd, t.writeSSHLogs)]: the process id is unknown. *)
Definition ExecPipe (t : task) (host cmd : string) : M TaskState (option goerror) :=
  run_logged t (λ _, 0) (ssh_exec host cmd).

(** A deferred function that records success or failure by the variable [err] of
    the enclosing function; the body yields that variable and the error it
    returns, which need not be the same. A panic runs it too, with [err] nil in
    the bodies below. *)
Definition with_outcome (t : task) (ok failed : Z)
    (body : M TaskState (option goerror * option goerror)) : M TaskState (option goerror) := λ s,
  match body s with
  | (Ret (err, ret), s') =>
      (_ ← updateState t (match err with Some _ => failed | None => ok end); mret ret) s'
  | (Throw e, s') => (Throw e, s')
  | (Panic p, s') => (_ ← updateState t ok; gopanic p) s'
  end.

Definition annotate (e : goerror) (msg : string) : goerror := Annotatef e (format_message msg).

Definition build_cmd (t : task) : string :=
  "./build.sh " +:+ t_Source t +:+ " " +:+ t_key t +:+ " " +:+ t_Name t.

(** Every error of [compile] is assigned to the outer [err]. *)
Definition compile_body (t : task) : M TaskState (option goerror * option goerror) :=
  match chdir (t_path t) with
  | Some e => mret (Some e, Some (annotate e (t_path t)))
  | None =>
      let cmd := build_cmd t in
      r ← execSystemCmdWait t cmd;
      match r with
      | Some e => mret (Some e, Some (annotate e cmd))
      | None => mret (None, None)
      end
  end.

Definition compile (t : task) : M TaskState (option goerror) :=
  _ ← updateState t stateCompileBegin;
  with_outcome t stateComplieSuccess stateComplieFailed (compile_body t).

(** The loop over the nodes. Its [sc, err :=] declares a new [err]. *)
Fixpoint install_nodes (t : task) (key tarFile : string) (nodes : list string)
    : M TaskState (option goerror) :=
  match nodes with
  | [] => mret None
  | n :: rest =>
      let cmd := "./install.sh " +:+ t_Name t +:+ " " +:+ itoa (pid_of key n) +:+ " " +:+ etcd_hosts in
      match ssh_dial n with
      | Some e => mret (Some e)
      | None =>
          match ssh_upload n "./install.sh" with
          | Some e => mret (Some (annotate e "install.sh"))
          | None =>
              match ssh_upload n tarFile with
              | Some e => mret (Some e)
              | None =>
                  r ← ExecPipe t n cmd;
                  match r with
                  | Some e => mret (Some (annotate e cmd))
                  | None => install_nodes t key tarFile rest
                  end
              end
          end
      end
  end.

(** Only the error of the directory change is assigned to the outer [err]; the
    packing command and the loop declare their own. *)
Definition install_body (t : task) : M TaskState (option goerror * option goerror) :=
  match chdir (t_path t) with
  | Some e => mret (Some e, Some (annotate e (t_path t)))
  | None =>
      let tarFile := t_Name t +:+ ".tar.gz" in
      let cmd := "tar -C bin -czf " +:+ tarFile +:+ " " +:+ t_Name t in
      r ← execSystemCmdWait t cmd;
      match r with
      | Some e => mret (None, Some (annotate e cmd))
      | None =>
          key ← lift (slice_from (t_Source t) 7);
          r ← install_nodes t key tarFile (t_nodes t);
          mret (None, r)
      end
  end.

Definition install (t : task) : M TaskState (option goerror) :=
  _ ← updateState t stateInstallBegin;
  with_outcome t stateInstallSuccess stateInstallFailed (install_body t).

(** [distributor.run]. *)
Definition run_task (t : task) : M TaskState unit :=
  r ← compile t;
  match r with
  | Some _ => mret tt
  | None => _ ← install t; mret tt
  end.
End task.

(** ** Lemmas *)

(** The states a trace has written to the database. *)
Definition state_written (e : event) : option Z :=
  match e with
  | EvExec sql (VInt st :: _) => if decide (sql = sqlUpdateState) then Some st else None
  | _ => None
  end.

Definition states (evs : list event) : list Z := omap state_written evs.

Section lemmas.
Context `{SqlEngine} `{Machine}.

(** Steps that leave [t.state] and write no state. *)
Definition steady {A} (m : M TaskState A) : Prop := ∀ s,
  tk_state (m s).2 = tk_state s ∧
  states (trace_of (m s).2) = states (trace_of s) ∧
  (∀ e, (m s).1 ≠ Throw e).

Lemma steady_ret {A} (a : A) : steady (mret a).
Proof. by intros s. Qed.

Lemma steady_bind {A B} (m : M TaskState A) (f : A → M TaskState B) :
  steady m → (∀ a, steady (f a)) → steady (mbind f m).
Proof.
  intros Hm Hf s. destruct (Hm s) as (H1 & H2 & H3). unfold mbind, M_bind.
  destruct (m s) as [[a|e|p] s'] eqn:E; simpl in *.
  - destruct (Hf a s') as (H1' & H2' & H3'). split_and!; [congruence|congruence|done].
  - by destruct (H3 e).
  - done.
Qed.

Lemma states_app a b : states (a ++ b) = (states a ++ states b)%list.
Proof. unfold states. apply omap_app. Qed.

Lemma steady_try {A B} (m : M World A) (h : goerror → M TaskState B) k :
  (∀ w, ∃ evs, w_events (m w).2 = (w_events w ++ evs)%list ∧ states evs = []) →
  (∀ e, steady (h e)) → (∀ a, steady (k a)) → steady (try (on_db m) h k).
Proof.
  intros Hm Hh Hk s. destruct (Hm (tk_world s)) as (evs & He & Hs). unfold try, on_db.
  destruct (m (tk_world s)) as [[a|e|p] w]; simpl in *.
  - destruct (Hk a (mkTaskState w (tk_state s) (tk_logID s))) as (H1' & H2' & H3').
    split_and!; [done| |done]. rewrite H2'. unfold trace_of, Task_traced. simpl.
    by rewrite He, states_app, Hs, app_nil_r.
  - destruct (Hh e (mkTaskState w (tk_state s) (tk_logID s))) as (H1' & H2' & H3').
    split_and!; [done| |done]. rewrite H2'. unfold trace_of, Task_traced. simpl.
    by rewrite He, states_app, Hs, app_nil_r.
  - split_and!; [done| |done]. unfold trace_of, Task_traced. simpl.
    by rewrite He, states_app, Hs, app_nil_r.
Qed.

Lemma exec_events sql args w :
  w_events (Stmt_Exec sql args w).2 = (w_events w ++ [EvExec sql args])%list ∧
  is_panic (Stmt_Exec sql args w).1 = false.
Proof. unfold Stmt_Exec, Exec. unfold_M. by destruct (db_exec sql args (w_db w)) as [[e|[i n]] d]. Qed.

Lemma steady_logStream lines : steady (logStream lines).
Proof.
  induction lines as [|l lines IH]; [apply steady_ret|]. cbn [logStream].
  apply steady_bind; [by intros s|]. intros s. apply steady_try; [|done|done].
  intros w. destruct (exec_events sqlWriteLogs
    [VStr (l +:+ String "010" ""); VInt (tk_state s); VInt (tk_logID s)] w) as [He _].
  eexists. split; [exact He|]. done.
Qed.

Lemma steady_writeLogs t pid lines : steady (writeLogs t pid lines).
Proof.
  unfold writeLogs. apply steady_bind; [by intros s|]. intros s. apply steady_try.
  - intros w. unfold Stmt_Insert, Insert_vals. destruct (SQLInsert _ _ _) as [sql refs] eqn:E.
    unfold Exec. unfold_M. destruct (db_exec sql refs (w_db w)) as [[e|[i n]] d]; simpl.
    all: eexists; split; [done|]. all: unfold states; simpl.
    all: assert (Hs : sql ≠ sqlUpdateState) by (vm_compute in E; injection E as <- _; discriminate).
    all: destruct refs as [|[] ?]; try done; simpl; by rewrite decide_False.
  - intros e. apply steady_ret.
  - intros id. apply steady_bind; [by intros s0|]. intros _. apply steady_logStream.
Qed.

Lemma steady_run_logged t f r : steady (run_logged t f r).
Proof.
  destruct r; simpl; [apply steady_ret|]. apply steady_bind; [apply steady_writeLogs|].
  intros _. apply steady_ret.
Qed.

Lemma steady_lift {A} (o : outcome A) : (∀ e, o ≠ Throw e) → steady (lift o).
Proof. intros Ho s. split_and!; done. Qed.

Lemma steady_install_nodes t key tar nodes : steady (install_nodes t key tar nodes).
Proof.
  induction nodes as [|n nodes IH]; [apply steady_ret|]. cbn [install_nodes].
  destruct (ssh_dial n); [apply steady_ret|]. destruct (ssh_upload n _); [apply steady_ret|].
  destruct (ssh_upload n tar); [apply steady_ret|].
  apply steady_bind; [apply steady_run_logged|]. intros [e|]; [apply steady_ret|done].
Qed.

Lemma updateState_run t st s :
  ∃ s', updateState t st s = (Ret tt, s') ∧ tk_state s' = st ∧
        states (trace_of s') = (states (trace_of s) ++ [st])%list.
Proof.
  unfold updateState, on_db. unfold mbind, M_bind, modify, try. simpl.
  destruct (exec_events sqlUpdateState [VInt st; VInt (t_dID t)] (tk_world s)) as [He Hp].
  destruct (Stmt_Exec sqlUpdateState [VInt st; VInt (t_dID t)] (tk_world s)) as [[n|e|p] w];
    simpl in *; [| |done]; eexists; (split; [done|]); (split; [done|]);
    unfold trace_of, Task_traced; simpl; by rewrite He, states_app.
Qed.

Lemma steady_compile_body t : steady (compile_body t).
Proof.
  unfold compile_body. destruct (chdir _); [apply steady_ret|].
  apply steady_bind; [apply steady_run_logged|]. intros []; apply steady_ret.
Qed.

Lemma steady_install_body t : steady (install_body t).
Proof.
  unfold install_body. destruct (chdir _); [apply steady_ret|].
  apply steady_bind; [apply steady_run_logged|]. intros []; [apply steady_ret|].
  apply steady_bind; [apply steady_lift, slice_from_no_throw|]. intros key.
  apply steady_bind; [apply steady_install_nodes|]. intros r. apply steady_ret.
Qed.

(** The states a deferred recorder leaves behind. *)
Lemma with_outcome_run t begin ok failed body s :
  steady body →
  let '(o, s') := (_ ← updateState t begin; with_outcome t ok failed body) s in
  ∃ last, states (trace_of s') = (states (trace_of s) ++ [begin; last])%list ∧ tk_state s' = last ∧
  ∃ s1, match body s1 with
  | (Ret (err, ret), _) => o = Ret ret ∧ last = match err with Some _ => failed | None => ok end
  | (Panic p, _) => o = Panic p ∧ last = ok
  | _ => False
  end.
Proof.
  intros Hb. unfold mbind at 1, M_bind at 1.
  destruct (updateState_run t begin s) as (s1 & -> & Hs1 & Ht1). unfold with_outcome.
  destruct (Hb s1) as (H1' & H2' & H3').
  destruct (body s1) as [[[err ret]|e|p] s2] eqn:E; simpl in *; [|by destruct (H3' e)|].
  - destruct (updateState_run t (match err with Some _ => failed | None => ok end) s2) as (s3 & E3 & Hs3 & Ht3).
    unfold mbind, M_bind. rewrite E3. simpl. eexists. split_and!; [|exact Hs3|].
    + by rewrite Ht3, H2', Ht1, <-app_assoc.
    + exists s1. by rewrite E.
  - destruct (updateState_run t ok s2) as (s3 & E3 & Hs3 & Ht3).
    unfold mbind, M_bind. rewrite E3. simpl. eexists. split_and!; [|exact Hs3|].
    + by rewrite Ht3, H2', Ht1, <-app_assoc.
    + exists s1. by rewrite E.
Qed.

Lemma run_logged_result t f r s : (run_logged t f r s).1 = Ret (waited r).
Proof.
  destruct r as [e|pid lines wait]; [done|]. unfold run_logged, mbind, M_bind.
  assert (Hl : ∀ s0, (logStream lines s0).1 = Ret tt).
  { induction lines as [|l lines IH]; intros s0; [done|].
    cbn [logStream]. unfold mbind, M_bind, get_state, try, on_db.
    destruct (exec_events sqlWriteLogs [VStr (l +:+ String "010" ""); VInt (tk_state s0);
      VInt (tk_logID s0)] (tk_world s0)) as [_ Hp].
    destruct (Stmt_Exec sqlWriteLogs _ (tk_world s0)) as [[n|e|p] w]; simpl in *; [apply IH|apply IH|done]. }
  unfold writeLogs, mbind, M_bind, get_state, try, on_db, Stmt_Insert, Insert_vals.
  destruct (SQLInsert _ _ _) as [sql refs]. unfold Exec, mbind, M_bind, mret, M_ret.
  destruct (db_exec sql refs (w_db (tk_world s))) as [[e|[i n]] d]; simpl; [done|].
  specialize (Hl (mkTaskState (mkWorld d (w_events (tk_world s) ++ [EvExec sql refs])) (tk_state s) i)).
  unfold modify. destruct (logStream lines _) as [o s']. simpl in *. by rewrite Hl.
Qed.

(** The error of a compilation, as the machine decides it. *)
Definition compile_result (t : task) : option goerror :=
  match chdir (t_path t) with
  | Some e => Some (annotate e (t_path t))
  | None => (λ e, annotate e (build_cmd t)) <$> waited (run_command (build_cmd t))
  end.

Lemma compile_states t s :
  let '(o, s') := compile t s in
  o = Ret (compile_result t) ∧
  states (trace_of s') = (states (trace_of s) ++
    [stateCompileBegin; match compile_result t with Some _ => stateComplieFailed | None => stateComplieSuccess end])%list.
Proof.
  pose proof (with_outcome_run t stateCompileBegin stateComplieSuccess stateComplieFailed
    (compile_body t) s (steady_compile_body t)) as Hw. fold (compile t) in Hw.
  destruct (compile t s) as [o s']. destruct Hw as (last & Hst & _ & s1 & Hb). rewrite Hst.
  unfold compile_body in Hb. unfold compile_result. destruct (chdir (t_path t)) as [e|]; [by destruct Hb as [-> ->]|].
  unfold mbind, M_bind, execSystemCmdWait in Hb.
  pose proof (run_logged_result t (λ pid, pid) (run_command (build_cmd t)) s1) as Hr.
  destruct (run_logged t _ _ s1) as [o2 s2]. simpl in Hr. subst o2.
  destruct (waited (run_command (build_cmd t))) as [e|]; simpl in Hb; by destruct Hb as [-> ->].
Qed.

Lemma install_states t s :
  chdir (t_path t) = None →
  let '(o, s') := install t s in
  tk_state s' = stateInstallSuccess ∧
  states (trace_of s') = (states (trace_of s) ++ [stateInstallBegin; stateInstallSuccess])%list.
Proof.
  intros Hc.
  pose proof (with_outcome_run t stateInstallBegin stateInstallSuccess stateInstallFailed
    (install_body t) s (steady_install_body t)) as Hw. fold (install t) in Hw.
  destruct (install t s) as [o s']. destruct Hw as (last & Hst & Htk & s1 & Hb).
  assert (last = stateInstallSuccess) as ->; [|done].
  unfold install_body in Hb. rewrite Hc in Hb. unfold mbind, M_bind in Hb.
  destruct (execSystemCmdWait t _ s1) as [[[e|]|e|p] s2]; simpl in Hb; [by destruct Hb| |done|by destruct Hb].
  unfold lift in Hb. destruct (slice_from (t_Source t) 7) as [key|e|p]; [|done|by destruct Hb].
  destruct (install_nodes t key _ (t_nodes t) s2) as [[r|e|p] s3]; simpl in Hb; [|done|]; by destruct Hb.
Qed.

(** ** Properties *)


(** Once the working directory could be entered, an installation is recorded
    as successful whatever happens: when packing, an upload or an install script
    fails the error is returned and the state still says success. *)
Theorem install_failure_recorded_as_success t s :
  chdir (t_path t) = None →
  let '(o, s') := install t s in
  tk_state s' = stateInstallSuccess ∧
  states (trace_of s') = (states (trace_of s) ++ [stateInstallBegin; stateInstallSuccess])%list.
Proof. apply install_states. Qed.
End lemmas.

(** ** Concrete runs *)

Module TaskRuns.
#[local] Existing Instance Scripted.engine.
(** A machine on which packing prints a line and fails. *)
#[local] Instance machine : Machine := {
  chdir _ := None;
  run_command _ := Ran 42 ["no such file"] (Some (Errorf "exit status 2"));
  ssh_dial _ := None; ssh_upload _ _ := None; ssh_exec _ _ := Ran 1 [] None;
  pid_of _ _ := 7; etcd_hosts := "e:2379"
}.
Definition t : task := mkTask "/b/1" "shop" "http://git/x/shop" "k" ["10.0.0.7"] 3.
Definition start : TaskState := mkTaskState (Scripted.world [] []) 0 0.

(** The installation fails, and says so to its caller only. *)
Example install_fails :
  ∃ cmd, (install t start).1 = Ret (Some (Annotatef (Errorf "exit status 2") cmd)).
Proof. eexists. vm_compute. reflexivity. Qed.

Theorem install_failure_recorded_as_success_witness :
  tk_state (install t start).2 = stateInstallSuccess.
Proof.
  pose proof (install_failure_recorded_as_success t start eq_refl) as Hi.
  destruct (install t start) as [o s']. apply Hi.
Defined.
End TaskRuns.
