(* ===== verification/Distributor.v ===== *)
(** * Distributor: projects and the requests that deploy them

    The handlers of [distributor/distributor.go], [project.GET] of
    [distributor/project.go] and [newTask] of [distributor/task.go]: a request
    prepares a directory and a record for a project and starts its task, which
    [Task] models. *)

From Stdlib Require Import ZArith Lia Ascii.
From stdpp Require Import base gmap strings list.
From S2P Require Import Prelude GoStrings Crypto Http Json Fmt SqlDB Orm Registry Document Watcher Task.

(** ** Rows: [deploy.go], [project.go], [distributor.go] *)

Record node := mkNode { n_ID : Z; n_Server : string; n_Ctime : string }.

#[export] Instance node_struct : Struct node := {
  fields := [mkField "ID" KInt64 "" "" "" ""; mkField "Server" KString "" "" "" "";
             mkField "Ctime" KString "" "now()" "" ""];
  to_vals n := [VInt (n_ID n); VStr (n_Server n); VStr (n_Ctime n)];
  of_vals vs := match vs with [VInt a; VStr b; VStr c] => Some (mkNode a b c) | _ => None end
}.

(** The columns of [cluster] itself; its nodes come with a query of their own. *)
Record cluster := mkCluster {
  c_ID : Z; c_Name : string; c_Comment : string; c_Ctime : string; c_Mtime : string
}.

#[export] Instance cluster_struct : Struct cluster := {
  fields := [mkField "ID" KInt64 "" "" "" ""; mkField "Name" KString "" "" "" "";
             mkField "Comment" KString "" "" "" ""; mkField "Ctime" KString "" "now()" "" "";
             mkField "Mtime" KString "" "now()" "" ""];
  to_vals c := [VInt (c_ID c); VStr (c_Name c); VStr (c_Comment c); VStr (c_Ctime c); VStr (c_Mtime c)];
  of_vals vs := match vs with
    | [VInt a; VStr b; VStr c; VStr d; VStr e] => Some (mkCluster a b c d e)
    | _ => None end
}.

Record project := mkProject {
  p_ID : Z; p_Source : string; p_Name : string; p_Cluster : cluster; p_Ctime : string
}.

#[export] Instance project_table : Table project := {
  columns := [Scalar (mkField "ID" KInt64 "" "" "" ""); Scalar (mkField "Source" KString "" "" "" "");
              Scalar (mkField "Name" KString "" "" "" ""); One "Cluster" (fields cluster);
              Scalar (mkField "Ctime" KString "" "now()" "" "")];
  of_cells cells := match cells with
    | [Cell (VInt a); Cell (VStr b); Cell (VStr c); Sub d; Cell (VStr e)] =>
        (λ cl, mkProject a b c cl e) <$> of_vals d
    | _ => None end
}.

(** [Project], a joined struct, is not written when a row is inserted. *)
Record distributor := mkDistributor {
  d_ID : Z; d_ProjectID : Z; d_State : Z; d_Server : string; d_CreateTime : string
}.

#[export] Instance distributor_struct : Struct distributor := {
  fields := [mkField "ID" KInt64 "" "" "" ""; mkField "ProjectID" KInt64 "" "" "" "";
             mkField "Project" KStruct "" "" "" ""; mkField "State" KInt "" "" "" "";
             mkField "Server" KString "" "" "" ""; mkField "CreateTime" KString "" "now()" "" ""];
  to_vals d := [VInt (d_ID d); VInt (d_ProjectID d); VOther; VInt (d_State d); VStr (d_Server d);
                VStr (d_CreateTime d)];
  of_vals vs := match vs with
    | [VInt a; VInt b; VOther; VInt c; VStr d; VStr e] => Some (mkDistributor a b c d e)
    | _ => None end
}.

(** ** [newTask] *)

(** The host and the configuration: directories and links, which fail or not;
    the address of the host, which panics without a network; the clock when a
    directory is named and when a project key is made; the names under a key
    prefix of etcd. *)
Class Host := {
  mkdir_all : string → option goerror;
  link : string → string → option goerror;
  local_addr : outcome string;
  dir_nano : Z;
  key_nano : Z;
  secret_key : list Z;
  build_path : string;
  script_path : string;
  etcd_keys : string → outcome (list (string * string))
}.

Definition scripts : list string := ["build.sh"; "Dockerfile.tpl"; "install.sh"].

Section distributor.
Context `{SqlEngine} `{BlockCipher} `{Host}.

Fixpoint link_scripts (path : string) (fs : list string) : option goerror :=
  match fs with
  | [] => None
  | f :: rest =>
      let of_ := script_path +:+ "/" +:+ f in
      let nf := path +:+ "/" +:+ f in
      match link of_ nf with
      | Some e => Some (Annotatef e ("old:" +:+ of_ +:+ ", new:" +:+ nf))
      | None => link_scripts path rest
      end
  end.

Definition or_throw (e : option goerror) : M World unit :=
  match e with Some e => throw e | None => mret tt end.

Definition newTask (projectID : Z) : M World task :=
  _ ← GetConnection;
  p ← Stmt_QueryOne (T:=project) (Where ("project.id=" +:+ itoa projectID) (NewStmt "project"));
  nodes ← Stmt_QueryAll (T:=node) (Where ("cluster_id=" +:+ itoa (c_ID (p_Cluster p))) (NewStmt "node"));
  let path := build_path +:+ "/" +:+ itoa dir_nano in
  _ ← or_throw ((λ e, annotate e path) <$> mkdir_all path);
  _ ← or_throw (link_scripts path scripts);
  server ← lift local_addr;
  id ← Stmt_Insert (mkDistributor 0 projectID 0 server "") (NewStmt "distributor");
  mret (mkTask path (p_Name p) (p_Source p) (project_key secret_key (p_ID p) key_nano)
          (n_Server <$> nodes) id).

(** ** Handlers *)

(** The distributor's process: its database, and the tasks its requests have
    started, which run on their own. *)
Record Dist := mkDist { ds_world : World; ds_started : list task }.

#[export] Instance Dist_traced : Traced Dist := λ s, w_events (ds_world s).

Definition in_db {A} (m : M World A) : M Dist A := λ s,
  let '(o, w) := m (ds_world s) in (o, mkDist w (ds_started s)).

Definition start_task (t : task) : M Dist unit := modify (λ s, mkDist (ds_world s) (ds_started s ++ [t])).

Context `{EmailPattern}.

(** [GET] and [POST] are the same. *)
Definition distributor_POST (r : Request) : M Dist unit :=
  let? v := lift (ParseURLVars [mkField "ProjectID" KInt64 "" "" "id" ""] r) catch e =>
    in_db (reply_with (SendResponse StatusBadRequest (Error e))) in
  let? t := in_db (newTask (nth_int v 0)) catch e =>
    in_db (reply_with (SendResponse StatusBadRequest (Error e))) in
  _ ← in_db (reply_with (SendResponseData (PVal (VInt (t_dID t)))));
  start_task t.

Definition distributor_GET (r : Request) : M Dist unit := distributor_POST r.

Definition keys_json (l : list (string * string)) : json :=
  encode_members ((λ kv, (fst kv, JStr (snd kv))) <$> l).

(** [Query(p)] fills the handler object, all of whose fields it overwrites. *)
Definition project_GET (r : Request) : M World unit :=
  let? v := lift (ParseURLVars [mkField "ID" KInt64 "" "" "" ""] r) catch e =>
    reply_with (SendResponse StatusBadRequest (Error e)) in
  let? _ := GetConnection catch e => reply_with (SendResponse StatusInternalServerError (Error e)) in
  let? p := Stmt_QueryOne (T:=project) (Where ("id=" +:+ itoa (nth_int v 0)) (NewStmt "project"))
    catch e => reply_with (SendResponse StatusInternalServerError (Error e)) in
  let? keys := lift (etcd_keys ("/api" +:+ p_Name p))
    catch e => reply_with (SendResponse StatusInternalServerError (Error e)) in
  reply_with (SendResponseData (PJson (keys_json keys))).
End distributor.

(** ** Lemmas *)

Section lemmas.
Context `{SqlEngine} `{BlockCipher} `{Host}.

Lemma bind_ret {S A B} (m : M S A) (k : A → M S B) s b s' :
  mbind k m s = (Ret b, s') → ∃ a s1, m s = (Ret a, s1) ∧ k a s1 = (Ret b, s').
Proof. unfold mbind, M_bind. destruct (m s) as [[a|e|p] s1]; [|done..]. eauto. Qed.

(** A task that could be made: its record was inserted last, and is the one the
    task works on. *)
Lemma newTask_inv projectID w t w' :
  newTask projectID w = (Ret t, w') →
  ∃ w1 server, local_addr = Ret server ∧
    Stmt_Insert (mkDistributor 0 projectID 0 server "") (NewStmt "distributor") w1 = (Ret (t_dID t), w').
Proof.
  unfold newTask. intros Hn.
  apply bind_ret in Hn as (? & w1 & _ & Hn). apply bind_ret in Hn as (p & w2 & _ & Hn).
  apply bind_ret in Hn as (nodes & w3 & _ & Hn). apply bind_ret in Hn as (? & w4 & _ & Hn).
  apply bind_ret in Hn as (? & w5 & _ & Hn). apply bind_ret in Hn as (server & w6 & Hs & Hn).
  apply bind_ret in Hn as (id & w7 & Hi & Hn). injection Hn as <- <-.
  exists w6, server. unfold lift in Hs. injection Hs as -> _. by split.
Qed.
End lemmas.

(** ** What a deployment writes *)

Section writes.
Context `{SqlEngine}.

(** The lines of a stream, one after another, into one log record. *)
Fixpoint written_lines (lines : list string) (state logID : Z) (w : World) : World :=
  match lines with
  | [] => w
  | line :: rest =>
      written_lines rest state logID (Stmt_Exec sqlWriteLogs [VStr line; VInt state; VInt logID] w).2
  end.

(** What may become of the world by the writes of one deployment: its states are
    updated; log records are inserted for it, and lines go into the record just
    inserted, under the identifier the database gave it, or nowhere when the
    insertion failed. *)
Inductive deployed (id : Z) : World → World → Prop :=
| deployed_done w : deployed id w w
| deployed_state state w w' :
    deployed id (Stmt_Exec sqlUpdateState [VInt state; VInt id] w).2 w' → deployed id w w'
| deployed_log state pid logID lines w w1 w' :
    Stmt_Insert (mkDistributorLogs 0 id state pid "" "") (NewStmt "distributor_logs") w = (Ret logID, w1) →
    deployed id (written_lines lines state logID w1) w' → deployed id w w'
| deployed_no_log state pid e w w1 w' :
    Stmt_Insert (mkDistributorLogs 0 id state pid "" "") (NewStmt "distributor_logs") w = (Throw e, w1) →
    deployed id w1 w' → deployed id w w'.

Lemma deployed_trans id w1 w2 w3 : deployed id w1 w2 → deployed id w2 w3 → deployed id w1 w3.
Proof. induction 1; eauto using deployed. Qed.
End writes.

Section run.
Context `{SqlEngine} `{Machine} (t : task).

(** Whatever a step of the task does, it is a write of its deployment. *)
Definition deploys {A} (m : M TaskState A) : Prop := ∀ s, deployed (t_dID t) (tk_world s) (tk_world (m s).2).

Lemma deploys_ret {A} (x : A) : deploys (mret x).
Proof. intros s. constructor. Qed.

Lemma deploys_bind {A B} (m : M TaskState A) (k : A → M TaskState B) :
  deploys m → (∀ x, deploys (k x)) → deploys (x ← m; k x).
Proof.
  intros Hm Hk s. specialize (Hm s). unfold mbind, M_bind. destruct (m s) as [[x|e|p] s1]; [|done..].
  eapply deployed_trans; [exact Hm|apply Hk].
Qed.

Lemma deploys_updateState state : deploys (updateState t state).
Proof.
  intros s. unfold updateState, mbind, M_bind, modify, try, on_db. simpl. apply (deployed_state _ state).
  destruct (Stmt_Exec sqlUpdateState _ (tk_world s)) as [[n|e|p] w]; constructor.
Qed.

(** The state and the log record of a task stay the same while lines are written. *)
Lemma logStream_lines lines s :
  ∃ texts, tk_world (logStream lines s).2 = written_lines texts (tk_state s) (tk_logID s) (tk_world s).
Proof.
  revert s. induction lines as [|line rest IH]; intros s; [by exists []|].
  cbn [logStream]. unfold mbind, M_bind, get_state, try, on_db.
  destruct (IH (mkTaskState (Stmt_Exec sqlWriteLogs [VStr (line +:+ String "010" ""); VInt (tk_state s);
    VInt (tk_logID s)] (tk_world s)).2 (tk_state s) (tk_logID s))) as (texts & Ht).
  destruct (exec_events sqlWriteLogs [VStr (line +:+ String "010" ""); VInt (tk_state s); VInt (tk_logID s)]
    (tk_world s)) as [_ Hp].
  exists ((line +:+ String "010" "") :: texts). cbn [written_lines].
  destruct (Stmt_Exec sqlWriteLogs _ (tk_world s)) as [[n|e|p] w]; [exact Ht..|done].
Qed.

Lemma deploys_writeLogs pid lines : deploys (writeLogs t pid lines).
Proof.
  intros s. unfold writeLogs. unfold mbind at 1, M_bind at 1, get_state. unfold try, on_db.
  destruct (Stmt_Insert _ _ (tk_world s)) as [[id|e|p] w] eqn:E; [| |].
  - destruct (logStream_lines lines (mkTaskState w (tk_state s) id)) as (texts & Ht). simpl in Ht.
    apply (deployed_log _ (tk_state s) pid id texts _ w); [exact E|].
    unfold mbind, M_bind, modify. simpl. rewrite Ht. constructor.
  - apply (deployed_no_log _ (tk_state s) pid e _ w); [exact E|constructor].
  - unfold Stmt_Insert, Insert_vals in E. destruct (SQLInsert _ _ _) as [sql refs]. unfold Exec in E.
    unfold mbind, M_bind, mret, M_ret in E. by destruct (db_exec sql refs _) as [[?|[??]] ?].
Qed.

Lemma deploys_run_logged f r : deploys (run_logged t f r).
Proof.
  destruct r; simpl; [apply deploys_ret|]. apply deploys_bind; [apply deploys_writeLogs|intros; apply deploys_ret].
Qed.

Lemma deploys_with_outcome ok failed body : deploys body → deploys (with_outcome t ok failed body).
Proof.
  intros Hb s. specialize (Hb s). unfold with_outcome. destruct (body s) as [[[err ret]|e|p] s1]; [|done|];
    (eapply deployed_trans; [exact Hb|]); apply deploys_bind; [apply deploys_updateState|intros; apply deploys_ret|
    apply deploys_updateState|]. intros _ s2. constructor.
Qed.

Lemma deploys_install_nodes key tar nodes : deploys (install_nodes t key tar nodes).
Proof.
  induction nodes as [|n rest IH]; simpl; [apply deploys_ret|].
  destruct (ssh_dial n); [apply deploys_ret|]. destruct (ssh_upload n _); [apply deploys_ret|].
  destruct (ssh_upload n tar); [apply deploys_ret|].
  apply deploys_bind; [apply deploys_run_logged|intros [e|]]; [apply deploys_ret|done].
Qed.

Lemma deploys_run : deploys (run_task t).
Proof.
  unfold run_task, compile, install. apply deploys_bind.
  { apply deploys_bind; [apply deploys_updateState|intros; apply deploys_with_outcome]. unfold compile_body.
    destruct (chdir _); [apply deploys_ret|]. apply deploys_bind; [apply deploys_run_logged|].
    intros [e|]; apply deploys_ret. }
  intros [e|]; [apply deploys_ret|]. apply deploys_bind; [|intros; apply deploys_ret].
  apply deploys_bind; [apply deploys_updateState|intros; apply deploys_with_outcome]. unfold install_body.
  destruct (chdir _); [apply deploys_ret|]. apply deploys_bind; [apply deploys_run_logged|].
  intros [e|]; [apply deploys_ret|]. apply deploys_bind; [intros s; constructor|intros key].
  apply deploys_bind; [apply deploys_install_nodes|intros; apply deploys_ret].
Qed.
End run.

(** ** Properties *)

(** C36: the identifier a deployment request is answered with leads to the
    deployment: when a task can be made for the project asked for, exactly that one
    is started (and none otherwise), the reply comes last and carries the identifier
    the database gave the record inserted for the project. Whatever the task does
    later, on any machine, all it writes are states of that record, log records
    inserted for it, and lines, each into the log record inserted last and under the
    identifier the database gave that one. *)
Theorem deployment_tracked `{SqlEngine} `{BlockCipher} `{Host} `{Machine} `{EmailPattern} r (s : Dist) :
  (ds_started (distributor_POST r s).2 = ds_started s ∧
   ∀ v, ParseURLVars [mkField "ProjectID" KInt64 "" "" "id" ""] r = Ret v →
     ∀ t, (newTask (nth_int v 0) (ds_world s)).1 ≠ Ret t) ∨
  ∃ v t server w1 w2,
    ParseURLVars [mkField "ProjectID" KInt64 "" "" "id" ""] r = Ret v ∧
    newTask (nth_int v 0) (ds_world s) = (Ret t, w2) ∧
    ds_started (distributor_POST r s).2 = (ds_started s ++ [t])%list ∧
    Stmt_Insert (mkDistributor 0 (nth_int v 0) 0 server "") (NewStmt "distributor") w1 = (Ret (t_dID t), w2) ∧
    trace_of (distributor_POST r s).2 =
      (w_events w2 ++ [EvReply (SendResponseData (PVal (VInt (t_dID t))))])%list ∧
    ∀ started, deployed (t_dID t) (tk_world started) (tk_world (run_task t started).2).
Proof.
  unfold distributor_POST. unfold try at 1, lift.
  destruct (ParseURLVars _ r) as [v|e|p] eqn:Ev; [|by left..].
  unfold try, in_db.
  destruct (newTask (nth_int v 0) (ds_world s)) as [[t|e|p] w2] eqn:En;
    [|left; split; [done|]; intros v' [= <-] t'; by rewrite En..].
  right. destruct (newTask_inv _ _ _ _ En) as (w1 & server & _ & Hi).
  exists v, t, server, w1, w2. split_and!; [done|done|done|exact Hi|done|apply deploys_run].
Qed.

(** ** Runs *)

Module Deployments.
Import Scripted XorCipher.

#[local] Instance host : Host := {|
  mkdir_all _ := None; link _ _ := None; local_addr := Ret "10.0.0.9"; dir_nano := 1500; key_nano := 1600;
  secret_key := bytes_of "1qaz@WSX"; build_path := "/build"; script_path := "/scripts"; etcd_keys _ := Ret []
|}.

#[local] Instance any_email : EmailPattern := λ _, true.

Definition deploying : Request :=
  mkRequest "POST" "/distributor/" {[ "id" := ["17"] ]} ∅ (Ret ∅) (Ret "").

Definition before : Dist :=
  mkDist (Scripted.world
    [inr [[VInt 17; VStr "git://x/shop"; VStr "shop"; VInt 4; VStr "c1"; VStr ""; VStr ""; VStr ""; VStr ""]];
     inr [[VInt 1; VStr "10.0.0.2"; VStr ""]; [VInt 2; VStr "10.0.0.3"; VStr ""]]] [inr (33, 1)]) [].

(** The project 17 on the two nodes of its cluster, as deployment 33. *)
Example deploying_runs :
  (λ t, (t_dID t, t_Name t, t_Source t, t_nodes t, t_path t)) <$> ds_started (distributor_POST deploying before).2 =
    [(33, "shop", "git://x/shop", ["10.0.0.2"; "10.0.0.3"], "/build/1500")].
Proof. vm_compute. reflexivity. Qed.

(** The query of [project.GET] names a column of both joined tables. *)
Example project_query_ambiguous :
  SQLQuery (columns project) (Limit 1 (Where "id=17" (NewStmt "project"))) =
    "select project.id, project.source, project.name, cluster.id, cluster.name, cluster.comment, cluster.ctime, cluster.mtime, project.ctime from project,cluster where id=17 and project.cluster_id = cluster.id limit 1".
Proof. vm_compute. reflexivity. Qed.
End Deployments.
