(* ===== verification/TaskDirs.v ===== *)
(** * TaskDirs: tasks and the one working directory of their process

    [compile] and [install] of [distributor/task.go] change the working directory
    of the process, run commands and read files relative to it, and change it
    back, while [distributor.POST] starts every task on its own. Here a task is
    its steps on that directory, one at a time, between which other tasks may
    run; [Task] is what one task does when it runs alone. *)

From Stdlib Require Import ZArith Lia Ascii.
From stdpp Require Import base gmap strings list relations.
From S2P Require Import Prelude GoStrings Http Json Fmt SqlDB Orm Registry Task.

(** What a command, a file or a directory is depends on where one looks from. *)
Class Machines := machine_at : string → Machine.

(** ** The steps of a task *)

(** Where a task is. [old] is the directory it will go back to. *)
Inductive pc : Type :=
| CompileGetwd
| CompileChdir (old : string)
| CompileBuild (old : string)
| CompileBack (old : string) (r : option goerror)
| InstallGetwd
| InstallChdir (old : string)
| InstallTar (old : string)
| InstallDial (old key : string) (nodes : list string)
| InstallScript (old key n : string) (rest : list string)
| InstallPackage (old key n : string) (rest : list string)
| InstallRemote (old key n : string) (rest : list string)
| InstallBack (old : string) (r : outcome (option goerror))
| NotCompiled (e : goerror)
| Installed (r : outcome (option goerror)).

Definition tar_file (t : task) : string := t_Name t +:+ ".tar.gz".

Definition tar_cmd (t : task) : string := "tar -C bin -czf " +:+ tar_file t +:+ " " +:+ t_Name t.

Definition node_cmd (m : Machine) (t : task) (key n : string) : string :=
  "./install.sh " +:+ t_Name t +:+ " " +:+ itoa (pid_of key n) +:+ " " +:+ etcd_hosts.

Section steps.
Context `{Machines}.

(** The directory after [os.Chdir], from an absolute or a relative path. *)
Definition resolve (cwd path : string) : string :=
  if HasPrefix path "/" then path else cwd +:+ "/" +:+ path.

(** The deferred change back, whose error nobody sees. *)
Definition change_back (cwd old : string) : string :=
  match chdir (Machine := machine_at cwd) old with None => resolve cwd old | Some _ => cwd end.

(** One step of a task in the directory [cwd]: where it is then, the directory
    then, and the command or the file it used in [cwd]. *)
Definition thread_step (t : task) (p : pc) (cwd : string) : option (pc * string * option string) :=
  let m := machine_at cwd in
  match p with
  | CompileGetwd => Some (CompileChdir cwd, cwd, None)
  | CompileChdir old =>
      match chdir (Machine := m) (t_path t) with
      | Some e => Some (NotCompiled (annotate e (t_path t)), cwd, None)
      | None => Some (CompileBuild old, resolve cwd (t_path t), None)
      end
  | CompileBuild old =>
      let r := waited (run_command (Machine := m) (build_cmd t)) in
      Some (CompileBack old ((λ e, annotate e (build_cmd t)) <$> r), cwd, Some (build_cmd t))
  | CompileBack old r =>
      Some (match r with Some e => NotCompiled e | None => InstallGetwd end, change_back cwd old, None)
  | InstallGetwd => Some (InstallChdir cwd, cwd, None)
  | InstallChdir old =>
      match chdir (Machine := m) (t_path t) with
      | Some e => Some (Installed (Ret (Some (annotate e (t_path t)))), cwd, None)
      | None => Some (InstallTar old, resolve cwd (t_path t), None)
      end
  | InstallTar old =>
      Some (match waited (run_command (Machine := m) (tar_cmd t)) with
            | Some e => InstallBack old (Ret (Some (annotate e (tar_cmd t))))
            | None =>
                match slice_from (t_Source t) 7 with
                | Ret key => InstallDial old key (t_nodes t)
                | Throw e => InstallBack old (Throw e)
                | Panic s => InstallBack old (Panic s)
                end
            end, cwd, Some (tar_cmd t))
  | InstallDial old key nodes =>
      Some (match nodes with
            | [] => InstallBack old (Ret None)
            | n :: rest =>
                match ssh_dial (Machine := m) n with
                | Some e => InstallBack old (Ret (Some e))
                | None => InstallScript old key n rest
                end
            end, cwd, None)
  | InstallScript old key n rest =>
      Some (match ssh_upload (Machine := m) n "./install.sh" with
            | Some e => InstallBack old (Ret (Some (annotate e "install.sh")))
            | None => InstallPackage old key n rest
            end, cwd, Some "./install.sh")
  | InstallPackage old key n rest =>
      Some (match ssh_upload (Machine := m) n (tar_file t) with
            | Some e => InstallBack old (Ret (Some e))
            | None => InstallRemote old key n rest
            end, cwd, Some (tar_file t))
  | InstallRemote old key n rest =>
      Some (match waited (ssh_exec (Machine := m) n (node_cmd m t key n)) with
            | Some e => InstallBack old (Ret (Some (annotate e (node_cmd m t key n))))
            | None => InstallDial old key rest
            end, cwd, None)
  | InstallBack old r => Some (Installed r, change_back cwd old, None)
  | NotCompiled _ | Installed _ => None
  end.

(** A task that nobody interrupts: [None] when it needs more steps; otherwise
    where it ends, the directory then, and what it used where. *)
Fixpoint run_alone (fuel : nat) (t : task) (p : pc) (cwd : string) : option (pc * string * list (string * string)) :=
  match thread_step t p cwd with
  | None => Some (p, cwd, [])
  | Some (p', cwd', used) =>
      match fuel with
      | O => None
      | S n =>
          '(q, d, l) ← run_alone n t p' cwd';
          Some (q, d, (match used with Some x => (cwd, x) :: l | None => l end))
      end
  end.

(** ** The process *)

(** The directory, the tasks, and what each deployment used where. *)
Record process := mkProcess {
  pr_cwd : string; pr_tasks : list (task * pc); pr_used : list (Z * (string * string))
}.

Definition begin (c : string) (ts : list task) : process := mkProcess c ((λ t, (t, CompileGetwd)) <$> ts) [].

Inductive process_step : process → process → Prop :=
| step_task i t p p' cwd' used s :
    pr_tasks s !! i = Some (t, p) → thread_step t p (pr_cwd s) = Some (p', cwd', used) →
    process_step s (mkProcess cwd' (<[i := (t, p')]> (pr_tasks s))
      (pr_used s ++ match used with Some x => [(t_dID t, (pr_cwd s, x))] | None => [] end)%list).
End steps.

(** ** A task alone *)

Section results.
Context `{SqlEngine} `{Machine}.

Lemma bind_result {A B} (m : M TaskState A) (k : A → M TaskState B) s a o :
  (m s).1 = Ret a → (∀ s', (k a s').1 = o) → ((x ← m; k x) s).1 = o.
Proof. unfold mbind, M_bind. destruct (m s) as [o' s']. simpl. intros -> Hk. apply Hk. Qed.

Lemma updateState_result t st s : (updateState t st s).1 = Ret tt.
Proof. by destruct (updateState_run t st s) as (s' & -> & _). Qed.

(** What the body of a recorded function yields is what the function returns. *)
Lemma recorded_result t begin ok failed body r :
  (∀ s, ∃ err, (body s).1 = match r with Ret x => Ret (err, x) | Throw e => Throw e | Panic p => Panic p end) →
  ∀ s, ((_ ← updateState t begin; with_outcome t ok failed body) s).1 = r.
Proof.
  intros Hb s. eapply bind_result; [apply updateState_result|]. intros s'. unfold with_outcome.
  destruct (Hb s') as (err & He). destruct (body s') as [o s2]. simpl in He. subst o.
  destruct r as [x|e|p]; [|done|]; (eapply bind_result; [apply updateState_result|]; done).
Qed.

Fixpoint nodes_result (t : task) (key : string) (nodes : list string) : option goerror :=
  match nodes with
  | [] => None
  | n :: rest =>
      match ssh_dial n with
      | Some e => Some e
      | None =>
          match ssh_upload n "./install.sh" with
          | Some e => Some (annotate e "install.sh")
          | None =>
              match ssh_upload n (tar_file t) with
              | Some e => Some e
              | None =>
                  match waited (ssh_exec n (node_cmd _ t key n)) with
                  | Some e => Some (annotate e (node_cmd _ t key n))
                  | None => nodes_result t key rest
                  end
              end
          end
      end
  end.

Definition install_result (t : task) : outcome (option goerror) :=
  match chdir (t_path t) with
  | Some e => Ret (Some (annotate e (t_path t)))
  | None =>
      match waited (run_command (tar_cmd t)) with
      | Some e => Ret (Some (annotate e (tar_cmd t)))
      | None => key ← slice_from (t_Source t) 7; Ret (nodes_result t key (t_nodes t))
      end
  end.

Lemma compile_returns t s : (compile t s).1 = Ret (compile_result t).
Proof.
  unfold compile. apply recorded_result. intros s1. unfold compile_body, compile_result.
  destruct (chdir (t_path t)) as [e|]; [by eexists|].
  destruct (waited (run_command (build_cmd t))) as [e|] eqn:E; eexists;
    (eapply bind_result; [apply run_logged_result|]; intros s2; fold (build_cmd t); by rewrite E).
Qed.

Lemma install_nodes_returns t key nodes s :
  (install_nodes t key (tar_file t) nodes s).1 = Ret (nodes_result t key nodes).
Proof.
  revert s. induction nodes as [|n rest IH]; intros s; [done|]. cbn [install_nodes nodes_result].
  destruct (ssh_dial n); [done|]. destruct (ssh_upload n "./install.sh"); [done|].
  destruct (ssh_upload n (tar_file t)); [done|].
  eapply bind_result; [apply run_logged_result|]. intros s'. fold (node_cmd _ t key n).
  destruct (waited (ssh_exec n (node_cmd _ t key n))); [done|apply IH].
Qed.

Lemma install_returns t s : (install t s).1 = install_result t.
Proof.
  unfold install. apply recorded_result. intros s1. unfold install_body, install_result.
  destruct (chdir (t_path t)) as [e|]; [by eexists|]. exists None.
  eapply bind_result; [apply run_logged_result|]. intros s2. fold (tar_file t). fold (tar_cmd t).
  destruct (waited (run_command (tar_cmd t))) as [e|]; [done|].
  unfold mbind at 1, M_bind, lift. destruct (slice_from (t_Source t) 7) as [key|e|p]; [|done..].
  cbn [mbind outcome_bind]. eapply bind_result; [apply install_nodes_returns|]. done.
Qed.
End results.

Section alone.
Context `{SqlEngine} `{Machines} (t : task) (c : string).
Hypothesis path_abs : HasPrefix (t_path t) "/" = true.
Hypothesis start_abs : HasPrefix c "/" = true.
(** The directory the process is in can be entered again. *)
Hypothesis can_return : chdir (Machine := machine_at (t_path t)) c = None.

(** The machine as a task sees it that starts in [c]: commands and files are those
    of its own directory. *)
Definition home : Machine := {|
  chdir := chdir (Machine := machine_at c);
  run_command := run_command (Machine := machine_at (t_path t));
  ssh_dial := ssh_dial (Machine := machine_at (t_path t));
  ssh_upload := ssh_upload (Machine := machine_at (t_path t));
  ssh_exec := ssh_exec (Machine := machine_at (t_path t));
  pid_of := pid_of (Machine := machine_at (t_path t));
  etcd_hosts := etcd_hosts (Machine := machine_at (t_path t))
|}.

Definition in_home (l : list (string * string)) : Prop := Forall (λ x, fst x = t_path t) l.

(** The task ends as [q], back in [c], and used nothing outside its directory. *)
Definition ends (q : pc) (o : option (pc * string * list (string * string))) : Prop :=
  ∃ l, o = Some (q, c, l) ∧ in_home l.

Lemma ends_step fuel q p cwd p' cwd' used :
  thread_step t p cwd = Some (p', cwd', used) → (used = None ∨ cwd = t_path t) →
  ends q (run_alone fuel t p' cwd') → ends q (run_alone (S fuel) t p cwd).
Proof.
  intros Hs Hu (l & Hr & Hl). unfold ends. cbn [run_alone]. rewrite Hs, Hr. cbn [mbind option_bind].
  eexists. split; [reflexivity|]. destruct used as [x|]; [|done]. destruct Hu as [?|Hu]; [done|]. by constructor.
Qed.

Lemma resolve_abs cwd path : HasPrefix path "/" = true → resolve cwd path = path.
Proof. intros Hp. unfold resolve. by rewrite Hp. Qed.

Lemma change_home : change_back (t_path t) c = c.
Proof. unfold change_back. by rewrite can_return, resolve_abs. Qed.

Lemma ends_back fuel r : ends (Installed r) (run_alone (S fuel) t (InstallBack c r) (t_path t)).
Proof.
  eapply ends_step; [reflexivity|by left|]. rewrite change_home. exists []. split; [by destruct fuel|constructor].
Qed.

Ltac step := eapply ends_step; [reflexivity|first [by left|by right]|].

Lemma ends_nodes fuel key nodes :
  (2 + 4 * length nodes ≤ fuel)%nat →
  ends (Installed (Ret (nodes_result (H0 := home) t key nodes))) (run_alone fuel t (InstallDial c key nodes) (t_path t)).
Proof.
  revert fuel. induction nodes as [|n rest IH]; intros fuel Hf; cbn [length] in Hf.
  - do 2 (destruct fuel as [|fuel]; [lia|]). step. apply ends_back.
  - do 5 (destruct fuel as [|fuel]; [lia|]). cbn [nodes_result]. cbn [home ssh_dial ssh_upload ssh_exec].
    step. destruct (ssh_dial n); [apply ends_back|].
    step. destruct (ssh_upload n "./install.sh"); [apply ends_back|].
    step. destruct (ssh_upload n (tar_file t)); [apply ends_back|].
    step. change (node_cmd home t key n) with (node_cmd (machine_at (t_path t)) t key n).
    destruct (waited (ssh_exec n _)); [apply ends_back|]. apply IH. lia.
Qed.

(** C20: a task that runs alone does in small steps what [compile] and
    [install] do at once: it comes to its end, with the same result, every command
    and every file it uses is that of its own directory, and the process is back
    where it was. *)
Theorem alone_is_run_task :
  ∃ q, ends q (run_alone (10 + 4 * length (t_nodes t)) t CompileGetwd c) ∧
    match q with
    | NotCompiled e => ∀ s, (compile (H0 := home) t s).1 = Ret (Some e)
    | Installed r => (∀ s, (compile (H0 := home) t s).1 = Ret None) ∧ (∀ s, (install (H0 := home) t s).1 = r)
    | _ => False
    end.
Proof.
  assert (Hfin : ∀ fuel p q, thread_step t p c = None → q = p → ends q (run_alone fuel t p c)).
  { intros fuel p q Hs ->. exists []. split; [|constructor]. destruct fuel; cbn [run_alone]; by rewrite Hs. }
  assert (Hc := compile_returns (H0 := home) t). unfold compile_result in Hc. cbn [home chdir run_command] in Hc.
  assert (Hi := install_returns (H0 := home) t). unfold install_result in Hi. cbn [home chdir run_command] in Hi.
  change (10 + ?n)%nat with (S (S (S (S (S (S (S (3 + n)))))))).
  destruct (chdir (t_path t)) as [e|] eqn:Ed.
  { eexists (NotCompiled _). split; [|exact Hc]. step. eapply ends_step; [cbn; by rewrite Ed|by left|]. by apply Hfin. }
  destruct (waited (run_command (build_cmd t))) as [e|] eqn:Eb.
  { eexists (NotCompiled _). split; [|exact Hc]. step. eapply ends_step; [cbn; by rewrite Ed, resolve_abs|by left|].
    step. rewrite Eb. step. rewrite change_home. by apply Hfin. }
  eexists (Installed _). split; [|split; [exact Hc|exact Hi]].
  step. eapply ends_step; [cbn; by rewrite Ed, resolve_abs|by left|]. step. rewrite Eb. step. rewrite change_home.
  step. eapply ends_step; [cbn; by rewrite Ed, resolve_abs|by left|]. step.
  destruct (waited (run_command (tar_cmd t))); [apply ends_back|].
  pose proof (slice_from_no_throw (t_Source t) 7) as Hn.
  destruct (slice_from (t_Source t) 7) as [key|e|p]; [|by destruct (Hn e)|apply ends_back].
  apply ends_nodes. lia.
Qed.
End alone.

(** ** Tasks together *)

Section together.
Context `{Machines}.

Lemma process_go i t p p' cwd' used s s2 :
  pr_tasks s !! i = Some (t, p) → thread_step t p (pr_cwd s) = Some (p', cwd', used) →
  rtc process_step (mkProcess cwd' (<[i := (t, p')]> (pr_tasks s))
    (pr_used s ++ match used with Some x => [(t_dID t, (pr_cwd s, x))] | None => [] end)%list) s2 →
  rtc process_step s s2.
Proof. intros Hi Hs. apply rtc_l. by apply (step_task i t p). Qed.

(** C21: two deployments at once: the second may begin when the first has
    changed the directory; then the first runs its build script in the directory
    of the second, the second runs its own where the process was started, and
    when both compilations are over the process stays in the directory of the
    first. *)
Theorem tasks_cross_directories t1 t2 c :
  HasPrefix (t_path t1) "/" = true → HasPrefix (t_path t2) "/" = true → HasPrefix c "/" = true →
  (∀ d path, chdir (Machine := machine_at d) path = None) →
  ∃ s, rtc process_step (begin c [t1; t2]) s ∧
    pr_used s = [(t_dID t1, (t_path t2, build_cmd t1)); (t_dID t2, (c, build_cmd t2))] ∧
    pr_cwd s = t_path t1 ∧
    Forall (λ tp, snd tp = InstallGetwd ∨ ∃ e, snd tp = NotCompiled e) (pr_tasks s).
Proof.
  intros H1 H2 Hc Hok.
  assert (Hres : ∀ d path, HasPrefix path "/" = true → resolve d path = path).
  { intros d path Hp. unfold resolve. by rewrite Hp. }
  assert (Hchdir : ∀ t old d, HasPrefix (t_path t) "/" = true →
    thread_step t (CompileChdir old) d = Some (CompileBuild old, t_path t, None)).
  { intros t old d Hp. simpl. by rewrite Hok, Hres. }
  assert (Hback : ∀ t old d r, HasPrefix old "/" = true → thread_step t (CompileBack old r) d =
    Some (match r with Some e => NotCompiled e | None => InstallGetwd end, old, None)).
  { intros t old d r Hp. simpl. unfold change_back. by rewrite Hok, Hres. }
  eexists. split.
  - eapply (process_go 0); [reflexivity..|]. eapply (process_go 0); [reflexivity|by apply Hchdir|].
    eapply (process_go 1); [reflexivity..|]. eapply (process_go 1); [reflexivity|by apply Hchdir|].
    eapply (process_go 0); [reflexivity..|]. eapply (process_go 0); [reflexivity|by apply Hback|].
    eapply (process_go 1); [reflexivity..|]. eapply (process_go 1); [reflexivity|by apply Hback|].
    apply rtc_refl.
  - split; [reflexivity|]. split; [reflexivity|].
    cbn [pr_tasks begin insert list_insert fmap list_fmap].
    assert (Hd : ∀ r : option goerror, match r with Some e => NotCompiled e | None => InstallGetwd end = InstallGetwd ∨
      ∃ e, match r with Some e => NotCompiled e | None => InstallGetwd end = NotCompiled e).
    { intros [e|]; [right; by eexists|by left]. }
    constructor; [apply Hd|]. constructor; [apply Hd|constructor].
Qed.
End together.

(** ** Runs *)

Module Tasks.
Import Scripted.

#[local] Instance machines : Machines := λ d, {|
  chdir _ := None; run_command cmd := Ran 7 [d] None; ssh_dial _ := None; ssh_upload _ _ := None;
  ssh_exec _ _ := Ran 0 [] None; pid_of _ _ := 12; etcd_hosts := "10.0.0.1:2379"
|}.

Definition shop : task := mkTask "/build/1" "shop" "git://x/shop" "key1" ["10.0.0.2"] 33.
Definition pay : task := mkTask "/build/2" "pay" "git://x/pay" "key2" [] 34.

Theorem alone_is_run_task_witness :
  ∃ l, run_alone 14 shop CompileGetwd "/" = Some (Installed (Ret None), "/", l) ∧
    Forall (λ x, fst x = "/build/1") l ∧ ∀ s, (install (H0 := home shop "/") shop s).1 = Ret None.
Proof.
  destruct (alone_is_run_task shop "/") as (q & (l & Hr & Hl) & Hq); [reflexivity..|].
  vm_compute in Hr. injection Hr as <- <-. eexists. split; [vm_compute; reflexivity|]. split; [exact Hl|].
  intros s. apply (proj2 Hq).
Defined.

Theorem tasks_cross_directories_witness :
  ∃ s, rtc process_step (begin "/" [shop; pay]) s ∧
    (33, ("/build/2", "./build.sh git://x/shop key1 shop")) ∈ pr_used s ∧ pr_cwd s = "/build/1".
Proof.
  destruct (tasks_cross_directories shop pay "/") as (s & Hs & Hu & Hc & _); [reflexivity..|done|].
  exists s. split; [exact Hs|]. split; [|exact Hc]. rewrite Hu. apply list_elem_of_here.
Defined.
End Tasks.
