(* ===== verification/Registration.v ===== *)
(** * Registration: interfaces from the distributor to the manager

    What the manager does with the registrations the distributor sends: the
    variables it stores for the fields of an interface, and the service it
    stores the interface under. *)

From Stdlib Require Import ZArith Lia Ascii.
From stdpp Require Import base gmap strings list sorting.
From S2P Require Import Prelude GoStrings Crypto Http Json Fmt NetUrl SqlDB Cache Orm RbacDb RbacService.
From S2P Require Import Wire RbacClient ManagerDb Registry Manager Document DocumentTheory ManagerInterfaces ManagerSandbox Watcher.

(** ** The variables of an interface *)

(** The fields of a map with their levels and the types they are parts of, a
    field before its children. *)
Fixpoint preorder_field (f : Field) (level : Z) (parent : string) : list (Z * string * Field) :=
  (level, parent, f) ::
  match f with
  | mkDocField _ type _ _ (Some child) =>
      (fix loop (l : list (string * Field)) :=
        match l with
        | [] => []
        | kv :: rest => (preorder_field (snd kv) (wrap64 (level + 1)) type ++ loop rest)%list
        end) child
  | mkDocField _ _ _ _ None => []
  end.

Fixpoint preorder (level : Z) (parent : string) (l : list (string * Field)) : list (Z * string * Field) :=
  match l with
  | [] => []
  | kv :: rest => (preorder_field (snd kv) level parent ++ preorder level parent rest)%list
  end.

Section variables.
Context `{SqlEngine}.
Variables id postion : Z.

Definition variable_event (x : Z * string * Field) : event :=
  let '(level, parent, f) := x in
  let '(sql, refs) := SQLInsert jsonVariable (variable_vals id postion level parent f) (NewStmt "variable") in
  EvExec sql refs.

(** The insertions one after the other, up to the first that fails. *)
Fixpoint insert_all (l : list (Z * string * Field)) : M World unit :=
  match l with
  | [] => mret tt
  | (level, parent, f) :: rest => _ ← insert_variable id postion level parent f; insert_all rest
  end.

Lemma insert_all_app a b w : insert_all (a ++ b) w = (_ ← insert_all a; insert_all b) w.
Proof.
  revert w. induction a as [|[[level parent] f] a IH]; intros w; [done|]. simpl.
  unfold mbind, M_bind. destruct (insert_variable _ _ _ _ _ w) as [[x|e|p] w']; [apply IH|done..].
Qed.

Lemma add_field_preorder f level parent w :
  add_field id postion f level parent w = insert_all (preorder_field f level parent) w.
Proof.
  revert level parent w. induction f as [n t r c|n t r c l IH] using Field_nested_ind; intros level parent w.
  - cbn [add_field preorder_field insert_all]. done.
  - cbn [add_field preorder_field insert_all]. unfold mbind at 1, M_bind at 1. unfold mbind at 2, M_bind at 2.
    destruct (insert_variable _ _ _ _ _ w) as [[x|e|p] w1]; [|done..]. clear w. revert w1.
    induction IH as [|[k f] l Hf IH IHl]; intros w1; [done|]. simpl in Hf. cbn [snd]. rewrite insert_all_app.
    unfold mbind, M_bind. rewrite Hf. destruct (insert_all _ w1) as [[y|e|p] w2]; [|done..]. apply IHl.
Qed.

Lemma insert_all_sent l w w' :
  insert_all l w = (Ret tt, w') → w_events w' = (w_events w ++ (variable_event <$> l))%list.
Proof.
  revert w. induction l as [|[[level parent] f] l IH]; intros w Hi; [injection Hi as <-; by rewrite app_nil_r|].
  simpl in Hi. unfold mbind, M_bind in Hi.
  destruct (insert_variable _ _ _ _ _ w) as [[x|e|p] w1] eqn:E; [|done..].
  rewrite (IH _ Hi). assert (w_events w1 = w_events w ++ [variable_event (level, parent, f)])%list as ->.
  - unfold insert_variable, Insert_vals in E. unfold variable_event.
    destruct (SQLInsert _ _ _) as [sql refs]. unfold mbind, M_bind in E.
    destruct (Exec sql refs w) as [[y|e|p] w2] eqn:Ex; [|done..]. injection E as <- <-.
    unfold Exec in Ex. destruct (db_exec sql refs (w_db w)) as [[?|?] ?]; [done|]. by injection Ex as <- <-.
  - by rewrite <-app_assoc.
Qed.

Lemma addVariable_runs level parent l w :
  addVariable level parent id postion l w = insert_all (preorder level parent l) w ∧
  ((addVariable level parent id postion l w).1 = Ret tt →
   w_events (addVariable level parent id postion l w).2 =
     (w_events w ++ (variable_event <$> preorder level parent l))%list).
Proof.
  assert (Ha : addVariable level parent id postion l w = insert_all (preorder level parent l) w).
  { revert w. induction l as [|[k f] l IH]; intros w; [done|]. cbn [addVariable preorder snd].
    rewrite insert_all_app. unfold mbind, M_bind. rewrite add_field_preorder.
    destruct (insert_all _ w) as [[y|e|p] w2]; [|done..]. apply IH. }
  split; [done|]. rewrite Ha. intros Hr. apply insert_all_sent.
  destruct (insert_all _ w) as [o w']. simpl in *. by rewrite Hr.
Qed.

(** [addVariable] comes to an end for every map of fields, however deep, and
    stores its fields in preorder: each field once, with its depth and the type
    of the field it is part of, before the fields of its own type; the first
    insertion that fails ends it. When it succeeds, these insertions are all it
    sent to the database. *)
Theorem addVariable_preorder level parent l w :
  addVariable level parent id postion l w = insert_all (preorder level parent l) w ∧
  ((addVariable level parent id postion l w).1 = Ret tt →
   w_events (addVariable level parent id postion l w).2 =
     (w_events w ++ (variable_event <$> preorder level parent l))%list).
Proof. apply addVariable_runs. Qed.
End variables.

(** ** The service of an interface *)

Section project.
Context `{SqlEngine} {N : Type} `{Transport N} `{ManagerNet N} `{ManagerEnv} `{EmailPattern}.
Context `{MapRangeLaws}.

Definition registration_vals (serviceID : Z) (r : registration) : list gval :=
  [VInt serviceID; VStr ""; VInt 1; VStr ""; VStr (reg_Name r); VInt (reg_Version r); VStr (reg_Path r);
   VInt (reg_Method r); VStr (reg_Backend r); VStr (reg_Comment r); VOther].

Lemma registration_member_store vs attr k x v i f old :
  find_field registration_fields k = Some i → i ≠ 10%nat → registration_fields !! i = Some f →
  vs !! i = Some old → store (f_kind f) x old = (v, None) →
  registration_member (vs, attr, None) (k, x) = (<[i := v]> vs, attr, None).
Proof.
  intros Hk Hi Hf Ho Hs. unfold registration_member, store_member. cbn [fst snd]. rewrite Hk, Hf, Ho, Hs.
  do 10 (destruct i as [|i]; [done|]). by destruct i.
Qed.

Lemma registration_member_attr vs attr x :
  registration_member (vs, attr, None) ("Attr", x) = let '(m, e) := decode_method x attr in (vs, m, e).
Proof. unfold registration_member. simpl. by destruct (decode_method x attr). Qed.

Lemma store_int k z old : (k = KInt ∨ k = KInt64) → int_fits k z = true → store k (JInt z) old = (VInt z, None).
Proof. intros Hk Hz. apply (store_own (VInt z) (mkField "" k "" "" "" "") old). by destruct Hk as [-> | ->]. Qed.

Lemma decode_registration_sent reg rq :
  printable (registration_json reg) → fields_ok (m_Request (reg_Attr reg)) → fields_ok (m_Response (reg_Attr reg)) →
  int_fits KInt64 (reg_Version reg) = true → int_fits KInt (reg_Method reg) = true →
  r_body rq = Ret (print (registration_json reg)) →
  ∃ attr, map_of_method attr = map_of_method (reg_Attr reg) ∧
          decode_registration rq = Ret (registration_vals 0 reg, attr).
Proof.
  intros Hp Hq Hs Hv Hm Hb. destruct (method_documentation_survives (reg_Attr reg)) as (attr & Hd & Ha); [done..|].
  exists attr. split; [done|]. unfold decode_registration. rewrite Hb. cbn [mbind outcome_bind].
  rewrite parse_json_print by done. unfold registration_json. cbn [foldl]. unfold registration_zero.
  rewrite (registration_member_store _ _ "Name" _ (VStr (reg_Name reg)) 4 (fld "Name" KString) (VStr "")) by done.
  change (registration_member ?a ("ProjectID", _)) with a.
  rewrite (registration_member_store _ _ "Version" _ (VInt (reg_Version reg)) 5 (fld "Version" KInt64) (VInt 0))
    by (done || by apply store_int; [right|]).
  rewrite (registration_member_store _ _ "Path" _ (VStr (reg_Path reg)) 6 (fld "Path" KString) (VStr "")) by done.
  rewrite (registration_member_store _ _ "Method" _ (VInt (reg_Method reg)) 7 (fld "Method" KInt) (VInt 0))
    by (done || by apply store_int; [left|]).
  rewrite (registration_member_store _ _ "Backend" _ (VStr (reg_Backend reg)) 8 (fld "Backend" KString) (VStr "")) by done.
  rewrite (registration_member_store _ _ "Comment" _ (VStr (reg_Comment reg)) 9 (fld "Comment" KString) (VStr "")) by done.
  rewrite registration_member_attr, Hd. done.
Qed.

(** C26: the project of a registration is lost on the way: whatever project a
    service's key leads to, the manager decodes the distributor's message to the
    interface it describes, with its documentation, but of the service 0, and
    looks that service up. *)
Theorem registration_loses_project reg rq (s : Mgr N) :
  printable (registration_json reg) → fields_ok (m_Request (reg_Attr reg)) → fields_ok (m_Response (reg_Attr reg)) →
  int_fits KInt64 (reg_Version reg) = true → int_fits KInt (reg_Method reg) = true →
  r_body rq = Ret (print (registration_json reg)) →
  ∃ attr, map_of_method attr = map_of_method (reg_Attr reg) ∧
    decode_registration rq = Ret (registration_vals 0 reg, attr) ∧
    interfaceRegister_POST rq s =
      (let? _ := on_db GetConnection catch e => fail StatusInternalServerError e in
       let? p := on_db (Stmt_QueryOne (T:=Service) (Where "id=0" (NewStmt "service")))
         catch e => fail StatusInternalServerError e in
       store_registration p (registration_vals 0 reg) attr) s.
Proof.
  intros Hp Hq Hs Hv Hm Hb. destruct (decode_registration_sent reg rq) as (attr & Ha & Hd); [done..|].
  exists attr. split_and!; [done..|]. unfold interfaceRegister_POST, try at 1, lift. by rewrite Hd.
Qed.
End project.

(** ** Runs *)

Module Registered.
Import Scripted Sandbox.

(** The document of [DocumentTheory], published by the project 17. *)
Definition published : registration := mkRegistration "user_POST" 17 3 "user" 1 "git/user" "log in" login.

Definition posted : Request :=
  mkRequest "POST" "/interface/register/" ∅ ∅ (Ret ∅) (Ret (print (registration_json published))).

Lemma login_ok : fields_ok (m_Request login) ∧ fields_ok (m_Response login).
Proof.
  split; [|done]. split; [by apply (bool_decide_eq_true_1 (NoDup _))|].
  constructor; [constructor|]. constructor; [|constructor]. simpl.
  constructor; [by apply (bool_decide_eq_true_1 (NoDup _))|]. by repeat constructor.
Qed.

Lemma published_printable : printable (registration_json published).
Proof. cbv -[itoa utf8]. repeat split; first [by eexists|vm_compute; reflexivity]. Qed.

Theorem registration_loses_project_witness :
  (∃ attr, decode_registration posted = Ret (registration_vals 0 published, attr) ∧
           map_of_method attr = map_of_method login) ∧
  omap statement (w_events (m_world (interfaceRegister_POST posted (Sandbox.state [] [] [])).2)) =
    [("select service.id, service.role_id, service.resource_id, service.cluster_id, service.name, service.user, service.validate, service.email, service.path, service.source, service.version, service.comment, service.ctime, service.mtime from service where id=0 limit 1", [])].
Proof.
  destruct login_ok as [Hq Hs].
  destruct (registration_loses_project published posted (Sandbox.state [] [] [])) as (attr & Ha & Hd & Hr);
    [exact published_printable|exact Hq|exact Hs|vm_compute; reflexivity..|reflexivity|].
  split; [exists attr; split; [exact Hd|exact Ha]|]. rewrite Hr. vm_compute. reflexivity.
Defined.

Definition empty_world : World := Scripted.world [] [].

Theorem addVariable_preorder_witness :
  w_events (addVariable 0 "" 5 4 (entries (m_Request login)) empty_world).2 =
    variable_event 5 4 <$>
      [(0, "", mkDocField "user" "string" true "who" None);
       (0, "", mkDocField "device" "Device" false "" (Some
          [("Name", mkDocField "name" "string" true "" None); ("Id", mkDocField "id" "int" false "" None)]));
       (1, "Device", mkDocField "name" "string" true "" None);
       (1, "Device", mkDocField "id" "int" false "" None)].
Proof.
  destruct (addVariable_preorder 5 4 0 "" (entries (m_Request login)) empty_world) as [_ He].
  rewrite He; [reflexivity|]. vm_compute. reflexivity.
Defined.
End Registered.
