(* ===== verification/DocumentFlow.v ===== *)
(** * DocumentFlow: from the types of a service to the variables of its interface

    The whole way of a document: a service makes it of its types ([Framework]) and
    publishes it, the distributor decodes it and sends it on ([Watcher]), the
    manager decodes it again and stores its fields ([ManagerInterfaces]). Every
    map is ranged over in an order of its own at every stop. *)

From Stdlib Require Import ZArith Lia Ascii.
From stdpp Require Import base gmap strings list sorting.
From S2P Require Import Prelude GoStrings Crypto Http Json Fmt NetUrl SqlDB Cache Orm RbacDb RbacService.
From S2P Require Import Wire RbacClient ManagerDb Registry Manager Document DocumentTheory ManagerInterfaces ManagerHandlers ManagerSandbox ManagerTheory Watcher.
From S2P Require Import Framework FrameworkTheory Registration.

#[local] Open Scope list_scope.

(** ** Documents of one meaning have the same fields *)

(** What is stored of a field. *)
Definition row (x : Z * string * Field) : Z * string * string * string * bool * string :=
  let '(level, parent, f) := x in (level, parent, Field_Name f, Field_Type f, Field_Required f, Field_Comment f).

Lemma variable_event_row id postion x y : row x = row y → variable_event id postion x = variable_event id postion y.
Proof.
  destruct x as [[lx px] fx], y as [[ly py] fy]. unfold row. intros [= -> -> Hn Ht Hr Hc].
  unfold variable_event, variable_vals. by rewrite Hn, Ht, Hr, Hc.
Qed.

Lemma preorder_bind level parent l : preorder level parent l = l ≫= (λ kv, preorder_field (snd kv) level parent).
Proof. induction l as [|kv l IH]; [done|]. cbn [preorder]. by rewrite IH. Qed.

Lemma preorder_field_unfold f level parent :
  preorder_field f level parent =
    (level, parent, f) :: preorder (wrap64 (level + 1)) (Field_Type f) (default [] (Field_Child f)).
Proof.
  destruct f as [n t r c [l|]]; [|done]. cbn [preorder_field Field_Type Field_Child default from_option Datatypes.id].
  f_equal. induction l as [|kv l IH]; [done|]. cbn [preorder]. by rewrite <-IH.
Qed.

Lemma preorder_perm level parent l l' : l ≡ₚ l' → preorder level parent l ≡ₚ preorder level parent l'.
Proof. intros Hp. rewrite !preorder_bind. by rewrite Hp. Qed.

Definition same_fields (l l' : list (string * Field)) : Prop :=
  ∀ level parent, row <$> preorder level parent l ≡ₚ row <$> preorder level parent l'.

Lemma maps_same_fields l l' :
  Forall (λ kv, ∀ g, field_ok g → map_of_field (snd kv) = map_of_field g →
    ∀ level parent, row <$> preorder_field (snd kv) level parent ≡ₚ row <$> preorder_field g level parent) l →
  fields_ok (Some l) → fields_ok (Some l') →
  list_to_map (M := gmap string field_map) (map_entry <$> l) = list_to_map (map_entry <$> l') → same_fields l l'.
Proof.
  intros IH [Hu _] [Hu' Hf'] Hm level parent.
  assert (Hkeys : ∀ l : list (string * Field), (map_entry <$> l).*1 = l.*1) by (intros; by rewrite <-list_fmap_compose).
  apply list_to_map_inj in Hm; [|by rewrite Hkeys..].
  apply Permutation_map_inv in Hm as (l3 & He & Hp).
  rewrite (preorder_perm level parent l' l3 Hp). rewrite Hp in Hf'. clear Hu Hu' Hp l' Hkeys.
  revert l3 He Hf'. induction IH as [|[k f] l Hf IH IHl]; intros [|[k' g] l3] He Hf'; try done.
  apply Forall_cons_iff in Hf' as [Hg Hf']. cbn in He. injection He as -> Hfg He. cbn [preorder snd].
  rewrite !fmap_app. f_equiv; [by apply Hf|by apply IHl].
Qed.

Lemma field_same_fields f g :
  field_ok f → field_ok g → map_of_field f = map_of_field g →
  ∀ level parent, row <$> preorder_field f level parent ≡ₚ row <$> preorder_field g level parent.
Proof.
  revert g. induction f as [n t r c|n t r c l IH] using Field_nested_ind;
    intros [n' t' r' c' [l'|]] Hf Hg Hm level parent; simpl in Hm; try discriminate Hm; injection Hm as -> -> -> ->.
  - done.
  - rewrite !preorder_field_unfold. cbn [Field_Type Field_Child default from_option Datatypes.id].
    rewrite !fmap_cons. cbn [row Field_Name Field_Type Field_Required Field_Comment]. f_equiv.
    inversion Hf as [|? ? ? ? ? Hu Hall]; subst. inversion Hg as [|? ? ? ? ? Hu' Hall']; subst.
    apply maps_same_fields; [|by split|by split|done].
    rewrite list.Forall_forall in IH, Hall |- *. intros kv Hin g Hgo He. by apply IH, He; [|apply Hall|].
Qed.

(** Two maps of fields that mean the same. *)
Lemma meaning_same_fields q q' :
  fields_ok q → fields_ok q' → map_of_fields q = map_of_fields q' → same_fields (entries q) (entries q').
Proof.
  intros Hq Hq'. destruct q as [l|], q' as [l'|]; intros Hm; try discriminate Hm; [|by intros level parent].
  apply maps_same_fields; [|done|done|injection Hm as Hm; exact Hm].
  apply list.Forall_forall. intros kv Hin g Hg He. apply field_same_fields; [|exact Hg|exact He].
  destruct Hq as [_ Hq]. rewrite list.Forall_forall in Hq. by apply Hq.
Qed.

(** ** From the service to the tables *)

Section flow.
Context `{SqlEngine} `{MapRangeLaws}.

Lemma decode_registration_ok rq v attr : decode_registration rq = Ret (v, attr) → method_ok attr.
Proof.
  unfold decode_registration. destruct (r_body rq) as [text|e|p]; cbn [mbind outcome_bind]; [|done..].
  assert (Hz : method_ok (mkMethod "" None None)) by done.
  destruct (parse_json text) as [e|[| | | | |ms]]; try done; [by intros [= _ <-]|].
  assert (Hm : method_ok (foldl registration_member (registration_zero, mkMethod "" None None, None) ms).1.2).
  { revert Hz. generalize registration_zero, (mkMethod "" None None), (@None goerror).
    induction ms as [|[k x] ms IH]; intros vs m e Hm; [done|]. cbn [foldl].
    destruct (registration_member (vs, m, e) (k, x)) as [[vs' m'] e'] eqn:E. apply IH.
    unfold registration_member in E. cbn [fst snd] in E. pose proof (decode_method_ok x m Hm) as Hd.
    destruct (decode_method x m) as [m1 e1]. destruct (store_member _ _ _) as [vs1 e2].
    destruct (find_field registration_fields k) as [i|]; [|by injection E as _ <- _].
    do 11 (destruct i as [|i]; [by injection E as _ <- _|]). by injection E as _ <- _. }
  destruct (foldl registration_member _ ms) as [[vs m] [e|]]; [done|]. by intros [= _ <-].
Qed.

(** The map means what a map of the service's fields says. *)
Definition says (q : option (list (string * Field))) (fm : list (string * field)) : Prop :=
  fields_ok q ∧ map_of_fields q = map_of_fields (Some (to_documents fm)).

Lemma to_document_ok f : keys_ok f → field_ok (to_document f).
Proof.
  induction f as [n t r c a|n t r l c a IH] using field_nested_ind; intros Hk; [constructor|].
  inversion Hk as [|? ? ? ? ? ? Hu Hall]; subst. destruct l as [|kv l]; [constructor|]. set (l0 := kv :: l) in *.
  change (to_document (mkField n t r (Some l0) c a)) with (mkDocField n t r c (Some (to_documents l0))).
  constructor; [unfold unique_keys, to_documents; by rewrite <-list_fmap_compose|].
  unfold to_documents. apply Forall_fmap. rewrite list.Forall_forall in IH, Hall |- *. intros x Hx. by apply IH, Hall.
Qed.

Lemma to_documents_ok fm : map_ok fm → fields_ok (Some (to_documents fm)).
Proof.
  intros [Hu Hall]. unfold to_documents. split; [unfold unique_keys; by rewrite <-list_fmap_compose|].
  apply Forall_fmap. eapply list.Forall_impl; [exact Hall|]. intros kv. apply to_document_ok.
Qed.

Lemma stored_fields q fm id postion w :
  says q fm → map_ok fm → (addVariable 0 "" id postion (entries q) w).1 = Ret tt →
  ∃ evs, w_events (addVariable 0 "" id postion (entries q) w).2 = w_events w ++ evs ∧
    evs ≡ₚ variable_event id postion <$> preorder 0 "" (to_documents fm).
Proof.
  intros [Hq Hm] Hok Hr. destruct (addVariable_runs id postion 0 "" (entries q) w) as [_ Hev].
  eexists. split; [by apply Hev|].
  pose proof (meaning_same_fields q (Some (to_documents fm)) Hq (to_documents_ok fm Hok) Hm 0 "") as Hp.
  apply Permutation_map_inv in Hp as (l3 & He & ->).
  assert (Heq : variable_event id postion <$> preorder 0 "" (entries q) = variable_event id postion <$> l3); [|by rewrite Heq].
  revert l3 He. generalize (preorder 0 "" (entries q)). intros l. induction l as [|x l IH]; intros [|y l3] He; try done.
  injection He as Hxy He. rewrite !fmap_cons. f_equal; [by apply variable_event_row|by apply IH].
Qed.

(** Insertions end, with an error only when the database refuses one. *)
Lemma insert_all_outcome id postion l w :
  match insert_all id postion l w with
  | (Ret _, _) => True
  | (Throw e, w') => ∃ sql refs w3, Exec sql refs w3 = (Throw e, w')
  | (Panic _, _) => False
  end.
Proof.
  revert w. induction l as [|[[level parent] f] l IH]; intros w; [done|]. cbn [insert_all].
  unfold mbind, M_bind, insert_variable, Insert_vals. destruct (SQLInsert _ _ _) as [sql refs]. unfold mbind, M_bind.
  destruct (Exec sql refs w) as [[x|e|p] w1] eqn:E; [apply IH|by exists sql, refs, w|].
  unfold Exec in E. by destruct (db_exec sql refs (w_db w)) as [[?|?] ?].
Qed.
End flow.

Section register.
Context `{SqlEngine} {N : Type} `{Transport N} `{ManagerNet N} `{ManagerEnv} `{EmailPattern}.
Context `{MapRangeLaws}.

(** C15: what a service declares is what the manager stores: when the manager
    handles what the distributor sends for a method of a service, has looked up the
    service (which it does under the identifier 0: [registration_loses_project])
    and stored the interface, it inserts exactly the variables of the method's
    request fields and then those of its response fields, at every depth: one row
    for each under the identifier of the interface, marked as of the request or of
    the response, with its name, type, level, the type it is part of, whether it is
    required and its comment, whatever the order in which the maps are ranged over
    at each of the four stops; then it replies with that identifier. Nothing keeps
    it from that but an insert the database refuses, whose error it replies. *)
Theorem documented_fields_stored m reg rq (s : Mgr N) w0 p w1 id w2 :
  map_ok (md_Request m) → map_ok (md_Response m) →
  decode_method (encode_smethod m) (mkMethod "" None None) = (reg_Attr reg, None) →
  printable (registration_json reg) → int_fits KInt64 (reg_Version reg) = true → int_fits KInt (reg_Method reg) = true →
  r_body rq = Ret (print (registration_json reg)) →
  GetConnection (m_world s) = (Ret tt, w0) →
  Stmt_QueryOne (T:=ManagerDb.Service) (Where "id=0" (NewStmt "service")) w0 = (Ret p, w1) →
  store_interface (owned_by p (registration_vals 0 reg)) w1 = (Ret id, w2) →
  (interfaceRegister_POST rq s).1 = Ret tt ∧
  ((∃ requests responses,
      trace_of (interfaceRegister_POST rq s).2 =
        w_events w2 ++ requests ++ responses ++ [EvReply (SendResponseData (PVal (VInt id)))] ∧
      requests ≡ₚ variable_event id postionRequestJSON <$> preorder 0 "" (to_documents (md_Request m)) ∧
      responses ≡ₚ variable_event id postionResponseJSON <$> preorder 0 "" (to_documents (md_Response m))) ∨
   ∃ sql refs w3 e w4, Exec sql refs w3 = (Throw e, w4) ∧
      trace_of (interfaceRegister_POST rq s).2 = w_events w4 ++ [EvReply (SendResponse StatusInternalServerError (Error e))]).
Proof.
  intros Hq Hs Hd Hp Hv Hi Hb Hc Hqp Hst.
  destruct (method_arrives m Hq Hs) as (a0 & Ha0 & Hmean). rewrite Hd in Ha0. injection Ha0 as <-.
  assert (Hok0 : method_ok (reg_Attr reg)).
  { change (reg_Attr reg) with (fst (reg_Attr reg, @None goerror)). rewrite <-Hd. by apply decode_method_ok. }
  destruct (decode_registration_sent reg rq) as (attr & Ha & Hdec); [done|apply Hok0|apply Hok0|done..|].
  assert (Hok : method_ok attr) by by eapply decode_registration_ok.
  rewrite Hmean in Ha. injection Ha as _ Hreq Hresp.
  set (s0 := mkMgr w0 (m_net s) (m_session s) (m_users s) (m_recv s) (m_now s)).
  set (s1 := mkMgr w1 (m_net s) (m_session s) (m_users s) (m_recv s) (m_now s)).
  set (s2 := mkMgr w2 (m_net s) (m_session s) (m_users s) (m_recv s) (m_now s)).
  assert (Hrun : interfaceRegister_POST rq s =
    (let? _ := on_db (addVariable 0 "" id postionRequestJSON (entries (m_Request attr)))
       catch e => fail StatusInternalServerError e in
     let? _ := on_db (addVariable 0 "" id postionResponseJSON (entries (m_Response attr)))
       catch e => fail StatusInternalServerError e in
     respond (SendResponseData (PVal (VInt id)))) s2).
  { unfold interfaceRegister_POST. assert (Hl : lift (decode_registration rq) s = (Ret (registration_vals 0 reg, attr), s))
      by (unfold lift; by rewrite Hdec).
    rewrite (try_ret _ _ _ _ _ _ Hl). rewrite (try_ret _ _ _ _ _ _ (on_db_run _ _ _ _ Hc)).
    change (itoa (nth_int (registration_vals 0 reg) 0)) with "0".
    rewrite (try_ret _ _ _ _ _ _ (on_db_run _ s0 _ _ Hqp)). unfold store_registration.
    by rewrite (try_ret _ _ _ _ _ _ (on_db_run _ s1 _ _ Hst)). }
  rewrite Hrun. clear Hrun. unfold try, on_db. change (m_world s2) with w2.
  pose proof (stored_fields (m_Request attr) (md_Request m) id postionRequestJSON w2) as Hrows.
  pose proof (insert_all_outcome id postionRequestJSON (preorder 0 "" (entries (m_Request attr))) w2) as Ho.
  rewrite <-(proj1 (addVariable_runs _ _ _ _ _ _)) in Ho.
  destruct (addVariable 0 "" id postionRequestJSON (entries (m_Request attr)) w2) as [[[]|e|x] w3]; [|split; [done|]|done].
  2: { right. destruct Ho as (sql & refs & w5 & He). by exists sql, refs, w5, e, w3. }
  destruct Hrows as (requests & Er & Hr); [split; [apply Hok|done]|done|done|]. cbn [snd] in Er. cbn [m_world].
  pose proof (stored_fields (m_Response attr) (md_Response m) id postionResponseJSON w3) as Hrows.
  pose proof (insert_all_outcome id postionResponseJSON (preorder 0 "" (entries (m_Response attr))) w3) as Ho'.
  rewrite <-(proj1 (addVariable_runs _ _ _ _ _ _)) in Ho'.
  destruct (addVariable 0 "" id postionResponseJSON (entries (m_Response attr)) w3) as [[[]|e|x] w4]; [|split; [done|]|done].
  2: { right. destruct Ho' as (sql & refs & w5 & He). by exists sql, refs, w5, e, w4. }
  destruct Hrows as (responses & Es & Hs'); [split; [apply Hok|done]|done|done|]. cbn [snd] in Es.
  split; [done|]. left. exists requests, responses. split; [|done].
  unfold trace_of, Mgr_traced. simpl. by rewrite Es, Er, <-!app_assoc.
Qed.
End register.

(** ** Runs *)

Module Flow.
Import Scripted Hello.

#[local] Existing Instance in_order.
#[local] Existing Instance in_order_laws.

(** The method of the service of [FrameworkTheory], as the distributor registers
    it. *)
Definition sent : registration :=
  mkRegistration "User_POST" 17 3 "User" 1 "git/user" "adds a user"
    (fst (decode_method (encode_smethod documented) (mkMethod "" None None))).

Definition arriving : Request :=
  mkRequest "POST" "/interface/register/" ∅ ∅ (Ret ∅) (Ret (print (registration_json sent))).

Lemma documented_maps : map_ok (md_Request documented) ∧ map_ok (md_Response documented).
Proof.
  rewrite documented_post. split; (split; [by apply (bool_decide_eq_true_1 (NoDup _))|]).
  - constructor; [constructor|]. constructor; [|constructor]. simpl.
    constructor; [by apply (bool_decide_eq_true_1 (NoDup _))|repeat constructor].
  - repeat constructor.
Qed.

Lemma sent_printable : printable (registration_json sent).
Proof. unfold sent. rewrite documented_post. cbv -[itoa utf8]. repeat split; first [by eexists|vm_compute; reflexivity]. Qed.

(** A manager whose database has a service 0 and takes every row. *)
Definition service_row : list gval :=
  [VInt 0; VInt 1; VInt 2; VInt 3; VStr "users"; VStr "u"; VBool false; VStr "u@v"; VStr "git"; VStr "src"; VInt 1;
   VStr "c"; VStr "now"; VStr "now"].
Definition tables : Mgr Sandbox.net :=
  Sandbox.state [inr [service_row]] [inr (5, 1); inr (6, 1); inr (7, 1); inr (8, 1); inr (9, 1); inr (10, 1); inr (11, 1)] [].
Definition connected_ : World := (GetConnection (m_world tables)).2.
Definition found_ : outcome ManagerDb.Service * World := Stmt_QueryOne (T:=ManagerDb.Service) (Where "id=0" (NewStmt "service")) connected_.
Definition found_service : ManagerDb.Service := match found_.1 with Ret p => p | _ => ManagerDb.mkService 0 0 0 0 "" "" false "" "" "" 0 "" "" "" end.
Definition stored_ : outcome Z * World := store_interface (owned_by found_service (registration_vals 0 sent)) found_.2.

Theorem documented_fields_stored_witness :
  ∃ requests responses,
    trace_of (interfaceRegister_POST arriving tables).2 =
      w_events stored_.2 ++ requests ++ responses ++ [EvReply (SendResponseData (PVal (VInt 5)))] ∧
    length requests = 4%nat ∧ length responses = 2%nat.
Proof.
  destruct documented_maps as [Hq Hs].
  destruct (documented_fields_stored documented sent arriving tables connected_ found_service found_.2 5 stored_.2)
    as [_ [(requests & responses & Ht & Hr & Hp)|(sql & refs & w3 & e & w4 & _ & Ht)]];
    [exact Hq|exact Hs|vm_compute; reflexivity|exact sent_printable|vm_compute; reflexivity..|reflexivity
    |vm_compute; reflexivity|vm_compute; reflexivity|vm_compute; reflexivity| |].
  - exists requests, responses. split; [exact Ht|].
    apply Permutation_length in Hr, Hp. rewrite Hr, Hp, documented_post. vm_compute. by split.
  - apply (f_equal list.last) in Ht. rewrite list.last_snoc in Ht. vm_compute in Ht. discriminate.
Defined.
End Flow.
