(* ===== verification/Composition.v ===== *)
(** * Composition: the manager with the rbac service and the repeater

    What the manager's handlers achieve together with the processes they work
    with: a service is added with the resource and the role the rbac service
    made for it, and an application with a token the repeater accepts. *)

From Stdlib Require Import ZArith Lia Ascii.
From stdpp Require Import base gmap strings list.
From S2P Require Import Prelude GoStrings Crypto Http Json Fmt NetUrl SqlDB Cache Orm RbacDb RbacService RbacHandlers.
From S2P Require Import DbCache RbacTheory Wire RbacClient RbacClientTheory ManagerDb Registry Manager Document.
From S2P Require Import ManagerInterfaces ManagerHandlers ManagerSandbox ManagerTheory.

(** ** Traces of several writes *)

Section writes.
Context `{SqlEngine} {N : Type}.

Lemma writes_trans P (s s1 s2 : Mgr N) : writes_under P s s1 → writes_under P s1 s2 → writes_under P s s2.
Proof.
  intros (e1 & E1 & F1) (e2 & E2 & F2). exists (e1 ++ e2)%list. rewrite E2, E1, app_assoc. split; [done|].
  by apply Forall_app.
Qed.

(** A step that may write, its error answered. *)
Lemma writes_seq {A} P (m : M (Mgr N) A) (h : goerror → M (Mgr N) unit) (k : A → M (Mgr N) unit) s :
  writes_under P s (m s).2 →
  (∀ e s', m s = (Throw e, s') → writes_under P s' (h e s').2) →
  (∀ a s', m s = (Ret a, s') → writes_under P s' (k a s').2) →
  writes_under P s (try m h k s).2.
Proof.
  intros Hm Hh Hk. unfold try. destruct (m s) as [[a|e|p] s1]; simpl in Hm; [..|done].
  - eapply writes_trans; [exact Hm|by apply Hk].
  - eapply writes_trans; [exact Hm|by apply Hh].
Qed.
End writes.

(** ** Applications and their tokens *)

Section applications.
Context `{SqlEngine} {N : Type} `{Transport N} `{ManagerNet N} `{ManagerEnv} `{EmailPattern}.
Context `{BlockCipherLaws} `{RepeaterEnv}.

Lemma getApp_of_make_token id token (dc : DC) :
  0 ≤ id ≤ max_int64 → make_token id = Ret token → DbCache.getApp token dc = getApplication id token dc.
Proof.
  intros Hid Hm. unfold make_token in Hm. destruct (decide (id < 2 ^ 55)) as [Hlt|Hge].
  - destruct (varint_roundtrip id) as (buf & n & Hp & Hb & Hv & Hn); [lia|].
    rewrite Hp in Hm. cbn [mbind outcome_bind] in Hm.
    destruct (aes_encrypt_total AesKey ltac:(by left) (bytes_of_ok _) buf Hb) as (t & Es & Ed).
    rewrite Es in Hm. injection Hm as <-.
    unfold DbCache.getApp, try, lift. rewrite Ed, Hv. by rewrite decide_False by lia.
  - rewrite varint_overflow in Hm by lia. done.
Qed.

(** The two statements that add the application a request describes. *)
Definition added_with_token (r : Request) (s : Mgr N) (ev : event) : Prop :=
  ∃ u s1 a s2,
    session_User r s = (Ret u, s1) ∧ decode_receiver "app" app r s1 = (Ret a, s2) ∧
    let row := owner_vals 2 1 u a in
    ev = EvExec (insert_sql "application" app row) [] ∨
    ∃ id token w, add "application" app row (m_world s2) = (Ret id, w) ∧
      ev = EvExec updateAppToken_sql [VStr token; VInt id] ∧
      (0 ≤ id ≤ max_int64 → ∀ dc : DC, DbCache.getApp token dc = getApplication id token dc).

Lemma app_POST_writes r (s : Mgr N) : writes_under (added_with_token r s) s (app_POST r s).2.
Proof.
  unfold app_POST, with_user.
  apply writes_under_try; [apply reads_session_User|intros; apply writes_respond|]. intros u s1 Hu.
  apply writes_under_try; [apply extends_decode_receiver|intros; apply writes_respond|]. intros a s2 Ha. cbv zeta.
  set (row := owner_vals 2 1 u a). unfold mbind at 1, M_bind at 1. unfold modify at 1.
  set (s3 := with_recv "app" row s2).
  apply (writes_trans _ s2 s3); [exists []; by rewrite app_nil_r|].
  apply writes_seq.
  - apply writes_under_extends, extends_on_db. unfold add. destruct (decide _); [apply extends_throw|].
    apply extends_bind; [apply extends_connect|intros]. apply extends_bind; [|intros; apply extends_ret].
    apply extends_exec. intros _. exists u, s1, a, s2. split_and!; [done..|by left].
  - intros e s4 _. unfold insert_failed. destruct (Contains _ _); apply writes_respond.
  - intros id s4 Hadd. apply writes_under_try; [apply extends_lift|intros; apply writes_respond|].
    intros token s5 Ht. unfold lift in Ht. injection Ht as Ht <-.
    apply writes_seq; [|intros; apply writes_respond|intros; apply writes_respond].
    apply writes_under_extends, extends_on_db. unfold updateAppToken, exec_with.
    apply extends_bind; [apply extends_connect|intros]. apply extends_bind; [|intros; apply extends_ret].
    apply extends_exec. intros _. exists u, s1, a, s2. split_and!; [done..|]. right.
    unfold on_db in Hadd. change (m_world s3) with (m_world s2) in Hadd. fold row.
    destruct (add "application" app row (m_world s2)) as [o w] eqn:Ea. injection Hadd as -> _.
    exists id, token, w. split_and!; [done..|]. intros Hid dc. by apply getApp_of_make_token.
Qed.

Lemma make_token_fits id : 0 ≤ id < 2 ^ 55 → ∃ token, make_token id = Ret token.
Proof.
  intros Hid. unfold make_token. destruct (varint_roundtrip id) as (buf & n & -> & Hb & _); [lia|].
  cbn [mbind outcome_bind].
  destruct (aes_encrypt_total AesKey ltac:(by left) (bytes_of_ok _) buf Hb) as (t & -> & _). by exists t.
Qed.

(** C6: adding an application writes nothing but the row of the caller's request
    and then the token of the identifier that row got, a token the repeater takes
    for that application and no other. Once the caller is identified, the request
    decoded and the row inserted under an identifier below 2^55, there is such a
    token, and its update is sent; when it succeeds, the two statements and the
    reply with the identifier are all that was done, and when it fails its error is
    the reply. *)
Theorem application_gets_its_token r (s : Mgr N) :
  writes_under (added_with_token r s) s (app_POST r s).2 ∧
  ∀ u s1 a s2 id w,
    session_User r s = (Ret u, s1) → decode_receiver "app" app r s1 = (Ret a, s2) →
    add "application" app (owner_vals 2 1 u a) (m_world s2) = (Ret id, w) → 0 ≤ id < 2 ^ 55 →
    ∃ token, make_token id = Ret token ∧ (∀ dc : DC, DbCache.getApp token dc = getApplication id token dc) ∧
      match updateAppToken id token w with
      | (Ret _, _) => trace_of (app_POST r s).2 =
          (trace_of s2 ++ [EvExec (insert_sql "application" app (owner_vals 2 1 u a)) [];
                           EvExec updateAppToken_sql [VStr token; VInt id];
                           EvReply (SendResponse 0 (id_text id))])%list
      | (Throw e, w') => trace_of (app_POST r s).2 =
          (w_events w' ++ [EvReply (SendResponse StatusInternalServerError (Error e))])%list
      | (Panic _, _) => False
      end.
Proof.
  split; [apply app_POST_writes|]. intros u s1 a s2 id w Hu Ha Hadd Hid.
  destruct (make_token_fits id Hid) as [token Ht]. exists token. split; [done|].
  split; [intros dc; apply getApp_of_make_token; [unfold max_int64; lia|done]|].
  set (s3 := with_recv "app" (owner_vals 2 1 u a) s2).
  set (s4 := mkMgr w (m_net s3) (m_session s3) (m_users s3) (m_recv s3) (m_now s3)).
  assert (Hrun : app_POST r s =
    (let? _ := on_db (updateAppToken id token) catch e => fail StatusInternalServerError e in
     respond (SendResponse 0 (id_text id))) s4).
  { unfold app_POST, with_user. rewrite (try_ret _ _ _ _ _ _ Hu), (try_ret _ _ _ _ _ _ Ha). cbv zeta.
    unfold mbind at 1, M_bind at 1. unfold modify at 1. cbv beta zeta.
    rewrite (try_ret _ _ _ _ _ _ (on_db_run _ s3 _ _ Hadd)). unfold try at 1. unfold lift at 1. by rewrite Ht. }
  rewrite Hrun. clear Hrun. unfold try, on_db. change (m_world s4) with w.
  destruct (updateAppToken id token w) as [[[]|e|p] w'] eqn:Eu.
  - unfold trace_of, Mgr_traced. simpl. rewrite (exec_with_sent _ _ _ _ Eu), (add_sent _ _ _ _ _ _ Hadd).
    by rewrite <-!app_assoc.
  - done.
  - by apply exec_with_no_panic in Eu.
Qed.
End applications.

(** ** Services and their rights *)

Section services.
Context `{SqlEngine} `{BlockCipher} `{EmailPattern} `{ManagerEnv} `{!ManagerNet World}.

(** The rbac service is the manager's network. *)
#[local] Instance rbac_net : Transport World := loopback rbac_serve.

Variable appID : Z.
Hypothesis rbac_reached : plain_host rbacClient.
Hypothesis rbac_known : token_app rbac_token = Ret appID.

(** The database makes 64-bit identifiers and explains its errors in UTF-8. *)
Hypothesis ids_fit : ∀ cr w id w1, service_create appID cr w = (Ret id, w1) → in_int64 id.
Hypothesis errors_utf8 : ∀ cr w e w1, service_create appID cr w = (Throw e, w1) → utf8 (Error e) = true.

Definition answered (id : Z) (w : World) : World := (reply_with (create_reply id) w).2.

(** What the client got is what the service made. *)
Lemma created cr w id w' :
  creation_ok cr → client_create rbacClient cr w = (Ret id, w') →
  ∃ w1, service_create appID (creation_read cr) w = (Ret id, w1) ∧ w' = answered id w1.
Proof.
  intros Hok Hc.
  pose proof (creation_exchanged rbacClient appID cr w rbac_reached rbac_known Hok (ids_fit _ w)) as He.
  unfold exchanged in He. destruct (service_create appID (creation_read cr) w) as [[a|e|p] w1] eqn:E; [| |done].
  - rewrite Hc in He. injection He as -> ->. by exists w1.
  - rewrite He in Hc by by eapply errors_utf8. done.
Qed.

Lemma on_net_ret {A} (m : M World A) (s s' : Mgr World) a :
  on_net m s = (Ret a, s') → m (m_net s) = (Ret a, m_net s').
Proof. unfold on_net. destruct (m (m_net s)) as [o n]. by intros [= -> <-]. Qed.

(** An insertion of the service a request describes, with the resource and the
    role made for it. *)
Definition stored_with_rights (r : Request) (s : Mgr World) (ev : event) : Prop :=
  ∃ u s1 v resID roleID linkID w1 w2 w3,
    session_User r s = (Ret u, s1) ∧ DecodeRequestValue true (fields Service) (zero_vals (fields Service)) r = Ret v ∧
    let v' := owner_vals 5 7 u v in
    service_create appID (CreateResource (nth_str v' 4) (nth_str v' 11)) (m_net s1) = (Ret resID, w1) ∧
    service_create appID (CreateRole (nth_str v' 4) default_role_comments (nth_str v' 5) (nth_str v' 7))
      (answered resID w1) = (Ret roleID, w2) ∧
    service_create appID (CreateRoleResource roleID resID) (answered roleID w2) = (Ret linkID, w3) ∧
    let stmt := SQLInsert (fields Service) (<[1%nat := VInt roleID]> (<[2%nat := VInt resID]> v')) (NewStmt "service") in
    ev = EvExec stmt.1 stmt.2.

(** C5: a service is stored with rights that exist: its row is inserted only
    after the rbac service has created a resource with the service's name and
    comment, a role of the service's owner and the link between the two, one
    after the other, and it carries the two identifiers the rbac tables gave. *)
Theorem service_stored_with_its_rights r (s : Mgr World) :
  writes_under (stored_with_rights r s) s (service_POST r s).2.
Proof.
  unfold service_POST, with_user.
  apply writes_under_try; [apply reads_session_User|intros; apply writes_respond|]. intros u s1 Hu.
  apply writes_under_try; [apply extends_lift|intros; apply writes_respond|]. intros v s1' Hv.
  unfold decode, lift in Hv. injection Hv as Hv <-. cbv zeta. set (v' := owner_vals 5 7 u v).
  apply writes_under_try; [apply extends_on_net|intros; apply writes_respond|]. intros resID s2 Hres.
  apply writes_under_try; [apply extends_on_net|intros; apply writes_respond|]. intros roleID s3 Hrole.
  apply writes_under_try; [apply extends_on_net|intros; apply writes_respond|]. intros linkID s4 Hlink.
  apply on_net_ret in Hres, Hrole, Hlink.
  destruct (created (CreateResource _ _) _ _ _ I Hres) as (w1 & C1 & E1). rewrite E1 in Hrole.
  destruct (created (CreateRole _ _ _ _) _ _ _ I Hrole) as (w2 & C2 & E2). rewrite E2 in Hlink.
  destruct (created (CreateRoleResource _ _) _ _ _ (conj (ids_fit _ _ _ _ C2) (ids_fit _ _ _ _ C1)) Hlink)
    as (w3 & C3 & _).
  unfold with_connection.
  apply writes_under_try; [apply extends_on_db, extends_connect|intros; apply writes_respond|]. intros [] s5 _.
  apply writes_under_extends. apply extends_try.
  - unfold Insert_vals. destruct (SQLInsert _ _ _) as [sql refs] eqn:E. apply extends_on_db.
    apply extends_bind; [|intros; apply extends_ret]. apply extends_exec. intros _.
    exists u, s1, v, resID, roleID, linkID, w1, w2, w3. cbv zeta. fold v'. rewrite E. by split_and!.
  - intros e. unfold insert_failed. destruct (Contains _ _); by apply extends_on_db, extends_reply.
  - intros id. by apply extends_on_db, extends_reply.
Qed.
End services.

(** ** Runs *)

Module Together.
Import XorCipher.

Module Tokens.
Import Scripted Sandbox.

#[local] Instance repeater_env : RepeaterEnv := {|
  cache_timeout := 60; format_minute _ := ""; show_statement q _ := q
|}.

Definition adding_app : Request := request "POST" "/application/" [("name", "shop")] "t1".
Definition before : Mgr net := Sandbox.state [inr []] [inr (5, 1); inr (0, 1)] [resources [7]; roles [3]].
Definition token5 : string := match make_token 5 with Ret t => t | _ => "" end.

Definition before1 : Mgr net := (session_User adding_app before).2.
Definition before2 : Mgr net := (decode_receiver "app" app adding_app before1).2.
Definition row : list gval := match (decode_receiver "app" app adding_app before1).1 with Ret a => owner_vals 2 1 alice a | _ => [] end.

Theorem application_gets_its_token_witness :
  trace_of (app_POST adding_app before).2 =
    (trace_of before2 ++ [EvExec (insert_sql "application" app row) []; EvExec updateAppToken_sql [VStr token5; VInt 5];
                          EvReply (SendResponse 0 (id_text 5))])%list ∧
  ∀ dc : DC, DbCache.getApp token5 dc = getApplication 5 token5 dc.
Proof.
  destruct (application_gets_its_token adding_app before) as [_ Hadd].
  destruct (Hadd alice before1 (match (decode_receiver "app" app adding_app before1).1 with Ret a => a | _ => [] end)
    before2 5 (add "application" app row (m_world before2)).2) as (token & Ht & Hget & Hrun);
    [vm_compute; reflexivity..|lia|].
  assert (token = token5) as -> by (unfold token5; by rewrite Ht). split; [|exact Hget].
  assert (Hu : (updateAppToken 5 token5 (add "application" app row (m_world before2)).2).1 = Ret tt)
    by (vm_compute; reflexivity).
  destruct (updateAppToken 5 token5 _) as [o w']. cbn [fst] in Hu. subst o. exact Hrun.
Defined.
End Tokens.

(** A database that gives the identifier 5 to every row. *)
Module Rights.
#[local] Instance steady : SqlEngine := {|
  db_state := list (goerror + list (list gval));
  db_connect s := (None, s);
  db_prepare _ s := (None, s);
  db_query _ _ s := let '(x, r) := Scripted.next (inr []) s in (x, r);
  db_exec _ _ s := (inr (5, 1), s)
|}.

#[local] Existing Instance Sandbox.emails.

Definition app7_token : string := match make_token 7 with Ret t => t | _ => "" end.

#[local] Instance env7 : ManagerEnv := {
  sso_key := "ticket"; sso_domain := "sso.local"; server_domain := "doodle.local";
  rbac_host := "http:rbac.local"; rbac_token := app7_token;
  url_string r := r_path r; remote_addr _ := "10.0.0.1:4000"; show_sso _ := "sso"
}.

#[local] Instance no_net : ManagerNet World := {
  http_get _ w := (Throw Sandbox.refused, w); etcd_list _ w := (Ret [], w);
  parse_backend _ := Ret tt; run_call _ _ _ _ w := (Ret "", w)
}.

Definition world (rows : list (goerror + list (list gval))) : World := mkWorld (rows : db_state) [].

Definition adding_service : Request := Sandbox.request "POST" "/service/" [("name", "shop"); ("comment", "sells")] "t1".

Definition role_rows : list (goerror + list (list gval)) :=
  [inr []; inr [[VInt 1; VInt 7; VInt 2; VInt 2; VStr "alice"; VStr "alice@local"; VInt 3; VStr "dev"; VStr "";
                 VStr ""; VStr ""]]; inr [[VInt 1]]].

Definition before : Mgr World :=
  mkMgr (world []) (world role_rows) [mkCacheEntry "t1" 90 Sandbox.alice] (mkUserDB [] [] [] []) ∅ 100.

#[local] Existing Instance rbac_net.

Lemma steady_creates cr w : ∃ w1, service_create 7 cr w = (Ret 5, w1).
Proof. destruct cr; eexists; reflexivity. Qed.

Lemma steady_ids cr w id w1 : service_create 7 cr w = (Ret id, w1) → in_int64 id.
Proof. destruct (steady_creates cr w) as [w2 ->]. intros [= <- _]. vm_compute. split; discriminate. Qed.

Lemma steady_errors cr w e w1 : service_create 7 cr w = (Throw e, w1) → utf8 (Error e) = true.
Proof. by destruct (steady_creates cr w) as [w2 ->]. Qed.

Theorem service_stored_with_its_rights_witness :
  Exists (λ e, executed e ≠ None ∧ stored_with_rights 7 adding_service before e)
    (w_events (m_world (service_POST adding_service before).2)).
Proof.
  set (s' := (service_POST adding_service before).2).
  assert (Hs : writes_under (stored_with_rights 7 adding_service before) before s').
  { apply (service_stored_with_its_rights 7); [reflexivity|vm_compute; reflexivity|exact steady_ids|exact steady_errors]. }
  destruct Hs as (evs & He & HF). change (trace_of before) with (@nil event) in He. rewrite app_nil_l in He.
  unfold trace_of, Mgr_traced in He.
  set (e := default (EvReply SendResponseOK) (w_events (m_world s') !! 1%nat)).
  assert (Hin : e ∈ w_events (m_world s')) by (apply (list_elem_of_lookup_2 _ 1); vm_compute; reflexivity).
  assert (Hx : executed e ≠ None) by (vm_compute; discriminate).
  apply list.Exists_exists. exists e. split; [exact Hin|]. split; [exact Hx|].
  rewrite list.Forall_forall in HF. apply HF; [|exact Hx]. rewrite <-He. exact Hin.
Defined.
End Rights.
End Together.
